(* ===== verification/_CoqProject ===== *)
-Q . S2P
Prelude.v
Flow.v
Double.v
BaseList.v
Queue.v
IntSet.v
PQueue.v
TimerMgr.v
Dict.v
Reassem.v
IP.v
Frag.v
NetUtil.v
Endpoint.v
TcpReassem.v
ContentLine.v
Codec.v
Conn.v
Udp.v
Sessions.v
Sdmbn.v
Tree.v
Pia.v
Events.v
Wire.v
Requests.v
TcpOptions.v
TcpState.v
TcpFacts.v
TcpLife.v
TcpMachine.v
TcpErrors.v
TcpLink.v
