(* ===== verification/Prelude.v ===== *)
(** OFM: moving the state of network connections between instances of Bro.

    The program is Bro 2.1 (src/bro-2.1/src), changed so that a controller can
    take the state of connections out of one instance and put it into another,
    with a library for the messages (src/shared) and a controller in Java.  This
    development models the core through which every packet and every move goes,
    bottom up.

    * Prelude: machine integers with their wrap-around, C arrays with cells that
      were never written, bit fields, and the lemmas and tactics on them.
    * Flow: a monad for the control flow of a member function (early return,
      failure) with its program logic ([triple], [keeps]).
    * Double: IEEE doubles for times (from Stdlib's SpecFloat), their order.
    * BaseList: List.cc, the growable array of pointers (Module BL).  The
      operations, sorting and sorted insertion included, refine those of lists.
    * Queue: Queue.cc, the ring of pointers (Module Q).  It refines lists with two
      ends, also when it wraps around, grows or is shortened.
    * IntSet: IntSet.cc, IntSet.h, a bitmap (Module IS).  It refines finite sets.
    * PQueue: PriorityQueue.cc, the binary heap of timed elements (Module PQ).
      It refines a bag; cancellation removes exactly the element.
    * TimerMgr: Timer.cc, PQ_TimerMgr (Module TM) on top of PQueue.  Advancing
      the time dispatches exactly the due timers, in order, also when dispatched
      timers start others, cancel queued ones and change the rest of the program.
    * Dict: Dict.cc, the hash table with incremental resizing, order and
      iteration cookies (Module D).  It refines a finite map; an iteration visits
      every entry; what goes wrong with robust cookies and Clear.
    * Reassem: Reassem.cc, the list of blocks of a stream (Module R), over any
      state with the class [HasReassembler].  New data fills exactly the gaps.
    * IP: IP.h / IP.cc, IPv4 and IPv6 headers and the chain of extension headers
      (Module IP).  The walk ends and stays inside the packet.
    * Frag: Frag.cc, fragments (Module F), an instance of Reassem.
    * NetUtil: net_util.cc, checksums, sequence numbers, address classes
      (Module NU).
    * Endpoint: TCP_Endpoint.cc, TCPStateStats of Stats.cc, the history of
      Conn.h (Module E).  Sequence numbers are followed exactly beyond 32 bits.
    * TcpReassem: TCP_Reassembler.cc, one direction of a connection (Module TR),
      an instance of Reassem.  What is delivered is the stream, while the data above
      a hole stays within the thresholds for giving up; soundness for any segments
      and acks; and the cases in which data is lost.
    * ContentLine: ContentLine.cc, which splits a stream into lines (Module CL).  The
      lines do not depend on how the stream is split, nor on a move in between;
      skipping ends too early.
    * Codec: SDMBN.h, SDMBNJson.c and the binary encoding of SDMBNCore.c, the keys
      of flows and the messages (Module CD).  Keys and binary data are read as they
      were sent.  Values of JSON are a class with the laws json-c documents.
    * Conn: Conn.cc, IPAddr.cc, connections, their keys, timers, roles and
      archives (Module C).  The analyzer is an interface ([Analyzer]).
    * Udp: UDP.cc, the analyzer of the UDP protocol (Module UD).  The sizes that the
      script is told are exact; contents are read beyond what was captured.
    * Sessions: Sessions.cc, the tables of connections and the path of a packet
      through fragments, tunnels and connections (Module NS), using IP, Frag,
      NetUtil and Conn.  Packets in tunnels end; the statistics of TCP states are
      exact; moved connections are frozen; removal is total.
    * Sdmbn: main.cc, SDMBNlocal.cc, requests of the controller (Module SB), using
      Sessions and Conn.  A request exports what its key selects; exporting and
      importing hands connections over; what the statistics and the locks lose.
    * Tree: Analyzer.cc, the tree of the analyzers of a connection and their support
      analyzers (Module AT).  Input reaches each live child once, whatever the
      children do to the tree meanwhile; an end reaches all, that of a moved tree
      only its root; what cannot be removed or found any more.
    * Pia: PIA.cc, the detection of protocols in that tree (Module PI), using Tree.
      An analyzer that is found sees the connection from its start, unless the
      connection has moved.
    * Events: event.c, filters that drop, buffer or report packets, their messages,
      and the state of the library that its threads share (Module EV), using Codec.
      Buffered packets are processed once and in order; when that never ends, and
      which packets a filter selects.
    * Wire: SDMBNConn.c and the loops of the threads that handle messages (Module W).
      Messages come through whole and in order however the stream is split; the end
      of a connection is not noticed.
    * Requests: state.c and SDMBNCore.c, the requests of the controller and the lock
      they wait for (Module RQ), using Events and Wire.  Every request is answered;
      a failed one blocks the next; thresholds end the waiting exactly when met.
    * TcpOptions: the three loops over the options of a TCP header in TCP.cc, and
      the probe of a passive fingerprint (Module TO).  They end inside the header
      and see the same options.
    * TcpState: TCP.cc, TCP_Endpoint.cc, Analyzer.cc, the analyzer of a TCP
      connection with its endpoints, reassemblers (TcpReassem) and timers: every
      packet, timer and call, and the archive (Module T).
    * TcpFacts: the calls of an analyzer as labels, [run_labels], and for a relation
      that its basic steps respect, that all of its operations do (Module TF).
    * TcpLife: the life of an analyzer (Module TL): states advance, fields stay
      well-formed, connections end.
    * TcpMachine: an abstract machine for the states of the endpoints, and that
      every packet moves them so (Module SM).
    * TcpErrors: what goes wrong: closes that are lost, scales that cannot be
      shifted by, options behind the capture, moved connections that are reported
      as pending, archives without timers (Module TX).
    * TcpLink: DPM.cc, the analyzer of TcpState as the root of a connection: it
      implements the interface of Conn and the laws of Sessions, so the statistics
      of Sessions count the states of its endpoints (Module LK).

    How to read a model.  A record has the members of the class, a definition the
    name of the member function; an object that others point to lives in a map by
    address where the code follows pointers (PQueue, Dict, Reassem), and in the
    table that owns it elsewhere.  Calls that leave a component are lists of
    effects.  A virtual function or another part of the program is a record of
    operations or a class, whose laws are named in the theorem that needs them.
    [None] is undefined behaviour (a read outside of a packet or array, a cell that
    was never written) or an internal error that stops the program; theorems say
    where it cannot happen.

    Bounds and fuel.  Loops over linked structures have fuel: the number of
    objects plus one, and the theorems show that it is enough ([ops_implement_bag],
    [NewBlock_fills_gaps], [stream_sound]); the header chain has the length of the
    packet, the options of a header too; the nesting of tunnels has the depth
    limit of the configuration plus two ([DoNextPacket_terminates]).  Sequence
    numbers and counters are Z with the wrap-around of their C type written out.
    Reading a message takes fuel for its bytes ([messages_in_order]), removing a
    filter for the packets it holds ([buffered_packets_in_order]); that no fuel is
    enough is stated as such ([release_never_ends], [conn_read_waits_forever]).
    The host is little-endian with 32-bit int.

    Assumptions that are part of the models.  The table of Sessions is a finite map
    by key, which is what Dict is shown to implement; a connection is referenced by
    its table and its timers only, so it is destroyed when it is taken out.  The
    order in which a request sees the connections is a parameter.  The file an
    archive passes through is a parameter that tells whether it can be written.

    Not modelled.  The analyzers above TCP and what they have in common
    (TCP_ApplicationAnalyzer) are the children that the analyzer of TCP
    tells by effects; the detection of protocols is modelled for packets, not for
    streams (PIA_TCP); the analyzers of ICMP and of tunnels above UDP (ICMP.cc,
    Teredo.cc, AYIYA.cc, SOCKS.cc) are interfaces of the sessions; the systems a
    fingerprint is compared with (OSFinger.cc) and the statistics analyzer
    (TCPStats) are left out.  Of the C
    library in src/shared, sockets, threads, the configuration file and discovery
    (SDMBNConfig.c, discovery.c) are left out, and the messages that name the host;
    the calendar queue (cq.c) serves external time sources only.  The values and events of the script language are
    effects or left out (BuildConnVal, BuildVersionVal), as are memory accounting,
    dump files, the encapsulation of known connections and Bro's own serializer
    (DoSerialize).  Mobile IPv6 is an option of the build that is off; the headers
    of IP have it, Frag and Sessions do not.  The mutex of a connection is modelled
    in Sdmbn only, so interleavings of a request with a packet are those between
    whole operations; those of the threads of the library are those between whole
    packets and messages, but a packet that is processed while a filter is removed
    can change the filter.  Unlocking leaves a mutex free, whoever holds it.  Parsers of application protocols, the script interpreter,
    logging, communication and input and output are not
    part of the core; Boost, floodlight and the patched PRADS are third-party
    code, the controller is Java. *)
From stdpp Require Export prelude list gmap ssreflect.
From Stdlib Require Export ZArith Lia.

Declare Scope ofm_scope.
Delimit Scope ofm_scope with ofm.

(** ** Machine integers

    A [w]-bit integer is a [Z]; these are the conversions the compiler inserts
    on assignment (two's complement, as on every platform the code targets). *)

Definition wrap_u (w x : Z) : Z := (x mod 2 ^ w)%Z.
Definition wrap_s (w x : Z) : Z := ((x + 2 ^ (w - 1)) mod 2 ^ w - 2 ^ (w - 1))%Z.

Definition uint8 (x : Z) : Z := wrap_u 8 x.
Definition uint16 (x : Z) : Z := wrap_u 16 x.
Definition uint32 (x : Z) : Z := wrap_u 32 x.
Definition int8 (x : Z) : Z := wrap_s 8 x.
Definition int32 (x : Z) : Z := wrap_s 32 x.

(** [seq_delta] of net_util.h: [int(a-b)] on [uint32] operands. *)
Definition seq_delta (a b : Z) : Z := int32 (uint32 (uint32 a - uint32 b)).

(** Bit [k] of a word of bit fields: [b << k] and [(w >> k) & 0x1]. *)
Definition bit_of (b : bool) (k : Z) : Z := Z.shiftl (if b then 1 else 0)%Z k.
Definition bit_at (w k : Z) : bool := negb (Z.land (Z.shiftr w k) 1 =? 0)%Z.

(** ** C arrays

    An array is the list of its cells; a cell that was never written is [None].
    Reading such a cell, or touching an index outside the array, is undefined
    behaviour: the operation returns [None]. *)

Definition arr_alloc {A} (n : nat) : list (option A) := replicate n None.
Definition arr_get {A} (a : list (option A)) (i : nat) : option A := mjoin (a !! i).
Definition arr_set {A} (a : list (option A)) (i : nat) (v : A) : option (list (option A)) :=
  if decide (i < length a) then Some (<[i := Some v]> a) else None.

(** [for (i = from; i < from + n; ++i) dst[i] = src[i]] *)
Fixpoint arr_copy {A} (n from : nat) (src dst : list (option A)) : option (list (option A)) :=
  match n with
  | O => Some dst
  | S n' => v ← arr_get src from; dst' ← arr_set dst from v; arr_copy n' (S from) src dst'
  end.

(** [arr_holds a l r]: the first cells of [a] hold [l]; [r] is the rest. *)
Definition arr_holds {A} (a : list (option A)) (l : list A) (r : list (option A)) : Prop :=
  a = (Some <$> l) ++ r.

(** ** Automation *)

Create HintDb ofm.

(** Split the matches of the goal and of the hypotheses, then simplify. *)
Ltac ofm_cases :=
  repeat (case_match || case_decide || case_bool_decide); simplify_eq/=.

(** Unfold one step of an option-monad computation whose head is known. *)
Ltac obind H := rw H /=.

(** ** Lemmas on machine integers *)

Lemma wrap_u_bounds w x : (0 ≤ w → 0 ≤ wrap_u w x < 2 ^ w)%Z.
Proof. intros. apply Z.mod_pos_bound. lia. Qed.

Lemma wrap_u_small w x : (0 ≤ x < 2 ^ w → wrap_u w x = x)%Z.
Proof. apply Z.mod_small. Qed.

Lemma pow2_half w : (0 < w → 2 ^ w = 2 * 2 ^ (w - 1))%Z.
Proof. intros. rw -Z.pow_succ_r; [f_equal|]; lia. Qed.

Lemma wrap_s_small w x :
  (0 < w → - 2 ^ (w - 1) ≤ x < 2 ^ (w - 1) → wrap_s w x = x)%Z.
Proof.
  intros Hw Hx. unfold wrap_s. rw (pow2_half w) //. rw Z.mod_small; lia.
Qed.

Lemma wrap_s_bounds w x : (0 < w → - 2 ^ (w - 1) ≤ wrap_s w x < 2 ^ (w - 1))%Z.
Proof.
  intros Hw. unfold wrap_s. rw (pow2_half w) //.
  pose proof (Z.mod_pos_bound (x + 2 ^ (w - 1)) (2 * 2 ^ (w - 1)) ltac:(lia)). lia.
Qed.

Lemma int32_small x : (- 2147483648 ≤ x < 2147483648 → int32 x = x)%Z.
Proof. intros. apply wrap_s_small; simpl; lia. Qed.

Lemma uint32_small x : (0 ≤ x < 4294967296 → uint32 x = x)%Z.
Proof. intros. by apply wrap_u_small. Qed.

Lemma uint16_small x : (0 ≤ x < 65536 → uint16 x = x)%Z.
Proof. intros. by apply wrap_u_small. Qed.

Lemma int32_mod x y : (x mod 2 ^ 32 = y mod 2 ^ 32 → int32 x = int32 y)%Z.
Proof.
  intros H. unfold int32, wrap_s. f_equal.
  by rw -(Z.add_mod_idemp_l x) // H Z.add_mod_idemp_l.
Qed.

Lemma seq_delta_eq a b : seq_delta a b = int32 (a - b).
Proof.
  apply int32_mod. unfold uint32, wrap_u. by rw Z.mod_mod // -Zminus_mod.
Qed.

(** Sequence-space comparison is the plain one as long as the operands are
    less than 2^31 apart. *)
Lemma seq_delta_small a b :
  (- 2147483648 ≤ a - b < 2147483648 → seq_delta a b = a - b)%Z.
Proof. intros. by rw seq_delta_eq int32_small. Qed.

Lemma seq_delta_self a : seq_delta a a = 0%Z.
Proof. rw seq_delta_small; lia. Qed.

(** Bits that do not meet add up. *)
Lemma lor_shiftl_add a b k :
  (0 ≤ k → 0 ≤ a < 2 ^ k → Z.lor (Z.shiftl b k) a = b * 2 ^ k + a)%Z.
Proof.
  intros Hk Ha. rw -Z.shiftl_mul_pow2 //.
  assert (Z.land (Z.shiftl b k) a = 0)%Z as Hl.
  { apply Z.bits_inj'. intros i Hi. rw Z.land_spec Z.bits_0. destruct (Z.ltb_spec i k).
    - by rw Z.shiftl_spec_low.
    - destruct (decide (a = 0)%Z) as [->|]; [by rw Z.bits_0 andb_false_r|].
      rw (Z.bits_above_log2 a i); [by rw andb_false_r|lia|].
      apply Z.log2_lt_pow2; [lia|]. apply Z.lt_le_trans with (2 ^ k)%Z; [lia|]. apply Z.pow_le_mono_r; lia. }
  by rw Z.add_nocarry_lxor // Z.lxor_lor.
Qed.

Lemma bit_at_testbit w k : bit_at w k = Z.testbit w k.
Proof.
  unfold bit_at. change 1%Z with (Z.ones 1). rw Z.land_ones //.
  rw -(Z.bit0_mod (Z.shiftr w k)) Z.shiftr_spec //. by destruct (Z.testbit w _).
Qed.

Lemma bit_at_lor a b k : bit_at (Z.lor a b) k = bit_at a k || bit_at b k.
Proof. by rw !bit_at_testbit Z.lor_spec. Qed.

Lemma bit_at_bit_of b j k : (0 ≤ j → 0 ≤ k → bit_at (bit_of b j) k = b && (k =? j))%Z.
Proof.
  intros Hj Hk. rw bit_at_testbit /bit_of. destruct b.
  - rw Z.shiftl_1_l Z.pow2_bits_eqb //= Z.eqb_sym //.
  - by rw Z.shiftl_0_l Z.bits_0.
Qed.

(** Read back one of several bit fields. *)
Ltac read_bits := rw !bit_at_lor !bit_at_bit_of //= ?andb_true_r ?andb_false_r ?orb_false_r //.

(** ** Lemmas on arrays *)

Section arrays.
Context {A : Type}.
Implicit Types (a r : list (option A)) (l : list A).

Lemma arr_set_length a i v a' : arr_set a i v = Some a' → length a' = length a.
Proof. unfold arr_set. intros. ofm_cases. apply length_insert. Qed.

Lemma arr_holds_length a l r : arr_holds a l r → length a = length l + length r.
Proof. intros ->. by rw length_app length_fmap. Qed.

Lemma arr_holds_app a l1 l2 r :
  arr_holds a (l1 ++ l2) r ↔ arr_holds a l1 ((Some <$> l2) ++ r).
Proof. unfold arr_holds. by rw fmap_app -assoc. Qed.

Lemma arr_get_holds a l r i v : arr_holds a l r → l !! i = Some v → arr_get a i = Some v.
Proof.
  intros -> Hi. unfold arr_get.
  rw lookup_app_l; [|rw length_fmap; eauto using lookup_lt_Some].
  by rw list_lookup_fmap Hi.
Qed.

Lemma arr_set_holds a l r i v :
  arr_holds a l r → i < length l →
  ∃ a', arr_set a i v = Some a' ∧ arr_holds a' (<[i := v]> l) r.
Proof.
  intros -> Hi. unfold arr_set.
  rw decide_True; [|rw length_app length_fmap; lia].
  eexists; split; [done|]. unfold arr_holds.
  rw insert_app_l; [|by rw length_fmap]. by rw list_fmap_insert.
Qed.

(** Writing the first cell after the held prefix extends it. *)
Lemma arr_set_snoc a l c r v :
  arr_holds a l (c :: r) →
  ∃ a', arr_set a (length l) v = Some a' ∧ arr_holds a' (l ++ [v]) r.
Proof.
  intros ->. unfold arr_set.
  rw decide_True; [|rw length_app length_fmap /=; lia].
  eexists; split; [done|]. unfold arr_holds.
  rw insert_app_r_alt; [|by rw length_fmap].
  by rw length_fmap Nat.sub_diag /= fmap_app -assoc.
Qed.

Lemma arr_holds_replicate n : arr_holds (arr_alloc n) (@nil A) (replicate n None).
Proof. done. Qed.

Lemma arr_copy_holds n from src dst l r l1 d :
  arr_holds src l r → arr_holds dst l1 d →
  l1 = take from l → from + n = length l → n ≤ length d →
  ∃ dst', arr_copy n from src dst = Some dst' ∧ arr_holds dst' l (drop n d).
Proof.
  revert from dst l1 d. induction n as [|n IH]; intros from dst l1 d Hs Hd -> Hn Hlen; simpl.
  - exists dst. split; [done|]. by rw firstn_all2 in Hd; [|lia].
  - destruct (lookup_lt_is_Some_2 l from) as [v Hv]; [lia|].
    obind (arr_get_holds _ _ _ _ _ Hs Hv).
    destruct d as [|c d]; simpl in Hlen; [lia|].
    destruct (arr_set_snoc _ _ _ _ v Hd) as (d' & Hset & Hd').
    rw length_take_le in Hset; [|lia]. obind Hset.
    apply (IH (S from) d' (take from l ++ [v])); [done..| |lia|lia].
    by rw (take_S_r _ _ _ Hv).
Qed.

End arrays.

(** ** Lemmas on lists *)

Lemma delete_insert_S {A} (l : list A) i v :
  l !! S i = Some v → delete (S i) (<[i:=v]> l) = delete i l.
Proof.
  intros Hv. apply list_eq. intros j. rw !list_lookup_delete.
  destruct (decide (j = i)) as [->|Hne].
  - rw decide_True; [|lia]. rw decide_False; [|lia].
    rw list_lookup_insert_eq //. apply lookup_lt_Some in Hv. lia.
  - repeat case_decide; try lia; by rw list_lookup_insert_ne; [|lia].
Qed.

Lemma delete_last {A} (l : list A) x : delete (length l) (l ++ [x]) = l.
Proof. by rw delete_middle app_nil_r. Qed.

(** An entry of a list is found by a key that no other has. *)
Lemma NoDup_fmap_eq {A B} (f : A → B) l x y : NoDup (f <$> l) → x ∈ l → y ∈ l → f x = f y → x = y.
Proof.
  induction l as [|z l IH]; simpl; [by intros _ ?%elem_of_nil|].
  intros [Hz Hl]%NoDup_cons [->|Hx]%elem_of_cons [->|Hy]%elem_of_cons Hf; auto; destruct Hz.
  - rw Hf. by apply list_elem_of_fmap_2.
  - rw -Hf. by apply list_elem_of_fmap_2.
Qed.

Lemma find_by_key {A B} `{EqDecision B} (f : A → B) l x :
  NoDup (f <$> l) → x ∈ l → List.find (λ y, bool_decide (f y = f x)) l = Some x.
Proof.
  intros Hnd Hx. destruct (List.find _ l) as [y|] eqn:Hf.
  - apply List.find_some in Hf as [Hy%list_elem_of_In Hyx%bool_decide_eq_true]. f_equal. by eapply (NoDup_fmap_eq f).
  - apply List.find_none with (x := x) in Hf; [|by apply list_elem_of_In]. by rw bool_decide_eq_true_2 in Hf.
Qed.

#[export] Hint Resolve arr_get_holds : ofm.
