(* ===== verification/Flow.v ===== *)
(** Flow: the control flow of a C++ member function over a state.

    A computation of type [M S X] changes a state [S] and either goes on with a
    value of [X], or returns from the function; [None] is an internal error or
    undefined behaviour.  [triple] is the program logic: what holds when the
    computation goes on and when it returns, if it does not fail. *)
From S2P Require Import Prelude.

Definition M (S X : Type) : Type := S → option (S * option X).

#[global] Instance M_ret {S} : MRet (M S) := λ X x s, Some (s, Some x).
#[global] Instance M_bind {S} : MBind (M S) := λ X Y f m s,
  match m s with
  | Some (s, Some x) => f x s
  | Some (s, None) => Some (s, None)
  | None => None
  end.

Section flow.
Context {S : Type}.

(** [return;] *)
Definition stop {X} : M S X := λ s, Some (s, None).
(** InternalError, or a read that is not defined. *)
Definition lift {X} (o : option X) : M S X := λ s, (λ x, (s, Some x)) <$> o.
Definition get : M S S := λ s, Some (s, Some s).
Definition gets {X} (f : S → X) : M S X := λ s, Some (s, Some (f s)).
Definition modify (f : S → S) : M S () := λ s, Some (f s, Some ()).
(** An operation of the state that can fail. *)
Definition update (f : S → option S) : M S () := λ s, (λ s, (s, Some ())) <$> f s.
Definition when (b : bool) (m : M S ()) : M S () := if b then m else mret ().

(** A call of a function without result: its return ends only itself. *)
Definition call {X} (m : M S X) : M S () := λ s, (λ '(s, _), (s, Some ())) <$> m s.

(** A whole function: what it returns with does not matter. *)
Definition run {X} (m : M S X) (s : S) : option S := fst <$> m s.

(** ** Program logic *)

Definition triple {X} (P : S → Prop) (m : M S X) (Q : X → S → Prop) (R : S → Prop) : Prop :=
  ∀ s, P s → match m s with
             | Some (s', Some x) => Q x s'
             | Some (s', None) => R s'
             | None => True
             end.

(** An invariant of the whole computation. *)
Definition keeps (P : S → Prop) {X} (m : M S X) : Prop := triple P m (λ _, P) P.

(** Computations that go on in the same way are the same. *)
Lemma bind_ext {X Y} (m : M S X) (f g : X → M S Y) s :
  (∀ x s', m s = Some (s', Some x) → f x s' = g x s') → (m ≫= f) s = (m ≫= g) s.
Proof.
  intros Hfg. unfold mbind, M_bind. destruct (m s) as [[s' [x|]]|] eqn:Hm; [by apply Hfg|done|done].
Qed.

(** How a sequence ends. *)
Lemma bind_inv {X Y} (m : M S X) (f : X → M S Y) s s' r :
  (m ≫= f) s = Some (s', r) →
  (∃ s1 x, m s = Some (s1, Some x) ∧ f x s1 = Some (s', r)) ∨ (m s = Some (s', None) ∧ r = None).
Proof.
  unfold mbind, M_bind. destruct (m s) as [[s1 [x|]]|]; [|intros [= -> <-]; auto|done]. intros Hf. left. by exists s1, x.
Qed.

Lemma bind_gets {X Y} (g : S → X) (f : X → M S Y) s : (gets g ≫= f) s = f (g s) s.
Proof. done. Qed.
Lemma bind_lift {X Y} (x : X) (f : X → M S Y) s : (lift (Some x) ≫= f) s = f x s.
Proof. done. Qed.
Lemma bind_modify {Y} (g : S → S) (f : () → M S Y) s : (modify g ≫= f) s = f () (g s).
Proof. done. Qed.
Lemma bind_mret {X Y} (x : X) (f : X → M S Y) s : (mret x ≫= f) s = f x s.
Proof. done. Qed.
Lemma bind_lift_inv {X Y} (o : option X) (f : X → M S Y) s s' r :
  (lift o ≫= f) s = Some (s', r) → ∃ x, o = Some x ∧ f x s = Some (s', r).
Proof. destruct o as [x|]; [by exists x|done]. Qed.

Lemma triple_ret {X} (x : X) (Q : X → S → Prop) R : triple (Q x) (mret x) Q R.
Proof. by intros s Hs. Qed.

Lemma triple_bind {X Y} P (Q : X → S → Prop) (Q' : Y → S → Prop) R m f :
  triple P m Q R → (∀ x, triple (Q x) (f x) Q' R) → triple P (m ≫= f) Q' R.
Proof.
  intros Hm Hf s Hs. specialize (Hm s Hs). unfold mbind, M_bind.
  destruct (m s) as [[s' [x|]]|]; [|done|done]. by apply Hf.
Qed.

Lemma triple_weaken {X} (P P' : S → Prop) (Q Q' : X → S → Prop) (R R' : S → Prop) m :
  triple P m Q R → (∀ s, P' s → P s) → (∀ x s, Q x s → Q' x s) → (∀ s, R s → R' s) → triple P' m Q' R'.
Proof.
  intros Hm HP HQ HR s Hs. specialize (Hm s (HP s Hs)).
  destruct (m s) as [[s' [x|]]|]; [by apply HQ|by apply HR|done].
Qed.

Lemma triple_stop {X} P (Q : X → S → Prop) : triple P stop Q P.
Proof. by intros s Hs. Qed.
Lemma triple_bind_lift {X Y} P (Q : Y → S → Prop) R (o : option X) f :
  (∀ x, o = Some x → triple P (f x) Q R) → triple P (lift o ≫= f) Q R.
Proof. intros Hf s Hs. unfold mbind, M_bind, lift. destruct o as [x|]; [by apply Hf|done]. Qed.
Lemma triple_bind_gets {X Y} P (Q : Y → S → Prop) R (g : S → X) f :
  (∀ x, triple (λ s, P s ∧ x = g s) (f x) Q R) → triple P (gets g ≫= f) Q R.
Proof. intros Hf s Hs. by apply (Hf (g s) s). Qed.
Lemma triple_bind_get {Y} P (Q : Y → S → Prop) R f :
  (∀ s0, triple (λ s, P s ∧ s0 = s) (f s0) Q R) → triple P (get ≫= f) Q R.
Proof. intros Hf s Hs. by apply (Hf s s). Qed.
(** A step that keeps [P], before the rest. *)
Lemma triple_bind_keeps {X Y} P (Q : Y → S → Prop) (m : M S X) f :
  keeps P m → (∀ x, triple P (f x) Q P) → triple P (m ≫= f) Q P.
Proof. apply triple_bind. Qed.
Lemma triple_modify (P : S → Prop) (Q : () → S → Prop) R g : (∀ s, P s → Q () (g s)) → triple P (modify g) Q R.
Proof. intros Hg s Hs. by apply Hg. Qed.
Lemma triple_update (P : S → Prop) (Q : () → S → Prop) R g :
  (∀ s s', P s → g s = Some s' → Q () s') → triple P (update g) Q R.
Proof. intros Hg s Hs. unfold update. destruct (g s) eqn:Hgs; simpl; [by eapply Hg|done]. Qed.
Lemma triple_pre {X} (P P' : S → Prop) (m : M S X) Q R :
  (∀ s, P' s → P s) → triple P m Q R → triple P' m Q R.
Proof. intros HP Hm s Hs. by apply Hm, HP. Qed.
Lemma triple_when P (b : bool) m R : triple P m (λ _, P) R → triple P (when b m) (λ _, P) R.
Proof. destruct b; [done|]. intros _. exact (triple_ret () (λ _, P) R). Qed.
Lemma triple_call {X} (P : S → Prop) (m : M S X) R : triple P m (λ _, R) R → triple P (call m) (λ _, R) R.
Proof. intros Hm s Hs. specialize (Hm s Hs). unfold call. by destruct (m s) as [[s' [x|]]|]. Qed.

Lemma keeps_ret P {X} (x : X) : keeps P (mret x).
Proof. by intros s Hs. Qed.
Lemma keeps_bind P {X Y} (m : M S X) (f : X → M S Y) :
  keeps P m → (∀ x, keeps P (f x)) → keeps P (m ≫= f).
Proof. apply triple_bind. Qed.
Lemma keeps_stop P {X} : keeps P (stop (X := X)).
Proof. by intros s Hs. Qed.
Lemma keeps_lift P {X} (o : option X) : keeps P (lift o).
Proof. intros s Hs. by destruct o. Qed.
Lemma keeps_get P : keeps P get.
Proof. by intros s Hs. Qed.
Lemma keeps_gets P {X} (f : S → X) : keeps P (gets f).
Proof. by intros s Hs. Qed.
Lemma keeps_modify (P : S → Prop) f : (∀ s, P s → P (f s)) → keeps P (modify f).
Proof. intros Hf s Hs. by apply Hf. Qed.
Lemma keeps_update (P : S → Prop) f : (∀ s s', P s → f s = Some s' → P s') → keeps P (update f).
Proof. intros Hf s Hs. unfold update. destruct (f s) eqn:Hfs; simpl; [by eapply Hf|done]. Qed.
Lemma keeps_if P {X} (b : bool) (m n : M S X) : keeps P m → keeps P n → keeps P (if b then m else n).
Proof. by destruct b. Qed.
Lemma keeps_when P (b : bool) m : keeps P m → keeps P (when b m).
Proof. intros. apply keeps_if; [done|apply keeps_ret]. Qed.

Lemma keeps_call P {X} (m : M S X) : keeps P m → keeps P (call m).
Proof.
  intros Hm s Hs. specialize (Hm s Hs). unfold call.
  by destruct (m s) as [[s' [x|]]|]; simpl.
Qed.

(** From the logic back to a run. *)
Lemma keeps_run P {X} (m : M S X) s s' : keeps P m → P s → run m s = Some s' → P s'.
Proof.
  intros Hm Hs. specialize (Hm s Hs). unfold run.
  destruct (m s) as [[s1 [x|]]|]; simpl; intros; simplify_eq; done.
Qed.

(** A relation between the state before and after, however the computation ends. *)
Definition moves (R : S → S → Prop) {X} (m : M S X) : Prop := ∀ s s' r, m s = Some (s', r) → R s s'.

Section moves.
Context (R : S → S → Prop) `{!PreOrder R}.

Lemma moves_ret {X} (x : X) : moves R (mret x).
Proof using Type*. intros s s' r [= <- _]. reflexivity. Qed.
Lemma moves_stop {X} : moves R (stop (X := X)).
Proof using Type*. intros s s' r [= <- _]. reflexivity. Qed.
Lemma moves_lift {X} (o : option X) : moves R (lift o).
Proof using Type*. intros s s' r. destruct o; [|done]. intros [= <- _]. reflexivity. Qed.
Lemma moves_get : moves R get.
Proof using Type*. intros s s' r [= <- _]. reflexivity. Qed.
Lemma moves_gets {X} (f : S → X) : moves R (gets f).
Proof using Type*. intros s s' r [= <- _]. reflexivity. Qed.
Lemma moves_modify f : (∀ s, R s (f s)) → moves R (modify f).
Proof using Type*. intros Hf s s' r [= <- _]. apply Hf. Qed.
Lemma moves_bind {X Y} (m : M S X) (f : X → M S Y) :
  moves R m → (∀ x, moves R (f x)) → moves R (m ≫= f).
Proof using Type*.
  intros Hm Hf s s' r. unfold mbind, M_bind. destruct (m s) as [[s1 [x|]]|] eqn:Hms; [|intros [= <- _]|done].
  - intros Hr. transitivity s1; [by eapply Hm|by eapply Hf].
  - by eapply Hm.
Qed.
Lemma moves_if {X} (b : bool) (m n : M S X) : moves R m → moves R n → moves R (if b then m else n).
Proof using Type*. by destruct b. Qed.
Lemma moves_when (b : bool) m : moves R m → moves R (when b m).
Proof using Type*. intros. apply moves_if; [done|apply moves_ret]. Qed.
Lemma moves_call {X} (m : M S X) : moves R m → moves R (call m).
Proof using Type*.
  intros Hm s s' r. unfold call. destruct (m s) as [[s1 x]|] eqn:Hms; [|done]. intros [= <- _]. by eapply Hm.
Qed.
Lemma moves_run {X} (m : M S X) s s' : moves R m → run m s = Some s' → R s s'.
Proof using Type*. intros Hm. unfold run. destruct (m s) as [[s1 x]|] eqn:Hms; [|done]. intros [= <-]. by eapply Hm. Qed.
End moves.

(** A computation that does not return early. *)
Definition goes {X} (m : M S X) : Prop := ∀ s s' r, m s = Some (s', r) → r ≠ None.

Lemma goes_ret {X} (x : X) : goes (mret x).
Proof. by intros s s' r [= _ <-]. Qed.
Lemma goes_lift {X} (o : option X) : goes (lift o).
Proof. intros s s' r. destruct o; [|done]. by intros [= _ <-]. Qed.
Lemma goes_get : goes get.
Proof. by intros s s' r [= _ <-]. Qed.
Lemma goes_gets {X} (f : S → X) : goes (gets f).
Proof. by intros s s' r [= _ <-]. Qed.
Lemma goes_modify f : goes (modify f).
Proof. by intros s s' r [= _ <-]. Qed.
Lemma goes_call {X} (m : M S X) : goes (call m).
Proof. intros s s' r. unfold call. destruct (m s) as [[s1 x]|]; [|done]. by intros [= _ <-]. Qed.
Lemma goes_bind {X Y} (m : M S X) (f : X → M S Y) : goes m → (∀ x, goes (f x)) → goes (m ≫= f).
Proof.
  intros Hm Hf s s' r [(s1 & x & _ & Hr)|[Hr _]]%bind_inv; [by eapply Hf|]. by destruct (Hm _ _ _ Hr).
Qed.
Lemma goes_when (b : bool) m : goes m → goes (when b m).
Proof. destruct b; [done|]. intros _. apply goes_ret. Qed.

(** A computation that moves only from the states in [P] on. *)
Definition moves_from (P : S → Prop) (R : S → S → Prop) {X} (m : M S X) : Prop :=
  ∀ s s' r, P s → m s = Some (s', r) → R s s'.

(** A value that is read holds of the state it was read from. *)
Lemma moves_bind_gets (R : S → S → Prop) {X Y} (g : S → X) (f : X → M S Y) :
  (∀ x, moves_from (λ s, x = g s) R (f x)) → moves R (gets g ≫= f).
Proof. intros Hf s s' r Hr. by eapply (Hf (g s) s). Qed.
Lemma moves_bind_get (R : S → S → Prop) {Y} (f : S → M S Y) :
  (∀ s0, moves_from (λ s, s0 = s) R (f s0)) → moves R (get ≫= f).
Proof. intros Hf s s' r Hr. by eapply (Hf s s). Qed.
Lemma moves_from_weaken (P : S → Prop) (R : S → S → Prop) {X} (m : M S X) : moves R m → moves_from P R m.
Proof. intros Hm s s' r _. apply Hm. Qed.
Lemma moves_from_bind_gets (P : S → Prop) (R : S → S → Prop) {X Y} (g : S → X) (f : X → M S Y) :
  (∀ x, moves_from (λ s, P s ∧ x = g s) R (f x)) → moves_from P R (gets g ≫= f).
Proof. intros Hf s s' r Hs Hr. by eapply (Hf (g s) s). Qed.
(** A step, then the rest from what the step leaves; [K] is what is known of the step. *)
Lemma moves_from_bind (P : S → Prop) (Q : S → Prop) (K R : S → S → Prop) `{!Transitive R} {X Y} (m : M S X) (f : X → M S Y) :
  moves K m → (∀ s s', P s → K s s' → Q s') → moves_from P R m → (∀ x, moves_from Q R (f x)) → moves_from P R (m ≫= f).
Proof.
  intros HK HQ Hm Hf s s' r Hs. unfold mbind, M_bind. destruct (m s) as [[s1 [x|]]|] eqn:Hms; [|intros [= <- _]|done].
  - intros Hr. transitivity s1; [by eapply Hm|]. eapply Hf; [|done]. eapply HQ; [done|by eapply HK].
  - by eapply Hm.
Qed.
(** The rest moves from everywhere. *)
Lemma moves_from_then (P : S → Prop) (R : S → S → Prop) `{!Transitive R} {X Y} (m : M S X) (f : X → M S Y) :
  moves_from P R m → (∀ x, moves R (f x)) → moves_from P R (m ≫= f).
Proof.
  intros Hm Hf. apply (moves_from_bind P (λ _, True) (λ _ _, True)); try done. intros x. by apply moves_from_weaken.
Qed.
Lemma moves_from_when (P : S → Prop) (R : S → S → Prop) `{!Reflexive R} (b : bool) (m : M S ()) :
  (b = true → moves_from P R m) → moves_from P R (when b m).
Proof. destruct b; [by auto|]. intros _ s s' r _ [= <- _]. reflexivity. Qed.
Lemma moves_from_pre (P P' : S → Prop) (R : S → S → Prop) {X} (m : M S X) :
  moves_from P R m → (∀ s, P' s → P s) → moves_from P' R m.
Proof. intros Hm HP s s' r Hs. apply Hm. auto. Qed.
Lemma moves_sub (R R' : S → S → Prop) {X} (m : M S X) : (∀ s s', R s s' → R' s s') → moves R m → moves R' m.
Proof. intros HR Hm s s' r Hr. eapply HR, Hm, Hr. Qed.
Lemma moves_both (R R' : S → S → Prop) {X} (m : M S X) : moves R m → moves R' m → moves (λ s s', R s s' ∧ R' s s') m.
Proof. intros H1 H2 s s' r Hr. split; [by eapply H1|by eapply H2]. Qed.

End flow.

(** Decompose [keeps P m] along the computation. *)
Ltac keep :=
  try lazymatch goal with |- triple ?P ?m (λ _, ?P) ?P => change (keeps P m) end;
  repeat lazymatch goal with
  | |- keeps _ (mret _) => apply keeps_ret
  | |- keeps _ stop => apply keeps_stop
  | |- keeps _ (lift _) => apply keeps_lift
  | |- keeps _ get => apply keeps_get
  | |- keeps _ (gets _) => apply keeps_gets
  | |- keeps _ (_ ≫= _) => apply keeps_bind; [|intros ?]
  | |- keeps _ (when _ _) => apply keeps_when
  | |- keeps _ (call _) => apply keeps_call
  | |- keeps _ (if ?x then _ else _) => destruct x eqn:?
  | |- keeps _ (match ?x with _ => _ end) => destruct x
  end.

(** Decompose [moves R m] along the computation; the hints know the operations. *)
Create HintDb moves.
Ltac moves :=
  cbv zeta; repeat lazymatch goal with
  | |- moves _ (mret _) => apply moves_ret; [apply _]
  | |- moves _ stop => apply moves_stop; [apply _]
  | |- moves _ (lift _) => apply moves_lift; [apply _]
  | |- moves _ get => apply moves_get; [apply _]
  | |- moves _ (gets _) => apply moves_gets; [apply _]
  | |- moves _ (_ ≫= _) => apply moves_bind; [apply _| |intros ?]
  | |- moves _ (when _ _) => apply moves_when; [apply _|]
  | |- moves _ (call _) => apply moves_call; [apply _|]
  | |- moves _ (if ?x then _ else _) => destruct x eqn:?
  | |- moves _ (match ?x with _ => _ end) => destruct x
  | |- moves _ (let _ := _ in _) => cbv zeta
  end; try solve [auto with moves].

(** Decompose [goes m] along the computation. *)
Ltac goes :=
  cbv zeta; repeat lazymatch goal with
  | |- goes (mret _) => apply goes_ret
  | |- goes (lift _) => apply goes_lift
  | |- goes get => apply goes_get
  | |- goes (gets _) => apply goes_gets
  | |- goes (modify _) => apply goes_modify
  | |- goes (call _) => apply goes_call
  | |- goes (_ ≫= _) => apply goes_bind; [|intros ?]
  | |- goes (when _ _) => apply goes_when
  | |- goes (if ?x then _ else _) => destruct x
  | |- goes (match ?x with _ => _ end) => destruct x
  | |- goes (let _ := _ in _) => cbv zeta
  end.
