(* ===== verification/Double.v ===== *)
(** Double: the [double] values that carry times.

    Network time and timer expiry are C [double]s.  They are the Standard
    Library's IEEE-754 values [spec_float], so that infinities, signed zeros and
    NaN behave as in the code; the lemmas give the total preorder of the values
    that are not NaN. *)
From S2P Require Import Prelude.
From Stdlib Require Export Floats.SpecFloat.

Abbreviation double := spec_float (only parsing).

Definition dlt (x y : double) : bool := SFltb x y.
Definition dle (x y : double) : bool := SFleb x y.
Definition deq (x y : double) : bool := SFeqb x y.
Definition dadd (x y : double) : double := SFadd 53 1024 x y.
Definition dsub (x y : double) : double := SFsub 53 1024 x y.

(** The double nearest to an integer. *)
Definition double_of_Z (z : Z) : double := binary_normalize 53 1024 z 0 false.

(** [HUGE_VAL] and [-HUGE_VAL]. *)
Definition HUGE_VAL : double := S754_infinity false.
Definition neg_HUGE_VAL : double := S754_infinity true.

Definition is_number (x : double) : Prop := x ≠ S754_nan.

#[export] Instance is_number_dec x : Decision (is_number x).
Proof. unfold is_number. destruct x; (by left) || (right; auto). Defined.

(** The three components the comparison looks at, in order. *)
Definition dkey (x : double) : Z * Z * Z :=
  match x with
  | S754_zero _ => (0, 0, 0)
  | S754_infinity true => (-2, 0, 0)
  | S754_infinity false => (2, 0, 0)
  | S754_nan => (0, 0, 0)
  | S754_finite true m e => (-1, - e, Z.neg m)
  | S754_finite false m e => (1, e, Z.pos m)
  end%Z.

Definition key_lt (a b : Z * Z * Z) : Prop :=
  let '(a1, a2, a3) := a in let '(b1, b2, b3) := b in
  (a1 < b1 ∨ a1 = b1 ∧ (a2 < b2 ∨ a2 = b2 ∧ a3 < b3))%Z.

Lemma dlt_key x y : is_number x → is_number y → dlt x y = true ↔ key_lt (dkey x) (dkey y).
Proof.
  unfold is_number, dlt, SFltb. intros Hx Hy.
  destruct x as [sx|[]| |[] mx ex], y as [sy|[]| |[] my ey]; simplify_eq/=; try lia;
    try (split; [done|lia]);
    destruct (Z.compare_spec ex ey); simpl;
    change (Pos.compare_cont Eq mx my) with (mx ?= my)%positive;
    try (destruct (Pos.compare_spec mx my); simpl);
    (split; [try done; lia|]); intros; try done; lia.
Qed.

Lemma dlt_nan_l y : dlt S754_nan y = false.
Proof. by destruct y. Qed.
Lemma dlt_nan_r x : dlt x S754_nan = false.
Proof. by destruct x as [|[]| |[]]. Qed.

Lemma dlt_number x y : dlt x y = true → is_number x ∧ is_number y.
Proof. intros H. by split; intros ->; rw ?dlt_nan_l ?dlt_nan_r in H. Qed.

Lemma dlt_irrefl x : dlt x x = false.
Proof.
  destruct (decide (is_number x)) as [Hx|Hx].
  - apply not_true_iff_false. rw dlt_key //. destruct (dkey x) as [[]]. simpl. lia.
  - unfold is_number in Hx. destruct x as [| | |]; try by destruct Hx.
    apply dlt_nan_l.
Qed.

Lemma dlt_trans x y z : dlt x y = true → dlt y z = true → dlt x z = true.
Proof.
  intros H1 H2. destruct (dlt_number _ _ H1), (dlt_number _ _ H2).
  move: H1 H2. rw !dlt_key //.
  destruct (dkey x) as [[]], (dkey y) as [[]], (dkey z) as [[]]. simpl. lia.
Qed.

Lemma dlt_asym x y : dlt x y = true → dlt y x = false.
Proof.
  intros H. apply not_true_iff_false. intros H2.
  pose proof (dlt_trans _ _ _ H H2) as H3. by rw dlt_irrefl in H3.
Qed.

(** [dleq x y]: [y] is not below [x]; on numbers, [x <= y]. *)
Definition dleq (x y : double) : Prop := dlt y x = false.

Lemma dleq_refl x : dleq x x.
Proof. apply dlt_irrefl. Qed.

Lemma dleq_trans x y z :
  is_number x → is_number y → is_number z → dleq x y → dleq y z → dleq x z.
Proof.
  intros Hx Hy Hz. unfold dleq. rw -!not_true_iff_false !dlt_key //.
  destruct (dkey x) as [[]], (dkey y) as [[]], (dkey z) as [[]]. simpl. lia.
Qed.

Lemma dlt_dleq x y : dlt x y = true → dleq x y.
Proof. apply dlt_asym. Qed.

Lemma neg_HUGE_VAL_least x : dleq neg_HUGE_VAL x.
Proof. by destruct x as [|[]| |[]]. Qed.

Lemma dleq_neg_HUGE x : is_number x → dleq x neg_HUGE_VAL → x = neg_HUGE_VAL.
Proof. unfold is_number. by destruct x as [|[]| |[]]. Qed.

Lemma dle_dleq x y : is_number x → is_number y → dle x y = true ↔ dleq x y.
Proof.
  unfold is_number, dleq, dlt, dle, SFltb, SFleb. intros Hx Hy.
  destruct x as [sx|[]| |[] mx ex], y as [sy|[]| |[] my ey]; simplify_eq/=; try done;
    rw (Z.compare_antisym ex ey); destruct (Z.compare_spec ex ey); simpl; try done;
    change (Pos.compare_cont Eq mx my) with (mx ?= my)%positive;
    change (Pos.compare_cont Eq my mx) with (my ?= mx)%positive;
    rw (Pos.compare_antisym mx my); by destruct (mx ?= my)%positive.
Qed.

#[export] Hint Resolve dleq_refl dlt_dleq : ofm.
