(* ===== verification/BaseList.v ===== *)
(** BaseList: the growable pointer array of List.cc / List.h.

    Every container of the program that is not a hash table is one of these
    ([PList(T)], [List(T)]).  The array is modelled cell by cell, with the cells
    that [malloc]/[realloc] leave indeterminate; the theorems show that no
    operation reads one of them and that each refines the obvious operation on
    the list of entries.  Sizes and indices are unbounded ([int] in the code);
    [qsort] of the C library is a parameter. *)
From S2P Require Import Prelude.
From stdpp Require Import sorting.

Module BL.

(** [typedef void* ent]; [0] is the null pointer. *)
Abbreviation ent := nat (only parsing).

Definition DEFAULT_CHUNK_SIZE : nat := 10.

Record BaseList := mkBaseList {
  entry : list (option ent);
  chunk_size : nat;
  max_entries : nat;
  num_entries : nat
}.

(** [typedef int ( *list_cmp_func)(const void* v1, const void* v2)] *)
Abbreviation list_cmp_func := (ent → ent → Z) (only parsing).

Definition BaseList_new (size : Z) : BaseList :=
  if (size <? 0)%Z then mkBaseList [] DEFAULT_CHUNK_SIZE 0 0
  else
    let chunk := if (0 <? size)%Z then Z.to_nat size else DEFAULT_CHUNK_SIZE in
    mkBaseList (arr_alloc chunk) chunk chunk 0.

(** The copy constructor. *)
Definition BaseList_copy (b : BaseList) : option BaseList :=
  let fresh := arr_alloc (max_entries b) in
  e ← arr_copy (num_entries b) 0 (entry b) fresh;
  Some (mkBaseList e (chunk_size b) (max_entries b) (num_entries b)).

(** [operator=]; [same] is the test [this == &b]. *)
Definition assign (this b : BaseList) (same : bool) : option BaseList :=
  if same then Some this else BaseList_copy b.

Definition length (b : BaseList) : nat := num_entries b.
Definition max (b : BaseList) : nat := max_entries b.

(** [safe_realloc]: the common prefix is kept, the rest is indeterminate. *)
Definition realloc (e : list (option ent)) (n : nat) : list (option ent) :=
  take n e ++ replicate (n - List.length e) None.

Definition resize (b : BaseList) (new_size : nat) : BaseList :=
  let new_size := if decide (new_size < num_entries b) then num_entries b else new_size in
  if decide (new_size ≠ max_entries b) then
    mkBaseList (realloc (entry b) new_size) (chunk_size b) new_size (num_entries b)
  else b.

(** The growth step shared by [insert], [sortedinsert] and [append]. *)
Definition make_room (b : BaseList) : BaseList :=
  if decide (num_entries b = max_entries b) then
    let b1 := resize b (max_entries b + chunk_size b) in
    mkBaseList (entry b1) (chunk_size b1 * 2) (max_entries b1) (num_entries b1)
  else b.

(** [for (i = n; i > 0; --i) entry[i] = entry[i-1]] *)
Fixpoint shift_up (n : nat) (e : list (option ent)) : option (list (option ent)) :=
  match n with
  | O => Some e
  | S m => v ← arr_get e m; e' ← arr_set e n v; shift_up m e'
  end.

Definition insert (b : BaseList) (a : ent) : option BaseList :=
  let b := make_room b in
  e ← shift_up (num_entries b) (entry b);
  e ← arr_set e 0 a;
  Some (mkBaseList e (chunk_size b) (max_entries b) (num_entries b + 1)).

Definition append (b : BaseList) (a : ent) : option BaseList :=
  let b := make_room b in
  e ← arr_set (entry b) (num_entries b) a;
  Some (mkBaseList e (chunk_size b) (max_entries b) (num_entries b + 1)).

(** The loop of [sortedinsert], from index [i] downwards. *)
Fixpoint sift (cmp_func : list_cmp_func) (i : nat) (e : list (option ent))
    : option (list (option ent)) :=
  match i with
  | O => Some e
  | S j =>
     x ← arr_get e i; y ← arr_get e j;
     if (cmp_func x y <=? 0)%Z then Some e
     else e ← arr_set e i y; e ← arr_set e j x; sift cmp_func j e
  end.

Definition sortedinsert (b : BaseList) (a : ent) (cmp_func : list_cmp_func) : option BaseList :=
  b ← append b a;
  e ← sift cmp_func (num_entries b - 1) (entry b);
  Some (mkBaseList e (chunk_size b) (max_entries b) (num_entries b)).

(** [for (i = from; i < from + n && a != entry[i]; ++i) ;] *)
Fixpoint find_from (n from : nat) (a : ent) (e : list (option ent)) : option nat :=
  match n with
  | O => Some from
  | S n' => v ← arr_get e from; if decide (a = v) then Some from else find_from n' (S from) a e
  end.

(** [for ( ; i < i + n; ++i) entry[i] = entry[i+1]] *)
Fixpoint shift_down (n i : nat) (e : list (option ent)) : option (list (option ent)) :=
  match n with
  | O => Some e
  | S n' => v ← arr_get e (S i); e' ← arr_set e i v; shift_down n' (S i) e'
  end.

Definition remove_nth (b : BaseList) (n : Z) : option (ent * BaseList) :=
  if decide (n < 0 ∨ Z.of_nat (num_entries b) ≤ n)%Z then Some (0, b)
  else
    let n := Z.to_nat n in
    old_ent ← arr_get (entry b) n;
    let num := num_entries b - 1 in
    e ← shift_down (num - n) n (entry b);
    e ← arr_set e num 0;
    Some (old_ent, mkBaseList e (chunk_size b) (max_entries b) num).

Definition remove (b : BaseList) (a : ent) : option (ent * BaseList) :=
  i ← find_from (num_entries b) 0 a (entry b); remove_nth b (Z.of_nat i).

Definition get (b : BaseList) : option (ent * BaseList) :=
  if decide (num_entries b = 0) then Some (0, b)
  else
    let num := num_entries b - 1 in
    v ← arr_get (entry b) num;
    Some (v, mkBaseList (entry b) (chunk_size b) (max_entries b) num).

Definition last (b : BaseList) : option ent :=
  if decide (num_entries b = 0) then None else arr_get (entry b) (num_entries b - 1).

Definition clear (b : BaseList) : BaseList := mkBaseList [] DEFAULT_CHUNK_SIZE 0 0.

(** [for (i = from; i < from + n; ++i) entry[i] = 0] *)
Fixpoint zero_from (n from : nat) (e : list (option ent)) : option (list (option ent)) :=
  match n with
  | O => Some e
  | S n' => e' ← arr_set e from 0; zero_from n' (S from) e'
  end.

Definition replace (b : BaseList) (ent_index : Z) (new_ent : ent) : option (ent * BaseList) :=
  if decide (ent_index < 0)%Z then Some (0, b)
  else
    let i := Z.to_nat ent_index in
    if decide (Z.of_nat (num_entries b) - 1 < ent_index)%Z then
      let b1 := resize b (i + 1) in
      e ← zero_from (max_entries b1 - num_entries b1) (num_entries b1) (entry b1);
      e ← arr_set e i new_ent;
      Some (0, mkBaseList e (chunk_size b1) (max_entries b1) (max_entries b1))
    else
      old_ent ← arr_get (entry b) i;
      e ← arr_set (entry b) i new_ent;
      Some (old_ent, mkBaseList e (chunk_size b) (max_entries b) (num_entries b)).

Definition is_member (b : BaseList) (e : ent) : option ent :=
  i ← find_from (length b) 0 e (entry b); Some (if decide (i = length b) then 0 else e).

Definition member_pos (b : BaseList) (e : ent) : option Z :=
  i ← find_from (length b) 0 e (entry b);
  Some (if decide (i = length b) then (-1)%Z else Z.of_nat i).

(** [qsort(entry, num_entries, sizeof(ent), cmp_func)]; [qsort] gives the contents of
    the array after the call.  Every cell that it compares has to be initialized. *)
Definition sort (qsort : list_cmp_func → list ent → list ent) (b : BaseList) (cmp_func : list_cmp_func)
    : option BaseList :=
  l ← mapM id (take (num_entries b) (entry b));
  Some (mkBaseList ((Some <$> qsort cmp_func l) ++ drop (num_entries b) (entry b))
    (chunk_size b) (max_entries b) (num_entries b)).

(** [operator[]] without [SAFE_LISTS]. *)
Definition index (b : BaseList) (i : nat) : option ent := arr_get (entry b) i.

(** ** The abstract list *)

(** [rep b l]: the array is well formed and its entries are [l]. *)
Definition rep (b : BaseList) (l : list ent) : Prop :=
  (∃ r, arr_holds (entry b) l r) ∧
  num_entries b = List.length l ∧ max_entries b = List.length (entry b) ∧ 0 < chunk_size b.

(** First position of [a], or the length of the list. *)
Fixpoint first_pos (a : ent) (l : list ent) : nat :=
  match l with
  | [] => 0
  | x :: l' => if decide (a = x) then 0 else S (first_pos a l')
  end.

(** What [sortedinsert] does to the entries: [a] travels towards the head past
    every entry that compares smaller. *)
Fixpoint insert_back (cmp_func : list_cmp_func) (a : ent) (rl : list ent) : list ent :=
  match rl with
  | [] => [a]
  | y :: rl' => if (cmp_func a y <=? 0)%Z then a :: rl else y :: insert_back cmp_func a rl'
  end.

(** What the C standard says about [qsort]: the comparison has to be consistent; the
    array is then sorted, and its entries are the same. *)
Definition consistent (cmp_func : list_cmp_func) : Prop :=
  (∀ x y, 0 < cmp_func x y ↔ cmp_func y x < 0)%Z ∧
  (∀ x y z, cmp_func x y ≤ 0 → cmp_func y z ≤ 0 → cmp_func x z ≤ 0)%Z.

Definition qsort_sorts (qsort : list_cmp_func → list ent → list ent) : Prop :=
  ∀ cmp_func l, consistent cmp_func →
    qsort cmp_func l ≡ₚ l ∧ Sorted (λ x y, cmp_func x y ≤ 0)%Z (qsort cmp_func l).

(** ** Loops *)

Lemma shift_up_holds e l c r :
  arr_holds e l (c :: r) →
  ∃ e' c', shift_up (List.length l) e = Some e' ∧ e' = c' :: (Some <$> l) ++ r.
Proof.
  revert e c r. induction l as [|y l IH] using rev_ind; intros e c r He.
  - by exists e, c.
  - rw length_app Nat.add_1_r /=.
    obind (arr_get_holds _ _ _ _ _ He (list_lookup_middle l [] y _ eq_refl)).
    destruct (arr_set_snoc _ _ _ _ y He) as (e1 & Hs & He1).
    rw length_app Nat.add_1_r in Hs. obind Hs.
    rw -assoc arr_holds_app in He1.
    destruct (IH e1 _ _ He1) as (e2 & c' & Hr & ->).
    eexists _, c'. split; [done|]. by rw fmap_app -assoc.
Qed.

Lemma shift_down_holds n i e l r :
  arr_holds e l r → i + n + 1 = List.length l →
  ∃ e' x, shift_down n i e = Some e' ∧ arr_holds e' (delete i l ++ [x]) r.
Proof.
  revert i e l. induction n as [|n IH]; intros i e l He Hn; simpl.
  - destruct l as [|x l0 _] using rev_ind; [simpl in Hn; lia|].
    rw length_app /= in Hn. exists e, x. split; [done|].
    replace i with (List.length l0) by lia. by rw delete_last.
  - destruct (lookup_lt_is_Some_2 l (S i)) as [v Hv]; [lia|].
    obind (arr_get_holds _ _ _ _ _ He Hv).
    destruct (arr_set_holds _ _ _ i v He) as (e1 & Hs & He1); [lia|].
    obind Hs.
    destruct (IH (S i) e1 _ He1) as (e2 & x & Hr & Hres); [rw length_insert; lia|].
    exists e2, x. split; [done|]. by rw delete_insert_S in Hres.
Qed.

Lemma find_from_holds n from a e l0 l r :
  arr_holds e (l0 ++ l) r → from = List.length l0 → n = List.length l →
  find_from n from a e = Some (from + first_pos a l).
Proof.
  revert from l0 l. induction n as [|n IH]; intros from l0 l He -> Hn; destruct l as [|x l];
    simplify_eq/=; [by rw Nat.add_0_r|].
  obind (arr_get_holds _ _ _ _ _ He (list_lookup_middle l0 l x _ eq_refl)).
  case_decide; [by rw Nat.add_0_r|].
  rw (IH _ (l0 ++ [x]) l) //.
  - f_equal. lia.
  - by rw -assoc.
  - rw length_app /=. lia.
Qed.

Lemma zero_from_holds n from e l r :
  arr_holds e l r → from = List.length l → n = List.length r →
  ∃ e', zero_from n from e = Some e' ∧ arr_holds e' (l ++ replicate n 0) [].
Proof.
  revert from e l r. induction n as [|n IH]; intros from e l r He -> Hn; destruct r as [|c r];
    simplify_eq/=.
  - exists e. by rw app_nil_r.
  - destruct (arr_set_snoc _ _ _ _ 0 He) as (e1 & Hs & He1). obind Hs.
    destruct (IH (S (List.length l)) e1 _ _ He1) as (e2 & Hr & He2); [|done|].
    { rw length_app /=. lia. }
    exists e2. split; [done|]. by rw -assoc in He2.
Qed.

Lemma sift_holds cmp_func e rl a r :
  arr_holds e (reverse rl ++ [a]) r →
  ∃ e', sift cmp_func (List.length rl) e = Some e' ∧
    arr_holds e' (reverse (insert_back cmp_func a rl)) r.
Proof.
  revert e r. induction rl as [|y rl IH]; intros e r He; simpl.
  - by exists e.
  - rw reverse_cons -assoc /= in He.
    assert (List.length (reverse rl) = List.length rl) as Hrl by by rw length_reverse.
    assert (arr_get e (S (List.length rl)) = Some a) as Hga.
    { eapply arr_get_holds; [exact He|]. rw lookup_app_r; [|lia].
      by replace (S (List.length rl) - List.length (reverse rl)) with 1 by lia. }
    assert (arr_get e (List.length rl) = Some y) as Hgy.
    { eapply arr_get_holds; [exact He|]. rw -Hrl. by apply list_lookup_middle. }
    obind Hga. obind Hgy. case_match.
    { exists e. split; [done|]. by rw !reverse_cons -assoc. }
    destruct (arr_set_holds _ _ _ (S (List.length rl)) y He) as (e1 & Hs1 & He1).
    { rw length_app /=. lia. }
    obind Hs1.
    rw insert_app_r_alt in He1; [|lia].
    replace (S (List.length rl) - List.length (reverse rl)) with 1 in He1 by lia.
    destruct (arr_set_holds _ _ _ (List.length rl) a He1) as (e2 & Hs2 & He2).
    { rw length_app /=. lia. }
    obind Hs2.
    rw insert_app_r_alt in He2; [|lia].
    replace (List.length rl - List.length (reverse rl)) with 0 in He2 by lia. simpl in He2.
    rw (assoc (++) _ [a] [y]) arr_holds_app in He2.
    destruct (IH e2 _ He2) as (e3 & Hr & He3).
    exists e3. split; [done|]. by rw reverse_cons arr_holds_app.
Qed.

(** ** Operations *)

Lemma resize_rep b l n :
  rep b l → rep (resize b n) l ∧ max_entries (resize b n) = Nat.max n (List.length l).
Proof.
  intros ((r & He) & Hn & Hm & Hc). unfold resize.
  pose proof (arr_holds_length _ _ _ He) as Hlen.
  set (n' := if decide (n < num_entries b) then num_entries b else n).
  assert (n' = Nat.max n (List.length l)) as Hn' by (subst n'; case_decide; lia).
  case_decide.
  - split; [|done]. split; [|split_and!]; simpl.
    + unfold realloc. rw He take_app length_fmap firstn_all2; [|rw length_fmap; lia].
      eexists. unfold arr_holds. by rw -assoc.
    + done.
    + unfold realloc. rw length_app length_take length_replicate. lia.
    + done.
  - split; [|lia]. split_and!; eauto.
Qed.

(** [make_room] leaves at least one free cell. *)
Lemma make_room_rep b l :
  rep b l → ∃ c r, arr_holds (entry (make_room b)) l (c :: r) ∧
    num_entries (make_room b) = List.length l ∧
    max_entries (make_room b) = List.length (entry (make_room b)) ∧
    0 < chunk_size (make_room b).
Proof.
  intros Hrep. pose proof Hrep as ((r & He) & Hn & Hm & Hc).
  pose proof (arr_holds_length _ _ _ He).
  unfold make_room. case_decide.
  - destruct (resize_rep b l (max_entries b + chunk_size b) Hrep)
      as [((r' & He') & Hn' & Hm' & Hc') Hmax].
    pose proof (arr_holds_length _ _ _ He').
    destruct r' as [|c r']; simpl in *; [lia|].
    exists c, r'. split_and!; [done..|lia].
  - destruct r as [|c r]; simpl in *; [lia|]. exists c, r. by split_and!.
Qed.

Lemma append_rep b l a :
  rep b l → ∃ b', append b a = Some b' ∧ rep b' (l ++ [a]).
Proof.
  intros (c & r & He & Hn & Hm & Hc)%make_room_rep. unfold append.
  destruct (arr_set_snoc _ _ _ _ a He) as (e & Hs & He'). rw Hn. obind Hs.
  eexists; split; [done|]. split; [by exists r|].
  rw /= Hm length_app (arr_set_length _ _ _ _ Hs). simpl. by split_and!; try lia.
Qed.

Lemma insert_rep b l a :
  rep b l → ∃ b', insert b a = Some b' ∧ rep b' (a :: l).
Proof.
  intros (c & r & He & Hn & Hm & Hc)%make_room_rep. unfold insert.
  pose proof (arr_holds_length _ _ _ He) as Hlen. simpl in Hlen.
  destruct (shift_up_holds _ _ _ _ He) as (e & c' & Hs & ->). rw Hn. obind Hs.
  eexists; split; [done|]. split; [by exists r|]. simpl.
  rw length_app length_fmap Hm. split_and!; lia.
Qed.

Lemma remove_nth_rep b l n x :
  rep b l → l !! n = Some x →
  ∃ b', remove_nth b (Z.of_nat n) = Some (x, b') ∧ rep b' (delete n l).
Proof.
  intros ((r & He) & Hn & Hm & Hc) Hx. unfold remove_nth.
  pose proof (lookup_lt_Some _ _ _ Hx).
  rw decide_False; [|lia]. rw Nat2Z.id. obind (arr_get_holds _ _ _ _ _ He Hx).
  destruct (shift_down_holds (num_entries b - 1 - n) n _ _ _ He) as (e & y & Hs & He');
    [lia|]. obind Hs.
  pose proof (length_delete l n ltac:(eauto)) as Hd.
  destruct (arr_set_holds _ _ _ (num_entries b - 1) 0 He') as (e2 & Hs2 & He2).
  { rw length_app Hd /=. lia. }
  obind Hs2. eexists; split; [done|].
  rw insert_app_r_alt in He2; [|lia].
  replace (num_entries b - 1 - List.length (delete n l)) with 0 in He2 by lia.
  rw /= arr_holds_app in He2.
  pose proof (arr_holds_length _ _ _ He). pose proof (arr_holds_length _ _ _ He2) as Hl2.
  rw length_app /= in Hl2.
  split; [by eexists|]. simpl. split_and!; [lia|lia|done].
Qed.

Lemma remove_nth_out b n :
  (n < 0 ∨ Z.of_nat (num_entries b) ≤ n)%Z → remove_nth b n = Some (0, b).
Proof. intros. unfold remove_nth. by rw decide_True. Qed.

Lemma first_pos_lookup a l i :
  first_pos a l = i → i < List.length l → l !! i = Some a.
Proof.
  revert i. induction l as [|x l IH]; intros i Hi Hlt; simpl in *; [lia|].
  case_decide; [by subst|]. destruct i; [lia|]. apply IH; lia.
Qed.

Lemma first_pos_le a l : first_pos a l ≤ List.length l.
Proof. induction l; simpl; [done|]. case_decide; lia. Qed.

Lemma find_rep b l a :
  rep b l → find_from (num_entries b) 0 a (entry b) = Some (first_pos a l).
Proof. intros ((r & He) & Hn & _). by rw (find_from_holds _ _ _ _ [] l r). Qed.

Lemma sift_rep b l a cmp_func :
  rep b l →
  ∃ b', sortedinsert b a cmp_func = Some b' ∧
    rep b' (reverse (insert_back cmp_func a (reverse l))).
Proof.
  intros Hrep. unfold sortedinsert.
  destruct (append_rep b l a Hrep) as (b1 & Ha & (r & He) & Hn & Hm & Hc). obind Ha.
  rw Hn length_app Nat.add_sub /=.
  rw -{1}(reverse_involutive l) in He.
  destruct (sift_holds cmp_func _ _ _ _ He) as (e' & Hs & He').
  rw length_reverse in Hs. obind Hs.
  eexists; split; [done|].
  pose proof (arr_holds_length _ _ _ He). pose proof (arr_holds_length _ _ _ He').
  assert (∀ rl, List.length (insert_back cmp_func a rl) = S (List.length rl)) as Hib.
  { induction rl; simpl; [done|]. case_match; simpl; lia. }
  rw length_app !length_reverse /= in H. rw length_reverse Hib length_reverse in H0.
  split; [by exists r|]. simpl. rw length_reverse Hib length_reverse.
  split_and!; [lia|lia|done].
Qed.

Lemma get_rep b l x :
  rep b (l ++ [x]) → ∃ b', get b = Some (x, b') ∧ rep b' l.
Proof.
  intros ((r & He) & Hn & Hm & Hc). unfold get.
  rw length_app /= in Hn. rw decide_False; [|lia].
  replace (num_entries b - 1) with (List.length l) by lia.
  obind (arr_get_holds _ _ _ _ _ He (list_lookup_middle l [] x _ eq_refl)).
  eexists; split; [done|]. rw arr_holds_app in He. by split; [eexists|].
Qed.

Lemma last_rep b l x : rep b (l ++ [x]) → last b = Some x.
Proof.
  intros ((r & He) & Hn & _). unfold last. rw length_app /= in Hn. rw decide_False; [|lia].
  replace (num_entries b - 1) with (List.length l) by lia.
  exact (arr_get_holds _ _ _ _ _ He (list_lookup_middle l [] x _ eq_refl)).
Qed.

Lemma replace_rep b l i v :
  rep b l →
  ∃ b', replace b (Z.of_nat i) v = Some (default 0 (l !! i), b') ∧
    rep b' (<[i := v]> (l ++ replicate (i + 1 - List.length l) 0)).
Proof.
  intros Hrep. pose proof Hrep as ((r & He) & Hn & Hm & Hc). unfold replace.
  rw decide_False; [|lia]. rw Nat2Z.id. case_decide.
  - destruct (resize_rep b l (i + 1) Hrep) as [((r' & He') & Hn' & Hm' & Hc') Hmax].
    pose proof (arr_holds_length _ _ _ He').
    destruct (zero_from_holds (max_entries (resize b (i + 1)) - num_entries (resize b (i + 1)))
      _ _ _ _ He' Hn') as (e & Hz & Hez); [lia|]. obind Hz.
    destruct (arr_set_holds _ _ _ i v Hez) as (e2 & Hs & He2).
    { rw length_app length_replicate. lia. }
    obind Hs.
    rw lookup_ge_None_2; [|lia]. eexists; split; [done|].
    rw Hmax Hn' in He2. replace (Nat.max (i+1) (List.length l)) with (i + 1) in He2 by lia.
    pose proof (arr_holds_length _ _ _ He2) as Hl.
    rw length_insert length_app length_replicate /= in Hl.
    split; [by eexists|]. simpl. rw length_insert length_app length_replicate.
    split_and!; [lia|lia|done].
  - destruct (lookup_lt_is_Some_2 l i) as [x Hx]; [lia|].
    obind (arr_get_holds _ _ _ _ _ He Hx).
    destruct (arr_set_holds _ _ _ i v He) as (e2 & Hs & He2); [lia|]. obind Hs.
    rw Hx. eexists; split; [done|].
    replace (i + 1 - List.length l) with 0 by lia. rw app_nil_r.
    pose proof (arr_set_length _ _ _ _ Hs).
    split; [by eexists|]. simpl. rw length_insert. split_and!; [lia|lia|done].
Qed.

Lemma copy_rep b l : rep b l → ∃ b', BaseList_copy b = Some b' ∧ rep b' l.
Proof.
  intros ((r & He) & Hn & Hm & Hc). unfold BaseList_copy.
  pose proof (arr_holds_length _ _ _ He).
  destruct (arr_copy_holds (num_entries b) 0 _ _ _ _ [] _ He
    (arr_holds_replicate (max_entries b))) as (e & Hcp & He');
    [done|lia|rw length_replicate; lia|].
  obind Hcp. eexists; split; [done|].
  pose proof (arr_holds_length _ _ _ He') as Hl. rw length_drop length_replicate in Hl.
  split; [by eexists|]. simpl. split_and!; [lia|lia|done].
Qed.

Lemma sort_rep qsort b l cmp_func :
  qsort_sorts qsort → consistent cmp_func → rep b l →
  ∃ b', sort qsort b cmp_func = Some b' ∧ rep b' (qsort cmp_func l).
Proof.
  intros Hq Hcmp ((r & He) & Hn & Hm & Hc). destruct (Hq cmp_func l Hcmp) as [Hp _].
  apply Permutation_length in Hp. pose proof (arr_holds_length _ _ _ He).
  assert (take (num_entries b) (entry b) = Some <$> l) as Ht.
  { rw He Hn -(length_fmap Some l). apply take_app_length. }
  assert (mapM id (Some <$> l) = Some l) as Hl by (clear; induction l as [|x l IH]; [done|]; by rw /= IH).
  assert (drop (num_entries b) (entry b) = r) as Hd.
  { rw He Hn -(length_fmap Some l). apply drop_app_length. }
  unfold sort. rw Ht Hl Hd. eexists; split; [done|]. split; [by exists r|]. simpl.
  rw length_app length_fmap Hp. split_and!; [done|lia|done].
Qed.

Lemma new_rep size : rep (BaseList_new size) [].
Proof.
  unfold BaseList_new, DEFAULT_CHUNK_SIZE. case_match.
  { split; [by exists []|]. simpl. split_and!; lia. }
  split; [by eexists|]. simpl. rw length_replicate.
  split_and!; [done|done|]. destruct (Z.ltb_spec 0 size); lia.
Qed.

Lemma remove_rep b l a :
  rep b l →
  ∃ b', remove b a = Some (if decide (a ∈ l) then a else 0, b') ∧
    rep b' (if decide (a ∈ l) then delete (first_pos a l) l else l).
Proof.
  intros Hrep. unfold remove. obind (find_rep _ _ a Hrep).
  assert (a ∈ l ↔ first_pos a l < List.length l) as Hin.
  { clear Hrep. induction l as [|x l IH]; simpl; [rw elem_of_nil; lia|].
    rw elem_of_cons. case_decide; [split; [lia|by left]|]. rw -Nat.succ_lt_mono -IH. tauto. }
  case_decide as Ha.
  - apply Hin in Ha.
    destruct (remove_nth_rep b l (first_pos a l) a Hrep) as (b' & Hr & Hrep');
      eauto using first_pos_lookup.
  - destruct Hrep as (Hh & Hn & Hrest). exists b.
    split; [|by split]. apply remove_nth_out. rw Hin in Ha. lia.
Qed.

Lemma first_pos_spec a l : first_pos a l = List.length l ↔ a ∉ l.
Proof.
  induction l as [|x l IH]; simpl; [set_solver|].
  rw not_elem_of_cons. case_decide; [split; [lia|by intros [??]]|].
  rw -IH. split; [intros [=]; done|by intros [_ ->]].
Qed.

Lemma insert_back_sorted cmp_func a rl :
  (∀ x y, 0 < cmp_func x y → cmp_func y x ≤ 0)%Z →
  Sorted (λ x y, cmp_func x y ≤ 0)%Z rl →
  Sorted (λ x y, cmp_func x y ≤ 0)%Z (insert_back cmp_func a rl).
Proof.
  intros Hcmp. induction rl as [|y rl IH]; intros Hs; simpl; [by repeat constructor|].
  apply Sorted_inv in Hs as [Hs Hy].
  destruct (Z.leb_spec (cmp_func a y) 0); [by repeat constructor|].
  constructor; [by apply IH|].
  destruct rl as [|z rl]; simpl; [by constructor; apply Hcmp|].
  inversion Hy; subst. destruct (Z.leb_spec (cmp_func a z) 0); constructor; auto.
Qed.

Lemma insert_back_perm cmp_func a rl : insert_back cmp_func a rl ≡ₚ a :: rl.
Proof.
  induction rl as [|y rl IH]; simpl; [done|]. case_match; [done|].
  rw IH. apply Permutation_swap.
Qed.

(** ** Properties *)

(** C30. [BaseList] implements the list it stands for.  On a well-formed array holding
    [l], every operation that the class has succeeds (no indeterminate cell is read
    and no index leaves the array) and its result is the one of the list operation:
    - [append], [insert] at the head and [sortedinsert] add an entry, with growth of
      the array ([sortedinsert] moves it towards the head past the entries that
      compare smaller, so it keeps descending lists, see [sortedinsert_descending],
      and not ascending ones, see [sortedinsert_ascending_breaks]);
    - [remove_nth], [remove] and [get] take one out, and change nothing when there is
      none to take; [replace] works within, beyond and below the list;
    - [index] and [last] read an entry ([last] of an empty list is undefined),
      [is_member] and [member_pos] look one up;
    - [sort] sorts for a consistent comparison, [resize] loses no entry, [clear]
      removes all; the copy constructor and the assignment copy. *)
Theorem ops_refine_list (qsort : list_cmp_func → list ent → list ent) (Hqsort : qsort_sorts qsort)
    (b : BaseList) (l : list ent) (Hrep : rep b l) :
  (∀ a, ∃ b', append b a = Some b' ∧ rep b' (l ++ [a])) ∧
  (∀ a, ∃ b', insert b a = Some b' ∧ rep b' (a :: l)) ∧
  (∀ a cmp, ∃ b', sortedinsert b a cmp = Some b' ∧ rep b' (reverse (insert_back cmp a (reverse l)))) ∧
  (∀ n x, l !! n = Some x →
     ∃ b', remove_nth b (Z.of_nat n) = Some (x, b') ∧ rep b' (delete n l)) ∧
  (∀ n, (n < 0 ∨ Z.of_nat (List.length l) ≤ n)%Z → remove_nth b n = Some (0, b)) ∧
  (∀ a, ∃ b', remove b a = Some (if decide (a ∈ l) then a else 0, b') ∧
     rep b' (if decide (a ∈ l) then delete (first_pos a l) l else l)) ∧
  (∀ l0 x, l = l0 ++ [x] → last b = Some x ∧ ∃ b', get b = Some (x, b') ∧ rep b' l0) ∧
  (l = [] → last b = None ∧ get b = Some (0, b)) ∧
  (∀ i v, ∃ b', replace b (Z.of_nat i) v = Some (default 0 (l !! i), b') ∧
     rep b' (<[i := v]> (l ++ replicate (i + 1 - List.length l) 0))) ∧
  (∀ i v, (i < 0)%Z → replace b i v = Some (0, b)) ∧
  (∀ i x, l !! i = Some x → index b i = Some x) ∧
  (∀ e, is_member b e = Some (if decide (e ∈ l) then e else 0)) ∧
  (∀ e, member_pos b e = Some (if decide (e ∈ l) then Z.of_nat (first_pos e l) else -1)%Z) ∧
  (∀ cmp, consistent cmp → ∃ b' l', sort qsort b cmp = Some b' ∧ rep b' l' ∧ l' ≡ₚ l ∧
     Sorted (λ x y, cmp x y ≤ 0)%Z l') ∧
  (∀ n, rep (resize b n) l ∧ max (resize b n) = Nat.max n (List.length l)) ∧
  rep (clear b) [] ∧
  (∃ b', BaseList_copy b = Some b' ∧ rep b' l) ∧
  (∀ this, ∃ b', assign this b false = Some b' ∧ rep b' l) ∧ assign b b true = Some b ∧
  length b = List.length l.
Proof.
  pose proof Hrep as ((r & He) & Hn & _).
  split_and!; eauto using append_rep, insert_rep, sift_rep, remove_nth_rep, remove_rep, replace_rep,
    copy_rep, resize_rep, arr_get_holds.
  - intros n Hout. apply remove_nth_out. by rw Hn.
  - intros l0 x ->. split; [by eapply last_rep|by apply get_rep].
  - intros ->. simpl in Hn. unfold last, get. by rw Hn.
  - intros i v Hi. unfold replace. by rw decide_True.
  - intros e. unfold is_member, length. obind (find_rep _ _ e Hrep). rw Hn.
    pose proof (first_pos_spec e l). repeat case_decide; tauto.
  - intros e. unfold member_pos, length. obind (find_rep _ _ e Hrep). rw Hn.
    pose proof (first_pos_spec e l). repeat case_decide; tauto.
  - intros cmp Hcmp. destruct (sort_rep qsort b l cmp) as (b' & Hs & Hrep'); [done..|].
    exists b', (qsort cmp l). by destruct (Hqsort cmp l Hcmp).
  - split; [by exists []|]. unfold clear, DEFAULT_CHUNK_SIZE. simpl. split_and!; lia.
Qed.

(** [sortedinsert] keeps a list that is in descending order of [cmp_func]
    in descending order, and only adds the new entry to it. *)
Theorem sortedinsert_descending (b : BaseList) (l : list ent) (a : ent)
    (cmp_func : list_cmp_func)
    (Hrep : rep b l)
    (Hcmp : ∀ x y, (0 < cmp_func x y → cmp_func y x ≤ 0)%Z)
    (Hsorted : Sorted (λ x y, cmp_func y x ≤ 0)%Z l) :
  ∃ b' l', sortedinsert b a cmp_func = Some b' ∧ rep b' l' ∧ l' ≡ₚ a :: l ∧
    Sorted (λ x y, cmp_func y x ≤ 0)%Z l'.
Proof.
  destruct (sift_rep b l a cmp_func Hrep) as (b' & Hs & Hrep').
  exists b', (reverse (insert_back cmp_func a (reverse l))). split_and!; [done|done| |].
  - by rw reverse_Permutation insert_back_perm reverse_Permutation.
  - apply (Sorted_reverse (λ x y, cmp_func x y ≤ 0)%Z).
    apply insert_back_sorted; [done|]. by apply Sorted_reverse in Hsorted.
Qed.
(** ** Witnesses *)

(** A list of three entries, built by the operations themselves. *)
Definition sample : BaseList :=
  default (BaseList_new 0)
    (b ← append (BaseList_new 2) 5; b ← append b 7; insert b 9).

Lemma bl_sample_rep : rep sample [9; 5; 7].
Proof. split; [by exists [None]|]. by split_and!; vm_compute; try lia. Qed.

(** A [qsort]: merge sort. *)
Definition cmp_le (cmp_func : list_cmp_func) (x y : ent) : Prop := (cmp_func x y ≤ 0)%Z.
#[local] Instance cmp_le_dec cmp_func x y : Decision (cmp_le cmp_func x y).
Proof. unfold cmp_le. apply _. Defined.

Definition qsort_sample (cmp_func : list_cmp_func) (l : list ent) : list ent :=
  merge_sort (cmp_le cmp_func) l.

Lemma qsort_sample_sorts : qsort_sorts qsort_sample.
Proof.
  intros cmp l [Hsym _]. split; [apply merge_sort_Permutation|]. eapply (Sorted_merge_sort (cmp_le cmp)). Unshelve.
  intros x y. unfold cmp_le. destruct (Z.leb_spec (cmp x y) 0) as [?|H]; [by left|right]. apply Hsym in H. lia.
Qed.

Lemma ops_refine_list_witness :
  rep sample [9; 5; 7] ∧ ∃ b', append sample 4 = Some b' ∧ rep b' [9; 5; 7; 4].
Proof.
  split; [exact bl_sample_rep|].
  exact (proj1 (ops_refine_list qsort_sample qsort_sample_sorts _ _ bl_sample_rep) 4).
Defined.

(** Sorting the sample. *)
Example sample_sorted :
  sort qsort_sample sample (λ x y, Z.of_nat x - Z.of_nat y)%Z = Some (mkBaseList [Some 5; Some 7; Some 9; None] 4 4 3).
Proof. vm_compute. reflexivity. Qed.

Definition descending_sample : BaseList :=
  default (BaseList_new 0) (b ← append (BaseList_new 0) 8; append b 3).

Lemma sortedinsert_descending_witness :
  ∃ b' l', sortedinsert descending_sample 5 (λ x y, Z.of_nat x - Z.of_nat y)%Z = Some b' ∧
    rep b' l' ∧ l' ≡ₚ [5; 8; 3] ∧
    Sorted (λ x y, Z.of_nat y - Z.of_nat x ≤ 0)%Z l'.
Proof.
  apply (sortedinsert_descending descending_sample [8; 3] 5 (λ x y, Z.of_nat x - Z.of_nat y)%Z).
  - split; [by exists (replicate 8 None)|]. by split_and!; vm_compute; try lia.
  - intros x y. lia.
  - repeat constructor; lia.
Defined.

(** The comment in [sortedinsert] says that the function is optimised for a new
    element larger than most entries, that is for an ascending list; on an
    ascending list it does not keep the order. *)
Lemma sortedinsert_ascending_breaks :
  ∃ b', sortedinsert
    (default (BaseList_new 0) (b ← append (BaseList_new 0) 1; append b 2)) 3
    (λ x y, Z.of_nat x - Z.of_nat y)%Z = Some b' ∧ rep b' [3; 1; 2].
Proof.
  eexists. split; [reflexivity|]. split; [by exists (replicate 7 None)|].
  by split_and!; vm_compute; try lia.
Qed.

End BL.
