(* ===== verification/Queue.v ===== *)
(** Queue: the queue of Queue.cc / Queue.h, a ring in an array, and the bitmap set of
    IntSet.h.

    The ring has one cell more than it holds entries at most, so that an empty and a
    full one differ.  Cells that [new] leaves indeterminate are [None]; sizes are
    numbers without bound. *)
From S2P Require Import Prelude.

Module Q.

(** [typedef void* ent]; [0] is the null pointer. *)
Abbreviation ent := nat (only parsing).

Record BaseQueue := mkBaseQueue {
  entry : list (option ent);
  chunk_size : nat;
  max_entries : nat;
  num_entries : nat;
  head : nat;
  tail : nat
}.

Definition DEFAULT_CHUNK_SIZE : nat := 10.

(** The argument only tells whether there is room at first. *)
Definition BaseQueue_new (size : Z) : BaseQueue :=
  if (size <? 0)%Z then mkBaseQueue (arr_alloc 1) DEFAULT_CHUNK_SIZE 0 0 0 0
  else mkBaseQueue (arr_alloc (DEFAULT_CHUNK_SIZE + 1)) DEFAULT_CHUNK_SIZE DEFAULT_CHUNK_SIZE 0 0 0.

Definition length (q : BaseQueue) : nat := num_entries q.
Definition clear (q : BaseQueue) : BaseQueue := mkBaseQueue (entry q) (chunk_size q) (max_entries q) 0 0 0.

(** [memcpy] from a part of an array. *)
Definition part (e : list (option ent)) (from n : nat) : option (list (option ent)) :=
  if decide (from + n ≤ List.length e) then Some (take n (drop from e)) else None.

Definition resize (q : BaseQueue) (new_size : nat) : option BaseQueue :=
  let new_size := if decide (new_size < num_entries q) then num_entries q else new_size in
  if decide (new_size ≠ max_entries q) then
    kept ← (if decide (head q ≤ tail q) then part (entry q) (head q) (num_entries q)
            else e1 ← part (entry q) (head q) (num_entries q - tail q); e2 ← part (entry q) 0 (tail q); Some (e1 ++ e2));
    Some (mkBaseQueue (kept ++ replicate (new_size + 1 - List.length kept) None) (chunk_size q) new_size (num_entries q) 0 (num_entries q))
  else Some q.

(** More room for a full queue. *)
Definition make_room (q : BaseQueue) : option BaseQueue :=
  if decide (num_entries q = max_entries q) then
    q ← resize q (max_entries q + chunk_size q);
    Some (mkBaseQueue (entry q) (chunk_size q * 2) (max_entries q) (num_entries q) (head q) (tail q))
  else Some q.

Definition push_front (q : BaseQueue) (a : ent) : option BaseQueue :=
  q ← make_room q;
  let h := if decide (head q = 0) then max_entries q else head q - 1 in
  e ← arr_set (entry q) h a;
  Some (mkBaseQueue e (chunk_size q) (max_entries q) (num_entries q + 1) h (tail q)).

Definition push_back (q : BaseQueue) (a : ent) : option BaseQueue :=
  q ← make_room q;
  e ← arr_set (entry q) (tail q) a;
  let t := if decide (tail q < max_entries q) then tail q + 1 else 0 in
  Some (mkBaseQueue e (chunk_size q) (max_entries q) (num_entries q + 1) (head q) t).

Definition pop_front (q : BaseQueue) : option (ent * BaseQueue) :=
  if decide (num_entries q = 0) then Some (0, q)
  else
    x ← arr_get (entry q) (head q);
    let h := if decide (head q < max_entries q) then head q + 1 else 0 in
    Some (x, mkBaseQueue (entry q) (chunk_size q) (max_entries q) (num_entries q - 1) h (tail q)).

Definition pop_back (q : BaseQueue) : option (ent * BaseQueue) :=
  if decide (num_entries q = 0) then Some (0, q)
  else
    let t := if decide (tail q = 0) then max_entries q else tail q - 1 in
    x ← arr_get (entry q) t;
    Some (x, mkBaseQueue (entry q) (chunk_size q) (max_entries q) (num_entries q - 1) (head q) t).

Definition incr (q : BaseQueue) (index : nat) : nat := if decide (index < max_entries q) then index + 1 else 0.

(** [loop_over_queue], reading each entry. *)
Fixpoint loop_over_queue (fuel : nat) (q : BaseQueue) (index : nat) : option (list ent) :=
  if decide (index = tail q) then Some []
  else match fuel with
       | O => None
       | S fuel => x ← arr_get (entry q) index; l ← loop_over_queue fuel q (incr q index); Some (x :: l)
       end.

(** ** The queue as a list *)

(** The cell of the [i]-th entry. *)
Definition cell (q : BaseQueue) (i : nat) : nat := (head q + i) mod (max_entries q + 1).

Record rep (q : BaseQueue) (l : list ent) : Prop := {
  rep_room : List.length (entry q) = max_entries q + 1;
  rep_chunk : 0 < chunk_size q;
  rep_num : num_entries q = List.length l;
  rep_fits : List.length l ≤ max_entries q;
  rep_head : head q ≤ max_entries q;
  rep_tail : tail q = cell q (List.length l);
  rep_cells : ∀ i x, l !! i = Some x → entry q !! cell q i = Some (Some x)
}.

(** The ring in numbers. *)
Lemma ring_next n i : i ≤ n → (i + 1) mod (n + 1) = if decide (i < n) then i + 1 else 0.
Proof.
  intros Hi. case_decide as Hn; [by rw Nat.mod_small; [|lia]|]. assert (i = n) as -> by lia. by rw Nat.Div0.mod_same.
Qed.
Lemma ring_step n h i : (h + i + 1) mod (n + 1) = ((h + i) mod (n + 1) + 1) mod (n + 1).
Proof. by rw Nat.Div0.add_mod_idemp_l. Qed.
Lemma ring_inj n h i j : i ≤ n → j ≤ n → (h + i) mod (n + 1) = (h + j) mod (n + 1) → i = j.
Proof.
  intros Hi Hj He. pose proof (Nat.div_mod_eq (h + i) (n + 1)) as H1. pose proof (Nat.div_mod_eq (h + j) (n + 1)) as H2. rw He in H1.
  assert ((h + i) / (n + 1) = (h + j) / (n + 1)) as Hd by nia. rw Hd in H1. lia.
Qed.
Lemma ring_at n h i : h ≤ n → i ≤ n → (h + i) mod (n + 1) = if decide (h + i ≤ n) then h + i else h + i - (n + 1).
Proof.
  intros Hh Hi. case_decide as Hn; [by rw Nat.mod_small; [|lia]|].
  replace (h + i) with (h + i - (n + 1) + 1 * (n + 1)) at 1 by lia. rw Nat.Div0.mod_add Nat.mod_small; lia.
Qed.

Lemma cell_bound q i : cell q i ≤ max_entries q.
Proof. unfold cell. pose proof (Nat.mod_upper_bound (head q + i) (max_entries q + 1)). lia. Qed.

Lemma part_lookup e from n p i : part e from n = Some p → i < n → p !! i = e !! (from + i).
Proof. unfold part. case_decide; [|done]. intros [= <-] Hi. by rw lookup_take_lt // lookup_drop. Qed.
Lemma part_length e from n p : part e from n = Some p → List.length p = n.
Proof. unfold part. case_decide; [|done]. intros [= <-]. rw length_take_le // length_drop. lia. Qed.
Lemma part_some e from n : from + n ≤ List.length e → ∃ p, part e from n = Some p.
Proof. intros H. unfold part. rw decide_True //. eauto. Qed.

(** The entries from the front on, wherever they are in the array. *)
Lemma kept_entries q l : rep q l → ∃ kept,
  (if decide (head q ≤ tail q) then part (entry q) (head q) (num_entries q)
   else e1 ← part (entry q) (head q) (num_entries q - tail q); e2 ← part (entry q) 0 (tail q); Some (e1 ++ e2)) = Some kept ∧
  kept = Some <$> l.
Proof.
  intros [Hr Hc Hn Hf Hh Ht Hcells]. unfold cell in *. rw ring_at // in Ht. rw Hn.
  assert (∀ i x, l !! i = Some x → entry q !! (if decide (head q + i ≤ max_entries q) then head q + i else head q + i - (max_entries q + 1)) = Some (Some x)) as Hat.
  { intros i x Hi. pose proof (lookup_lt_Some _ _ _ Hi). rw -(Hcells i x Hi) ring_at //. lia. }
  destruct (decide (head q + List.length l ≤ max_entries q)) as [Hw|Hw].
  - rw decide_True; [|lia]. destruct (part_some (entry q) (head q) (List.length l)) as [p Hp]; [lia|]. exists p. split; [done|].
    apply list_eq_same_length with (List.length l); [by rw length_fmap|by apply part_length in Hp|].
    intros i x y Hi Hx Hy. rw (part_lookup _ _ _ _ i Hp Hi) in Hx. rw list_lookup_fmap in Hy. apply fmap_Some in Hy as (z & Hz & ->).
    specialize (Hat i z Hz). rw decide_True in Hat; [|lia]. rw Hat in Hx. by injection Hx.
  - rw decide_False; [|lia]. destruct (part_some (entry q) (head q) (List.length l - tail q)) as [p1 Hp1]; [lia|].
    destruct (part_some (entry q) 0 (tail q)) as [p2 Hp2]; [lia|]. rw Hp1 Hp2. exists (p1 ++ p2). split; [done|].
    pose proof (part_length _ _ _ _ Hp1) as Hl1. pose proof (part_length _ _ _ _ Hp2) as Hl2.
    apply list_eq_same_length with (List.length l); [by rw length_fmap|rw length_app; lia|].
    intros i x y Hi Hx Hy. rw list_lookup_fmap in Hy. apply fmap_Some in Hy as (z & Hz & ->). specialize (Hat i z Hz).
    destruct (decide (i < List.length l - tail q)) as [Hlt|Hge].
    + rw lookup_app_l in Hx; [|lia]. rw (part_lookup _ _ _ _ i Hp1 Hlt) in Hx. rw decide_True in Hat; [|lia]. rw Hat in Hx. by injection Hx.
    + rw lookup_app_r in Hx; [|lia]. rw (part_lookup _ _ _ _ _ Hp2) in Hx; [|lia]. rw decide_False in Hat; [|lia].
      replace (0 + (i - List.length p1)) with (head q + i - (max_entries q + 1)) in Hx by lia. rw Hat in Hx. by injection Hx.
Qed.

Lemma ring_resized q l n : rep q l → ∃ q', resize q n = Some q' ∧ rep q' l ∧ max_entries q' = n `max` List.length l ∧ chunk_size q' = chunk_size q.
Proof.
  intros Hrep. pose proof Hrep as [Hr Hc Hn Hf Hh Ht Hcells]. unfold resize.
  set (m := if decide (n < num_entries q) then num_entries q else n).
  assert (m = n `max` List.length l) as Hm by (unfold m; case_decide; lia).
  case_decide as Hd; [|exists q; split; [done|]; split; [done|]; split; [lia|done]].
  destruct (kept_entries q l Hrep) as (kept & -> & ->). eexists. split; [reflexivity|]. rw length_fmap. split; [|done].
  split; simpl; try lia.
  - rw length_app length_fmap length_replicate. lia.
  - unfold cell. simpl. rw Nat.mod_small; lia.
  - intros i x Hi. pose proof (lookup_lt_Some _ _ _ Hi). unfold cell. simpl. rw Nat.mod_small; [|lia].
    rw lookup_app_l; [|by rw length_fmap]. by rw list_lookup_fmap Hi.
Qed.

Lemma ring_room q l : rep q l → ∃ q', make_room q = Some q' ∧ rep q' l ∧ List.length l < max_entries q'.
Proof.
  intros Hrep. pose proof Hrep as [Hr Hc Hn Hf Hh Ht Hcells]. unfold make_room. case_decide as Hd; [|exists q; split; [done|]; split; [done|lia]].
  destruct (ring_resized q l (max_entries q + chunk_size q) Hrep) as (q' & -> & [] & Hmax & Hch).
  eexists. split; [reflexivity|]. split; [|simpl; lia]. split; simpl; try done. lia.
Qed.

Lemma arr_set_some {A} (a : list (option A)) i v : i < List.length a → arr_set a i v = Some (<[i := Some v]> a).
Proof. intros Hi. unfold arr_set. by rw decide_True. Qed.

(** An entry is written where none is. *)
Lemma cell_other q l i : rep q l → i < List.length l → cell q i ≠ cell q (List.length l).
Proof. intros [] Hi He. apply ring_inj in He; lia. Qed.

Lemma push_back_rep q l a : rep q l → ∃ q', push_back q a = Some q' ∧ rep q' (l ++ [a]).
Proof.
  intros Hrep0. destruct (ring_room q l Hrep0) as (q1 & Hq1 & Hrep & Hroom). unfold push_back. rw Hq1. cbn [mbind option_bind].
  pose proof Hrep as [Hr Hc Hn Hf Hh Ht Hcells]. pose proof (cell_bound q1 (List.length l)) as Hb.
  rw arr_set_some; [|lia]. eexists. split; [reflexivity|]. split; simpl; rw ?length_insert ?length_app; simpl; try lia.
  - unfold cell in *. simpl. rw Nat.add_assoc ring_step -Ht -ring_next //. lia.
  - intros i x Hi. rw Ht. apply lookup_snoc_Some in Hi as [[Hlt Hi]|[-> ->]].
    + rw list_lookup_insert_ne; [by apply (Hcells i x)|]. intros He. by apply (cell_other q1 l i Hrep Hlt).
    + rw list_lookup_insert_eq //. unfold cell in *. simpl. lia.
Qed.

Lemma push_front_rep q l a : rep q l → ∃ q', push_front q a = Some q' ∧ rep q' (a :: l).
Proof.
  intros Hrep0. destruct (ring_room q l Hrep0) as (q1 & Hq1 & Hrep & Hroom). unfold push_front. rw Hq1. cbn [mbind option_bind].
  pose proof Hrep as [Hr Hc Hn Hf Hh Ht Hcells]. set (h := if decide (head q1 = 0) then max_entries q1 else head q1 - 1).
  assert (h ≤ max_entries q1) as Hhb by (unfold h; case_decide; lia).
  assert (∀ i, (h + S i) mod (max_entries q1 + 1) = (head q1 + i) mod (max_entries q1 + 1)) as Hshift.
  { intros i. unfold h. case_decide as H0; [|f_equal; lia]. rw H0. replace (max_entries q1 + S i) with (0 + i + 1 * (max_entries q1 + 1)) by lia.
    by rw Nat.Div0.mod_add. }
  rw arr_set_some; [|lia]. eexists. split; [reflexivity|]. split; simpl; rw ?length_insert; try lia.
  - unfold cell in *. simpl. by rw Hshift.
  - intros [|i] x Hi; unfold cell; simpl.
    + injection Hi as ->. rw Nat.add_0_r Nat.mod_small; [|lia]. rw list_lookup_insert_eq //. lia.
    + simpl in Hi. pose proof (lookup_lt_Some _ _ _ Hi). rw Hshift list_lookup_insert_ne; [by apply (Hcells i x)|].
      intros He. rw -Hshift -{1}(Nat.mod_small h (max_entries q1 + 1)) in He; [|lia]. rw -{1}(Nat.add_0_r h) in He.
      apply ring_inj in He; lia.
Qed.

Lemma pop_front_rep q x l : rep q (x :: l) → ∃ q', pop_front q = Some (x, q') ∧ rep q' l.
Proof.
  intros [Hr Hc Hn Hf Hh Ht Hcells]. cbn [List.length] in *. unfold pop_front. rw decide_False; [|lia].
  pose proof (Hcells 0 x eq_refl) as Hx. unfold cell in Hx. rw Nat.add_0_r Nat.mod_small in Hx; [|lia]. unfold arr_get. rw Hx. cbn [mjoin option_join mbind option_bind].
  assert (∀ i, ((if decide (head q < max_entries q) then head q + 1 else 0) + i) mod (max_entries q + 1) = (head q + S i) mod (max_entries q + 1)) as Hshift.
  { intros i. rw -ring_next // Nat.Div0.add_mod_idemp_l. f_equal. lia. }
  eexists. split; [reflexivity|]. split; simpl; try lia; [case_decide; lia| |].
  - unfold cell in *. simpl. by rw Hshift.
  - intros i y Hi. unfold cell. simpl. rw Hshift. by apply (Hcells (S i) y).
Qed.

Lemma pop_back_rep q x l : rep q (l ++ [x]) → ∃ q', pop_back q = Some (x, q') ∧ rep q' l.
Proof.
  intros [Hr Hc Hn Hf Hh Ht Hcells]. rw length_app /= in Hn Hf Ht. unfold pop_back. rw decide_False; [|lia].
  set (t := if decide (tail q = 0) then max_entries q else tail q - 1).
  assert (t = cell q (List.length l)) as Htc.
  { unfold t, cell in *. pose proof (Nat.mod_upper_bound (head q + List.length l) (max_entries q + 1) ltac:(lia)).
    rw Nat.add_assoc ring_step ring_next in Ht; [|lia]. case_decide; case_decide; lia. }
  assert ((l ++ [x]) !! List.length l = Some x) as Hx by (rw lookup_app_r // Nat.sub_diag //).
  unfold arr_get. rw Htc (Hcells _ _ Hx). cbn [mjoin option_join mbind option_bind]. eexists. split; [reflexivity|]. split; simpl; try lia; try done.
  intros i y Hi. apply (Hcells i y). by apply lookup_app_l_Some.
Qed.

Lemma pop_empty q : rep q [] → pop_front q = Some (0, q) ∧ pop_back q = Some (0, q).
Proof. intros []. unfold pop_front, pop_back. by rw !decide_True. Qed.

Lemma clear_rep q l : rep q l → rep (clear q) [].
Proof. intros []. split; simpl; try lia; try done. by rw /cell Nat.mod_small; [|simpl; lia]. Qed.

Lemma loop_rep q l : rep q l → ∀ i, i ≤ List.length l → loop_over_queue (List.length l - i) q (cell q i) = Some (drop i l).
Proof.
  intros Hrep. pose proof Hrep as [Hr Hc Hn Hf Hh Ht Hcells]. intros i Hi. remember (List.length l - i) as n eqn:Hm. revert i Hi Hm.
  induction n as [|n IH]; intros i Hi Hm.
  - assert (i = List.length l) as -> by lia. simpl. rw decide_True; [by rw drop_all|done].
  - simpl. rw decide_False; [|rw Ht; apply cell_other; [done|lia]].
    destruct (lookup_lt_is_Some_2 l i) as [x Hx]; [lia|]. unfold arr_get. rw (Hcells _ _ Hx). cbn [mjoin option_join mbind option_bind].
    assert (incr q (cell q i) = cell q (S i)) as ->.
    { unfold incr, cell. pose proof (cell_bound q i) as Hb. unfold cell in Hb. rw -ring_next // -ring_step. f_equal. lia. }
    rw IH; [|lia|lia]. by rw (drop_S l x i).
Qed.

(** The queue implements a list with two ends: on a ring that stands for [l], every
    operation succeeds, no cell that was not written is read, and the result is that
    of the list; also when the ring has to grow, wraps around, or is shortened, which
    never loses an entry. *)
Theorem ops_implement_deque (q : BaseQueue) (l : list ent) : rep q l →
  (∀ a, ∃ q', push_back q a = Some q' ∧ rep q' (l ++ [a])) ∧
  (∀ a, ∃ q', push_front q a = Some q' ∧ rep q' (a :: l)) ∧
  (∀ x l', l = x :: l' → ∃ q', pop_front q = Some (x, q') ∧ rep q' l') ∧
  (∀ x l', l = l' ++ [x] → ∃ q', pop_back q = Some (x, q') ∧ rep q' l') ∧
  (l = [] → pop_front q = Some (0, q) ∧ pop_back q = Some (0, q)) ∧
  (∀ n, ∃ q', resize q n = Some q' ∧ rep q' l ∧ max_entries q' = n `max` List.length l) ∧
  loop_over_queue (List.length l) q (head q) = Some l ∧ length q = List.length l ∧ rep (clear q) [].
Proof.
  intros Hrep. split_and!; eauto using push_back_rep, push_front_rep, clear_rep.
  - intros x l' ->. by apply pop_front_rep.
  - intros x l' ->. by apply pop_back_rep.
  - intros ->. by apply pop_empty.
  - intros n. destruct (ring_resized q l n Hrep) as (q' & ? & ? & ? & _). eauto.
  - pose proof (loop_rep q l Hrep 0 ltac:(lia)) as Hl. rw Nat.sub_0_r drop_0 in Hl. rw -Hl. f_equal. unfold cell.
    rw Nat.add_0_r Nat.mod_small //. pose proof (rep_head _ _ Hrep). lia.
  - apply Hrep.
Qed.

Lemma new_queue size : rep (BaseQueue_new size) [].
Proof. unfold BaseQueue_new, DEFAULT_CHUNK_SIZE. destruct (size <? 0)%Z; split; simpl; try done; lia. Qed.

(** A queue that wraps around. *)
Definition wrapped : BaseQueue := mkBaseQueue [Some 7; Some 8; None; Some 5] 10 3 3 3 2.

Lemma ops_implement_deque_witness :
  rep wrapped [5; 7; 8] ∧ ∃ q', push_back wrapped 9 = Some q' ∧ rep q' [5; 7; 8; 9].
Proof.
  assert (rep wrapped [5; 7; 8]) as Hrep.
  { split; try done; simpl; try lia. intros [|[|[|i]]] x [= <-]; reflexivity. }
  split; [exact Hrep|]. exact (proj1 (ops_implement_deque _ _ Hrep) 9).
Defined.
End Q.
