(* ===== verification/IntSet.v ===== *)
(** IntSet: sets of small numbers as a bitmap, IntSet.h / IntSet.cc.

    A byte is a number below 256; an index outside of the array is undefined. *)
From S2P Require Import Prelude.

Module IS.

Record IntSet := mkIntSet { size : nat; set : list Z }.

Definition IntSet_new (n : nat) : IntSet := mkIntSet (n / 8 + 1) (replicate (n / 8 + 1) 0%Z).

(** The old bytes are copied to the front of the new ones. *)
Definition Expand (i : nat) (s : IntSet) : option IntSet :=
  let newsize := i / 8 + 1 in
  if decide (size s ≤ newsize) then Some (mkIntSet newsize (take (size s) (set s) ++ replicate (newsize - size s) 0%Z)) else None.

Definition bit (i : nat) : Z := Z.shiftl 1 (Z.of_nat (i mod 8)).

Definition Insert (i : nat) (s : IntSet) : option IntSet :=
  s ← (if decide (size s ≤ i / 8) then Expand i s else Some s);
  x ← set s !! (i / 8);
  Some (mkIntSet (size s) (<[i / 8 := uint8 (Z.lor x (bit i))]> (set s))).

Definition Remove (i : nat) (s : IntSet) : option IntSet :=
  if decide (size s ≤ i / 8) then Expand i s
  else x ← set s !! (i / 8); Some (mkIntSet (size s) (<[i / 8 := uint8 (Z.land x (Z.lnot (bit i)))]> (set s))).

Definition Contains (i : nat) (s : IntSet) : option bool :=
  if decide (i / 8 < size s) then x ← set s !! (i / 8); Some (negb (Z.land x (bit i) =? 0)%Z) else Some false.

Definition Clear (s : IntSet) : IntSet := mkIntSet (size s) (replicate (size s) 0%Z).

(** ** The bitmap as a set *)

Record rep (s : IntSet) (X : gset nat) : Prop := {
  rep_size : length (set s) = size s;
  rep_bits : ∀ j x (k : nat), set s !! j = Some x → k < 8 → Z.testbit x (Z.of_nat k) = bool_decide (8 * j + k ∈ X);
  rep_bound : ∀ i, i ∈ X → i / 8 < size s
}.

Lemma land_bit x k : (0 ≤ k)%Z → negb (Z.land x (Z.shiftl 1 k) =? 0)%Z = Z.testbit x k.
Proof.
  intros Hk. rw Z.shiftl_1_l. destruct (Z.testbit x k) eqn:Ht.
  - apply negb_true_iff, Z.eqb_neq. intros H0. apply (f_equal (λ y, Z.testbit y k)) in H0.
    rw Z.land_spec Ht Z.pow2_bits_true in H0; [|done]. by rw Z.bits_0 in H0.
  - apply negb_false_iff, Z.eqb_eq. apply Z.bits_inj'. intros j Hj. rw Z.land_spec Z.bits_0 Z.pow2_bits_eqb //.
    destruct (Z.eqb_spec k j) as [<-|Hkj]; [by rw Ht|apply andb_false_r].
Qed.

Lemma contains_rep s X i : rep s X → Contains i s = Some (bool_decide (i ∈ X)).
Proof.
  intros [Hs Hb Hi]. unfold Contains. case_decide as Hlt.
  - destruct (lookup_lt_is_Some_2 (set s) (i / 8)) as [x Hx]; [lia|]. rw Hx. cbn [mbind option_bind]. f_equal. unfold bit.
    rw land_bit; [|lia]. rw (Hb (i / 8) x (i mod 8) Hx); [|by apply Nat.mod_upper_bound]. by rw -Nat.div_mod_eq.
  - f_equal. symmetry. apply bool_decide_eq_false. intros Hx%Hi. lia.
Qed.

Lemma expand_rep s X i : rep s X → size s ≤ i / 8 → ∃ s', Expand i s = Some s' ∧ rep s' X ∧ size s' = i / 8 + 1.
Proof.
  intros [Hs Hb Hi] Hle. unfold Expand. rw decide_True; [|lia]. eexists. split; [reflexivity|]. split; [|done]. split; cbn [size set].
  - rw length_app length_take_le ?length_replicate; lia.
  - intros j x k Hx Hk. rw firstn_all2 in Hx; [|lia]. apply lookup_app_Some in Hx as [Hx|[Hge Hx]]; [by eapply Hb|].
    apply lookup_replicate in Hx as [-> _]. rw Z.bits_0. symmetry. apply bool_decide_eq_false. intros Hx%Hi.
    rw Nat.mul_comm Nat.div_add_l // in Hx. pose proof (Nat.div_small k 8 Hk). lia.
  - intros j Hj%Hi. lia.
Qed.

(** A byte is changed in one bit. *)
Lemma bit_of_byte x i k (b : bool) : (k < 8) → 
  Z.testbit (uint8 (if b then Z.lor x (bit i) else Z.land x (Z.lnot (bit i)))) (Z.of_nat k) =
  if decide (k = i mod 8) then b else Z.testbit x (Z.of_nat k).
Proof.
  intros Hk. unfold uint8, wrap_u. rw Z.mod_pow2_bits_low; [|lia]. unfold bit. rw Z.shiftl_1_l.
  assert (Z.testbit (2 ^ Z.of_nat (i mod 8)) (Z.of_nat k) = bool_decide (k = i mod 8)) as Hp.
  { rw Z.pow2_bits_eqb; [|apply Nat2Z.is_nonneg]. apply eq_true_iff_eq. rw Z.eqb_eq bool_decide_eq_true. split; [by intros ?%Nat2Z.inj|by intros ->]. }
  destruct b; [rw Z.lor_spec Hp|rw Z.land_spec Z.lnot_spec; [rw Hp|apply Nat2Z.is_nonneg]]; case_decide as Hd.
  - by rw bool_decide_eq_true_2 // orb_true_r.
  - by rw bool_decide_eq_false_2 // orb_false_r.
  - by rw bool_decide_eq_true_2 // andb_false_r.
  - by rw bool_decide_eq_false_2 // andb_true_r.
Qed.

Lemma same_bit i j k : k < 8 → 8 * j + k = i ↔ j = i / 8 ∧ k = i mod 8.
Proof.
  intros Hk. split.
  - intros <-. rw Nat.mul_comm Nat.div_add_l // Nat.div_small // Nat.add_0_r Nat.Div0.add_mod Nat.Div0.mod_mul Nat.add_0_l Nat.Div0.mod_mod Nat.mod_small //.
  - intros [-> ->]. symmetry. apply Nat.div_mod_eq.
Qed.

Lemma set_rep s X i x (b : bool) : rep s X → set s !! (i / 8) = Some x →
  rep (mkIntSet (size s) (<[i / 8 := uint8 (if b then Z.lor x (bit i) else Z.land x (Z.lnot (bit i)))]> (set s)))
    (if b then {[i]} ∪ X else X ∖ {[i]}).
Proof.
  intros [Hs Hb Hi] Hx. pose proof (lookup_lt_Some _ _ _ Hx) as Hlt. split; cbn [size set].
  - by rw length_insert.
  - intros j y k Hy Hk. pose proof (same_bit i j k Hk) as Hsame. destruct (decide (j = i / 8)) as [->|Hj].
    + rw list_lookup_insert_eq // in Hy. injection Hy as <-. rw bit_of_byte //. case_decide as Hd.
      * assert (8 * (i / 8) + k = i) as -> by (by apply Hsame). destruct b; symmetry; [apply bool_decide_eq_true; set_solver|apply bool_decide_eq_false; set_solver].
      * rw (Hb (i / 8) x k Hx Hk). assert (8 * (i / 8) + k ≠ i) as Hne by (intros [_ ?]%Hsame; done).
        apply bool_decide_ext. destruct b; set_solver.
    + rw list_lookup_insert_ne // in Hy. rw (Hb j y k Hy Hk). assert (8 * j + k ≠ i) as Hne by (intros [? _]%Hsame; done).
      apply bool_decide_ext. destruct b; set_solver.
  - intros j Hj. rw -Hs. destruct (decide (j = i)) as [->|Hne]; [done|]. rw Hs. apply Hi. destruct b; set_solver.
Qed.

(** The bitmap implements finite sets: on one that stands for [X], every operation
    stays inside the array, growing it where it has to, and does what it says to the
    set. *)
Theorem ops_implement_set (s : IntSet) (X : gset nat) (i : nat) : rep s X →
  Contains i s = Some (bool_decide (i ∈ X)) ∧
  (∃ s', Insert i s = Some s' ∧ rep s' ({[i]} ∪ X)) ∧
  (∃ s', Remove i s = Some s' ∧ rep s' (X ∖ {[i]})) ∧
  rep (Clear s) ∅.
Proof.
  intros Hrep. pose proof Hrep as [Hs Hb Hi]. split; [by apply contains_rep|]. split; [|split].
  - unfold Insert. case_decide as Hle.
    + destruct (expand_rep s X i Hrep Hle) as (s1 & -> & Hr1 & Hsz). cbn [mbind option_bind].
      destruct (lookup_lt_is_Some_2 (set s1) (i / 8)) as [x Hx]; [rw (rep_size _ _ Hr1); lia|]. rw Hx. cbn [mbind option_bind].
      eexists. split; [reflexivity|]. exact (set_rep s1 X i x true Hr1 Hx).
    + cbn [mbind option_bind]. destruct (lookup_lt_is_Some_2 (set s) (i / 8)) as [x Hx]; [lia|]. rw Hx. cbn [mbind option_bind].
      eexists. split; [reflexivity|]. exact (set_rep s X i x true Hrep Hx).
  - unfold Remove. case_decide as Hle.
    + destruct (expand_rep s X i Hrep Hle) as (s1 & -> & Hr1 & _). exists s1. split; [done|].
      assert (X ∖ {[i]} = X) as -> by (apply set_eq; intros j; split; [set_solver|]; intros Hj; pose proof (Hi j Hj); apply elem_of_difference; split; [done|];
        intros ->%elem_of_singleton; lia). done.
    + destruct (lookup_lt_is_Some_2 (set s) (i / 8)) as [x Hx]; [lia|]. rw Hx. cbn [mbind option_bind].
      eexists. split; [reflexivity|]. exact (set_rep s X i x false Hrep Hx).
  - split; cbn [IntSet_new Clear size set]; [apply length_replicate| |set_solver]. intros j x k [-> _]%lookup_replicate _. rw Z.bits_0. symmetry.
    apply bool_decide_eq_false. set_solver.
Qed.

Lemma new_bitmap n : rep (IntSet_new n) ∅.
Proof.
  split; cbn [IntSet_new Clear size set]; [apply length_replicate| |set_solver]. intros j x k [-> _]%lookup_replicate _. rw Z.bits_0. symmetry.
  apply bool_decide_eq_false. set_solver.
Qed.

Lemma ops_implement_set_witness : ∃ s', Insert 20 (IntSet_new 1) = Some s' ∧ rep s' ({[20]} ∪ ∅).
Proof. exact (proj1 (proj2 (ops_implement_set (IntSet_new 1) ∅ 20 (new_bitmap 1)))). Defined.
End IS.
