(* ===== verification/PQueue.v ===== *)
(** PQueue: the binary heap of PriorityQueue.cc / PriorityQueue.h.

    The heap is an array of element addresses; an element records its time and
    the bin it sits in.  The root is bin 0 and the parent of bin [n] is [n >> 1],
    so that bin 0 is its own left child and has bin 1 as its only proper child. *)
From S2P Require Import Prelude Double.

Module PQ.

(** A [PQ_Element*]. *)
Abbreviation addr := nat (only parsing).

Record PQ_Element := mkElement { time : double; offset : Z }.

(** The queue together with the store of the elements it points to. *)
Record PriorityQueue := mkPQ {
  heap : list (option addr);
  heap_size : nat;
  peak_heap_size : nat;
  max_heap_size : nat;
  mem : gmap addr PQ_Element
}.

(** What a call of a function that may end in [reporter->InternalError] does. *)
Inductive status := Returned (r : option addr) | InternalError.

Definition PQ_Element_new (t : double) : PQ_Element := mkElement t (-1).
Definition SetOffset (e : PQ_Element) (off : Z) : PQ_Element := mkElement (time e) off.
Definition MinimizeTime (e : PQ_Element) : PQ_Element := mkElement neg_HUGE_VAL (offset e).

Definition PriorityQueue_new (initial_size : nat) (m : gmap addr PQ_Element) : PriorityQueue :=
  mkPQ (arr_alloc initial_size) 0 0 initial_size m.

Definition Parent (bin : nat) : nat := Nat.shiftr bin 1.
Definition LeftChild (bin : nat) : nat := Nat.shiftl bin 1.
Definition RightChild (bin : nat) : nat := LeftChild bin + 1.

Definition Top (q : PriorityQueue) : option (option addr) :=
  if decide (heap_size q = 0) then Some None else x ← arr_get (heap q) 0; Some (Some x).

Definition Size (q : PriorityQueue) : nat := heap_size q.
Definition PeakSize (q : PriorityQueue) : nat := peak_heap_size q.

(** [heap[bin]->Time()] *)
Definition time_at (q : PriorityQueue) (bin : nat) : option double :=
  e ← arr_get (heap q) bin; el ← mem q !! e; Some (time el).

(** [e->SetOffset(off)] through the store. *)
Definition set_offset (q : PriorityQueue) (e : addr) (off : Z) : option PriorityQueue :=
  el ← mem q !! e;
  Some (mkPQ (heap q) (heap_size q) (peak_heap_size q) (max_heap_size q)
    (<[e := SetOffset el off]> (mem q))).

Definition SetElement (q : PriorityQueue) (bin : nat) (e : addr) : option PriorityQueue :=
  h ← arr_set (heap q) bin e;
  set_offset (mkPQ h (heap_size q) (peak_heap_size q) (max_heap_size q) (mem q)) e (Z.of_nat bin).

Definition Swap (q : PriorityQueue) (bin1 bin2 : nat) : option PriorityQueue :=
  t ← arr_get (heap q) bin1;
  e2 ← arr_get (heap q) bin2;
  q ← SetElement q bin1 e2;
  SetElement q bin2 t.

Definition with_size (q : PriorityQueue) (n : nat) : PriorityQueue :=
  mkPQ (heap q) n (peak_heap_size q) (max_heap_size q) (mem q).

(** The recursions go up (down) the tree: [bin] calls (at most the number of
    entries) are enough, and running out of fuel is reported as [None]. *)
Fixpoint BubbleUp (fuel : nat) (q : PriorityQueue) (bin : nat) : option PriorityQueue :=
  match fuel with
  | O => None
  | S fuel =>
    if decide (bin = 0) then Some q
    else
      let p := Parent bin in
      tp ← time_at q p; tb ← time_at q bin;
      if dlt tb tp then q ← Swap q p bin; BubbleUp fuel q p
      else Some q
  end.

Fixpoint BubbleDown (fuel : nat) (q : PriorityQueue) (bin : nat) : option PriorityQueue :=
  match fuel with
  | O => None
  | S fuel =>
    v ← time_at q bin;
    let l := LeftChild bin in
    let r := RightChild bin in
    if decide (heap_size q ≤ l) then Some q
    else if decide (heap_size q ≤ r) then
      lv ← time_at q l;
      if dlt lv v then Swap q l bin else Some q
    else
      lv ← time_at q l;
      rv ← time_at q r;
      if dlt lv rv then
        if dlt lv v then q ← Swap q l bin; BubbleDown fuel q l else Some q
      else if dlt rv v then q ← Swap q r bin; BubbleDown fuel q r
      else Some q
  end.

(** [PQ_Element* Remove()] *)
Definition Remove (q : PriorityQueue) : option (option addr * PriorityQueue) :=
  if decide (heap_size q = 0) then Some (None, q)
  else
    top ← arr_get (heap q) 0;
    let q := with_size q (heap_size q - 1) in
    last ← arr_get (heap q) (heap_size q);
    q ← SetElement q 0 last;
    q ← BubbleDown (S (heap_size q)) q 0;
    q ← set_offset q top (-1);
    Some (Some top, q).

(** [PQ_Element* Remove(PQ_Element* e)] *)
Definition Remove_element (q : PriorityQueue) (e : addr) : option (status * PriorityQueue) :=
  el ← mem q !! e;
  if decide (offset el < 0 ∨ Z.of_nat (heap_size q) ≤ offset el)%Z then Some (Returned None, q)
  else
    let bin := Z.to_nat (offset el) in
    x ← arr_get (heap q) bin;
    if decide (x ≠ e) then Some (Returned None, q)
    else
      let q := mkPQ (heap q) (heap_size q) (peak_heap_size q) (max_heap_size q)
        (<[e := MinimizeTime el]> (mem q)) in
      q ← BubbleUp (S bin) q bin;
      '(e2, q) ← Remove q;
      if decide (Some e ≠ e2) then Some (InternalError, q) else Some (Returned e2, q).

(** [tmp[i] = heap[i]] for the first [max_heap_size] cells: cells never written
    are copied as indeterminate pointers. *)
Definition Resize (q : PriorityQueue) (new_size : nat) : PriorityQueue :=
  mkPQ (take (max_heap_size q) (heap q) ++ arr_alloc (new_size - max_heap_size q))
    (heap_size q) (peak_heap_size q) new_size (mem q).

Definition Add (q : PriorityQueue) (e : addr) : option PriorityQueue :=
  let bin := heap_size q in
  q ← SetElement q bin e;
  q ← BubbleUp (S bin) q bin;
  let n := heap_size q + 1 in
  let q := mkPQ (heap q) n (Nat.max n (peak_heap_size q)) (max_heap_size q) (mem q) in
  if decide (max_heap_size q ≤ heap_size q) then Some (Resize q (max_heap_size q * 2))
  else Some q.

(** ** Specification *)

(** The time of an element (NaN for an address that holds none). *)
Definition tm (m : gmap addr PQ_Element) (e : addr) : double :=
  default S754_nan (time <$> m !! e).

Definition le_at (m : gmap addr PQ_Element) (l : list addr) (i j : nat) : Prop :=
  ∀ x y, l !! i = Some x → l !! j = Some y → dleq (tm m x) (tm m y).

Definition numbers (m : gmap addr PQ_Element) (l : list addr) : Prop :=
  ∀ x, x ∈ l → is_number (tm m x).

(** Entry [i] of [l] sits in bin [i] and knows it. *)
Definition holds (q : PriorityQueue) (l : list addr) (r : list (option addr)) : Prop :=
  arr_holds (heap q) l r ∧
  ∀ i x, l !! i = Some x → ∃ el, mem q !! x = Some el ∧ offset el = Z.of_nat i.

(** [q'] differs from [q] at most in the offsets of the elements of [l] and in
    the contents of the array. *)
Definition moved (q q' : PriorityQueue) (l : list addr) : Prop :=
  heap_size q' = heap_size q ∧ peak_heap_size q' = peak_heap_size q ∧
  max_heap_size q' = max_heap_size q ∧
  (∀ x, time <$> mem q' !! x = time <$> mem q !! x) ∧
  (∀ x, x ∉ l → mem q' !! x = mem q !! x).

Definition heap_ordered (m : gmap addr PQ_Element) (l : list addr) : Prop :=
  ∀ j, 0 < j → le_at m l (j / 2) j.

(** A well-formed queue whose bins hold [l], in order. *)
Definition wf (q : PriorityQueue) (l : list addr) : Prop :=
  (∃ r, holds q l r ∧ 0 < length r) ∧
  heap_size q = length l ∧ max_heap_size q = length (heap q) ∧
  heap_ordered (mem q) l ∧ numbers (mem q) l.

(** All elements but those of [l] are untouched, and no time has changed. *)
Definition frame (q q' : PriorityQueue) (l : list addr) : Prop :=
  (∀ x, time <$> mem q' !! x = time <$> mem q !! x) ∧
  (∀ x, x ∉ l → mem q' !! x = mem q !! x).

(** ** Bins and orders *)

Lemma Parent_div n : Parent n = n / 2.
Proof. unfold Parent. by rw Nat.shiftr_div_pow2. Qed.

Lemma LeftChild_mul n : LeftChild n = 2 * n.
Proof. unfold LeftChild. rw Nat.shiftl_mul_pow2 /=. lia. Qed.

Lemma parent_bins j p : 0 < j → j / 2 = p → j = 2 * p ∨ j = 2 * p + 1.
Proof. intros Hj <-. pose proof (Nat.div_mod_eq j 2). pose proof (Nat.mod_upper_bound j 2). lia. Qed.

Lemma child_l p : (2 * p) / 2 = p.
Proof. rw Nat.mul_comm. by apply Nat.div_mul. Qed.

Lemma child_r p : (2 * p + 1) / 2 = p.
Proof. symmetry. apply (Nat.div_unique _ 2 p 1); lia. Qed.

Lemma parent_lt j : 0 < j → j / 2 < j.
Proof. intros. apply Nat.div_lt; lia. Qed.

Lemma holds_inj q l r i j x :
  holds q l r → l !! i = Some x → l !! j = Some x → i = j.
Proof.
  intros [_ H] Hi Hj. destruct (H _ _ Hi) as (el & Hel & Hoi), (H _ _ Hj) as (el' & Hel' & Hoj).
  simplify_eq. lia.
Qed.

Lemma holds_NoDup q l r : holds q l r → NoDup l.
Proof. intros H. apply NoDup_alt. eauto using holds_inj. Qed.

Lemma tm_moved q q' l x : moved q q' l → tm (mem q') x = tm (mem q) x.
Proof. intros (_&_&_&H&_). unfold tm. by rw H. Qed.

Lemma moved_trans_sub q1 q2 q3 l l' :
  moved q1 q2 l → moved q2 q3 l' → l' ⊆ l → moved q1 q3 l.
Proof.
  intros (?&?&?&Ht&Ho) (?&?&?&Ht'&Ho') Hl. split_and!; [congruence..| |].
  - intros x. by rw Ht'.
  - intros x Hx. rw Ho'; [by apply Ho|]. intros Hxl. by apply Hx, Hl.
Qed.

Lemma moved_trans q1 q2 q3 l l' :
  moved q1 q2 l → moved q2 q3 l' → l ≡ₚ l' → moved q1 q3 l.
Proof. intros H1 H2 Hl. apply (moved_trans_sub _ _ _ _ _ H1 H2). by rw Hl. Qed.

Lemma moved_refl q l : moved q q l.
Proof. by split_and!. Qed.

Lemma holds_time q l r i x :
  holds q l r → l !! i = Some x → time_at q i = Some (tm (mem q) x).
Proof.
  intros [Ha Ho] Hi. unfold time_at. obind (arr_get_holds _ _ _ _ _ Ha Hi).
  destruct (Ho _ _ Hi) as (el & Hel & _). unfold tm. by rw Hel.
Qed.

Lemma set_element_holds q l r i x el :
  arr_holds (heap q) l r → i < length l → mem q !! x = Some el →
  ∃ q', SetElement q i x = Some q' ∧ arr_holds (heap q') (<[i := x]> l) r ∧
    mem q' = <[x := SetOffset el (Z.of_nat i)]> (mem q) ∧
    heap_size q' = heap_size q ∧ peak_heap_size q' = peak_heap_size q ∧
    max_heap_size q' = max_heap_size q.
Proof.
  intros Ha Hi Hel. unfold SetElement, set_offset.
  destruct (arr_set_holds _ _ _ i x Ha Hi) as (h & Hs & Hh). obind Hs. obind Hel.
  eexists; split; [done|]. by split_and!.
Qed.

Lemma swap_elems {A} (l : list A) i j x y :
  l !! i = Some x → l !! j = Some y →
  ∀ k, <[j := x]> (<[i := y]> l) !! k =
    if decide (k = j) then Some x else if decide (k = i) then Some y else l !! k.
Proof.
  intros Hi Hj k. pose proof (lookup_lt_Some _ _ _ Hi). pose proof (lookup_lt_Some _ _ _ Hj).
  destruct (decide (k = j)) as [->|].
  { rw list_lookup_insert_eq //. by rw length_insert. }
  rw list_lookup_insert_ne //. case_decide as Hk; subst.
  - by rw list_lookup_insert_eq.
  - by rw list_lookup_insert_ne.
Qed.

Lemma swap_perm {A} (l : list A) i j x y :
  l !! i = Some x → l !! j = Some y → <[j := x]> (<[i := y]> l) ≡ₚ l.
Proof.
  intros Hi Hj. destruct (decide (i = j)) as [->|Hij].
  { simplify_eq. by rw list_insert_insert_eq list_insert_id. }
  symmetry. apply Permutation_inj. split; [by rw !length_insert|].
  exists (λ k, if decide (k = j) then i else if decide (k = i) then j else k). split.
  - intros a b ?. repeat case_decide; simplify_eq; done.
  - intros k. rw (swap_elems _ _ _ _ _ Hi Hj). by repeat case_decide; simplify_eq.
Qed.

Lemma swap_holds q l r i j x y :
  holds q l r → l !! i = Some x → l !! j = Some y →
  ∃ q', Swap q i j = Some q' ∧ holds q' (<[j := x]> (<[i := y]> l)) r ∧ moved q q' l.
Proof.
  intros [Ha Ho] Hi Hj. unfold Swap.
  obind (arr_get_holds _ _ _ _ _ Ha Hi). obind (arr_get_holds _ _ _ _ _ Ha Hj).
  destruct (Ho _ _ Hi) as (ex & Hex & Hoi), (Ho _ _ Hj) as (ey & Hey & Hoj).
  pose proof (lookup_lt_Some _ _ _ Hi). pose proof (lookup_lt_Some _ _ _ Hj).
  destruct (set_element_holds q l r i y ey Ha) as (q1 & Hs1 & Ha1 & Hm1 & Hn1 & Hp1 & Hx1); [done..|].
  obind Hs1.
  destruct (mem q1 !! x) as [ex1|] eqn:Hex1; last first.
  { rw Hm1 in Hex1. apply lookup_insert_None in Hex1 as [Hex1 _]. congruence. }
  assert (time ex1 = time ex) as Htx.
  { rw Hm1 lookup_insert in Hex1. case_decide; [|congruence].
    injection Hex1 as Heq. rw -Heq /=. congruence. }
  destruct (set_element_holds q1 _ r j x ex1 Ha1) as (q2 & Hs2 & Ha2 & Hm2 & Hn2 & Hp2 & Hx2);
    [by rw length_insert|done|].
  exists q2. split; [done|]. split; [split; [done|]|].
  - intros k z Hk. rw (swap_elems _ _ _ _ _ Hi Hj) in Hk. rw Hm2 Hm1.
    repeat case_decide; simplify_eq.
    + rw lookup_insert_eq. by eexists.
    + rw lookup_insert_ne; [rw lookup_insert_eq; by eexists|intros ->].
      by destruct (holds_inj q l r i j z).
    + rw !lookup_insert_ne; [by apply Ho|intros ->..];
        [by destruct (holds_inj q l r k j z)|by destruct (holds_inj q l r k i z)].
  - split_and!; [congruence..| |].
    + intros z. rw Hm2 lookup_insert. case_decide; subst; [by rw Hex /= Htx|].
      rw Hm1 lookup_insert. case_decide; subst; [by rw Hey|done].
    + intros z Hz. apply list_elem_of_lookup_2 in Hi, Hj.
      rw Hm2 lookup_insert_ne; [|by intros ->]. rw Hm1 lookup_insert_ne //. by intros ->.
Qed.

(** ** Restoring the order *)

Lemma le_at_trans m l i j k :
  numbers m l → j < length l → le_at m l i j → le_at m l j k → le_at m l i k.
Proof.
  intros Hn Hj H1 H2 x z Hx Hz. destruct (lookup_lt_is_Some_2 l j Hj) as [y Hy].
  eapply (dleq_trans _ (tm m y)); eauto using list_elem_of_lookup_2.
Qed.

Lemma le_at_moved q q' l l' i j :
  moved q q' l → le_at (mem q') l' i j ↔ le_at (mem q) l' i j.
Proof.
  intros H. unfold le_at. setoid_rewrite (tm_moved q q' l _ H). done.
Qed.

(** The order after exchanging the entries of bins [a] and [b], in terms of the
    order before. *)
Lemma le_at_swap m l a b x y i j :
  l !! a = Some x → l !! b = Some y →
  le_at m (<[b := x]> (<[a := y]> l)) i j ↔
  le_at m l (if decide (i = b) then a else if decide (i = a) then b else i)
            (if decide (j = b) then a else if decide (j = a) then b else j).
Proof.
  intros Ha Hb. unfold le_at. setoid_rewrite (swap_elems _ _ _ _ _ Ha Hb).
  repeat case_decide; rw ?Ha ?Hb; done.
Qed.

(** Heap order except that bin [k] may be below its parent. *)
Definition up_ordered (m : gmap addr PQ_Element) (l : list addr) (k : nat) : Prop :=
  (∀ j, 0 < j → j ≠ k → le_at m l (j / 2) j) ∧
  (∀ j, 0 < k → 0 < j → j / 2 = k → le_at m l (k / 2) j).

(** Heap order except that bin [k] may be above its children. *)
Definition down_ordered (m : gmap addr PQ_Element) (l : list addr) (k : nat) : Prop :=
  (∀ j, 0 < j → j / 2 ≠ k → le_at m l (j / 2) j) ∧
  (∀ j, 0 < k → 0 < j → j / 2 = k → le_at m l (k / 2) j).

Lemma up_ordered_swap m l k p x y :
  numbers m l → 0 < k → p = k / 2 → l !! p = Some x → l !! k = Some y →
  dlt (tm m y) (tm m x) = true → up_ordered m l k →
  up_ordered m (<[k := x]> (<[p := y]> l)) p.
Proof.
  intros Hn Hk -> Hp Hy Hlt [Ho Hg]. pose proof (parent_lt k Hk).
  pose proof (lookup_lt_Some _ _ _ Hp). pose proof (lookup_lt_Some _ _ _ Hy).
  assert (le_at m l k (k / 2)) as Hkp.
  { intros ?? Ha Hb. simplify_eq. auto with ofm. }
  split; intros j; intros; apply (le_at_swap _ _ _ _ _ _ _ _ Hp Hy).
  - destruct (decide (j = k)) as [->|]; [by repeat case_decide; try lia|].
    rw (decide_False (P := j = k / 2)) //.
    case_decide as Hjk; [subst; apply (Hg j); auto; lia|].
    case_decide as Hjp; [|by apply Ho; [lia|]].
    eapply le_at_trans; [done|..|exact Hkp|]; [done|]. rw -Hjp. by apply Ho.
  - pose proof (parent_lt (k / 2) ltac:(lia)).
    rw (decide_False (P := k / 2 / 2 = k)); [|lia].
    rw (decide_False (P := k / 2 / 2 = k / 2)); [|lia].
    assert (le_at m l (k / 2 / 2) (k / 2)) by (apply Ho; lia).
    case_decide; [done|]. pose proof (parent_lt j ltac:(lia)).
    rw decide_False; [|lia].
    eapply le_at_trans; [done|..]; [|done|]; [done|]. replace (k / 2) with (j / 2) by done.
    by apply Ho.
Qed.

Lemma bubble_up_holds fuel q l r k :
  k < fuel → holds q l r → numbers (mem q) l → k < length l → up_ordered (mem q) l k →
  ∃ q' l', BubbleUp fuel q k = Some q' ∧ holds q' l' r ∧ moved q q' l ∧ l' ≡ₚ l ∧
    heap_ordered (mem q') l'.
Proof.
  revert q l k. induction fuel as [|fuel IH]; intros q l k Hf Hh Hn Hk Ho; [lia|]. simpl.
  case_decide as Hk0.
  { exists q, l. split_and!; [done..|apply moved_refl|done|]. intros j Hj. apply Ho; lia. }
  rw Parent_div. pose proof (parent_lt k ltac:(lia)).
  destruct (lookup_lt_is_Some_2 l (k / 2)) as [x Hx]; [lia|].
  destruct (lookup_lt_is_Some_2 l k) as [y Hy]; [lia|].
  obind (holds_time _ _ _ _ _ Hh Hx). obind (holds_time _ _ _ _ _ Hh Hy).
  destruct (dlt _ _) eqn:Hlt.
  - destruct (swap_holds _ _ _ _ _ _ _ Hh Hx Hy) as (q1 & Hs & Hh1 & Hm1). obind Hs.
    pose proof (swap_perm _ _ _ _ _ Hx Hy) as Hperm.
    destruct (IH q1 _ (k / 2) ltac:(lia) Hh1) as (q2 & l2 & Hb & Hh2 & Hm2 & Hl2 & Ho2).
    { intros z Hz. rw (tm_moved _ _ _ _ Hm1). apply Hn. by rw -Hperm. }
    { rw !length_insert. lia. }
    { destruct (up_ordered_swap (mem q) l k (k/2) x y Hn ltac:(lia) eq_refl Hx Hy Hlt Ho)
        as [H1 H2].
      split; intros; apply (le_at_moved _ _ _ _ _ _ Hm1); [by apply H1|by apply H2]. }
    exists q2, l2. split_and!; [done|done| |by rw Hl2|done].
    eapply moved_trans; [done..|]. by symmetry.
  - exists q, l. split_and!; [done..|apply moved_refl|done|].
    intros j Hj. destruct (decide (j = k)) as [->|]; [|by apply Ho].
    intros ????. by simplify_eq.
Qed.

(** One exchange of the downward pass: [c] is a child of [k] that is below [k]
    and not above its sibling [s]. *)
Lemma down_ordered_swap m l k c s x y :
  numbers m l → 0 < c → c / 2 = k → c ≠ k → s / 2 = k →
  (∀ j, 0 < j → j / 2 = k → j = c ∨ j = s) →
  l !! c = Some x → l !! k = Some y →
  dlt (tm m x) (tm m y) = true → le_at m l c s → down_ordered m l k →
  down_ordered m (<[k := x]> (<[c := y]> l)) c.
Proof.
  intros Hn Hc Hck Hne Hs Hch Hx Hy Hlt Hcs [Ho Hg].
  pose proof (lookup_lt_Some _ _ _ Hx). pose proof (lookup_lt_Some _ _ _ Hy).
  assert (le_at m l c k) as Hlck.
  { intros ?? Ha Hb. simplify_eq. auto with ofm. }
  split; intros j; intros; apply (le_at_swap _ _ _ _ _ _ _ _ Hx Hy).
  - destruct (decide (j / 2 = k)) as [Hjk|Hjk].
    + destruct (decide (j = k)) as [->|].
      { pose proof (parent_lt k ltac:(lia)). lia. }
      case_decide; [by subst|].
      destruct (Hch j) as [->| ->]; done.
    + rw (decide_False (P := j / 2 = c)) //.
      case_decide as Hj; [subst; by apply Hg|].
      rw decide_False; [|congruence]. by apply Ho.
  - rw Hck. rw (decide_True (P := k = k)) //.
    pose proof (parent_lt j ltac:(lia)). pose proof (parent_lt c Hc).
    rw decide_False; [|lia]. rw decide_False; [|lia].
    replace c with (j / 2) by done. apply Ho; [done|congruence].
Qed.

Lemma down_ordered_leaf m l k :
  down_ordered m l k → (∀ j, 0 < j → j / 2 = k → length l ≤ j) → heap_ordered m l.
Proof.
  intros [Ho _] Hl j Hj. destruct (decide (j / 2 = k)) as [Hk|]; [|by apply Ho].
  intros x y _ Hy%lookup_lt_Some. specialize (Hl j Hj Hk). lia.
Qed.

Lemma down_ordered_done m l k :
  down_ordered m l k → (∀ j, 0 < j → j / 2 = k → le_at m l k j) → heap_ordered m l.
Proof.
  intros [Ho _] Hl j Hj. destruct (decide (j / 2 = k)) as [Hk|]; [rw Hk; by apply Hl|by apply Ho].
Qed.

Lemma down_ordered_moved q q' l l' k :
  moved q q' l → down_ordered (mem q) l' k → down_ordered (mem q') l' k.
Proof.
  intros Hm [H1 H2]. split; intros; apply (le_at_moved _ _ _ _ _ _ Hm); [by apply H1|by apply H2].
Qed.

Lemma numbers_moved q q' l l' :
  moved q q' l → l' ≡ₚ l → numbers (mem q) l → numbers (mem q') l'.
Proof.
  intros Hm Hl Hn z Hz. rw (tm_moved _ _ _ _ Hm). apply Hn. by rw -Hl.
Qed.

Lemma children k j : 0 < j → j / 2 = k → j = LeftChild k ∨ j = RightChild k.
Proof. unfold RightChild. rw LeftChild_mul. apply parent_bins. Qed.

Lemma bubble_down_holds fuel q l r k :
  length l - k < fuel → holds q l r → numbers (mem q) l → k < length l →
  heap_size q = length l → down_ordered (mem q) l k →
  ∃ q' l', BubbleDown fuel q k = Some q' ∧ holds q' l' r ∧ moved q q' l ∧ l' ≡ₚ l ∧
    heap_ordered (mem q') l'.
Proof.
  revert q l k. induction fuel as [|fuel IH]; intros q l k Hf Hh Hn Hk Hsz Ho; [lia|]. simpl.
  destruct (lookup_lt_is_Some_2 l k Hk) as [y Hy].
  obind (holds_time _ _ _ _ _ Hh Hy). rw Hsz.
  pose proof (children k) as Hch. pose proof (child_l k) as Hcl. pose proof (child_r k) as Hcr.
  unfold RightChild in *. rw !LeftChild_mul. rw !LeftChild_mul in Hch.
  case_decide as Hl.
  { exists q, l. split_and!; [done..|apply moved_refl|done|].
    eapply down_ordered_leaf; [done|]. intros j Hj Hjk. destruct (Hch j Hj Hjk); lia. }
  destruct (lookup_lt_is_Some_2 l (2 * k)) as [xl Hxl]; [lia|].
  obind (holds_time _ _ _ _ _ Hh Hxl).
  (* the step that descends to child [c] *)
  assert (∀ c s x, 0 < c → c / 2 = k → c ≠ k → s / 2 = k →
    (∀ j, 0 < j → j / 2 = k → j = c ∨ j = s) → l !! c = Some x →
    dlt (tm (mem q) x) (tm (mem q) y) = true → le_at (mem q) l c s →
    ∃ q1, Swap q c k = Some q1 ∧ holds q1 (<[k:=x]> (<[c:=y]> l)) r ∧ moved q q1 l ∧
      <[k:=x]> (<[c:=y]> l) ≡ₚ l ∧ down_ordered (mem q1) (<[k:=x]> (<[c:=y]> l)) c) as Hstep.
  { intros c s x Hc Hck Hne Hs Hcs Hx Hlt Hle.
    destruct (swap_holds _ _ _ _ _ _ _ Hh Hx Hy) as (q1 & Hsw & Hh1 & Hm1).
    exists q1. split_and!; [done..|by apply swap_perm|].
    apply (down_ordered_moved _ _ _ _ _ Hm1). by apply (down_ordered_swap _ _ k c s). }
  assert (∀ c q1 x, c < length l → k < c → holds q1 (<[k:=x]> (<[c:=y]> l)) r → moved q q1 l →
    <[k:=x]> (<[c:=y]> l) ≡ₚ l → down_ordered (mem q1) (<[k:=x]> (<[c:=y]> l)) c →
    ∃ q' l', BubbleDown fuel q1 c = Some q' ∧ holds q' l' r ∧ moved q q' l ∧ l' ≡ₚ l ∧
      heap_ordered (mem q') l') as Hrec.
  { intros c q1 x Hc Hkc Hh1 Hm1 Hp1 Ho1.
    destruct (IH q1 (<[k:=x]> (<[c:=y]> l)) c) as (q2 & l2 & Hb & Hh2 & Hm2 & Hl2 & Ho2);
      [rw !length_insert; lia|done|by eapply numbers_moved|by rw !length_insert|
       rw !length_insert; destruct Hm1 as (-> & _); done|done|].
    exists q2, l2. split_and!; [done|done| |by rw Hl2|done].
    eapply moved_trans; [done..|]. by symmetry. }
  (* bin 0 is its own left child, and never below itself *)
  assert (∀ x, l !! (2 * k) = Some x → dlt (tm (mem q) x) (tm (mem q) y) = true → 0 < 2 * k) as Hpos.
  { intros x Hx Hlt. destruct k; [|lia]. simpl in Hx. simplify_eq. by rw dlt_irrefl in Hlt. }
  case_decide as Hr.
  { destruct (dlt _ _) eqn:Hlt.
    - destruct (Hstep (2 * k) (2 * k + 1) xl) as (q1 & Hsw & Hh1 & Hm1 & Hp1 & Ho1);
        [by apply (Hpos xl)|done|pose proof (Hpos xl); naive_solver lia|done|done|done|done| |].
      { intros ?? _ ?%lookup_lt_Some. lia. }
      exists q1, (<[k:=xl]> (<[2*k:=y]> l)). split_and!; [done..|].
      eapply down_ordered_leaf; [done|]. intros j Hj Hjk. rw !length_insert.
      pose proof (Hpos xl Hxl Hlt). destruct (parent_bins j (2 * k)); lia.
    - exists q, l. split_and!; [done..|apply moved_refl|done|].
      eapply down_ordered_done; [done|]. intros j Hj Hjk.
      destruct (Hch j Hj Hjk) as [->| ->]; intros ?? Ha Hb; simplify_eq; [done|].
      apply lookup_lt_Some in Hb. lia. }
  destruct (lookup_lt_is_Some_2 l (2 * k + 1)) as [xr Hxr]; [lia|].
  obind (holds_time _ _ _ _ _ Hh Hxr).
  destruct (dlt (tm _ xl) (tm _ xr)) eqn:Hlr; [destruct (dlt (tm _ xl) (tm _ y)) eqn:Hlt
                                              |destruct (dlt (tm _ xr) (tm _ y)) eqn:Hlt].
  - destruct (Hstep (2 * k) (2 * k + 1) xl) as (q1 & Hsw & Hh1 & Hm1 & Hp1 & Ho1);
      [by apply (Hpos xl)|done|pose proof (Hpos xl); naive_solver lia|done|done|done|done| |].
    { intros ?? Ha Hb. simplify_eq. auto with ofm. }
    obind Hsw. apply (Hrec _ _ xl); [lia| |done..].
    pose proof (Hpos xl Hxl Hlt). lia.
  - exists q, l. split_and!; [done..|apply moved_refl|done|].
    eapply down_ordered_done; [done|]. intros j Hj Hjk.
    assert (le_at (mem q) l k (2 * k)) as Hkl by (intros ?? Ha Hb; by simplify_eq).
    destruct (Hch j Hj Hjk) as [->| ->]; [done|].
    eapply le_at_trans; [done|..|exact Hkl|]; [lia|].
    intros ?? Ha Hb. simplify_eq. auto with ofm.
  - destruct (Hstep (2 * k + 1) (2 * k) xr) as (q1 & Hsw & Hh1 & Hm1 & Hp1 & Ho1);
      [lia|done|lia|done| |done|done| |].
    { intros j Hj Hjk. destruct (Hch j Hj Hjk); auto. }
    { intros ?? Ha Hb. by simplify_eq. }
    obind Hsw. by apply (Hrec _ _ xr); [lia|lia|..].
  - exists q, l. split_and!; [done..|apply moved_refl|done|].
    eapply down_ordered_done; [done|]. intros j Hj Hjk.
    assert (le_at (mem q) l k (2 * k + 1)) as Hkl by (intros ?? Ha Hb; by simplify_eq).
    destruct (Hch j Hj Hjk) as [->| ->]; [|done].
    eapply le_at_trans; [done|..|exact Hkl|]; [lia|].
    intros ?? Ha Hb. by simplify_eq.
Qed.

(** ** Operations *)

#[local] Arguments BubbleUp : simpl never.
#[local] Arguments BubbleDown : simpl never.

Lemma heap_min m l x :
  heap_ordered m l → numbers m l → l !! 0 = Some x → ∀ y, y ∈ l → dleq (tm m x) (tm m y).
Proof.
  intros Ho Hn Hx y [j Hy]%list_elem_of_lookup_1. revert y Hy.
  induction j as [j IH] using lt_wf_ind. intros y Hy.
  destruct (decide (j = 0)) as [->|Hj]; [simplify_eq; apply dleq_refl|].
  pose proof (parent_lt j ltac:(lia)) as Hp. pose proof (lookup_lt_Some _ _ _ Hy).
  destruct (lookup_lt_is_Some_2 l (j / 2)) as [z Hz]; [lia|].
  eapply (dleq_trans _ (tm m z)); eauto using list_elem_of_lookup_2.
  by apply (Ho j); [lia|..].
Qed.

Lemma elem_split {A} (l : list A) x : x ∈ l → ∃ l', l ≡ₚ x :: l'.
Proof. intros (l1 & l2 & ->)%list_elem_of_split. exists (l1 ++ l2). by rw Permutation_middle. Qed.

Lemma wf_empty n m : 0 < n → wf (PriorityQueue_new n m) [].
Proof.
  intros Hn. unfold wf. simpl. split_and!.
  - exists (replicate n None). split; [|by rw length_replicate].
    split; [apply arr_holds_replicate|done].
  - done.
  - by rw length_replicate.
  - by intros ????.
  - by intros ??%elem_of_nil.
Qed.

(** Storing a new element in the bin after the last one. *)
Lemma set_next q l c r e el :
  holds q l (c :: r) → e ∉ l → mem q !! e = Some el →
  ∃ q1, SetElement q (length l) e = Some q1 ∧ holds q1 (l ++ [e]) r ∧ moved q q1 (e :: l).
Proof.
  intros [Ha Ho] He Hel. destruct (arr_set_snoc _ _ _ _ e Ha) as (h & Hset & Hh).
  unfold SetElement, set_offset. obind Hset. obind Hel.
  eexists; split; [done|]. split; [split; [done|]|split_and!; [done..| |]]; simpl.
  - intros i x Hi. rw lookup_app in Hi. destruct (l !! i) as [y|] eqn:Hy; simplify_eq.
    + rw lookup_insert_ne; [by apply Ho|]. intros ->. by apply list_elem_of_lookup_2 in Hy.
    + apply lookup_ge_None in Hy. apply list_lookup_singleton_Some in Hi as [Hi ->].
      rw lookup_insert_eq. eexists; split; [done|]. simpl. lia.
  - intros x. rw lookup_insert. case_decide; [|done]. subst. by rw Hel.
  - intros x [Hx _]%not_elem_of_cons. by rw lookup_insert_ne.
Qed.

Lemma up_ordered_next m l e : heap_ordered m l → up_ordered m (l ++ [e]) (length l).
Proof.
  intros Ho. split; intros j.
  - intros Hj Hne x y Hx Hy. pose proof (lookup_lt_Some _ _ _ Hy) as Hlt.
    rw length_app /= in Hlt. pose proof (parent_lt j Hj).
    rw lookup_app_l in Hx; [|lia]. rw lookup_app_l in Hy; [|lia]. by eapply Ho.
  - intros Hl Hj Hjk x y _ Hy%lookup_lt_Some. rw length_app /= in Hy.
    pose proof (parent_lt j Hj). lia.
Qed.

Lemma up_ordered_moved q q' l l' k :
  moved q q' l → up_ordered (mem q) l' k → up_ordered (mem q') l' k.
Proof.
  intros Hm [H1 H2]. split; intros; apply (le_at_moved _ _ _ _ _ _ Hm); [by apply H1|by apply H2].
Qed.

(** The array doubled by [Resize] holds the same entries. *)
Lemma resize_holds q l r n :
  holds q l r → length l ≤ max_heap_size q ≤ n →
  ∃ r', holds (Resize q n) l r' ∧ n - max_heap_size q ≤ length r'.
Proof.
  intros [Ha Ho] Hn. eexists. split; [split; [|done]|]; simpl.
  - unfold arr_holds in *. rw Ha take_app length_fmap firstn_all2; [|rw length_fmap; lia].
    by rw -assoc.
  - rw length_app length_replicate. lia.
Qed.

Lemma add_wf q l e el :
  wf q l → e ∉ l → mem q !! e = Some el → is_number (time el) →
  ∃ q' l', Add q e = Some q' ∧ wf q' l' ∧ l' ≡ₚ e :: l ∧ frame q q' (e :: l).
Proof.
  intros ((r & Hh & Hr) & Hsz & Hmax & Hord & Hnum) He Hel Hnel. unfold Add.
  pose proof (arr_holds_length _ _ _ (proj1 Hh)) as Hla.
  destruct r as [|c r]; simpl in Hr, Hla; [lia|].
  destruct (set_next _ _ _ _ _ _ Hh He Hel) as (q1 & Hs1 & Hh1 & Hm1). rw Hsz. obind Hs1.
  assert (numbers (mem q1) (l ++ [e])) as Hn1.
  { intros x Hx. rw (tm_moved _ _ _ _ Hm1).
    apply elem_of_app in Hx as [Hx| ->%list_elem_of_singleton]; [by apply Hnum|].
    unfold tm. by rw Hel. }
  destruct (bubble_up_holds (S (length l)) q1 (l ++ [e]) r (length l))
    as (q2 & l2 & Hb & Hh2 & Hm2 & Hp2 & Ho2);
    [lia|done|done|rw length_app /=; lia|by apply (up_ordered_moved _ _ _ _ _ Hm1), up_ordered_next|].
  obind Hb.
  pose proof (Permutation_length Hp2) as Hl2. rw length_app /= in Hl2.
  pose proof (arr_holds_length _ _ _ (proj1 Hh2)) as Hlh.
  pose proof (arr_holds_length _ _ _ (proj1 Hh1)) as Hlh1. rw length_app /= in Hlh1.
  assert (moved q q2 (e :: l)) as Hm.
  { eapply moved_trans; [done..|]. apply Permutation_cons_append. }
  assert (numbers (mem q2) l2) as Hn2 by by apply (numbers_moved q1 q2 (l ++ [e])).
  destruct Hm as (Hs2 & _ & Hmx2 & Ht2 & Hf2). destruct (proj1 Hm1) as [].
  case_decide as Hd; (eexists _, l2; split_and!; [done| |by rw Hp2 -Permutation_cons_append|done]);
    simpl in *.
  - destruct (resize_holds (mkPQ (heap q2) (heap_size q2 + 1)
      (Nat.max (heap_size q2 + 1) (peak_heap_size q2)) (max_heap_size q2) (mem q2)) l2 r
      (max_heap_size q2 * 2)) as (r' & Hh' & Hr'); [done|simpl; lia|].
    pose proof (arr_holds_length _ _ _ (proj1 Hh')). simpl in *.
    split_and!; [|simpl; lia| |done|done].
    + exists r'. split; [done|]. lia.
    + simpl. rw length_app length_take length_replicate. lia.
  - split_and!; [|simpl; lia|simpl; lia|done|done].
    exists r. split; [done|]. simpl in *. lia.
Qed.

(** The first half of [Remove]: the last entry replaces the top. *)
Lemma replace_top q top mid x r :
  holds q (top :: mid ++ [x]) r →
  ∃ q1, SetElement q 0 x = Some q1 ∧ holds q1 (x :: mid) (Some x :: r) ∧
    moved q q1 (top :: mid ++ [x]) ∧ mem q1 !! top = mem q !! top.
Proof.
  intros Hh. pose proof (holds_NoDup _ _ _ Hh) as [Htop Hnd]%NoDup_cons.
  apply NoDup_app in Hnd as (_ & Hmid & _). destruct Hh as [Ha Ho].
  destruct (Ho (length (top :: mid)) x) as (el & Hel & _).
  { change (top :: mid ++ [x]) with ((top :: mid) ++ [x]). by apply list_lookup_middle. }
  destruct (set_element_holds q _ r 0 x el Ha) as (q1 & Hs & Ha1 & Hm1 & Hsz & Hpk & Hmx);
    [simpl; lia|done|].
  exists q1. split; [done|]. split; [split|split; [split_and!|]]; [|..|done|done|done| | |].
  - simpl in Ha1. change (x :: mid ++ [x]) with ((x :: mid) ++ [x]) in Ha1.
    by apply arr_holds_app in Ha1.
  - intros [|i] y Hy; simplify_eq/=; rw Hm1.
    + rw lookup_insert_eq. by eexists.
    + rw lookup_insert_ne; [apply (Ho (S i)); simpl; by apply lookup_app_l_Some|].
      intros ->. apply list_elem_of_lookup_2 in Hy. apply (Hmid _ Hy). set_solver.
  - intros y. rw Hm1 lookup_insert. case_decide; [|done]. subst. by rw Hel.
  - intros y Hy. rw Hm1 lookup_insert_ne //. intros ->. apply Hy. set_solver.
  - rw Hm1 lookup_insert_ne //. intros ->. apply Htop. set_solver.
Qed.

Lemma down_ordered_top m top mid x :
  heap_ordered m (top :: mid ++ [x]) → down_ordered m (x :: mid) 0.
Proof.
  intros Ho. split; [|lia]. intros j Hj Hp y z Hy Hz. apply (Ho j Hj); [|].
  - destruct (j / 2); [done|]. simpl in *. by apply lookup_app_l_Some.
  - destruct j; [done|]. simpl in *. by apply lookup_app_l_Some.
Qed.

(** The last step of [Remove]: the top is marked as not in the heap. *)
Lemma unlink_top q q1 l' top r el l :
  moved q q1 l → top ∈ l → l' ⊆ l → top ∉ l' → holds q1 l' r → 0 < length r →
  heap_size q1 = length l' → max_heap_size q1 = length (heap q1) →
  heap_ordered (mem q1) l' → numbers (mem q1) l' → mem q1 !! top = Some el →
  ∃ q2, set_offset q1 top (-1) = Some q2 ∧ wf q2 l' ∧ frame q q2 l ∧
    mem q2 !! top = Some (mkElement (tm (mem q) top) (-1)).
Proof.
  intros Hm Htl Hsub Htop [Ha Ho] Hr Hsz Hmx Hord Hnum Hel. unfold set_offset. obind Hel.
  assert (time el = tm (mem q) top) as Htime.
  { rw -(tm_moved _ _ _ _ Hm). unfold tm. by rw Hel. }
  assert (∀ x, time <$> <[top:=SetOffset el (-1)]> (mem q1) !! x = time <$> mem q1 !! x) as Ht.
  { intros x. rw lookup_insert. case_decide; [|done]. subst. by rw Hel. }
  eexists; split; [done|]. split_and!; simpl.
  - split_and!; [|done|done|..].
    + exists r. split; [split; [done|]|done]. intros i x Hx. simpl.
      rw lookup_insert_ne; [by apply Ho|]. intros ->. by apply list_elem_of_lookup_2 in Hx.
    + intros j Hj x y Hx Hy. unfold tm. rw /= !Ht. by apply (Hord j).
    + intros x Hx. unfold tm. rw /= !Ht. by apply Hnum.
  - destruct Hm as (_&_&_&Htm&Hf). split; intros x; simpl; [by rw Ht|].
    intros Hx. rw lookup_insert_ne; [by apply Hf|]. by intros ->.
  - by rw lookup_insert_eq /SetOffset Htime.
Qed.

Lemma remove_wf q top rest :
  wf q (top :: rest) →
  ∃ q' l', Remove q = Some (Some top, q') ∧ wf q' l' ∧ l' ≡ₚ rest ∧
    frame q q' (top :: rest) ∧ mem q' !! top = Some (mkElement (tm (mem q) top) (-1)).
Proof.
  intros ((r & Hh & Hr) & Hsz & Hmax & Hord & Hnum). unfold Remove. rw Hsz /=.
  pose proof (holds_NoDup _ _ _ Hh) as [Htop Hnd]%NoDup_cons.
  obind (arr_get_holds _ _ _ 0 top (proj1 Hh) eq_refl). rw Nat.sub_0_r.
  destruct (proj2 Hh 0 top eq_refl) as (et & Het & _).
  set (q0 := with_size q (length rest)).
  assert (holds q0 (top :: rest) r) as Hh0 by done.
  destruct rest as [|x mid _] using rev_ind; simpl.
  - obind (arr_get_holds _ _ _ 0 top (proj1 Hh) eq_refl).
    destruct (set_element_holds q0 _ r 0 top et (proj1 Hh0)) as (q1 & Hs & Ha1 & Hm1 & Hs1 & Hp1 & Hx1);
      [simpl; lia|done|]. obind Hs.
    simpl in Ha1. change [top] with ([] ++ [top]) in Ha1. apply arr_holds_app in Ha1.
    assert (BubbleDown (S (heap_size q1)) q1 0 = Some q1) as Hb.
    { rw Hs1 /=. unfold BubbleDown, time_at. rw Ha1 /= Hm1 lookup_insert_eq /= Hs1. done. }
    rw Hb /=.
    assert (moved q0 q1 [top]) as Hm.
    { split_and!; [done..| |]; intros y; rw Hm1.
      - rw lookup_insert. case_decide; [|done]. subst. by rw /= Het.
      - intros Hy. rw lookup_insert_ne //. set_solver. }
    destruct (unlink_top q0 q1 [] top (Some top :: r) (SetOffset et 0) [top])
      as (q2 & Hu & Hwf & Hf & Ht); [done|set_solver|set_solver|set_solver|done|simpl; lia|done| | | | |].
    + rw Hx1 /= Hmax. rw (arr_holds_length _ _ _ (proj1 Hh)) (arr_holds_length _ _ _ Ha1) /=. lia.
    + by intros ????.
    + by intros ??%elem_of_nil.
    + by rw Hm1 lookup_insert_eq.
    + obind Hu. by exists q2, [].
  - assert (length (top :: mid) = length (mid ++ [x])) as Hlen by (rw length_app /=; lia).
    assert ((top :: mid ++ [x]) !! length (mid ++ [x]) = Some x) as Hlast.
    { rw -Hlen. change (top :: mid ++ [x]) with ((top :: mid) ++ [x]). by apply list_lookup_middle. }
    obind (arr_get_holds _ _ _ _ _ (proj1 Hh) Hlast).
    destruct (replace_top q0 _ _ _ _ Hh0) as (q1 & Hs & Hh1 & Hm1 & Ht1). obind Hs.
    assert (x :: mid ≡ₚ mid ++ [x]) as Hpm by apply Permutation_cons_append.
    assert (numbers (mem q1) (x :: mid)) as Hn1.
    { intros y Hy. rw (tm_moved _ _ _ _ Hm1). apply Hnum. right. by rw -Hpm. }
    pose proof Hm1 as (Hs1 & _ & Hx1 & _). simpl in Hs1, Hx1.
    destruct (bubble_down_holds (S (heap_size q1)) q1 (x :: mid) (Some x :: r) 0)
      as (q2 & l2 & Hb & Hh2 & Hm2 & Hp2 & Ho2); [rw Hs1 -Hlen /=; lia|done|done|simpl; lia|by rw Hs1 -Hlen| |].
    { apply (down_ordered_moved _ _ _ _ _ Hm1). by eapply down_ordered_top. }
    obind Hb. rw Hpm in Hp2.
    destruct (unlink_top q0 q2 l2 top (Some x :: r) et (top :: mid ++ [x]))
      as (q3 & Hu & Hwf & Hf & Ht); [|set_solver| | |done|simpl; lia| | |done| | |].
    + apply (moved_trans_sub _ _ _ _ _ Hm1 Hm2). rw Hpm. set_solver.
    + rw Hp2. set_solver.
    + by rw Hp2.
    + destruct Hm2 as (-> & _). rw Hs1 (Permutation_length Hp2). done.
    + destruct Hm2 as (_ & _ & -> & _). rw Hx1 Hmax (arr_holds_length _ _ _ (proj1 Hh))
        (arr_holds_length _ _ _ (proj1 Hh2)) (Permutation_length Hp2) /=. lia.
    + eapply numbers_moved; [done|by rw Hp2 -Hpm|done].
    + destruct Hm2 as (_ & _ & _ & _ & ->); [by rw Ht1|]. rw Hpm. done.
    + obind Hu. by exists q3, l2.
Qed.

Lemma remove_element_absent q l e el :
  wf q l → mem q !! e = Some el → e ∉ l → Remove_element q e = Some (Returned None, q).
Proof.
  intros ((r & Hh & _) & Hsz & _) Hel He. unfold Remove_element. obind Hel.
  case_decide as Hd; [done|]. rw Hsz in Hd.
  destruct (lookup_lt_is_Some_2 l (Z.to_nat (offset el))) as [x Hx]; [lia|].
  obind (arr_get_holds _ _ _ _ _ (proj1 Hh) Hx).
  rw decide_True //. intros ->. by apply list_elem_of_lookup_2 in Hx.
Qed.

(** Lowering the time of one entry breaks the order only above its bin. *)
Lemma up_ordered_minimize m l k e el :
  l !! k = Some e → NoDup l → heap_ordered m l → numbers m l →
  up_ordered (<[e := MinimizeTime el]> m) l k.
Proof.
  intros Hk Hnd Ho Hn. set (m' := <[e := MinimizeTime el]> m).
  assert (∀ x, x ≠ e → tm m' x = tm m x) as Htm.
  { intros x Hx. unfold tm, m'. by rw lookup_insert_ne. }
  assert (tm m' e = neg_HUGE_VAL) as Hte by (unfold tm, m'; by rw lookup_insert_eq).
  assert (∀ i x, l !! i = Some x → i ≠ k → x ≠ e) as Hne.
  { intros i x Hi Hik ->. apply Hik. by eapply NoDup_lookup. }
  split; intros j.
  - intros Hj Hjk x y Hx Hy. rw (Htm y); [|by eapply Hne].
    destruct (decide (x = e)) as [->|]; [rw Hte; apply neg_HUGE_VAL_least|].
    rw Htm //. by apply (Ho j).
  - intros Hk0 Hj Hjk x y Hx Hy. pose proof (parent_lt k Hk0). pose proof (parent_lt j Hj).
    rw !Htm; [|eapply Hne; [done|lia]..].
    eapply (le_at_trans m l _ k); [done|by eapply lookup_lt_Some|by apply Ho| |done|done].
    rw -Hjk. by apply Ho.
Qed.

Lemma remove_element_wf q l e :
  wf q l → e ∈ l → (∀ x, x ∈ l → x ≠ e → tm (mem q) x ≠ neg_HUGE_VAL) →
  ∃ q' l', Remove_element q e = Some (Returned (Some e), q') ∧ wf q' l' ∧ l ≡ₚ e :: l' ∧
    mem q' !! e = Some (mkElement neg_HUGE_VAL (-1)) ∧
    (∀ x, x ≠ e → time <$> mem q' !! x = time <$> mem q !! x) ∧
    (∀ x, x ∉ l → mem q' !! x = mem q !! x).
Proof.
  intros ((r & Hh & Hr) & Hsz & Hmax & Hord & Hnum) [k Hk]%list_elem_of_lookup_1 Hinf.
  destruct (proj2 Hh k e Hk) as (el & Hel & Hoff).
  pose proof (lookup_lt_Some _ _ _ Hk) as Hlt.
  unfold Remove_element. obind Hel. rw decide_False; [|lia]. rw Hoff Nat2Z.id.
  obind (arr_get_holds _ _ _ _ _ (proj1 Hh) Hk). rw decide_False; [|by intros []].
  set (q0 := mkPQ _ _ _ _ _).
  assert (holds q0 l r) as Hh0.
  { split; [apply Hh|]. intros i x Hi. unfold q0; simpl. rw lookup_insert. case_decide; [|by apply Hh].
    subst. eexists; split; [done|]. rw /= Hoff. f_equal. by eapply (holds_inj q l r). }
  assert (∀ x, tm (mem q0) x = if decide (x = e) then neg_HUGE_VAL else tm (mem q) x) as Htm.
  { intros x. unfold tm, q0; simpl. rw lookup_insert. repeat case_decide; by subst. }
  destruct (bubble_up_holds (S k) q0 l r k) as (q1 & l1 & Hb & Hh1 & Hm1 & Hp1 & Ho1);
    [lia|done| |done|by apply up_ordered_minimize; [|by eapply holds_NoDup| |]|].
  { intros x Hx. rw Htm. case_decide; [done|by apply Hnum]. }
  obind Hb.
  assert (wf q1 l1) as Hwf1.
  { pose proof Hm1 as (Hs1 & _ & Hx1 & _). split_and!; [by exists r|by rw Hs1 Hp1| |done|].
    - rw Hx1 /= Hmax (arr_holds_length _ _ _ (proj1 Hh)) (arr_holds_length _ _ _ (proj1 Hh1)). by rw Hp1.
    - intros x Hx. rw (tm_moved _ _ _ _ Hm1) Htm. case_decide; [done|]. apply Hnum. by rw -Hp1. }
  destruct l1 as [|top rest]; [by apply Permutation_nil_l in Hp1; subst|].
  assert (top = e) as ->.
  { destruct (decide (top = e)) as [|Hne]; [done|]. exfalso.
    assert (top ∈ l) as Htop by (rw -Hp1; by left).
    apply (Hinf top Htop Hne). apply dleq_neg_HUGE; [by apply Hnum|].
    pose proof (heap_min _ _ top Ho1 ltac:(apply Hwf1) eq_refl e) as Hmin.
    rw !(tm_moved _ _ _ _ Hm1) !Htm (decide_True (P := e = e)) // (decide_False (P := top = e)) // in Hmin.
    apply Hmin. rw Hp1. by eapply list_elem_of_lookup_2. }
  destruct (remove_wf _ _ _ Hwf1) as (q2 & l2 & Hrm & Hwf2 & Hp2 & [Ht2 Hf2] & Htop). obind Hrm.
  rw decide_False; [|by intros []]. exists q2, l2. split_and!; [done|done|by rw Hp2| | |].
  - by rw Htop (tm_moved _ _ _ _ Hm1) Htm decide_True.
  - intros x Hx. destruct Hm1 as (_&_&_&Ht1&_). by rw Ht2 Ht1 /= lookup_insert_ne.
  - intros x Hx. rw Hf2; [|by rw Hp1]. destruct Hm1 as (_&_&_&_&Hf1).
    rw Hf1 //= lookup_insert_ne //. intros ->. apply Hx. by eapply list_elem_of_lookup_2.
Qed.

(** ** The queue as a bag of elements *)

(** [rep q X]: [q] is well formed and holds exactly the elements [X]. *)
Definition rep (q : PriorityQueue) (X : list addr) : Prop := ∃ l, wf q l ∧ l ≡ₚ X.

#[global] Instance rep_proper q : Proper ((≡ₚ) ==> iff) (rep q).
Proof. intros X Y HXY. unfold rep. by setoid_rewrite HXY. Qed.

(** [e] is among the earliest elements of [X]. *)
Definition earliest (m : gmap addr PQ_Element) (e : addr) (X : list addr) : Prop :=
  e ∈ X ∧ ∀ x, x ∈ X → dleq (tm m e) (tm m x).

Lemma rep_Top q X :
  rep q X → (X = [] ∧ Top q = Some None) ∨
            (∃ e, Top q = Some (Some e) ∧ earliest (mem q) e X).
Proof.
  intros (l & ((r & Hh & Hr) & Hsz & Hmax & Hord & Hnum) & HX). unfold Top. rw Hsz.
  destruct l as [|e l]; [left; by apply Permutation_nil_l in HX|right]. simpl.
  obind (arr_get_holds _ _ _ 0 e (proj1 Hh) eq_refl).
  exists e. split; [done|]. split; [rw -HX; by left|].
  intros x Hx. eapply heap_min; [done..|by rw HX].
Qed.

Lemma rep_Remove q X :
  rep q X →
  (X = [] ∧ Remove q = Some (None, q)) ∨
  (∃ e X' q', Remove q = Some (Some e, q') ∧ Top q = Some (Some e) ∧ earliest (mem q) e X ∧
     X ≡ₚ e :: X' ∧ rep q' X' ∧ frame q q' X ∧
     mem q' !! e = Some (mkElement (tm (mem q) e) (-1))).
Proof.
  intros Hrep. pose proof (rep_Top q X Hrep) as Htop.
  destruct Hrep as (l & Hwf & HX). destruct l as [|e l].
  { left. split; [by apply Permutation_nil_l in HX|]. destruct Hwf as (_ & Hsz & _).
    unfold Remove. by rw Hsz. }
  right. destruct (remove_wf _ _ _ Hwf) as (q' & l' & Hr & Hwf' & Hp & [Hf1 Hf2] & Hm).
  destruct Htop as [[-> _]|(e' & Ht & He)]; [by apply Permutation_nil_r in HX|].
  assert (e' = e) as ->.
  { unfold Top in Ht. destruct Hwf as ((r & Hh & _) & Hsz & _).
    rw Hsz /= in Ht. rw (arr_get_holds _ _ _ 0 e (proj1 Hh) eq_refl) /= in Ht. by injection Ht. }
  exists e, l', q'. split_and!; [done|done|done|by rw -HX Hp|by exists l'| |done]. split; [done|].
  intros x Hx. apply Hf2. by rw HX.
Qed.

Lemma rep_Add q X e el :
  rep q X → e ∉ X → mem q !! e = Some el → is_number (time el) →
  ∃ q', Add q e = Some q' ∧ rep q' (e :: X) ∧ frame q q' (e :: X).
Proof.
  intros (l & Hwf & HX) He Hel Hn.
  destruct (add_wf q l e el Hwf) as (q' & l' & Ha & Hwf' & Hp & [Hf1 Hf2]); [by rw HX|done..|].
  exists q'. split; [done|]. split; [exists l'; split; [done|by rw Hp HX]|].
  split; [done|]. intros x Hx. apply Hf2. by rw HX.
Qed.

(** ** Properties *)

(** C10. The heap implements a bag of timed elements: [Add] inserts the element,
    [Top] shows and [Remove] takes out an element whose time is minimal, every
    other element keeps its time, [Remove] marks the element as not in the heap,
    and both report the empty queue.  In particular the array never overflows
    and the recursions terminate. *)
Theorem ops_implement_bag (q : PriorityQueue) (X : list addr) (Hrep : rep q X) :
  (∀ e el, e ∉ X → mem q !! e = Some el → is_number (time el) →
     ∃ q', Add q e = Some q' ∧ rep q' (e :: X) ∧ frame q q' (e :: X)) ∧
  ((X = [] ∧ Top q = Some None ∧ Remove q = Some (None, q)) ∨
   (∃ e X' q', Top q = Some (Some e) ∧ Remove q = Some (Some e, q') ∧
      earliest (mem q) e X ∧ X ≡ₚ e :: X' ∧ rep q' X' ∧ frame q q' X ∧
      mem q' !! e = Some (mkElement (tm (mem q) e) (-1)))).
Proof.
  split; [eauto using rep_Add|].
  destruct (rep_Remove q X Hrep) as [[-> Hr]|(e & X' & q' & Hr & Ht & Hrest)].
  - left. destruct (rep_Top q [] Hrep) as [[_ Ht]|(e & _ & He & _)]; [done|].
    by apply elem_of_nil in He.
  - right. by exists e, X', q'.
Qed.

(** Cancelling an element, [Remove(e)], takes out exactly that element:
    it is moved to the top by giving it the least time, so the call is correct
    as long as no other element of the heap already has that time.  On an
    element that is not in the heap, whatever its stale offset, the call
    returns nil and changes nothing. *)
Theorem Remove_element_exact (q : PriorityQueue) (X : list addr) (e : addr) (el : PQ_Element)
    (Hrep : rep q X) (Hel : mem q !! e = Some el) :
  (e ∉ X → Remove_element q e = Some (Returned None, q)) ∧
  (e ∈ X → (∀ x, x ∈ X → x ≠ e → tm (mem q) x ≠ neg_HUGE_VAL) →
   ∃ q' X', Remove_element q e = Some (Returned (Some e), q') ∧ X ≡ₚ e :: X' ∧ rep q' X' ∧
     mem q' !! e = Some (mkElement neg_HUGE_VAL (-1)) ∧
     ∀ x, x ≠ e → tm (mem q') x = tm (mem q) x).
Proof.
  destruct Hrep as (l & Hwf & HX). split.
  - intros He. apply (remove_element_absent _ l _ el); [done..|by rw HX].
  - intros He Hinf. destruct (remove_element_wf q l e Hwf) as (q' & l' & Hr & Hwf' & Hp & Ht & Hf & _).
    { by rw HX. } { intros x Hx. apply Hinf. by rw -HX. }
    exists q', l'. split_and!; [done|by rw -HX|by exists l'|done|].
    intros x Hx. unfold tm. by rw Hf.
Qed.

(** ** Witnesses *)

(** Three elements with times 5, 2 and 7, added to a queue of one bin (which
    therefore has to grow). *)
Definition sample_mem : gmap addr PQ_Element :=
  {[ 1 := PQ_Element_new (double_of_Z 5); 2 := PQ_Element_new (double_of_Z 2);
     3 := PQ_Element_new (double_of_Z 7) ]}.

Definition sample : PriorityQueue :=
  default (PriorityQueue_new 1 sample_mem)
    (q ← Add (PriorityQueue_new 1 sample_mem) 1; q ← Add q 2; Add q 3).

Lemma pq_sample_rep : rep sample [2; 1; 3].
Proof.
  assert (rep (PriorityQueue_new 1 sample_mem) []) as H0 by (exists []; split; [apply wf_empty; lia|done]).
  destruct (rep_Add _ _ 1 (PQ_Element_new (double_of_Z 5)) H0) as (q1 & Ha1 & H1 & _ & Hf1);
    [by apply not_elem_of_nil|done|done|].
  destruct (rep_Add q1 _ 2 (PQ_Element_new (double_of_Z 2)) H1) as (q2 & Ha2 & H2 & _ & Hf2);
    [by apply (bool_decide_unpack _)|by rw Hf1; [|apply (bool_decide_unpack _)]|done|].
  destruct (rep_Add q2 _ 3 (PQ_Element_new (double_of_Z 7)) H2) as (q3 & Ha3 & H3 & _);
    [by apply (bool_decide_unpack _)| |done|].
  { rw Hf2; [rw Hf1; [done|]|]; by apply (bool_decide_unpack _). }
  unfold sample. rw Ha1 /= Ha2 /= Ha3 /=. by rw (Permutation_cons_append [2; 1] 3) in H3.
Qed.

Lemma ops_implement_bag_witness :
  Top sample = Some (Some 2) ∧
  ∃ e X' q', Top sample = Some (Some e) ∧ Remove sample = Some (Some e, q') ∧
    earliest (mem sample) e [2; 1; 3] ∧ [2; 1; 3] ≡ₚ e :: X' ∧ rep q' X'.
Proof.
  split; [reflexivity|].
  destruct (proj2 (ops_implement_bag _ _ pq_sample_rep)) as [[Hnil _]|(e & X' & q' & H1 & H2 & H3 & H4 & H5 & _)];
    [discriminate Hnil|].
  exists e, X', q'. exact (conj H1 (conj H2 (conj H3 (conj H4 H5)))).
Defined.

Lemma Remove_element_exact_witness :
  ∃ q' X', Remove_element sample 3 = Some (Returned (Some 3), q') ∧ [2; 1; 3] ≡ₚ 3 :: X' ∧
    rep q' X'.
Proof.
  destruct (proj2 (Remove_element_exact sample [2; 1; 3] 3 (mkElement (double_of_Z 7) 2)
    pq_sample_rep eq_refl)) as (q' & X' & H1 & H2 & H3 & _);
    [by apply (bool_decide_unpack _)| |
     exists q', X'; exact (conj H1 (conj H2 H3))].
  intros x Hx _. repeat (apply elem_of_cons in Hx as [->|Hx]; [by vm_compute|]).
  destruct (not_elem_of_nil _ Hx).
Defined.

End PQ.
