(* ===== verification/TimerMgr.v ===== *)
(** TimerMgr: the timer manager of Timer.cc / Timer.h ([PQ_TimerMgr]).

    Timers sit in a [PriorityQueue]; advancing the clock dispatches the due ones
    in time order.  The virtual [Timer::Dispatch] is a parameter: it may add
    timers to the very manager that is dispatching, cancel queued ones and change
    the rest of the program's state ([W]). *)
From S2P Require Import Prelude Double PQueue.
From stdpp Require Import sorting.

Module TM.

Abbreviation addr := nat (only parsing).

(** [TimerType], by its number. *)
Definition TIMER_FRAG : Z := 7.
Definition TIMER_TCP_ATTEMPT : Z := 21.
Definition TIMER_TIMERMGR_EXPIRE : Z := 27.
Definition NUM_TIMER_TYPES : Z := TIMER_TIMERMGR_EXPIRE + 1.

(** The manager, with the store of the timers: the [PQ_Element] part is in
    [PQ.mem q], [type] gives the bit field of the same name. *)
Record TimerMgr := mkTM {
  q : PQ.PriorityQueue;
  type : gmap addr Z;
  t : double;
  last_timestamp : double;
  last_advance : double;
  num_expired : Z;
  current_timers : gmap Z Z
}.

Definition set_q (m : TimerMgr) (v : PQ.PriorityQueue) : TimerMgr :=
  mkTM v (type m) (t m) (last_timestamp m) (last_advance m) (num_expired m) (current_timers m).
Definition set_last_timestamp (m : TimerMgr) (v : double) : TimerMgr :=
  mkTM (q m) (type m) (t m) v (last_advance m) (num_expired m) (current_timers m).
Definition set_num_expired (m : TimerMgr) (v : Z) : TimerMgr :=
  mkTM (q m) (type m) (t m) (last_timestamp m) (last_advance m) v (current_timers m).

Definition zero : double := S754_zero false.

(** [double Time() const { return t ? t : 1; }] *)
Definition Time (m : TimerMgr) : double :=
  if deq (t m) zero then double_of_Z 1 else t m.

(** [++current_timers[timer->Type()]] and its inverse, on [unsigned int]. *)
Definition count_timer (d : Z) (m : TimerMgr) (timer : addr) : option TimerMgr :=
  ty ← type m !! timer;
  c ← current_timers m !! ty;
  Some (mkTM (q m) (type m) (t m) (last_timestamp m) (last_advance m) (num_expired m)
    (<[ty := uint32 (c + d)]> (current_timers m))).

(** [delete timer] *)
Definition delete_timer (m : TimerMgr) (timer : addr) : TimerMgr :=
  mkTM (PQ.mkPQ (PQ.heap (q m)) (PQ.heap_size (q m)) (PQ.peak_heap_size (q m))
         (PQ.max_heap_size (q m)) (delete timer (PQ.mem (q m))))
    (delete timer (type m)) (t m) (last_timestamp m) (last_advance m) (num_expired m)
    (current_timers m).

(** The constructors: a timer type is kept in eight bits. *)
Definition Timer_new (m : TimerMgr) (a : addr) (at_time : double) (ty : Z) : TimerMgr :=
  mkTM (PQ.mkPQ (PQ.heap (q m)) (PQ.heap_size (q m)) (PQ.peak_heap_size (q m))
         (PQ.max_heap_size (q m)) (<[a := PQ.PQ_Element_new at_time]> (PQ.mem (q m))))
    (<[a := uint8 ty]> (type m)) (t m) (last_timestamp m) (last_advance m) (num_expired m)
    (current_timers m).

Definition PQ_TimerMgr_new (counts : gmap Z Z) : TimerMgr :=
  mkTM (PQ.PriorityQueue_new 16 ∅) ∅ zero zero zero 0 counts.

Definition Add (m : TimerMgr) (timer : addr) : option TimerMgr :=
  q' ← PQ.Add (q m) timer; count_timer 1 (set_q m q') timer.

(** [PQ_TimerMgr::Remove(Timer* )]; [None] also stands for the internal error
    "asked to remove a missing timer". *)
Definition Remove (m : TimerMgr) (timer : addr) : option TimerMgr :=
  '(r, q') ← PQ.Remove_element (q m) timer;
  match r with
  | PQ.Returned (Some _) =>
    m ← count_timer (-1) (set_q m q') timer; Some (delete_timer m timer)
  | _ => None
  end.

Definition Cancel (m : TimerMgr) (timer : addr) : option TimerMgr := Remove m timer.

Section dispatch.
(** [timer->Dispatch(t, is_expire)]; [W] is the state of the program outside the
    manager (connections, sessions), which the timers act on. *)
Context {W : Type}.
Variable Dispatch : addr → double → bool → TimerMgr → W → option (TimerMgr * W).

(** The loop of [DoAdvance], from the test on; [trace] lists the timers
    dispatched, latest first. *)
Fixpoint advance_loop (fuel : nat) (new_t : double) (max_expire : Z) (m : TimerMgr) (w : W)
    (trace : list addr) : option (TimerMgr * W * list addr) :=
  match fuel with
  | O => None
  | S fuel =>
    top ← PQ.Top (q m);
    if decide (num_expired m < max_expire ∨ max_expire = 0)%Z then
      match top with
      | None => Some (m, w, trace)
      | Some timer =>
        el ← PQ.mem (q m) !! timer;
        if dle (PQ.time el) new_t then
          let m := set_last_timestamp m (PQ.time el) in
          m ← count_timer (-1) m timer;
          '(_, q') ← PQ.Remove (q m);
          '(m, w) ← Dispatch timer new_t false (set_q m q') w;
          let m := delete_timer m timer in
          advance_loop fuel new_t max_expire (set_num_expired m (num_expired m + 1)) w
            (timer :: trace)
        else Some (m, w, trace)
      end
    else Some (m, w, trace)
  end.

Definition DoAdvance (fuel : nat) (m : TimerMgr) (w : W) (new_t : double) (max_expire : Z)
    : option (Z * TimerMgr * W * list addr) :=
  '(m, w, trace) ← advance_loop fuel new_t max_expire (set_num_expired m 0) w [];
  Some (num_expired m, m, w, trace).

(** [TimerMgr::Advance]; [other] is the time of the global manager when that is
    another one. *)
Definition Advance (fuel : nat) (m : TimerMgr) (w : W) (other : option double) (arg_t : double)
    (max_expire : Z) : option (Z * TimerMgr * W * list addr) :=
  let m := mkTM (q m) (type m) arg_t zero (last_advance m) 0 (current_timers m) in
  let m := mkTM (q m) (type m) (t m) (last_timestamp m) (default (Time m) other)
    (num_expired m) (current_timers m) in
  DoAdvance fuel m w (t m) max_expire.

Fixpoint Expire (fuel : nat) (m : TimerMgr) (w : W) (trace : list addr)
    : option (TimerMgr * W * list addr) :=
  match fuel with
  | O => None
  | S fuel =>
    '(r, q') ← PQ.Remove (q m);
    let m := set_q m q' in
    match r with
    | None => Some (m, w, trace)
    | Some timer =>
      '(m, w) ← Dispatch timer (t m) true m w;
      m ← count_timer (-1) m timer;
      Expire fuel (delete_timer m timer) w (timer :: trace)
    end
  end.

End dispatch.

(** ** Specification *)

Definition time_of (m : TimerMgr) (e : addr) : double := PQ.tm (PQ.mem (q m)) e.

(** Number of timers of [Y] whose type is [ty]. *)
Definition count_type (ty : gmap addr Z) (k : Z) (Y : list addr) : nat :=
  length (filter (λ x, ty !! x = Some k) Y).

(** The queue holds the timers [X], each has a type, and the counters count the
    timers [Y]. *)
Definition counts (m : TimerMgr) (Y : list addr) : Prop :=
  (∀ k, (0 ≤ k < NUM_TIMER_TYPES)%Z →
     current_timers m !! k = Some (uint32 (Z.of_nat (count_type (type m) k Y)))) ∧
  (∀ y, y ∈ Y → ∃ k, type m !! y = Some k ∧ (0 ≤ k < NUM_TIMER_TYPES)%Z).

Definition valid (m : TimerMgr) (X : list addr) : Prop :=
  PQ.rep (q m) X ∧ counts m X.

Definition due (m : TimerMgr) (new_t : double) (e : addr) : Prop := dle (time_of m e) new_t = true.

(** ** Counting *)

#[global] Instance count_type_proper ty k : Proper ((≡ₚ) ==> (=)) (count_type ty k).
Proof. intros X Y H. unfold count_type. by rw H. Qed.

Lemma count_type_cons ty k e X :
  count_type ty k (e :: X) = (if decide (ty !! e = Some k) then 1 else 0) + count_type ty k X.
Proof. unfold count_type. rw filter_cons. by case_decide. Qed.

Lemma count_type_ext ty ty' k X :
  (∀ x, x ∈ X → ty' !! x = ty !! x) → count_type ty' k X = count_type ty k X.
Proof.
  unfold count_type. induction X as [|x X IH]; intros H; [done|].
  rw !filter_cons (H x); [|by left]. repeat case_decide; simpl; rw IH //; intros; apply H; by right.
Qed.

Lemma uint32_add_l a b : uint32 (uint32 a + b) = uint32 (a + b).
Proof. unfold uint32, wrap_u. by rw Zplus_mod_idemp_l. Qed.

#[global] Instance counts_proper m : Proper ((≡ₚ) ==> iff) (counts m).
Proof.
  intros X Y HXY. unfold counts. by setoid_rewrite HXY.
Qed.

#[global] Instance valid_proper m : Proper ((≡ₚ) ==> iff) (valid m).
Proof. intros X Y HXY. unfold valid. by rw HXY. Qed.

(** Only the type store and the counters matter to [counts]. *)
Lemma counts_same m m' Y :
  type m' = type m → current_timers m' = current_timers m → counts m Y → counts m' Y.
Proof. unfold counts. by intros -> ->. Qed.

Lemma counts_incr m e Y k :
  type m !! e = Some k → (0 ≤ k < NUM_TIMER_TYPES)%Z → counts m Y →
  ∃ m', count_timer 1 m e = Some m' ∧ counts m' (e :: Y) ∧ q m' = q m ∧ type m' = type m.
Proof.
  intros He Hk [Hc Hy]. unfold count_timer. obind He. obind (Hc k Hk).
  eexists; split; [done|]. split; [split|done]; simpl.
  - intros j Hj. rw count_type_cons He. case_decide as Hd; simplify_eq.
    + rw lookup_insert_eq uint32_add_l. do 2 f_equal. lia.
    + rw lookup_insert_ne; [|congruence]. by apply Hc.
  - intros y [->|Hin]%elem_of_cons; [by exists k|by apply Hy].
Qed.

Lemma counts_decr m e Y :
  counts m (e :: Y) →
  ∃ m', count_timer (-1) m e = Some m' ∧ counts m' Y ∧ q m' = q m ∧ type m' = type m ∧
    t m' = t m ∧ last_timestamp m' = last_timestamp m ∧ num_expired m' = num_expired m.
Proof.
  intros [Hc Hy]. destruct (Hy e) as (k & He & Hk); [by left|].
  unfold count_timer. obind He. obind (Hc k Hk).
  eexists; split; [done|]. split; [split|done]; simpl.
  - intros j Hj. destruct (decide (k = j)) as [->|Hne].
    + rw lookup_insert_eq uint32_add_l count_type_cons decide_True //. do 2 f_equal. lia.
    + rw lookup_insert_ne // Hc // count_type_cons decide_False //. congruence.
  - intros y Hin. apply Hy. by right.
Qed.

(** The store matters only at the timers that are queued or counted. *)
Lemma rep_ext qu qu' X :
  PQ.heap qu' = PQ.heap qu → PQ.heap_size qu' = PQ.heap_size qu →
  PQ.max_heap_size qu' = PQ.max_heap_size qu →
  (∀ x, x ∈ X → PQ.mem qu' !! x = PQ.mem qu !! x) → PQ.rep qu X → PQ.rep qu' X.
Proof.
  intros Hh Hs Hm Hd (l & ((r & [Ha Ho] & Hr) & Hsz & Hmx & Hord & Hnum) & HX).
  exists l. split; [|done]. setoid_rewrite <- HX in Hd.
  split_and!; [|by rw Hs|by rw Hm Hh| |].
  - exists r. split; [split; [by rw Hh|]|done]. intros i x Hx. rw Hd; [by apply Ho|].
    by eapply list_elem_of_lookup_2.
  - intros j Hj x y Hx Hy. unfold PQ.tm. rw /= !Hd; [|by eapply list_elem_of_lookup_2..].
    by apply (Hord j).
  - intros x Hx. unfold PQ.tm. rw /= Hd //. by apply Hnum.
Qed.

Lemma counts_ext m m' Y :
  current_timers m' = current_timers m → (∀ x, x ∈ Y → type m' !! x = type m !! x) →
  counts m Y → counts m' Y.
Proof.
  intros Hc Hd [Hk Hy]. split.
  - intros k Hr. by rw Hc (count_type_ext (type m)) // Hk.
  - intros y Hin. rw Hd //. by apply Hy.
Qed.

Lemma valid_delete m e X : valid m X → e ∉ X → valid (delete_timer m e) X.
Proof.
  intros [Hr Hc] He. split; [eapply rep_ext; [..|exact Hr]|eapply counts_ext; [..|exact Hc]]; try done;
    intros x Hx; simpl; rw lookup_delete_ne //; by intros ->.
Qed.

Lemma valid_new m a at_time ty X : valid m X → a ∉ X → valid (Timer_new m a at_time ty) X.
Proof.
  intros [Hr Hc] He. split; [eapply rep_ext; [..|exact Hr]|eapply counts_ext; [..|exact Hc]]; try done;
    intros x Hx; simpl; rw lookup_insert_ne //; by intros ->.
Qed.

Lemma time_of_delete m e x : x ≠ e → time_of (delete_timer m e) x = time_of m x.
Proof. intros. unfold time_of, PQ.tm. simpl. by rw lookup_delete_ne. Qed.

(** ** Advancing *)

Lemma earliest_rest m e X x :
  PQ.earliest m e X → x ∈ X → dleq (PQ.tm m e) (PQ.tm m x).
Proof. intros [_ H]. apply H. Qed.

Lemma rep_number qu X x : PQ.rep qu X → x ∈ X → is_number (PQ.tm (PQ.mem qu) x).
Proof. intros (l & (_&_&_&_&Hn) & HX) Hx. apply Hn. by rw HX. Qed.

Lemma rep_NoDup qu X : PQ.rep qu X → NoDup X.
Proof. intros (l & ((r & Hh & _) & _) & HX). rw -HX. by eapply PQ.holds_NoDup. Qed.

(** A permutation of two lists splits along any other splitting. *)
Lemma Permutation_split {B : Type} (l1 l2 k1 k2 : list B) :
  l1 ++ l2 ≡ₚ k1 ++ k2 →
  ∃ a b c d, l1 ≡ₚ a ++ b ∧ l2 ≡ₚ c ++ d ∧ k1 ≡ₚ a ++ c ∧ k2 ≡ₚ b ++ d.
Proof.
  revert k1 k2. induction l1 as [|x l1 IH]; intros k1 k2 Hp.
  { exists [], [], k1, k2. done. }
  assert (x ∈ k1 ++ k2) as [[k Hk]%elem_of_Permutation|[k Hk]%elem_of_Permutation]%elem_of_app
    by (rw -Hp; by left); rw Hk /= in Hp.
  - apply Permutation_cons_inv in Hp. destruct (IH _ _ Hp) as (a & b & c & d & H1 & H2 & H3 & H4).
    exists (x :: a), b, c, d. split_and!; [by rw H1|done|by rw Hk H3|done].
  - rw -Permutation_middle in Hp. apply Permutation_cons_inv in Hp.
    destruct (IH _ _ Hp) as (a & b & c & d & H1 & H2 & H3 & H4).
    exists a, (x :: b), c, d. split_and!; [by rw H1 Permutation_middle|done|done|by rw Hk H4].
Qed.

Lemma sorted_ext (tm tm' : addr → double) ds :
  (∀ x, x ∈ ds → tm' x = tm x) → StronglySorted (λ x y, dleq (tm' x) (tm' y)) ds →
  StronglySorted (λ x y, dleq (tm x) (tm y)) ds.
Proof.
  intros Ht Hs. induction Hs as [|x ds Hs IHs Hall]; constructor; [apply IHs; set_solver|].
  rw Forall_forall. rw Forall_forall in Hall. intros y Hy.
  rw -!Ht; [by apply Hall|set_solver..].
Qed.

Section advance.
Context {W : Type} (Dispatch : addr → double → bool → TimerMgr → W → option (TimerMgr * W)) (new_t : double).
Context (Hnum : is_number new_t).

(** [cancels e x]: dispatching timer [e] may cancel timer [x] (they belong to the
    same connection, say).  [Inv m w X]: what the rest of the program keeps true of
    the timers [X] that wait in the manager; it looks at [m] for their times only. *)
Context (cancels : addr → addr → Prop) (Inv : TimerMgr → W → list addr → Prop).

Definition looks_at_times : Prop :=
  ∀ m m' w X X', X ≡ₚ X' → (∀ x, x ∈ X → time_of m' x = time_of m x) → Inv m w X → Inv m' w X'.

(** What a dispatch during [DoAdvance] may do to the manager: start timers ([A])
    that are due later than the time being advanced to, and cancel queued timers
    ([C]), of the due ones only those it [cancels]. *)
Definition dispatches_ok : Prop :=
  ∀ m w X e, valid m X → e ∉ X → Inv m w (e :: X) → due m new_t e →
  ∃ m' w' A X' C, Dispatch e new_t false m w = Some (m', w') ∧ X ≡ₚ X' ++ C ∧
    valid m' (A ++ X') ∧ (e ∉ A) ∧
    (∀ a, a ∈ A → dlt new_t (time_of m' a) = true) ∧
    (∀ x, x ∈ X' → time_of m' x = time_of m x) ∧
    (∀ x, x ∈ C → due m new_t x → cancels e x) ∧
    Inv m' w' (A ++ X') ∧ num_expired m' = num_expired m.

Context (Hext : looks_at_times) (HD : dispatches_ok).

(** One turn of the loop. *)
Lemma advance_step m w X e el :
  valid m X → Inv m w X → PQ.Top (q m) = Some (Some e) → PQ.mem (q m) !! e = Some el →
  dle (PQ.time el) new_t = true →
  ∃ m1 m2 w2 X' A C q',
    count_timer (-1) (set_last_timestamp m (PQ.time el)) e = Some m1 ∧
    PQ.Remove (q m1) = Some (Some e, q') ∧
    Dispatch e new_t false (set_q m1 q') w = Some (m2, w2) ∧
    X ≡ₚ e :: X' ++ C ∧ valid (delete_timer m2 e) (A ++ X') ∧
    Inv (delete_timer m2 e) w2 (A ++ X') ∧
    (∀ a, a ∈ A → dlt new_t (time_of (delete_timer m2 e) a) = true) ∧
    (∀ x, x ∈ X' → time_of (delete_timer m2 e) x = time_of m x) ∧
    (∀ x, x ∈ C → due m new_t x → cancels e x) ∧
    num_expired m2 = num_expired m.
Proof.
  intros [Hrep Hc] HI Htop Hel Hdue.
  destruct (PQ.rep_Remove _ _ Hrep) as [[-> _]|(e' & X' & q' & Hr & Ht & He & HX & Hrep' & [Hf1 Hf2] & Hm)].
  { destruct (PQ.rep_Top _ _ Hrep) as [[_ Ht]|(? & _ & [Hin%elem_of_nil _])]; [congruence|done]. }
  assert (e' = e) as -> by congruence. rw HX in Hc.
  destruct (counts_decr (set_last_timestamp m (PQ.time el)) e X') as (m1 & Hm1 & Hc1 & Hq1 & Hty1 & Ht1 & Hlt1 & Hne1);
    [by eapply counts_same; [..|exact Hc]|].
  pose proof (rep_NoDup _ _ Hrep) as Hnd. rw HX in Hnd. apply NoDup_cons in Hnd as [HeX Hnd].
  assert (∀ x, time_of (set_q m1 q') x = time_of m x) as Htq.
  { intros x. unfold time_of, PQ.tm. by rw /= Hf1. }
  destruct (HD (set_q m1 q') w X' e) as (m2 & w2 & A & Y & C & HDm & HXC & [Hrep2 Hc2] & HeA & HA & Htm & HC & HI2 & Hn2).
  { split; [done|]. by eapply counts_same; [..|exact Hc1]. } { done. }
  { eapply Hext; [exact HX| |exact HI]. intros x _. by apply Htq. }
  { unfold due. rw Htq. unfold time_of, PQ.tm. by rw Hel. }
  assert (e ∉ A ++ Y) as HeAX by (rw HXC in HeX; set_solver).
  exists m1, m2, w2, Y, A, C, q'.
  split_and!; [done|by rw Hq1|done|by rw -HXC| | | | | |].
  - by apply valid_delete.
  - eapply Hext; [done| |exact HI2]. intros x Hx. apply time_of_delete. by intros ->.
  - intros a Ha. rw time_of_delete; [by apply HA|]. intros ->. set_solver.
  - intros x Hx. rw time_of_delete; [|intros ->; set_solver]. by rw Htm // Htq.
  - intros x Hx Hd. apply HC; [done|]. unfold due. by rw Htq.
  - by rw Hn2 /= Hne1.
Qed.

(** What the loop has done when it stops: [ds] were dispatched, in this order,
    [rest] still wait and [canceled] were canceled. *)
Definition advanced (max_expire : Z) (m : TimerMgr) (X : list addr) (m' : TimerMgr) (w' : W)
    (ds : list addr) : Prop :=
  ∃ rest canceled A, X ≡ₚ ds ++ rest ++ canceled ∧ valid m' (A ++ rest) ∧ Inv m' w' (A ++ rest) ∧
    (∀ a, a ∈ A → dlt new_t (time_of m' a) = true) ∧
    (∀ x, x ∈ rest → time_of m' x = time_of m x) ∧
    StronglySorted (λ x y, dleq (time_of m x) (time_of m y)) ds ∧
    (∀ x, x ∈ ds → due m new_t x) ∧
    (∀ x y, x ∈ ds → y ∈ rest → dleq (time_of m x) (time_of m y)) ∧
    (∀ x, x ∈ canceled → due m new_t x →
      ∃ e, e ∈ ds ∧ cancels e x ∧ dleq (time_of m e) (time_of m x)) ∧
    num_expired m' = (num_expired m + Z.of_nat (length ds))%Z ∧
    ((∀ x, x ∈ rest → ¬ due m new_t x) ∨ (max_expire ≠ 0 ∧ max_expire ≤ num_expired m')%Z).

(** The first timer dispatched, then the rest of the run. *)
Lemma advanced_cons max_expire m X e m1 X2 C m' w' ds :
  X ≡ₚ e :: X2 ++ C → due m new_t e → (∀ x, x ∈ X → dleq (time_of m e) (time_of m x)) →
  (∀ x, x ∈ X2 → time_of m1 x = time_of m x) →
  (∀ x, x ∈ C → due m new_t x → cancels e x) →
  num_expired m1 = (num_expired m + 1)%Z →
  advanced max_expire m1 X2 m' w' ds → advanced max_expire m X m' w' (e :: ds).
Proof.
  intros HX Hdue Hmin Htm HC Hn1
    (rest & C' & A & Hp & Hv & HI & HA & Htm' & Hs & Hds & Hle & HC' & Hn & Hor).
  assert (∀ x, x ∈ ds ++ rest ++ C' → time_of m1 x = time_of m x) as Htm4.
  { intros x Hx. apply Htm. by rw Hp. }
  assert (∀ x, x ∈ ds ++ rest ++ C' → x ∈ X) as HinX.
  { intros x Hx. rw HX Hp. set_solver. }
  exists rest, (C' ++ C), A. split_and!; [by rw HX Hp /= -!assoc|done|done|done| | | | | | |].
  - intros x Hx. rw Htm' // Htm4 //. set_solver.
  - constructor.
    + apply (sorted_ext (time_of m) (time_of m1)); [|done]. intros x Hx. apply Htm4. set_solver.
    + apply Forall_forall. intros x Hx. apply Hmin, HinX. set_solver.
  - intros x [->|Hx]%elem_of_cons; [done|].
    unfold due. rw -Htm4; [by apply Hds|set_solver].
  - intros x y [->|Hx]%elem_of_cons Hy; [apply Hmin, HinX; set_solver|].
    rw -!Htm4; [by apply Hle|set_solver..].
  - intros x [Hx|Hx]%elem_of_app Hd.
    + destruct (HC' x Hx) as (d & Hd1 & Hd2 & Hd3); [unfold due; rw Htm4; [done|set_solver]|].
      exists d. split_and!; [by right|done|]. rw -!Htm4; [done|set_solver..].
    + exists e. split_and!; [by left|by apply HC|]. apply Hmin. rw HX. set_solver.
  - rw Hn Hn1 /=. lia.
  - destruct Hor as [Hor|Hor]; [left|by right].
    intros x Hx. unfold due. rw -Htm4; [by apply Hor|set_solver].
Qed.

Lemma advance_loop_correct fuel max_expire m w X B trace :
  length X < fuel → valid m (B ++ X) → Inv m w (B ++ X) →
  (∀ b, b ∈ B → dlt new_t (time_of m b) = true) →
  ∃ m' w' ds, advance_loop Dispatch fuel new_t max_expire m w trace = Some (m', w', reverse ds ++ trace) ∧
    advanced max_expire m X m' w' ds.
Proof.
  revert m w X B trace. induction fuel as [|fuel IH]; intros m w X B trace Hf Hv HI HB; [lia|]. simpl.
  pose proof Hv as [Hrep _].
  assert ((∀ x, x ∈ X → ¬ due m new_t x) ∨
    (max_expire ≠ 0 ∧ max_expire ≤ num_expired m)%Z → advanced max_expire m X m w []) as Hstop.
  { intros Hor. exists X, [], B. rw app_nil_r.
    split_and!; try done; [constructor|set_solver|set_solver|set_solver|simpl; lia]. }
  destruct (PQ.rep_Top _ _ Hrep) as [[Hnil Ht]|(e & Ht & He)]; obind Ht.
  { assert (X = []) as -> by by apply app_eq_nil in Hnil as [_ ->].
    exists m, w, []. split; [by case_decide|]. apply Hstop. left. set_solver. }
  case_decide as Hlim; last first.
  { exists m, w, []. split; [done|]. apply Hstop. right. lia. }
  destruct He as [HeX Hmin].
  pose proof (rep_number _ _ _ Hrep HeX) as Hne. unfold PQ.tm in Hne.
  destruct (PQ.mem (q m) !! e) as [el|] eqn:Hel; simpl in *; [|done].
  assert (time_of m e = PQ.time el) as Hte by (unfold time_of, PQ.tm; by rw Hel).
  destruct (dle (PQ.time el) new_t) eqn:Hdue; last first.
  { exists m, w, []. split; [done|]. apply Hstop. left. intros x Hx Hd. unfold due in Hd.
    assert (is_number (time_of m x)) as Hnx by (eapply rep_number; [done|set_solver]).
    apply dle_dleq in Hd; [|done..]. apply not_true_iff_false in Hdue. apply Hdue.
    rw dle_dleq // -Hte. rw -Hte in Hne. eapply dleq_trans; [done|exact Hnx|done| |done]. apply Hmin. set_solver. }
  destruct (advance_step m w (B ++ X) e el Hv HI Ht Hel Hdue)
    as (m1 & m2 & w2 & X' & A & C & q' & Hm1 & Hr & HDm & HX & Hv3 & HI3 & HA & Htm & HC & Hn3).
  obind Hm1. obind Hr. obind HDm.
  assert (e ∉ B) as HeB.
  { intros Hb. apply HB in Hb. rw Hte in Hb. apply dle_dleq in Hdue; [|done..].
    unfold dleq in Hdue. congruence. }
  assert (e ∈ X) as HeX' by by apply elem_of_app in HeX as [?|?].
  destruct (PQ.elem_split X e HeX') as [X2 HX2].
  assert (B ++ X2 ≡ₚ X' ++ C) as Hp.
  { apply (Permutation_cons_inv (a := e)). rw -HX HX2. by rw Permutation_middle. }
  destruct (Permutation_split _ _ _ _ Hp) as (B1 & B2 & Y & C2 & HB1 & HX2' & HX' & HCC).
  set (m3 := set_num_expired (delete_timer m2 e) (num_expired m2 + 1)).
  assert (A ++ X' ≡ₚ (A ++ B1) ++ Y) as HAX by by rw HX' assoc.
  destruct (IH m3 w2 Y (A ++ B1) (e :: trace)) as (m' & w' & ds & Hrun & Hadv).
  { rw HX2 /= HX2' length_app in Hf. lia. }
  { by rw HAX in Hv3. }
  { eapply Hext; [exact HAX| |exact HI3]. done. }
  { intros b [Hb|Hb]%elem_of_app; [by apply HA|].
    change (dlt new_t (time_of (delete_timer m2 e) b) = true).
    rw Htm; [apply HB; rw HB1|rw HX']; set_solver. }
  exists m', w', (e :: ds). split; [by rw reverse_cons -assoc|].
  apply (advanced_cons _ _ _ _ m3 Y C2); [by rw HX2 HX2'| | | | | |done].
  - unfold due. by rw Hte.
  - intros x Hx. apply Hmin. set_solver.
  - intros x Hx. change (time_of (delete_timer m2 e) x = time_of m x). apply Htm. rw HX'. set_solver.
  - intros x Hx. apply HC. rw HCC. set_solver.
  - rw /m3 /= Hn3. lia.
Qed.

End advance.

(** ** Starting, cancelling and expiring *)

Lemma valid_add m X e el k :
  valid m X → e ∉ X → PQ.mem (q m) !! e = Some el → is_number (PQ.time el) →
  type m !! e = Some k → (0 ≤ k < NUM_TIMER_TYPES)%Z →
  ∃ m', Add m e = Some m' ∧ valid m' (e :: X) ∧ (∀ x, time_of m' x = time_of m x) ∧
    num_expired m' = num_expired m ∧ last_timestamp m' = last_timestamp m.
Proof.
  intros [Hr Hc] He Hel Hn Hty Hk. unfold Add.
  destruct (PQ.rep_Add _ _ e el Hr) as (q' & Ha & Hr' & [Hf _]); [done..|]. obind Ha.
  destruct (counts_incr (set_q m q') e X k) as (m' & Hm' & Hc' & Hq & Hty'); [done..|].
  exists m'. split; [done|]. split; [split; [by rw Hq|done]|].
  split; [intros x; unfold time_of, PQ.tm; by rw Hq /= Hf|].
  unfold count_timer in Hm'. rw /= Hty /= in Hm'. by destruct (current_timers m !! k); simplify_eq/=; rw -Hm'.
Qed.

Lemma valid_remove m X e :
  valid m X → e ∈ X → (∀ x, x ∈ X → x ≠ e → time_of m x ≠ neg_HUGE_VAL) →
  ∃ m' X', Remove m e = Some m' ∧ X ≡ₚ e :: X' ∧ valid m' X' ∧
    (∀ x, x ∈ X' → time_of m' x = time_of m x) ∧ num_expired m' = num_expired m.
Proof.
  intros [Hr Hc] He Hinf. unfold Remove.
  assert (∃ l, PQ.wf (q m) l ∧ l ≡ₚ X) as (l & Hwf & HX) by done.
  destruct (PQ.remove_element_wf (q m) l e Hwf) as (q' & l' & Hrm & Hwf' & Hp & _ & Ht & _).
  { by rw HX. } { intros x Hx. apply Hinf. by rw -HX. }
  obind Hrm. rw -HX Hp in Hc.
  destruct (counts_decr (set_q m q') e l') as (m' & Hm' & Hc' & Hq & Hty & _ & _ & Hne); [done|]. obind Hm'.
  pose proof (rep_NoDup _ _ Hr) as Hnd. rw -HX Hp in Hnd. apply NoDup_cons in Hnd as [Hel _].
  exists (delete_timer m' e), l'. split_and!; [done|by rw -HX| | |by rw /= Hne].
  - apply valid_delete; [|done]. split; [rw Hq; by exists l'|done].
  - intros x Hx. assert (x ≠ e) by (by intros ->). rw time_of_delete //.
    unfold time_of, PQ.tm. by rw Hq /= Ht.
Qed.

Section expire.
Context {W : Type} (Dispatch : addr → double → bool → TimerMgr → W → option (TimerMgr * W)).

(** A dispatch for expiry leaves the manager alone. *)
Definition expires_quietly : Prop :=
  ∀ e d m w, ∃ m' w', Dispatch e d true m w = Some (m', w') ∧ q m' = q m ∧ type m' = type m ∧
    current_timers m' = current_timers m ∧ t m' = t m.

Context (HD : expires_quietly).

Lemma expire_correct fuel m w X trace :
  length X < fuel → valid m X →
  ∃ m' w' ds, Expire Dispatch fuel m w trace = Some (m', w', reverse ds ++ trace) ∧ ds ≡ₚ X ∧
    StronglySorted (λ x y, dleq (time_of m x) (time_of m y)) ds ∧ valid m' [].
Proof.
  revert m w X trace. induction fuel as [|fuel IH]; intros m w X trace Hf [Hr Hc]; [lia|]. simpl.
  destruct (PQ.rep_Remove _ _ Hr) as [[-> Hrm]|(e & X' & q' & Hrm & Ht & [HeX Hmin] & HX & Hr' & [Hf1 Hf2] & Hm)];
    obind Hrm.
  { exists (set_q m (q m)), w, []. split_and!; [done|done|constructor|done]. }
  destruct (HD e (t m) (set_q m q') w) as (m1 & w1 & HDm & Hq1 & Hty1 & Hct1 & Ht1). rw /= HDm /=.
  rw HX in Hc. destruct (counts_decr m1 e X') as (m2 & Hm2 & Hc2 & Hq2 & _);
    [by eapply counts_same; [..|exact Hc]|]. obind Hm2.
  pose proof (rep_NoDup _ _ Hr) as Hnd. rw HX in Hnd. apply NoDup_cons in Hnd as [HeX' _].
  assert (∀ x, x ∈ X' → time_of (delete_timer m2 e) x = time_of m x) as Htm.
  { intros x Hx. rw time_of_delete; [|by intros ->]. unfold time_of, PQ.tm. by rw Hq2 Hq1 /= Hf1. }
  destruct (IH (delete_timer m2 e) w1 X' (e :: trace)) as (m' & w' & ds & Hrun & Hds & Hs & Hv).
  { rw HX /= in Hf. lia. }
  { apply valid_delete; [|done]. split; [by rw Hq2 Hq1|done]. }
  exists m', w', (e :: ds). split_and!; [by rw reverse_cons -assoc|by rw Hds| |done].
  constructor.
  - apply (sorted_ext (time_of m) (time_of (delete_timer m2 e))); [|done].
    intros x Hx. apply Htm. by rw -Hds.
  - apply Forall_forall. intros x Hx. apply Hmin. rw HX -Hds. by right.
Qed.

End expire.

(** ** Properties *)

(** C17. Advancing the clock dispatches exactly the timers that are due, in time
    order, each removed from the queue before it runs: the timers left over are
    later than every dispatched one, and none of them is due unless [max_expire]
    timers have been dispatched; a due timer is passed over only when a timer
    dispatched before it, due no later, canceled it.  The result counts the
    dispatched timers, the per-type counters keep counting the queued timers, and
    the loop terminates.  A dispatch may change the rest of the program ([w]),
    start timers and cancel queued ones; assumed of it ([dispatches_ok]) are that
    it returns, keeps the manager well formed and the program's own invariant
    [Inv], starts timers later than the new time only and cancels due timers it
    [cancels] only. *)
Theorem Advance_dispatches_due {W : Type}
    (Dispatch : addr → double → bool → TimerMgr → W → option (TimerMgr * W))
    (cancels : addr → addr → Prop) (Inv : TimerMgr → W → list addr → Prop)
    (fuel : nat) (m : TimerMgr) (w : W) (X : list addr) (other : option double) (arg_t : double)
    (max_expire : Z)
    (Hnum : is_number arg_t) (Hext : looks_at_times Inv)
    (HD : dispatches_ok Dispatch arg_t cancels Inv)
    (Hfuel : length X < fuel) (Hv : valid m X) (HI : Inv m w X) :
  ∃ m' w' ds rest canceled A,
    Advance Dispatch fuel m w other arg_t max_expire =
      Some (Z.of_nat (length ds), m', w', reverse ds) ∧
    X ≡ₚ ds ++ rest ++ canceled ∧ valid m' (A ++ rest) ∧ Inv m' w' (A ++ rest) ∧
    StronglySorted (λ x y, dleq (time_of m x) (time_of m y)) ds ∧
    (∀ x, x ∈ ds → due m arg_t x) ∧
    (∀ x y, x ∈ ds → y ∈ rest → dleq (time_of m x) (time_of m y)) ∧
    (∀ x, x ∈ canceled → due m arg_t x →
      ∃ e, e ∈ ds ∧ cancels e x ∧ dleq (time_of m e) (time_of m x)) ∧
    (∀ x, x ∈ rest → time_of m' x = time_of m x) ∧
    (∀ a, a ∈ A → dlt arg_t (time_of m' a) = true) ∧
    ((∀ x, x ∈ rest → ¬ due m arg_t x) ∨
     (max_expire ≠ 0 ∧ max_expire ≤ Z.of_nat (length ds))%Z).
Proof.
  unfold Advance, DoAdvance. simpl. set (m0 := set_num_expired _ _).
  destruct (advance_loop_correct Dispatch arg_t Hnum cancels Inv Hext HD fuel max_expire m0 w X [] [])
    as (m' & w' & ds & Hrun & rest & C & A & Hp & Hv' & HI' & HA & Htm & Hs & Hd & Hle & HC & Hn & Hor);
    [done|exact Hv|by eapply Hext; [..|exact HI]|set_solver|].
  obind Hrun. simpl in Hn. rw app_nil_r. rw Hn in Hor.
  exists m', w', ds, rest, C, A. by split_and!; [rw Hn|..].
Qed.

(** Expiring a manager dispatches every timer it holds, in time order, and
    leaves it empty with all counters at zero. *)
Theorem Expire_dispatches_all {W : Type}
    (Dispatch : addr → double → bool → TimerMgr → W → option (TimerMgr * W))
    (fuel : nat) (m : TimerMgr) (w : W) (X : list addr)
    (HD : expires_quietly Dispatch) (Hfuel : length X < fuel) (Hv : valid m X) :
  ∃ m' w' ds, Expire Dispatch fuel m w [] = Some (m', w', reverse ds) ∧ ds ≡ₚ X ∧
    StronglySorted (λ x y, dleq (time_of m x) (time_of m y)) ds ∧
    PQ.Top (q m') = Some None ∧
    (∀ k, (0 ≤ k < NUM_TIMER_TYPES)%Z → current_timers m' !! k = Some 0%Z).
Proof.
  destruct (expire_correct Dispatch HD fuel m w X [] Hfuel Hv) as (m' & w' & ds & Hrun & Hds & Hs & Hr & Hc & _).
  exists m', w', ds. split_and!; [by rw app_nil_r in Hrun|done|done| |].
  - destruct (PQ.rep_Top _ _ Hr) as [[_ Ht]|(? & _ & [Hin%elem_of_nil _])]; done.
  - intros k Hk. by rw Hc.
Qed.

(** ** Witnesses *)

(** Counters at zero for every type. *)
Definition no_timers : gmap Z Z := list_to_map ((λ k, (Z.of_nat k, 0%Z)) <$> seq 0 28).

Lemma no_timers_lookup k : (0 ≤ k < NUM_TIMER_TYPES)%Z → no_timers !! k = Some 0%Z.
Proof.
  intros Hk. change NUM_TIMER_TYPES with 28%Z in Hk.
  assert (Forall (λ k, no_timers !! Z.of_nat k = Some 0%Z) (seq 0 28)) as H
    by (apply (bool_decide_unpack _); by vm_compute).
  rw Forall_forall in H. rw -(Z2Nat.id k); [|lia]. apply H. apply elem_of_seq. lia.
Qed.

Lemma valid_empty : valid (PQ_TimerMgr_new no_timers) [].
Proof.
  split; [exists []; split; [apply PQ.wf_empty; lia|done]|].
  split; [|by intros ??%elem_of_nil]. intros k Hk. by rw /= no_timers_lookup.
Qed.

Lemma valid_start m X a at_time k :
  valid m X → a ∉ X → is_number at_time → (0 ≤ k < NUM_TIMER_TYPES)%Z →
  ∃ m', Add (Timer_new m a at_time k) a = Some m' ∧ valid m' (a :: X) ∧
    time_of m' a = at_time ∧ (∀ x, x ≠ a → time_of m' x = time_of m x) ∧
    num_expired m' = num_expired m ∧ last_timestamp m' = last_timestamp m.
Proof.
  intros Hv Ha Hn Hk.
  destruct (valid_add (Timer_new m a at_time k) X a (PQ.PQ_Element_new at_time) k)
    as (m' & Had & Hv' & Ht & Hrest); [by apply valid_new|done|by rw /= lookup_insert_eq|done| |done|].
  { rw /= lookup_insert_eq. unfold uint8. rw wrap_u_small //. change NUM_TIMER_TYPES with 28%Z in Hk. lia. }
  exists m'. split_and!; [done|done| | |apply Hrest..].
  - rw Ht. unfold time_of, PQ.tm. by rw /= lookup_insert_eq.
  - intros x Hx. rw Ht. unfold time_of, PQ.tm. by rw /= lookup_insert_ne.
Qed.

(** A dispatch that acts as the timers of connections do: [w] maps the queued timers
    to their connections; dispatching [e] cancels the other timers of the same
    connection and starts another one for it, due at time 1000. *)
Definition others (w : gmap addr nat) (e : addr) : list addr :=
  (map_to_list (filter (λ p, p.1 ≠ e ∧ Some p.2 = w !! e) w)).*1.

Definition cancel_all (l : list addr) (m : TimerMgr) : option TimerMgr :=
  foldl (λ om x, m ← om; Cancel m x) (Some m) l.

Definition fire_connection (e : addr) (d : double) (is_expire : bool) (m : TimerMgr) (w : gmap addr nat)
    : option (TimerMgr * gmap addr nat) :=
  if is_expire then Some (m, w)
  else
    c ← w !! e;
    m ← cancel_all (others w e) m;
    let a := fresh ({[ e ]} ∪ dom (PQ.mem (q m))) in
    m ← Add (Timer_new m a (double_of_Z 1000) TIMER_FRAG) a;
    Some (m, <[a := c]> (filter (λ p, p.1 ≠ e ∧ p.1 ∉ others w e) w)).

(** [w] owns exactly the queued timers, whose times are real ones; those due at time
    10 belong to the connections they belonged to at the start. *)
Definition owns (own : addr → nat) (m : TimerMgr) (w : gmap addr nat) (X : list addr) : Prop :=
  (∀ x, is_Some (w !! x) ↔ x ∈ X) ∧ (∀ x, x ∈ X → time_of m x ≠ neg_HUGE_VAL) ∧
  (∀ x, x ∈ X → due m (double_of_Z 10) x → w !! x = Some (own x)).

Lemma elem_of_others w e x : x ∈ others w e ↔ x ≠ e ∧ is_Some (w !! x) ∧ w !! x = w !! e.
Proof.
  unfold others. rw list_elem_of_fmap. split.
  - intros ((y & c) & -> & (Hy & Hn & Hc)%elem_of_map_to_list%map_lookup_filter_Some).
    simpl in *. split_and!; [done|by exists c|by rw Hy].
  - intros (Hn & [c Hc] & He). exists (x, c). split; [done|].
    apply elem_of_map_to_list, map_lookup_filter_Some. split; [done|]. by rw /= -He.
Qed.

Lemma others_split w X e :
  NoDup X → e ∉ X → (∀ x, is_Some (w !! x) ↔ x ∈ e :: X) →
  X ≡ₚ others w e ++ filter (λ x, x ∉ others w e) X.
Proof.
  intros HndX He Hw. assert (NoDup (others w e)) as Hnd by by apply NoDup_fst_map_to_list.
  apply NoDup_Permutation; [done| |].
  - apply NoDup_app. split_and!; [done| |by apply NoDup_filter].
    intros x Hx [Hx' _]%list_elem_of_filter. done.
  - intros x. rw elem_of_app list_elem_of_filter elem_of_others. split.
    + intros Hx. destruct (decide (w !! x = w !! e)) as [Heq|Hne]; [left|right].
      * split_and!; [by intros ->| |done]. apply Hw. by right.
      * split; [|done]. by intros (_ & _ & ?).
    + intros [(Hn & [Hx|Hx]%Hw%elem_of_cons & _)|[_ Hx]]; done.
Qed.

Lemma owns_ext own : looks_at_times (owns own).
Proof.
  intros m m' w X X' HX Ht (H1 & H2 & H3). split_and!; intros x; rw -HX; [apply H1| |]; intros Hx.
  - rw Ht //. by apply H2.
  - unfold due. rw Ht //. by apply H3.
Qed.

Lemma cancel_all_ok l m X Y :
  valid m X → X ≡ₚ l ++ Y → (∀ x, x ∈ X → time_of m x ≠ neg_HUGE_VAL) →
  ∃ m', cancel_all l m = Some m' ∧ valid m' Y ∧ (∀ x, x ∈ Y → time_of m' x = time_of m x) ∧
    num_expired m' = num_expired m.
Proof.
  revert m X. induction l as [|x l IH]; intros m X Hv HX Hinf.
  { exists m. split_and!; [done| |done|done]. by rw HX in Hv. }
  destruct (valid_remove m X x Hv) as (m1 & X1 & Hr & HX1 & Hv1 & Ht1 & Hn1);
    [rw HX; by left|intros; by apply Hinf|].
  assert (X1 ≡ₚ l ++ Y) as HX2 by (apply (Permutation_cons_inv (a := x)); by rw -HX1 HX).
  destruct (IH m1 X1 Hv1 HX2) as (m' & Hc & Hv' & Ht' & Hn').
  { intros y Hy. rw Ht1 //. apply Hinf. rw HX1. by right. }
  exists m'. unfold cancel_all. rw /= /Cancel Hr. split_and!; [done|done| |by rw Hn'].
  intros y Hy. rw Ht' // Ht1 //. rw HX2. set_solver.
Qed.

Lemma fire_connection_ok own :
  dispatches_ok fire_connection (double_of_Z 10) (λ e x, own e = own x) (owns own).
Proof.
  intros m w X e Hv He (Hw & Hinf & Hown) Hdue. unfold fire_connection.
  destruct (w !! e) as [c|] eqn:Hc; [|exfalso; destruct (Hw e) as [_ H]; destruct H as [? ?]; [by left|congruence]].
  pose proof (others_split w X e (rep_NoDup _ _ (proj1 Hv)) He Hw) as HX.
  set (Y := filter (λ x, x ∉ others w e) X) in *.
  destruct (cancel_all_ok _ m X Y Hv HX) as (m1 & Hm1 & Hv1 & Ht1 & Hn1);
    [intros x Hx; apply Hinf; by right|]. rw /= Hm1 /=.
  set (a := fresh _). assert (a ∉ ({[ e ]} ∪ dom (PQ.mem (q m1)) : gset nat)) as Ha by apply is_fresh.
  rw not_elem_of_union not_elem_of_singleton in Ha. destruct Ha as [Hae Ham].
  assert (a ∉ Y) as HaY.
  { intros Hin. pose proof (rep_number _ _ _ (proj1 Hv1) Hin) as Hnum. unfold PQ.tm in Hnum.
    apply not_elem_of_dom in Ham. by rw Ham in Hnum. }
  destruct (valid_start m1 Y a (double_of_Z 1000) TIMER_FRAG) as (m' & Hadd & Hv' & Hta & Ht & Hn & Hl);
    [done|done|done|by split|]. rw Hadd /=.
  assert (∀ x, x ∈ Y → time_of m' x = time_of m x) as Htm.
  { intros x Hx. rw Ht; [by apply Ht1|by intros ->]. }
  exists m', (<[a := c]> (filter (λ p, p.1 ≠ e ∧ p.1 ∉ others w e) w)), [a], Y, (others w e).
  split_and!; [done|by rw HX comm|done|by rw list_elem_of_singleton| |done| | |by rw Hn].
  - intros b ->%list_elem_of_singleton. by rw Hta.
  - intros x (_ & Hx & Heq)%elem_of_others Hd. rw Hown in Heq; [|by apply Hw|done].
    rw Hown in Heq; [by simplify_eq|by left|done].
  - split_and!.
    + intros x. destruct (decide (x = a)) as [->|Hxa].
      { rw lookup_insert_eq. split; [by left|by exists c]. }
      rw lookup_insert_ne //= elem_of_cons. split.
      * intros [d [Hd [Hne Ho]]%map_lookup_filter_Some]. right. apply list_elem_of_filter.
        split; [done|]. assert (x ∈ e :: X) as [?|?]%elem_of_cons by (apply Hw; by exists d); done.
      * intros [?|[Ho Hx]%list_elem_of_filter]; [done|]. destruct (Hw x) as [_ [d Hd]]; [by right|].
        exists d. apply map_lookup_filter_Some. split_and!; [done| |done]. simpl. intros ->. done.
    + intros x [->|Hx]%elem_of_cons; [by rw Hta|]. rw Htm //. apply Hinf. right.
      by apply list_elem_of_filter in Hx as [_ ?].
    + intros x [->|Hx]%elem_of_cons; unfold due; [by rw Hta|]. rw Htm // => Hd.
      apply list_elem_of_filter in Hx as [Ho Hx]. rw lookup_insert_ne; [|by intros ->; apply HaY, list_elem_of_filter].
      apply map_lookup_filter_Some. split_and!; [apply Hown; [by right|done]| |done]. simpl. by intros ->.
Qed.

Lemma fire_connection_quiet : expires_quietly fire_connection.
Proof. intros e d m w. by exists m, w. Qed.

(** Three timers, due at 5, 20 and 3. *)
Definition start (a : addr) (at_time : Z) (m : TimerMgr) : option TimerMgr :=
  Add (Timer_new m a (double_of_Z at_time) TIMER_TCP_ATTEMPT) a.

Lemma sample_valid :
  ∃ m, (m ← start 1 5 (PQ_TimerMgr_new no_timers); m ← start 2 20 m; start 3 3 m) = Some m ∧
    valid m [3; 2; 1] ∧ time_of m 1 = double_of_Z 5 ∧ time_of m 2 = double_of_Z 20 ∧
    time_of m 3 = double_of_Z 3.
Proof.
  destruct (valid_start _ [] 1 (double_of_Z 5) TIMER_TCP_ATTEMPT valid_empty)
    as (m1 & H1 & Hv1 & Ht1 & _); [by apply not_elem_of_nil|done|by split|].
  destruct (valid_start _ [1] 2 (double_of_Z 20) TIMER_TCP_ATTEMPT Hv1)
    as (m2 & H2 & Hv2 & Ht2 & Hk2 & _); [by apply (bool_decide_unpack _)|done|by split|].
  destruct (valid_start _ [2; 1] 3 (double_of_Z 3) TIMER_TCP_ATTEMPT Hv2)
    as (m3 & H3 & Hv3 & Ht3 & Hk3 & _); [by apply (bool_decide_unpack _)|done|by split|].
  exists m3. split_and!; [by rw /start H1 /= H2 /= H3|done| |by rw Hk3|done].
  by rw Hk3 // Hk2.
Qed.

(** Timers 1 and 3 belong to connection 0: the one due at 3 cancels the one due at 5. *)
Definition sample_owner (x : addr) : nat := if decide (x = 2) then 1 else 0.
Definition sample_conns : gmap addr nat := {[ 1 := 0; 2 := 1; 3 := 0 ]}.

Lemma sample_owned m :
  time_of m 1 = double_of_Z 5 → time_of m 2 = double_of_Z 20 → time_of m 3 = double_of_Z 3 →
  owns sample_owner m sample_conns [3; 2; 1].
Proof.
  intros H1 H2 H3. split_and!.
  - intros x. unfold sample_conns. rw -elem_of_dom !dom_insert dom_empty. set_solver.
  - intros x Hx. rw !elem_of_cons elem_of_nil in Hx. destruct Hx as [->|[->|[->|[]]]]; by rw ?H1 ?H2 ?H3.
  - intros x Hx. rw !elem_of_cons elem_of_nil in Hx. by destruct Hx as [->|[->|[->|[]]]].
Qed.

Lemma Advance_dispatches_due_witness :
  ∃ m, valid m [3; 2; 1] ∧ ∃ m' w' ds rest canceled A,
    Advance fire_connection 4 m sample_conns None (double_of_Z 10) 0 =
      Some (Z.of_nat (length ds), m', w', reverse ds) ∧
    [3; 2; 1] ≡ₚ ds ++ rest ++ canceled ∧ valid m' (A ++ rest).
Proof.
  destruct sample_valid as (m & _ & Hv & H1 & H2 & H3). exists m. split; [exact Hv|].
  destruct (Advance_dispatches_due fire_connection (λ e x, sample_owner e = sample_owner x)
    (owns sample_owner) 4 m sample_conns [3; 2; 1] None (double_of_Z 10) 0)
    as (m' & w' & ds & rest & C & A & Hr & Hp & Hv' & _);
    [discriminate|apply owns_ext|apply fire_connection_ok|simpl; lia|exact Hv| |].
  { apply sample_owned; [exact H1|exact H2|exact H3]. }
  exists m', w', ds, rest, C, A. exact (conj Hr (conj Hp Hv')).
Defined.

Lemma Expire_dispatches_all_witness :
  ∃ m, valid m [3; 2; 1] ∧ ∃ m' w' ds, Expire fire_connection 4 m sample_conns [] = Some (m', w', reverse ds) ∧
    ds ≡ₚ [3; 2; 1].
Proof.
  destruct sample_valid as (m & _ & Hv & _). exists m. split; [exact Hv|].
  destruct (Expire_dispatches_all fire_connection 4 m sample_conns [3; 2; 1] fire_connection_quiet)
    as (m' & w' & ds & H1 & H2 & _); [simpl; lia|exact Hv|].
  exists m', w', ds. exact (conj H1 H2).
Defined.

End TM.
