(* ===== verification/Dict.v ===== *)
(** Dict: the hash table of Dict.cc / Dict.h, with its incremental resizing.

    A dictionary is one table of chains, or two of them while it grows: every
    insertion then moves a few chains from the old table to the new one, and
    bucket [tbl_next_ind] is the next one to move.  Chains, the order list and
    the cookies' lists are lists of entry addresses (BaseList shows that the
    program's arrays implement them); the entries live in a store, since an
    entry is shared by its chain, the order list and the cookies. *)
From S2P Require Import Prelude.

Module D.

Abbreviation addr := nat (only parsing).

(** A key: its bytes ([key], [len]).  A [void*] value; [0] is NULL. *)
Abbreviation bytes := (list Z) (only parsing).
Abbreviation val := nat (only parsing).

Record DictEntry := mkDE { key : bytes; hash : Z; value : val }.

(** A table: its identity (the pointer) and its buckets. *)
Record table := mkTbl { tid : nat; buckets : list (option (list addr)) }.

(** [ttbl] is the table iterated over; [nbp] tells which of the members
    [num_buckets] (false) and [num_buckets2] (true) [num_buckets_p] points to. *)
Record IterCookie := mkCookie {
  bucket : nat; offset : nat; ttbl : option nat; nbp : bool; inserted : list addr
}.

Record Dictionary := mkDict {
  tbl : table; num_buckets : nat; num_entries : Z; max_num_entries : Z; thresh_entries : Z;
  tbl2 : option table; num_buckets2 : nat; num_entries2 : Z; max_num_entries2 : Z;
  thresh_entries2 : Z;
  tbl_next_ind : nat;
  order : option (list addr);
  cookies : list addr;
  mem : gmap addr DictEntry;
  cookie_mem : gmap addr IterCookie;
  next_tid : nat
}.

(** The density threshold is 3.0 for every dictionary; [thresh_entries] is
    [int(3.0 * double(num_buckets))]. *)
Definition DEFAULT_DENSITY_THRESH : Z := 3.
Definition PRIME_THRESH : Z := 1000.
Definition DensityThresh (n : nat) : Z := DEFAULT_DENSITY_THRESH * Z.of_nat n.

(** [for (j = 3; j * j <= n; ++j) if (n % j == 0) return 0; return 1] *)
Fixpoint IsPrime_from (fuel : nat) (j n : Z) : bool :=
  match fuel with
  | O => true
  | S fuel => if (j * j <=? n)%Z then if (n mod j =? 0)%Z then false else IsPrime_from fuel (j + 1) n
              else true
  end.

Definition IsPrime (n : Z) : bool := IsPrime_from (Z.to_nat n) 3 n.

Fixpoint NextPrime_from (fuel : nat) (n : Z) : Z :=
  match fuel with
  | O => n
  | S fuel => if IsPrime n then n else NextPrime_from fuel (n + 2)
  end.

(** The gap between consecutive odd primes below [PRIME_THRESH + 20] is at most
    20, so ten turns of the loop are enough. *)
Definition NextPrime (n : Z) : Z :=
  let n := if Z.even n then (n + 1)%Z else n in
  if (PRIME_THRESH <? n)%Z then n else NextPrime_from 10 n.

(** *** Updates of single members *)

Definition set_mem (d : Dictionary) (m : gmap addr DictEntry) : Dictionary :=
  mkDict (tbl d) (num_buckets d) (num_entries d) (max_num_entries d) (thresh_entries d)
    (tbl2 d) (num_buckets2 d) (num_entries2 d) (max_num_entries2 d) (thresh_entries2 d)
    (tbl_next_ind d) (order d) (cookies d) m (cookie_mem d) (next_tid d).
Definition set_order (d : Dictionary) (o : option (list addr)) : Dictionary :=
  mkDict (tbl d) (num_buckets d) (num_entries d) (max_num_entries d) (thresh_entries d)
    (tbl2 d) (num_buckets2 d) (num_entries2 d) (max_num_entries2 d) (thresh_entries2 d)
    (tbl_next_ind d) o (cookies d) (mem d) (cookie_mem d) (next_tid d).
Definition set_cookies (d : Dictionary) (cs : list addr) (cm : gmap addr IterCookie) : Dictionary :=
  mkDict (tbl d) (num_buckets d) (num_entries d) (max_num_entries d) (thresh_entries d)
    (tbl2 d) (num_buckets2 d) (num_entries2 d) (max_num_entries2 d) (thresh_entries2 d)
    (tbl_next_ind d) (order d) cs (mem d) cm (next_tid d).
Definition set_next_ind (d : Dictionary) (n : nat) : Dictionary :=
  mkDict (tbl d) (num_buckets d) (num_entries d) (max_num_entries d) (thresh_entries d)
    (tbl2 d) (num_buckets2 d) (num_entries2 d) (max_num_entries2 d) (thresh_entries2 d)
    n (order d) (cookies d) (mem d) (cookie_mem d) (next_tid d).
(** The old table's buckets, number of entries and maximum. *)
Definition set_tbl (d : Dictionary) (b : list (option (list addr))) (n mx : Z) : Dictionary :=
  mkDict (mkTbl (tid (tbl d)) b) (num_buckets d) n mx (thresh_entries d)
    (tbl2 d) (num_buckets2 d) (num_entries2 d) (max_num_entries2 d) (thresh_entries2 d)
    (tbl_next_ind d) (order d) (cookies d) (mem d) (cookie_mem d) (next_tid d).
(** The same for the new table. *)
Definition set_tbl2 (d : Dictionary) (b : list (option (list addr))) (n mx : Z) : Dictionary :=
  mkDict (tbl d) (num_buckets d) (num_entries d) (max_num_entries d) (thresh_entries d)
    ((λ t, mkTbl (tid t) b) <$> tbl2 d) (num_buckets2 d) n mx (thresh_entries2 d)
    (tbl_next_ind d) (order d) (cookies d) (mem d) (cookie_mem d) (next_tid d).

(** *** Construction *)

Definition Dictionary_new (ordered : bool) (initial_size : Z) : Dictionary :=
  let n := Z.to_nat (NextPrime initial_size) in
  mkDict (mkTbl 0 (replicate n None)) n 0 0 (DensityThresh n) None 0 0 0 0 0
    (if ordered then Some [] else None) [] ∅ ∅ 1.

(** The entries of a table. *)
Definition flat (b : list (option (list addr))) : list addr := concat (default [] <$> b).

(** [DeInit] followed by [Init(2)]: every entry is freed.  The order list and
    the threshold stay as they are. *)
Definition Clear (d : Dictionary) : Dictionary :=
  let freed := flat (buckets (tbl d)) ++ default [] ((flat ∘ buckets) <$> tbl2 d) in
  let n := Z.to_nat (NextPrime 2) in
  mkDict (mkTbl (next_tid d) (replicate n None)) n 0 0 (thresh_entries d)
    None (num_buckets2 d) (num_entries2 d) (max_num_entries2 d) (thresh_entries2 d)
    (tbl_next_ind d) (order d) (cookies d) (foldr delete (mem d) freed) (cookie_mem d)
    (S (next_tid d)).

(** [Init2] and the rest of [StartChangeSize]; [None]: the internal error. *)
Definition StartChangeSize (d : Dictionary) (new_size : Z) : option Dictionary :=
  if decide (0 < length (cookies d)) then Some d
  else if decide (is_Some (tbl2 d)) then None
  else
    let n := Z.to_nat (NextPrime new_size) in
    Some (mkDict (tbl d) (num_buckets d) (num_entries d) (max_num_entries d) (thresh_entries d)
      (Some (mkTbl (next_tid d) (replicate n None))) n 0 0 (DensityThresh n)
      0 (order d) (cookies d) (mem d) (cookie_mem d) (S (next_tid d))).

(** *** Lookup *)

(** [entry->hash == hash && entry->len == key_size && !memcmp(...)] *)
Definition same_key (e : DictEntry) (k : bytes) (h : Z) : bool :=
  bool_decide (hash e = h ∧ length (key e) = length k ∧ key e = k).

(** The loop over a chain: the first entry with the key, with its position. *)
Fixpoint find_chain (m : gmap addr DictEntry) (k : bytes) (h : Z) (i : nat) (chain : list addr)
    : option (option (nat * addr)) :=
  match chain with
  | [] => Some None
  | a :: chain => e ← m !! a; if same_key e k h then Some (Some (i, a)) else find_chain m k h (S i) chain
  end.

Definition bucket_of (h : Z) (n : nat) : nat := Z.to_nat (h mod Z.of_nat n).

(** Which table (true: the new one) and which bucket the hash selects. *)
Definition place (d : Dictionary) (h : Z) : bool * nat :=
  let b := bucket_of h (num_buckets d) in
  match tbl2 d with
  | None => (false, b)
  | Some _ => if decide (tbl_next_ind d ≤ b) then (false, b) else (true, bucket_of h (num_buckets2 d))
  end.

Definition the_buckets (d : Dictionary) (second : bool) : option (list (option (list addr))) :=
  if second then buckets <$> tbl2 d else Some (buckets (tbl d)).

Definition Lookup (d : Dictionary) (k : bytes) (h : Z) : option val :=
  let '(second, b) := place d h in
  ttbl ← the_buckets d second;
  chain ← ttbl !! b;
  r ← find_chain (mem d) k h 0 (default [] chain);
  match r with
  | Some (_, a) => e ← mem d !! a; Some (value e)
  | None => Some 0
  end.

(** *** Insertion *)

(** Store [b] as buckets of the selected table, one entry added. *)
Definition put_buckets (d : Dictionary) (second : bool) (b : list (option (list addr))) : Dictionary :=
  if second then
    let n := (num_entries2 d + 1)%Z in set_tbl2 d b n (Z.max (max_num_entries2 d) n)
  else
    let n := (num_entries d + 1)%Z in set_tbl d b n (Z.max (max_num_entries d) n).

(** The cookies that have passed bucket [b] remember the new entry. *)
Definition note_inserted (a : addr) (b : nat) (cs : list addr) (cm : gmap addr IterCookie)
    : gmap addr IterCookie :=
  foldl (λ cm c, match cm !! c with
    | Some ck => if decide (b < bucket ck) then
        <[c := mkCookie (bucket ck) (offset ck) (ttbl ck) (nbp ck) (inserted ck ++ [a])]> cm else cm
    | None => cm
    end) cm cs.

(** The private [Insert(DictEntry*, copy_key)]. *)
Definition Insert_entry (d : Dictionary) (a : addr) : option (val * Dictionary) :=
  ne ← mem d !! a;
  let '(second, b) := place d (hash ne) in
  ttbl ← the_buckets d second;
  chain ← ttbl !! b;
  r ← find_chain (mem d) (key ne) (hash ne) 0 (default [] chain);
  match r with
  | Some (_, x) =>
     e ← mem d !! x;
     Some (value e, set_mem d (<[x := mkDE (key e) (hash e) (value ne)]> (mem d)))
  | None =>
     let d := put_buckets d second (<[b := Some (default [] chain ++ [a])]> ttbl) in
     Some (0, set_cookies d (cookies d) (note_inserted a b (cookies d) (cookie_mem d)))
  end.

(** [for (j...) { Insert(chain[j], 0); --num_entries; --num; } ] *)
Fixpoint move_chain (d : Dictionary) (chain : list addr) (num : Z) : option (Dictionary * Z) :=
  match chain with
  | [] => Some (d, num)
  | a :: chain =>
    '(_, d) ← Insert_entry d a;
    move_chain (set_tbl d (buckets (tbl d)) (num_entries d - 1) (max_num_entries d)) chain (num - 1)
  end.

(** [None] stands for the internal error "num_entries is ...". *)
Definition FinishChangeSize (d : Dictionary) : option Dictionary :=
  if decide (num_entries d ≠ 0%Z) then None
  else
    t2 ← tbl2 d;
    Some (mkDict t2 (num_buckets2 d) (num_entries2 d) (max_num_entries2 d) (thresh_entries2 d)
      None 0 0 0 0 (tbl_next_ind d) (order d) (cookies d) (mem d) (cookie_mem d) (next_tid d)).

(** The do-while loop of [MoveChains]; at most [num_buckets] turns. *)
Fixpoint move_loop (fuel : nat) (d : Dictionary) (num : Z) : option Dictionary :=
  match fuel with
  | O => None
  | S fuel =>
    let ind := tbl_next_ind d in
    chain ← buckets (tbl d) !! ind;
    let d := set_next_ind d (S ind) in
    '(d, num) ← match chain with
      | None => Some (d, num)
      | Some chain =>
        move_chain (set_tbl d (<[ind := None]> (buckets (tbl d))) (num_entries d) (max_num_entries d))
          chain num
      end;
    if decide ((0 < num)%Z ∧ tbl_next_ind d < num_buckets d) then move_loop fuel d num else Some d
  end.

Definition MoveChains (d : Dictionary) : option Dictionary :=
  if decide (0 < length (cookies d)) then Some d
  else
    d ← move_loop (S (num_buckets d)) d 8;
    if decide (num_buckets d ≤ tbl_next_ind d) then FinishChangeSize d else Some d.

(** The "Resize logic" at the end of the public [Insert]. *)
Definition resize_logic (d : Dictionary) : option Dictionary :=
  if decide (is_Some (tbl2 d)) then MoveChains d
  else if (thresh_entries d <=? num_entries d)%Z
       then StartChangeSize d (Z.of_nat (num_buckets d) * 2 + 1) else Some d.

(** The public [Insert]; [a] is the address of the new [DictEntry]. *)
Definition Insert (d : Dictionary) (a : addr) (k : bytes) (h : Z) (v : val)
    : option (val * Dictionary) :=
  let d := set_mem d (<[a := mkDE k h v]> (mem d)) in
  '(old_val, d) ← Insert_entry d a;
  let d := if decide (old_val ≠ 0) then set_mem d (delete a (mem d))
           else match order d with Some o => set_order d (Some (o ++ [a])) | None => d end in
  d ← resize_logic d;
  Some (old_val, d).

(** *** Removal *)

(** [list.remove(a)]: the first occurrence. *)
Fixpoint list_remove (a : addr) (l : list addr) : list addr :=
  match l with
  | [] => []
  | x :: l => if decide (x = a) then l else x :: list_remove a l
  end.

(** The cookie adjustment of [DoRemove]: [h] is the bucket it is called with. *)
Definition adjust_cookies (a : addr) (h chain_offset : nat) (cs : list addr)
    (cm : gmap addr IterCookie) : gmap addr IterCookie :=
  foldl (λ cm c, match cm !! c with
    | Some ck =>
      let off := if decide (bucket ck = h ∧ chain_offset < offset ck) then offset ck - 1 else offset ck in
      let ins := if decide (h < bucket ck) then list_remove a (inserted ck) else inserted ck in
      <[c := mkCookie (bucket ck) off (ttbl ck) (nbp ck) ins]> cm
    | None => cm
    end) cm cs.

(** [Remove]: note that [DoRemove] is given [hash % num_buckets] whichever table
    the entry is in.  The entry is freed. *)
Definition Remove (d : Dictionary) (k : bytes) (h : Z) : option (val * Dictionary) :=
  let '(second, b) := place d h in
  ttbl ← the_buckets d second;
  chain ← ttbl !! b;
  r ← find_chain (mem d) k h 0 (default [] chain);
  match r with
  | None => Some (0, d)
  | Some (i, a) =>
    e ← mem d !! a;
    let c := Some (delete i (default [] chain)) in
    let d := if second then set_tbl2 d (<[b := c]> ttbl) (num_entries2 d - 1) (max_num_entries2 d)
             else set_tbl d (<[b := c]> ttbl) (num_entries d - 1) (max_num_entries d) in
    let d := set_order d (list_remove a <$> order d) in
    let d := set_cookies d (cookies d)
      (adjust_cookies a (bucket_of h (num_buckets d)) i (cookies d) (cookie_mem d)) in
    Some (value e, set_mem d (delete a (mem d)))
  end.

Definition Length (d : Dictionary) : Z :=
  match tbl2 d with Some _ => num_entries d + num_entries2 d | None => num_entries d end.

Definition MaxLength (d : Dictionary) : Z :=
  match tbl2 d with Some _ => max_num_entries d + max_num_entries2 d | None => max_num_entries d end.

(** [NthEntry]; the inner [None] is the NULL result. *)
Definition NthEntry (d : Dictionary) (n : Z) : option (option DictEntry) :=
  match order d with
  | None => Some None
  | Some o =>
    if decide (n < 0 ∨ Length d ≤ n)%Z then Some None
    else a ← o !! Z.to_nat n; e ← mem d !! a; Some (Some e)
  end.

(** *** Iteration *)

Definition IterCookie_new (b o : nat) : IterCookie := mkCookie b o None false [].

Definition InitForIteration (d : Dictionary) (c : addr) : Dictionary :=
  set_cookies d (cookies d) (<[c := IterCookie_new 0 0]> (cookie_mem d)).

Definition MakeRobustCookie (d : Dictionary) (c : addr) : Dictionary :=
  set_cookies d (cookies d ++ [c]) (cookie_mem d).

Definition StopIteration (d : Dictionary) (c : addr) : Dictionary :=
  set_cookies d (cookies d) (delete c (cookie_mem d)).

(** The buckets behind a table pointer; [None]: the pointer dangles. *)
Definition deref (d : Dictionary) (p : nat) : option (list (option (list addr))) :=
  if decide (p = tid (tbl d)) then Some (buckets (tbl d))
  else t2 ← tbl2 d; if decide (p = tid t2) then Some (buckets t2) else None.

(** The next non-empty bucket from [b] on, up to [n]. *)
Fixpoint next_bucket (fuel b n : nat) (t : list (option (list addr))) : nat :=
  match fuel with
  | O => b
  | S fuel =>
    if decide (b < n ∧ default [] (mjoin (t !! b)) = []) then next_bucket fuel (S b) n t else b
  end.

Definition set_cookie (d : Dictionary) (c : addr) (ck : IterCookie) : Dictionary :=
  set_cookies d (cookies d) (<[c := ck]> (cookie_mem d)).

(** [NextEntry]: the entry returned, or [None] at the end, when the cookie is
    deleted.  The function calls itself at most once. *)
Fixpoint NextEntry_fuel (fuel : nat) (d : Dictionary) (c : addr)
    : option (option DictEntry * Dictionary) :=
  match fuel with
  | O => None
  | S fuel =>
    ck ← cookie_mem d !! c;
    match last (inserted ck) with
    | Some a =>
      e ← mem d !! a;
      Some (Some e, set_cookie d c (mkCookie (bucket ck) (offset ck) (ttbl ck) (nbp ck)
        (take (length (inserted ck) - 1) (inserted ck))))
    | None =>
      let b := bucket ck in
      let o := offset ck in
      let '(tp, np) := match ttbl ck with Some p => (p, nbp ck) | None => (tid (tbl d), false) end in
      t ← deref d tp;
      let nb := if np then num_buckets2 d else num_buckets d in
      chain ← t !! b;
      match default [] chain !! o with
      | Some a =>
        e ← mem d !! a;
        Some (Some e, set_cookie d c (mkCookie b (S o) (Some tp) np []))
      | None =>
        let b := next_bucket nb (S b) nb t in
        if decide (nb ≤ b) then
          match tbl2 d with
          | Some t2 =>
            if decide (tp = tid (tbl d)) then
              NextEntry_fuel fuel (set_cookie d c (mkCookie 0 0 (Some (tid t2)) true [])) c
            else Some (None, set_cookies d (list_remove c (cookies d)) (delete c (cookie_mem d)))
          | None => Some (None, set_cookies d (list_remove c (cookies d)) (delete c (cookie_mem d)))
          end
        else
          chain ← t !! b;
          a ← default [] chain !! 0;
          e ← mem d !! a;
          Some (Some e, set_cookie d c (mkCookie b 1 (Some tp) np []))
      end
    end
  end.

Definition NextEntry (d : Dictionary) (c : addr) := NextEntry_fuel 2 d c.

(** ** Specification *)

(** The key a dictionary distinguishes: the hash and the bytes. *)
Abbreviation K := (Z * list Z)%type (only parsing).

Definition entry_of (m : gmap addr DictEntry) (a : addr) : DictEntry :=
  default (mkDE [] 0 0) (m !! a).
Definition keyof (m : gmap addr DictEntry) (a : addr) : K :=
  (hash (entry_of m a), key (entry_of m a)).
Definition kv (m : gmap addr DictEntry) (a : addr) : K * val := (keyof m a, value (entry_of m a)).

Definition flat2 (d : Dictionary) : list addr := default [] ((flat ∘ buckets) <$> tbl2 d).
Definition entries (d : Dictionary) : list addr := flat (buckets (tbl d)) ++ flat2 d.

(** The map a dictionary stands for. *)
Definition abs (d : Dictionary) : gmap K val := list_to_map (kv (mem d) <$> entries d).

(** Well-formedness; [pend] are entries taken out of a chain that is being moved
    and [k] of them are still counted in [num_entries]. *)
Record inv (d : Dictionary) (pend : list addr) (k : Z) : Prop := {
  inv_nb : 0 < num_buckets d;
  inv_len : length (buckets (tbl d)) = num_buckets d;
  inv_tbl2 : ∀ t2, tbl2 d = Some t2 → 0 < num_buckets2 d ∧ length (buckets t2) = num_buckets2 d;
  inv_placed : ∀ second ttbl b c a, the_buckets d second = Some ttbl → ttbl !! b = Some (Some c) →
    a ∈ c → place d (hash (entry_of (mem d) a)) = (second, b);
  inv_mem : ∀ a, a ∈ pend ++ entries d → is_Some (mem d !! a);
  inv_keys : NoDup (keyof (mem d) <$> (pend ++ entries d));
  inv_count : num_entries d = (Z.of_nat (length (flat (buckets (tbl d)))) + k)%Z;
  inv_count2 : is_Some (tbl2 d) → num_entries2 d = Z.of_nat (length (flat2 d))
}.

(** Between operations: nothing in flight, and while resizing there is a chain
    left to move. *)
Definition wf (d : Dictionary) : Prop :=
  inv d [] 0 ∧ (is_Some (tbl2 d) → tbl_next_ind d < num_buckets d).

(** ** Tables *)

Lemma elem_of_flat t a : a ∈ flat t ↔ ∃ b c, t !! b = Some (Some c) ∧ a ∈ c.
Proof.
  unfold flat. rw list_elem_of_In in_concat. setoid_rewrite <- list_elem_of_In.
  split.
  - intros (c & Hc & Ha). apply list_elem_of_fmap in Hc as (oc & -> & [b Hb]%list_elem_of_lookup_1).
    destruct oc as [c|]; simpl in Ha; [by exists b, c|by apply elem_of_nil in Ha].
  - intros (b & c & Hb & Ha). exists c. split; [|done]. apply list_elem_of_fmap.
    exists (Some c). split; [done|]. by eapply list_elem_of_lookup_2.
Qed.

(** Replacing one chain. *)
Lemma flat_insert t b oc oc' :
  t !! b = Some oc → flat (<[b := oc']> t) ++ default [] oc ≡ₚ flat t ++ default [] oc'.
Proof.
  intros Hb. pose proof (lookup_lt_Some _ _ _ Hb).
  rw -{2}(take_drop_middle t b oc Hb) (insert_take_drop t b oc') //.
  unfold flat. rw !fmap_app !fmap_cons !concat_app /=. solve_Permutation.
Qed.

Lemma bucket_of_lt h n : 0 < n → bucket_of h n < n.
Proof. intros. unfold bucket_of. pose proof (Z.mod_pos_bound h (Z.of_nat n)). lia. Qed.

(** The bucket selected by a hash exists. *)
Lemma place_bucket d pend k h :
  inv d pend k → ∃ ttbl oc, the_buckets d (place d h).1 = Some ttbl ∧ ttbl !! (place d h).2 = Some oc.
Proof.
  intros Hi. unfold place, the_buckets. destruct (tbl2 d) as [t2|] eqn:H2.
  - destruct (inv_tbl2 _ _ _ Hi _ H2) as [Hp Hl]. case_decide; simpl.
    + destruct (lookup_lt_is_Some_2 (buckets (tbl d)) (bucket_of h (num_buckets d))) as [oc Hoc]; [|by eauto].
      rw (inv_len _ _ _ Hi). apply bucket_of_lt, Hi.
    + destruct (lookup_lt_is_Some_2 (buckets t2) (bucket_of h (num_buckets2 d))) as [oc Hoc]; [|by eauto].
      rw Hl. by apply bucket_of_lt.
  - simpl. destruct (lookup_lt_is_Some_2 (buckets (tbl d)) (bucket_of h (num_buckets d))) as [oc Hoc]; [|by eauto].
    rw (inv_len _ _ _ Hi). apply bucket_of_lt, Hi.
Qed.

Lemma elem_of_entries d a :
  a ∈ entries d ↔ ∃ second ttbl b c, the_buckets d second = Some ttbl ∧ ttbl !! b = Some (Some c) ∧ a ∈ c.
Proof.
  unfold entries, flat2. rw elem_of_app elem_of_flat. split.
  - intros [(b & c & Hb & Ha)|Ha]; [by exists false, (buckets (tbl d)), b, c|].
    destruct (tbl2 d) as [t2|] eqn:H2; simpl in Ha; [|by apply elem_of_nil in Ha].
    apply elem_of_flat in Ha as (b & c & Hb & Ha). exists true, (buckets t2), b, c.
    by rw /= H2.
  - intros ([] & ttbl & b & c & Ht & Hb & Ha); simpl in Ht.
    + right. destruct (tbl2 d) as [t2|]; simplify_eq/=. apply elem_of_flat. by eauto.
    + left. simplify_eq. by eauto.
Qed.

(** The chain selected by a key holds all entries with that key. *)
Lemma chain_complete d pend k ttbl oc a :
  inv d pend k → a ∈ entries d →
  the_buckets d (place d (hash (entry_of (mem d) a))).1 = Some ttbl →
  ttbl !! (place d (hash (entry_of (mem d) a))).2 = Some oc → a ∈ default [] oc.
Proof.
  intros Hi (second & t & b & c & Ht & Hb & Ha)%elem_of_entries H1 H2.
  rw (inv_placed _ _ _ Hi _ _ _ _ _ Ht Hb Ha) /= in H1, H2. by simplify_eq.
Qed.

Lemma chain_entries d second ttbl b oc a :
  the_buckets d second = Some ttbl → ttbl !! b = Some oc → a ∈ default [] oc → a ∈ entries d.
Proof.
  intros Ht Hb Ha. apply elem_of_entries. destruct oc as [c|]; [|by apply elem_of_nil in Ha].
  by exists second, ttbl, b, c.
Qed.

(** ** Chains *)

Lemma same_key_keyof m a e k h : m !! a = Some e → same_key e k h = true ↔ keyof m a = (h, k).
Proof.
  intros He. unfold same_key, keyof, entry_of. rw He bool_decide_eq_true /=.
  split; [by intros (-> & _ & ->)|by intros [= <- <-]].
Qed.

Lemma find_chain_spec m k h i chain :
  (∀ a, a ∈ chain → is_Some (m !! a)) →
  ∃ r, find_chain m k h i chain = Some r ∧
    match r with
    | None => ∀ a, a ∈ chain → keyof m a ≠ (h, k)
    | Some (j, a) => i ≤ j ∧ chain !! (j - i) = Some a ∧ keyof m a = (h, k)
    end.
Proof.
  revert i. induction chain as [|a chain IH]; intros i Hm; simpl; [by exists None; split; [|set_solver]|].
  destruct (Hm a) as [e He]; [by left|]. obind He.
  destruct (same_key e k h) eqn:Hs.
  - exists (Some (i, a)). split; [done|]. rw Nat.sub_diag. split_and!; [lia|done|].
    by apply (same_key_keyof m a e).
  - destruct (IH (S i)) as (r & Hr & Hspec); [intros; apply Hm; by right|].
    exists r. split; [done|]. destruct r as [[j x]|].
    + destruct Hspec as (Hj & Hx & Hk). split_and!; [lia| |done].
      by replace (j - i) with (S (j - S i)) by lia.
    + intros x [->|Hx]%elem_of_cons; [|by apply Hspec].
      intros Hk. apply (same_key_keyof m a e) in Hk; [|done]. congruence.
Qed.

(** Looking for a key in the chain its hash selects decides whether the
    dictionary has it. *)
Lemma find_spec d pend n k h :
  inv d pend n →
  ∃ ttbl oc r, the_buckets d (place d h).1 = Some ttbl ∧ ttbl !! (place d h).2 = Some oc ∧
    find_chain (mem d) k h 0 (default [] oc) = Some r ∧
    match r with
    | None => ∀ a, a ∈ entries d → keyof (mem d) a ≠ (h, k)
    | Some (j, a) => default [] oc !! j = Some a ∧ a ∈ entries d ∧ keyof (mem d) a = (h, k)
    end.
Proof.
  intros Hi. destruct (place_bucket d pend n h Hi) as (ttbl & oc & Ht & Hb).
  destruct (find_chain_spec (mem d) k h 0 (default [] oc)) as (r & Hr & Hspec).
  { intros a Ha. apply (inv_mem _ _ _ Hi). apply elem_of_app. right.
    by eapply chain_entries. }
  exists ttbl, oc, r. split_and!; [done..|]. destruct r as [[j a]|].
  - destruct Hspec as (_ & Hj & Hk). rw Nat.sub_0_r in Hj. split_and!; [done| |done].
    eapply chain_entries; [done..|]. by eapply list_elem_of_lookup_2.
  - intros a Ha Hk. apply (Hspec a); [|done]. injection Hk as Hh _.
    eapply (chain_complete d); [done..| |]; by rw Hh.
Qed.

(** ** The abstract map *)

Lemma abs_Some d pend n a K v :
  inv d pend n → a ∈ entries d → keyof (mem d) a = K → value (entry_of (mem d) a) = v →
  abs d !! K = Some v.
Proof.
  intros Hi Ha <- <-. unfold abs. apply elem_of_list_to_map.
  - rw -list_fmap_compose. pose proof (inv_keys _ _ _ Hi) as Hn. rw fmap_app in Hn.
    by apply NoDup_app in Hn as (_ & _ & Hn).
  - apply list_elem_of_fmap. by exists a.
Qed.

Lemma abs_None d K : (∀ a, a ∈ entries d → keyof (mem d) a ≠ K) → abs d !! K = None.
Proof.
  intros H. unfold abs. apply not_elem_of_list_to_map. rw -list_fmap_compose.
  intros (a & HK & Ha)%list_elem_of_fmap. by apply (H a).
Qed.

Lemma Lookup_abs d pend n k h :
  inv d pend n → Lookup d k h = Some (default 0 (abs d !! (h, k))).
Proof.
  intros Hi. destruct (find_spec d pend n k h Hi) as (ttbl & oc & r & Ht & Hb & Hr & Hspec).
  unfold Lookup. destruct (place d h) as [second b]; simpl in *. obind Ht. obind Hb. obind Hr.
  destruct r as [[j a]|].
  - destruct Hspec as (_ & Ha & Hk). destruct (inv_mem _ _ _ Hi a) as [e He]; [set_solver|].
    obind He. rw (abs_Some d pend n a (h, k) (value e)) //. unfold entry_of. by rw He.
  - by rw abs_None.
Qed.

(** ** Adding an entry *)

(** What [Insert_entry] of a new key leaves alone. *)
Definition same_shape (d d' : Dictionary) : Prop :=
  num_buckets d' = num_buckets d ∧ num_buckets2 d' = num_buckets2 d ∧
  tbl_next_ind d' = tbl_next_ind d ∧ order d' = order d ∧ cookies d' = cookies d ∧
  mem d' = mem d ∧ thresh_entries d' = thresh_entries d ∧ tid <$> tbl2 d' = tid <$> tbl2 d.

Lemma same_shape_place d d' h : same_shape d d' → place d' h = place d h.
Proof.
  intros (Hn & Hn2 & Hi & _ & _ & _ & _ & Ht). unfold place. rw Hn Hn2 Hi.
  by destruct (tbl2 d), (tbl2 d').
Qed.

Lemma same_shape_trans d1 d2 d3 : same_shape d1 d2 → same_shape d2 d3 → same_shape d1 d3.
Proof. unfold same_shape. intros H1 H2. destruct_and!. split_and!; congruence. Qed.

(** The tables after a bucket of one of them has been replaced. *)
Definition replaced (d d' : Dictionary) (second : bool) (b : nat) (oc : option (list addr)) : Prop :=
  same_shape d d' ∧ (∀ s, the_buckets d' s =
    if decide (s = second) then (λ t, <[b := oc]> t) <$> the_buckets d s else the_buckets d s).

Lemma replaced_entries d d' second b oc oc0 ttbl :
  the_buckets d second = Some ttbl → ttbl !! b = Some oc0 → replaced d d' second b oc →
  entries d' ++ default [] oc0 ≡ₚ entries d ++ default [] oc.
Proof.
  intros Ht Hb [_ Hr]. unfold entries, flat2.
  pose proof (Hr false) as H1. pose proof (Hr true) as H2. simpl in H1, H2.
  destruct second; simpl in *.
  - injection H1 as H1. rw H1.
    destruct (tbl2 d) as [t2|], (tbl2 d') as [t2'|]; simplify_eq/=. rw H2.
    rw -!assoc. by rw (flat_insert _ _ _ _ Hb).
  - injection H1 as H1. rw H1. simplify_eq.
    destruct (tbl2 d) as [t2|], (tbl2 d') as [t2'|]; simplify_eq/=; rw ?H2 ?app_nil_r;
      [|by apply flat_insert].
    rw -!assoc (Permutation_app_comm _ (default [] oc0)) (Permutation_app_comm (flat (buckets t2))).
    rw !assoc. by rw (flat_insert _ _ _ _ Hb).
Qed.

Lemma replaced_placed d d' second b oc ttbl pend n :
  inv d pend n → the_buckets d second = Some ttbl → replaced d d' second b oc →
  (∀ a, a ∈ default [] oc → place d (hash (entry_of (mem d) a)) = (second, b)) →
  ∀ s t b' c a, the_buckets d' s = Some t → t !! b' = Some (Some c) → a ∈ c →
    place d' (hash (entry_of (mem d') a)) = (s, b').
Proof.
  intros Hi Ht [Hs Hr] Hoc s t b' c a Hst Hb' Ha.
  rw (same_shape_place _ _ _ Hs). assert (mem d' = mem d) as -> by apply Hs.
  rw Hr in Hst. case_decide as Hd; [|by eapply (inv_placed _ _ _ Hi)].
  subst. rw Ht /= in Hst. simplify_eq.
  apply list_lookup_insert_Some in Hb' as [(<- & -> & _)|(Hne & Hb')]; [by apply Hoc|].
  by eapply (inv_placed _ _ _ Hi).
Qed.

Lemma replaced_len d d' second b oc pend n :
  inv d pend n → replaced d d' second b oc →
  length (buckets (tbl d')) = num_buckets d' ∧
  (∀ t2, tbl2 d' = Some t2 → 0 < num_buckets2 d' ∧ length (buckets t2) = num_buckets2 d').
Proof.
  intros Hi [(Hn & Hn2 & _) Hr]. rw Hn Hn2.
  pose proof (Hr false) as H1. pose proof (Hr true) as H2. simpl in H1, H2.
  pose proof (inv_len _ _ _ Hi). pose proof (inv_tbl2 _ _ _ Hi) as Hi2.
  split.
  - destruct second; simpl in H1; injection H1 as ->; [done|]. by rw length_insert.
  - intros t2 Ht2. rw Ht2 /= in H2.
    destruct second, (tbl2 d) as [t|] eqn:Ht; simplify_eq/=;
      destruct (Hi2 t eq_refl); (split; [done|]); by rw H2 ?length_insert.
Qed.

Lemma put_replaced d second b oc ttbl :
  the_buckets d second = Some ttbl → replaced d (put_buckets d second (<[b := oc]> ttbl)) second b oc.
Proof.
  intros Ht. split.
  - unfold put_buckets, same_shape. destruct second; simpl; split_and!; try done.
    by destruct (tbl2 d).
  - intros s. unfold put_buckets. destruct second, s; simpl in *; try done; [|by simplify_eq].
    destruct (tbl2 d); by simplify_eq/=.
Qed.

Lemma Insert_entry_new d a pend n ne :
  inv d (a :: pend) n → mem d !! a = Some ne →
  ∃ d', Insert_entry d a = Some (0, d') ∧ inv d' pend n ∧ entries d' ≡ₚ a :: entries d ∧
    same_shape d d' ∧
    ((place d (hash ne)).1 = true → tbl d' = tbl d ∧ num_entries d' = num_entries d).
Proof.
  intros Hi Ha. unfold Insert_entry. obind Ha.
  pose proof (inv_keys _ _ _ Hi) as Hk. rw fmap_cons in Hk. apply NoDup_cons in Hk as [Hka Hk].
  destruct (find_spec d _ _ (key ne) (hash ne) Hi) as (ttbl & oc & r & Ht & Hb & Hr & Hspec).
  assert (entry_of (mem d) a = ne) as Hea by (unfold entry_of; by rw Ha).
  destruct (place d (hash ne)) as [second b] eqn:Hpl; simpl in *. obind Ht. obind Hb. obind Hr.
  destruct r as [[j x]|].
  { exfalso. destruct Hspec as (_ & Hx & Hkx). apply Hka. apply list_elem_of_fmap. exists x.
    split; [by rw Hkx /keyof Hea|set_solver]. }
  set (oc' := Some (default [] oc ++ [a])).
  pose proof (put_replaced d second b oc' ttbl Ht) as Hrep.
  pose proof (replaced_entries _ _ _ _ _ _ _ Ht Hb Hrep) as Hent. simpl in Hent.
  set (d1 := put_buckets d second (<[b := oc']> ttbl)) in *.
  assert (entries d1 ≡ₚ a :: entries d) as Hent'.
  { apply (Permutation_app_inv_r (default [] oc)). rw Hent /=. rw Permutation_app_comm -!assoc /=.
    solve_Permutation. }
  pose proof (replaced_len _ _ _ _ _ _ _ Hi Hrep) as [Hl1 Hl2].
  eexists. split; [done|]. split_and!; [|exact Hent'|apply Hrep|].
  - assert (mem d1 = mem d) as Hmem by apply Hrep.
    split; simpl.
    + assert (num_buckets d1 = num_buckets d) as -> by apply Hrep. apply Hi.
    + done.
    + done.
    + eapply (replaced_placed d d1); [done..|]. intros x Hx. simpl in Hx.
      apply elem_of_app in Hx as [Hx| ->%list_elem_of_singleton]; [|by rw Hea].
      destruct oc as [c|]; [|by apply elem_of_nil in Hx]. by eapply (inv_placed _ _ _ Hi).
    + intros x Hx. rw Hmem. apply (inv_mem _ _ _ Hi). change (x ∈ pend ++ entries d1) in Hx.
      rw Hent' in Hx. set_solver.
    + change (NoDup (keyof (mem d1) <$> pend ++ entries d1)). rw Hmem Hent'.
      rw -Permutation_middle. by constructor.
    + pose proof (inv_count _ _ _ Hi) as Hc. unfold d1, put_buckets.
      destruct second; simpl; [done|]. simpl in Ht. simplify_eq.
      pose proof (Permutation_length (flat_insert _ _ _ oc' Hb)) as Hfl.
      rw /oc' /= !length_app /= in Hfl. unfold oc'. lia.
    + intros [t2 Ht2]. assert (is_Some (tbl2 d)) as H2.
      { destruct Hrep as [Hs _]. destruct Hs as (_&_&_&_&_&_&_&Hs). change (tbl2 d1 = Some t2) in Ht2.
        rw Ht2 in Hs. destruct (tbl2 d); [by eexists|done]. }
      pose proof (inv_count2 _ _ _ Hi H2) as Hc. unfold d1, put_buckets, flat2 in *.
      destruct second; simpl; [|done]. simpl in Ht.
      destruct (tbl2 d) as [t|]; simplify_eq/=.
      pose proof (Permutation_length (flat_insert _ _ _ oc' Hb)) as Hfl.
      rw /oc' /= !length_app /= in Hfl. unfold oc'. lia.
  - intros Hsec. simpl in Hsec. subst second. unfold d1. by destruct d as [? ? ? ? ? [] ].
Qed.

(** ** Moving chains *)

(** Operations that only rearrange the tables. *)
Definition rearranged (d d' : Dictionary) : Prop :=
  mem d' = mem d ∧ order d' = order d ∧ cookies d' = cookies d.

Lemma same_shape_rearranged d d' : same_shape d d' → rearranged d d'.
Proof. unfold same_shape, rearranged. intros; destruct_and!. by split_and!. Qed.

Lemma rearranged_trans d1 d2 d3 : rearranged d1 d2 → rearranged d2 d3 → rearranged d1 d3.
Proof. unfold rearranged. intros; destruct_and!. split_and!; congruence. Qed.

Lemma inv_uncount d pend n :
  inv d pend n →
  inv (set_tbl d (buckets (tbl d)) (num_entries d - 1) (max_num_entries d)) pend (n - 1).
Proof.
  intros [? ? ? ? ? ? Hc ?]. split; try done. simpl. lia.
Qed.

Lemma move_chain_inv d chain num :
  inv d chain (Z.of_nat (length chain)) →
  (∀ a, a ∈ chain → (place d (hash (entry_of (mem d) a))).1 = true) →
  ∃ d', move_chain d chain num = Some (d', num - Z.of_nat (length chain))%Z ∧ inv d' [] 0 ∧
    entries d' ≡ₚ chain ++ entries d ∧ same_shape d d'.
Proof.
  revert d num. induction chain as [|a chain IH]; intros d num Hi Hpl; simpl.
  - exists d. rw Z.sub_0_r. by split_and!.
  - destruct (inv_mem _ _ _ Hi a) as [ne Ha]; [by left|].
    destruct (Insert_entry_new d a chain _ ne Hi Ha) as (d1 & Hins & Hi1 & He1 & Hs1 & Hkeep).
    obind Hins.
    set (d2 := set_tbl d1 _ _ _).
    assert (same_shape d d2) as Hs2.
    { eapply same_shape_trans; [exact Hs1|]. by split_and!. }
    destruct (IH d2 (num - 1)%Z) as (d' & Hrun & Hi' & He' & Hs').
    + apply inv_uncount in Hi1. by replace (Z.of_nat (length chain)) with (Z.of_nat (length (a :: chain)) - 1)%Z by (simpl; lia).
    + intros x Hx. rw (same_shape_place _ _ _ Hs2). assert (mem d2 = mem d) as -> by apply Hs2.
      apply Hpl. by right.
    + exists d'. split_and!; [|done| |by eapply same_shape_trans].
      * rw Hrun. do 2 f_equal. lia.
      * rw He'. change (entries d2) with (entries d1). rw He1. by rw Permutation_middle.
Qed.

(** Taking bucket [tbl_next_ind] out of the old table. *)
Lemma take_chain d oc :
  inv d [] 0 → is_Some (tbl2 d) → buckets (tbl d) !! tbl_next_ind d = Some oc →
  let d1 := set_tbl (set_next_ind d (S (tbl_next_ind d)))
    (<[tbl_next_ind d := None]> (buckets (tbl d))) (num_entries d) (max_num_entries d) in
  inv d1 (default [] oc) (Z.of_nat (length (default [] oc))) ∧
  entries d ≡ₚ default [] oc ++ entries d1 ∧
  (∀ a, a ∈ default [] oc → (place d1 (hash (entry_of (mem d1) a))).1 = true).
Proof.
  intros Hi [t2 Ht2] Hb d1. set (ind := tbl_next_ind d) in *.
  pose proof (flat_insert _ _ _ None Hb) as Hfl. rw /= app_nil_r in Hfl.
  assert (entries d ≡ₚ default [] oc ++ entries d1) as Hent.
  { unfold entries at 1. rw -Hfl. unfold entries, flat2, d1. simpl. solve_Permutation. }
  assert (∀ a, a ∈ default [] oc → place d (hash (entry_of (mem d) a)) = (false, ind)) as Hoc.
  { intros a Ha. destruct oc as [c|]; [|by apply elem_of_nil in Ha].
    by eapply (inv_placed _ _ _ Hi false). }
  assert (∀ h s b, place d h = (s, b) → (s, b) ≠ (false, ind) → place d1 h = (s, b)) as Hkeep.
  { intros h s b. unfold place, d1. simpl. rw Ht2. fold ind. intros Hp Hne.
    repeat case_decide; simplify_eq; try done.
    - exfalso. apply Hne. f_equal. lia.
    - lia. }
  split_and!; [|done|].
  - split.
    + apply Hi.
    + rw /= length_insert. apply Hi.
    + apply Hi.
    + intros s t b c a Hst Htb Ha.
      assert (∃ t0, the_buckets d s = Some t0 ∧ t0 !! b = Some (Some c) ∧ (s, b) ≠ (false, ind)) as (t0 & H1 & H2 & H3).
      { destruct s; simpl in *; [by exists t|]. simplify_eq.
        apply list_lookup_insert_Some in Htb as [(_ & ? & _)|[Hne Htb]]; [done|].
        exists (buckets (tbl d)). split_and!; [done..|]. congruence. }
      apply Hkeep; [|done]. by eapply (inv_placed _ _ _ Hi).
    + intros a Ha. apply (inv_mem _ _ _ Hi). rw /= Hent. done.
    + pose proof (inv_keys _ _ _ Hi) as Hk. by rw /= Hent in Hk.
    + rw /= (inv_count _ _ _ Hi). rw -(Permutation_length Hfl) length_app. lia.
    + intros H2. by apply (inv_count2 _ _ _ Hi).
  - intros a Ha. apply Hoc in Ha. change (mem d1) with (mem d). revert Ha.
    unfold place, d1. simpl. rw Ht2. fold ind. repeat case_decide; intros; simplify_eq/=; try done. lia.
Qed.

Lemma move_loop_inv fuel d num :
  inv d [] 0 → is_Some (tbl2 d) → tbl_next_ind d < num_buckets d →
  num_buckets d - tbl_next_ind d < fuel →
  ∃ d', move_loop fuel d num = Some d' ∧ inv d' [] 0 ∧ entries d' ≡ₚ entries d ∧
    rearranged d d' ∧ is_Some (tbl2 d').
Proof.
  revert d num. induction fuel as [|fuel IH]; intros d num Hi H2 Hlt Hf; [lia|]. simpl.
  destruct (lookup_lt_is_Some_2 (buckets (tbl d)) (tbl_next_ind d)) as [oc Hb];
    [by rw (inv_len _ _ _ Hi)|]. obind Hb.
  pose proof (take_chain d oc Hi H2 Hb) as (Hi1 & He1 & Hp1).
  set (d1 := set_tbl _ _ _ _) in *.
  assert (∃ d' num', match oc with
    | Some chain => move_chain (set_tbl (set_next_ind d (S (tbl_next_ind d)))
        (<[tbl_next_ind d := None]> (buckets (tbl d))) (num_entries d) (max_num_entries d)) chain num
    | None => Some (set_next_ind d (S (tbl_next_ind d)), num) end = Some (d', num') ∧ inv d' [] 0 ∧
    entries d' ≡ₚ entries d ∧ rearranged d d' ∧ is_Some (tbl2 d') ∧
    tbl_next_ind d' = S (tbl_next_ind d) ∧ num_buckets d' = num_buckets d) as (d' & num' & Hm & Hi' & He' & Hr' & H2' & Hn' & Hnb').
  { destruct oc as [chain|].
    - destruct (move_chain_inv d1 chain num Hi1 Hp1) as (d' & Hm & Hi' & He' & Hs').
      exists d', (num - Z.of_nat (length chain))%Z. split_and!; [done|done|by rw He' He1| | | |].
      + by apply same_shape_rearranged in Hs'.
      + destruct Hs' as (_&_&_&_&_&_&_&Ht). change (tbl2 d1) with (tbl2 d) in Ht.
        destruct H2 as [t2 H2]. rw H2 in Ht. destruct (tbl2 d'); [by eexists|done].
      + by destruct Hs' as (_&_&->&_).
      + by destruct Hs' as (->&_).
    - exists (set_next_ind d (S (tbl_next_ind d))), num.
      assert (d1 = set_next_ind d (S (tbl_next_ind d))) as Hd1.
      { unfold d1, set_tbl, set_next_ind. simpl. rw list_insert_id //. by destruct d as [[] ]. }
      rw Hd1 in Hi1. by split_and!. }
  rw Hm /=. case_decide as Hc.
  - destruct (IH d' num' Hi' H2') as (d'' & Hrun & Hi'' & He'' & Hr'' & H2''); [lia|lia|].
    exists d''. repeat (split; [done|]). split; [by rw He''|].
    split; [by apply (rearranged_trans _ _ _ Hr' Hr'')|done].
  - exists d'. by split_and!; try apply Hr'.
Qed.

Lemma old_table_empty d :
  inv d [] 0 → is_Some (tbl2 d) → num_buckets d ≤ tbl_next_ind d → flat (buckets (tbl d)) = [].
Proof.
  intros Hi [t2 H2] Hle. apply elem_of_nil_inv. intros a (b & c & Hb & Ha)%elem_of_flat.
  pose proof (inv_placed _ _ _ Hi false _ _ _ _ eq_refl Hb Ha) as Hp.
  apply lookup_lt_Some in Hb. rw (inv_len _ _ _ Hi) in Hb.
  unfold place in Hp. rw H2 in Hp. case_decide; simplify_eq. lia.
Qed.

Lemma FinishChangeSize_wf d :
  inv d [] 0 → is_Some (tbl2 d) → num_buckets d ≤ tbl_next_ind d →
  ∃ d', FinishChangeSize d = Some d' ∧ wf d' ∧ entries d' = entries d ∧ rearranged d d'.
Proof.
  intros Hi H2 Hle. pose proof (old_table_empty d Hi H2 Hle) as He.
  destruct H2 as [t2 H2]. unfold FinishChangeSize.
  rw decide_False; [|rw (inv_count _ _ _ Hi) He /=; lia]. obind H2.
  eexists; split; [done|].
  assert (entries d = flat (buckets t2)) as Hent.
  { unfold entries, flat2. by rw He H2. }
  destruct (inv_tbl2 _ _ _ Hi _ H2) as [Hpos Hlen].
  split; [|split; [by rw Hent /entries /flat2 /= app_nil_r|done]].
  split; [|by intros []]. split; simpl.
  - done.
  - done.
  - done.
  - intros s t b c a Hst Hb Ha. destruct s; simplify_eq/=.
    pose proof (inv_placed _ _ _ Hi true (buckets t2) b c a) as Hp. rw /= H2 in Hp.
    specialize (Hp eq_refl Hb Ha). revert Hp. unfold place. rw H2 /=. by case_decide; intros; simplify_eq.
  - intros a Ha. apply (inv_mem _ _ _ Hi). by rw /= Hent -(app_nil_r (flat (buckets t2))).
  - pose proof (inv_keys _ _ _ Hi) as Hk. rw /= Hent in Hk. by rw /entries /flat2 /= app_nil_r.
  - rw (inv_count2 _ _ _ Hi); [|by eexists]. unfold flat2. rw H2 /=. lia.
  - by intros [].
Qed.

Lemma MoveChains_wf d :
  inv d [] 0 → is_Some (tbl2 d) → tbl_next_ind d < num_buckets d →
  ∃ d', MoveChains d = Some d' ∧ wf d' ∧ entries d' ≡ₚ entries d ∧ rearranged d d'.
Proof.
  intros Hi H2 Hlt. unfold MoveChains. case_decide; [by exists d|].
  destruct (move_loop_inv (S (num_buckets d)) d 8 Hi H2 Hlt) as (d1 & Hm & Hi1 & He1 & Hr1 & H21); [lia|].
  obind Hm. case_decide as Hle.
  - destruct (FinishChangeSize_wf d1 Hi1 H21 Hle) as (d2 & Hf & Hwf & He2 & Hr2).
    exists d2. split; [done|]. split; [done|]. split; [by rw He2|].
    by apply (rearranged_trans _ _ _ Hr1 Hr2).
  - exists d1. split; [done|]. split; [|done]. split; [done|lia].
Qed.

Lemma NextPrime_from_pos fuel n : (0 < n → 0 < NextPrime_from fuel n)%Z.
Proof.
  revert n. induction fuel as [|fuel IH]; intros n Hn; simpl; [done|]. case_match; [done|]. apply IH. lia.
Qed.

Lemma NextPrime_pos n : (0 < n → 0 < NextPrime n)%Z.
Proof.
  intros Hn. unfold NextPrime. set (n' := if Z.even n then _ else _).
  assert (0 < n')%Z by (subst n'; case_match; lia).
  case_match; [done|]. by apply NextPrime_from_pos.
Qed.

Lemma StartChangeSize_wf d n :
  inv d [] 0 → tbl2 d = None → (0 < n)%Z →
  ∃ d', StartChangeSize d n = Some d' ∧ wf d' ∧ entries d' = entries d ∧ rearranged d d'.
Proof.
  intros Hi H2 Hn. pose proof (NextPrime_pos n Hn) as Hp. unfold StartChangeSize.
  case_decide; [exists d; split; [done|]; split; [split; [done|by rw H2; intros []]|done]|].
  rw decide_False; [|by rw H2; intros []].
  eexists; split; [done|].
  assert (∀ m, flat (replicate m None) = []) as Hrep.
  { intros m. unfold flat. rw fmap_replicate. by induction m. }
  split; [|split; [|done]].
  - split; [|intros _; apply Hi]. destruct Hi as [H_nb H_len _ H_pl H_mem H_keys H_cnt _].
    split; simpl; try done.
    + intros t2 [= <-]. rw /= length_replicate. lia.
    + intros s t b c a Hst Hb Ha. destruct s; simplify_eq/=; [by apply lookup_replicate in Hb as [? _]|].
      pose proof (H_pl false (buckets (tbl d)) b c a eq_refl Hb Ha) as Hpl.
      unfold place in *. rw H2 in Hpl. simpl. by repeat case_decide; try lia.
    + intros a Ha. apply H_mem. revert Ha. unfold entries, flat2. by rw H2 /= Hrep.
    + revert H_keys. unfold entries, flat2. by rw H2 /= Hrep.
    + intros _. unfold flat2. by rw /= Hrep.
  - unfold entries, flat2. by rw H2 /= Hrep.
Qed.

(** The resizing step that ends every insertion. *)
Lemma resize_step_wf d :
  wf d →
  ∃ d', resize_logic d = Some d' ∧ wf d' ∧ entries d' ≡ₚ entries d ∧ rearranged d d'.
Proof.
  intros [Hi Hn]. unfold resize_logic. case_decide as H2; [by apply MoveChains_wf; [| |apply Hn]|].
  case_match; [|by exists d].
  destruct (StartChangeSize_wf d (Z.of_nat (num_buckets d) * 2 + 1)) as (d' & Hs & Hwf & He & Hr);
    [done|by apply eq_None_not_Some|lia|].
  exists d'. split; [done|]. split; [done|]. split; [by rw He|done].
Qed.

(** ** The abstract map of a state *)

Lemma abs_eq d n M :
  inv d [] n →
  (∀ a, a ∈ entries d → M !! keyof (mem d) a = Some (value (entry_of (mem d) a))) →
  (∀ K v, M !! K = Some v → ∃ a, a ∈ entries d ∧ keyof (mem d) a = K) → abs d = M.
Proof.
  intros Hi H1 H2. apply map_eq. intros K. destruct (M !! K) as [v|] eqn:HM.
  - destruct (H2 K v HM) as (a & Ha & HK). eapply abs_Some; [done..|].
    pose proof (H1 a Ha) as Hv. rw HK HM in Hv. by injection Hv.
  - apply abs_None. intros a Ha HK. pose proof (H1 a Ha) as Hv. by rw HK HM in Hv.
Qed.

Lemma abs_entries d n a :
  inv d [] n → a ∈ entries d → abs d !! keyof (mem d) a = Some (value (entry_of (mem d) a)).
Proof. intros Hi Ha. by eapply abs_Some. Qed.

Lemma abs_entry d K v : abs d !! K = Some v → ∃ a, a ∈ entries d ∧ keyof (mem d) a = K.
Proof.
  unfold abs. intros H%elem_of_list_to_map_2. apply list_elem_of_fmap in H as (a & Hkv & Ha).
  exists a. split; [done|]. by injection Hkv.
Qed.

Lemma abs_rearranged d d' :
  wf d → wf d' → entries d' ≡ₚ entries d → mem d' = mem d → abs d' = abs d.
Proof.
  intros [Hi _] [Hi' _] He Hm. apply (abs_eq _ _ _ Hi').
  - intros a Ha. rw Hm. eapply abs_entries; [done|]. by rw -He.
  - intros K v HK. rw Hm. setoid_rewrite He. by eapply abs_entry.
Qed.

Lemma abs_size d n : inv d [] n → size (abs d) = length (entries d).
Proof.
  intros Hi. pose proof (inv_keys _ _ _ Hi) as Hk. simpl in Hk. unfold abs.
  rw map_size_list_to_map; [by rw length_fmap|]. by rw -list_fmap_compose.
Qed.

(** Storing to an entry outside the tables, or to the value of one inside. *)
Lemma inv_store d n m :
  inv d [] n →
  (∀ a, a ∈ entries d → is_Some (m !! a) ∧ keyof m a = keyof (mem d) a) →
  inv (set_mem d m) [] n.
Proof.
  intros [? ? ? Hp Hm Hk ? ?] Hkeep. split; try done.
  - intros s t b c a Hst Hb Ha. change (place (set_mem d m)) with (place d).
    assert (a ∈ entries d) as He by (apply elem_of_entries; by exists s, t, b, c).
    destruct (Hkeep a He) as [_ Hkey]. injection Hkey as Hh _. rw /= Hh. by eapply Hp.
  - intros a Ha. by apply Hkeep.
  - rw /=. change (entries (set_mem d m)) with (entries d).
    rw (list_fmap_ext (keyof m) (keyof (mem d))) //.
    intros i a Ha. apply Hkeep. by eapply list_elem_of_lookup_2.
Qed.

(** ** Insert and Remove *)

#[local] Arguments resize_logic : simpl never.

Lemma Insert_entry_found d n a ne x :
  inv d [] n → mem d !! a = Some ne → x ∈ entries d → keyof (mem d) x = (hash ne, key ne) →
  let e := entry_of (mem d) x in
  Insert_entry d a = Some (value e, set_mem d (<[x := mkDE (key e) (hash e) (value ne)]> (mem d))).
Proof.
  intros Hi Ha Hx Hkx. unfold Insert_entry. obind Ha.
  destruct (find_spec d _ _ (key ne) (hash ne) Hi) as (ttbl & oc & r & Ht & Hb & Hr & Hspec).
  destruct (place d (hash ne)) as [second b]; simpl in *. obind Ht. obind Hb. obind Hr.
  destruct r as [[j y]|]; [|by destruct (Hspec x Hx)].
  destruct Hspec as (_ & Hy & Hky).
  assert (y = x) as ->.
  { pose proof (inv_keys _ _ _ Hi) as Hk. simpl in Hk.
    apply list_elem_of_lookup_1 in Hx as [ix Hix], Hy as [iy Hiy].
    assert (ix = iy) as ->; [|congruence].
    apply (NoDup_lookup _ ix iy (hash ne, key ne) Hk); rw list_lookup_fmap ?Hix ?Hiy /=; by f_equal. }
  destruct (inv_mem _ _ _ Hi x Hx) as [e He]. unfold entry_of. by rw He.
Qed.

(** The position of a new entry in the order. *)
Definition order_add (o : option (list addr)) (a : addr) : option (list addr) :=
  match o with Some o => Some (o ++ [a]) | None => None end.

Lemma keyof_insert_ne m a b e : a ≠ b → keyof (<[b := e]> m) a = keyof m a.
Proof. intros. unfold keyof, entry_of. by rw lookup_insert_ne. Qed.

Lemma entry_of_insert_ne m a b e : a ≠ b → entry_of (<[b := e]> m) a = entry_of m a.
Proof. intros. unfold entry_of. by rw lookup_insert_ne. Qed.

Lemma Insert_new d a k h v :
  wf d → mem d !! a = None → abs d !! (h, k) = None →
  ∃ d', Insert d a k h v = Some (0, d') ∧ wf d' ∧ abs d' = <[(h, k) := v]> (abs d) ∧
    entries d' ≡ₚ a :: entries d ∧ mem d' = <[a := mkDE k h v]> (mem d) ∧
    order d' = order_add (order d) a ∧ cookies d' = cookies d.
Proof.
  intros [Hi Hn] Hfresh Habs. unfold Insert. set (d0 := set_mem d _).
  assert (a ∉ entries d) as Ha.
  { intros Hin. destruct (inv_mem _ _ _ Hi a Hin). congruence. }
  assert (∀ x, x ∈ entries d → x ≠ a) as Hne by (by intros x Hx ->).
  assert (inv d0 [a] 0) as Hi0.
  { assert (inv d0 [] 0) as H0.
    { apply (inv_store _ _ _ Hi). intros x Hx. rw lookup_insert_ne; [|by apply not_eq_sym, Hne].
      split; [by apply (inv_mem _ _ _ Hi)|]. apply keyof_insert_ne. by apply Hne. }
    destruct H0 as [? ? ? ? H_mem H_keys ? ?]. split; try done.
    - intros x [->|Hx]%elem_of_cons; [|by apply H_mem]. rw /= lookup_insert_eq. by eexists.
    - constructor; [|done]. intros (x & Hk & Hx)%list_elem_of_fmap.
      change (entries d0) with (entries d) in Hx. simpl in Hk.
      rw (keyof_insert_ne _ x) in Hk; [|by apply Hne].
      pose proof (abs_entries d _ x Hi Hx) as Hax. rw -Hk in Hax.
      revert Hax. rw {1}/keyof /entry_of lookup_insert_eq /=. by rw Habs. }
  destruct (Insert_entry_new d0 a [] 0 (mkDE k h v) Hi0) as (d1 & Hins & Hi1 & He1 & Hs1 & _);
    [by rw /= lookup_insert_eq|].
  obind Hins. change (entries d0) with (entries d) in He1.
  pose proof Hs1 as (_ & _ & _ & Ho & Hc & Hm & _).
  change (order d1 = order d) in Ho. change (cookies d1 = cookies d) in Hc.
  set (d2 := match order d1 with Some o => set_order d1 (Some (o ++ [a])) | None => d1 end).
  assert (wf d2 ∧ entries d2 = entries d1 ∧ order d2 = order_add (order d) a ∧ cookies d2 = cookies d ∧
    mem d2 = <[a := mkDE k h v]> (mem d)) as (Hwf2 & He2 & Ho2 & Hc2 & Hm2).
  { assert (is_Some (tbl2 d1) → tbl_next_ind d1 < num_buckets d1).
    { destruct Hs1 as (Hnb & _ & -> & _ & _ & _ & _ & Ht). rw Hnb. intros [t2 Ht2]. apply Hn.
      rw Ht2 in Ht. change (tbl2 d0) with (tbl2 d) in Ht. destruct (tbl2 d); [by eexists|done]. }
    unfold d2, order_add. rw Ho. destruct (order d); (split; [split; [by destruct Hi1|done]|]); by rw ?Ho. }
  destruct (resize_step_wf d2 Hwf2) as (d3 & Hr & Hwf3 & He3 & Hm3 & Ho3 & Hc3). rw Hr /=.
  assert (entries d3 ≡ₚ a :: entries d) as Hent by by rw He3 He2.
  exists d3. split_and!; [done|done| |done|congruence..].
  apply (abs_eq _ 0); [apply Hwf3|..]; rw Hm3 Hm2.
  - intros x. rw Hent. intros [->|Hx]%elem_of_cons.
    + unfold keyof, entry_of. by rw lookup_insert_eq /= lookup_insert_eq.
    + rw keyof_insert_ne; [|by apply Hne]. rw entry_of_insert_ne; [|by apply Hne].
      pose proof (abs_entries d _ x Hi Hx) as Hax.
      rw lookup_insert_ne //. intros Hk. by rw -Hk Habs in Hax.
  - intros K w [[<- <-]|[Hk HK]]%lookup_insert_Some.
    + exists a. split; [rw Hent; by left|]. unfold keyof, entry_of. by rw lookup_insert_eq.
    + destruct (abs_entry _ _ _ HK) as (x & Hx & Hkx). exists x. split; [rw Hent; by right|].
      by rw keyof_insert_ne; [|by apply Hne].
Qed.

Lemma Insert_old d a k h v old :
  wf d → mem d !! a = None → abs d !! (h, k) = Some old → old ≠ 0 →
  ∃ d', Insert d a k h v = Some (old, d') ∧ wf d' ∧ abs d' = <[(h, k) := v]> (abs d) ∧
    entries d' ≡ₚ entries d ∧ order d' = order d ∧ cookies d' = cookies d ∧
    (∀ x, x ∈ entries d → keyof (mem d') x = keyof (mem d) x).
Proof.
  intros [Hi Hn] Hfresh Habs Hold. unfold Insert. set (d0 := set_mem d _).
  assert (a ∉ entries d) as Ha.
  { intros Hin. destruct (inv_mem _ _ _ Hi a Hin). congruence. }
  assert (∀ x, x ∈ entries d → x ≠ a) as Hne by (by intros x Hx ->).
  destruct (abs_entry _ _ _ Habs) as (x & Hx & Hkx).
  pose proof (abs_entries d _ x Hi Hx) as Hvx. rw Hkx Habs in Hvx. injection Hvx as Hvx.
  assert (inv d0 [] 0) as Hi0.
  { apply (inv_store _ _ _ Hi). intros y Hy. rw lookup_insert_ne; [|by apply not_eq_sym, Hne].
    split; [by apply (inv_mem _ _ _ Hi)|]. apply keyof_insert_ne. by apply Hne. }
  assert (∀ y, y ∈ entries d → entry_of (mem d0) y = entry_of (mem d) y) as He0.
  { intros y Hy. apply entry_of_insert_ne. by apply Hne. }
  rw (Insert_entry_found d0 0 a (mkDE k h v) x Hi0) //; [|by rw /= lookup_insert_eq|
    by rw keyof_insert_ne; [|by apply Hne]].
  rw He0 // -Hvx /=. rw decide_True //.
  set (d1 := set_mem _ (delete a _)).
  assert (∀ y, y ∈ entries d → is_Some (mem d1 !! y) ∧ keyof (mem d1) y = keyof (mem d) y ∧
    value (entry_of (mem d1) y) = if decide (y = x) then v else value (entry_of (mem d) y)) as Hd1.
  { intros y Hy. pose proof (Hne y Hy). unfold d1, keyof, entry_of. simpl.
    rw lookup_delete_ne //. case_decide as Hyx.
    - subst. rw lookup_insert_eq. split_and!; [by eexists|done|done].
    - rw lookup_insert_ne // lookup_insert_ne //. split_and!; [by apply (inv_mem _ _ _ Hi)|done|done]. }
  assert (wf d1) as Hwf1.
  { split; [|done]. change d1 with (set_mem d (mem d1)). apply (inv_store _ _ _ Hi).
    intros y Hy. by destruct (Hd1 y Hy) as (? & ? & _). }
  destruct (resize_step_wf d1 Hwf1) as (d3 & Hr & Hwf3 & He3 & Hm3 & Ho3 & Hc3). rw Hr /=.
  change (entries d1) with (entries d) in He3.
  exists d3. rw Hm3. split_and!; [done|done| |done|done|done|intros y Hy; by apply Hd1].
  apply (abs_eq _ 0); [apply Hwf3|..]; rw Hm3.
  - intros y. rw He3. intros Hy. destruct (Hd1 y Hy) as (_ & -> & ->). case_decide as Hyx.
    + subst. by rw Hkx lookup_insert_eq.
    + rw lookup_insert_ne; [by eapply abs_entries|]. intros Hk. apply Hyx.
      pose proof (inv_keys _ _ _ Hi) as Hnd. simpl in Hnd.
      apply list_elem_of_lookup_1 in Hx as [ix Hix], Hy as [iy Hiy].
      assert (iy = ix) as ->; [|congruence].
      apply (NoDup_lookup _ iy ix (h, k) Hnd); rw list_lookup_fmap ?Hix ?Hiy /=; congruence.
  - intros K w [[<- <-]|[Hk HK]]%lookup_insert_Some.
    + exists x. split; [by rw He3|]. by destruct (Hd1 x Hx) as (_ & -> & _).
    + destruct (abs_entry _ _ _ HK) as (y & Hy & Hky). exists y. split; [by rw He3|].
      by destruct (Hd1 y Hy) as (_ & -> & _).
Qed.

Lemma Remove_absent d k h : wf d → abs d !! (h, k) = None → Remove d k h = Some (0, d).
Proof.
  intros [Hi _] Habs. destruct (find_spec d _ _ k h Hi) as (ttbl & oc & r & Ht & Hb & Hr & Hspec).
  unfold Remove. destruct (place d h) as [second b]; simpl in *. obind Ht. obind Hb. obind Hr.
  destruct r as [[j a]|]; [|done]. destruct Hspec as (_ & Ha & Hk).
  pose proof (abs_entries d _ a Hi Ha) as Hv. by rw Hk Habs in Hv.
Qed.

(** The tables after [Remove] has taken entry number [j] out of its chain. *)
Definition cut (d : Dictionary) (second : bool) (b j : nat) (ttbl : list (option (list addr)))
    (c : list addr) : Dictionary :=
  if second then set_tbl2 d (<[b := Some (delete j c)]> ttbl) (num_entries2 d - 1) (max_num_entries2 d)
  else set_tbl d (<[b := Some (delete j c)]> ttbl) (num_entries d - 1) (max_num_entries d).

Lemma cut_replaced d second b j ttbl c :
  the_buckets d second = Some ttbl → replaced d (cut d second b j ttbl c) second b (Some (delete j c)).
Proof.
  intros Ht. split.
  - unfold cut, same_shape. destruct second; simpl; split_and!; try done. by destruct (tbl2 d).
  - intros s. unfold cut. destruct second, s; simpl in *; try done; [|by simplify_eq].
    destruct (tbl2 d); by simplify_eq/=.
Qed.

Lemma cut_inv d second b j ttbl oc a :
  inv d [] 0 → the_buckets d second = Some ttbl → ttbl !! b = Some oc →
  default [] oc !! j = Some a →
  let d' := cut d second b j ttbl (default [] oc) in inv d' [] 0 ∧ entries d ≡ₚ a :: entries d'.
Proof.
  intros Hi Ht Hb Hj d'. set (oc' := Some (delete j (default [] oc))).
  pose proof (cut_replaced d second b j ttbl (default [] oc) Ht) as Hrep. fold d' oc' in Hrep.
  pose proof (replaced_entries _ _ _ _ _ _ _ Ht Hb Hrep) as Hent. simpl in Hent.
  pose proof (delete_Permutation _ _ _ Hj) as Hp.
  assert (entries d ≡ₚ a :: entries d') as He.
  { apply (Permutation_app_inv_r (delete j (default [] oc))). rw -Hent.
    transitivity (entries d' ++ a :: delete j (default [] oc)); [by apply Permutation_app_head|].
    solve_Permutation. }
  pose proof (Permutation_length Hp) as Hlp. simpl in Hlp.
  split; [|done].
  pose proof (replaced_len _ _ _ _ _ _ _ Hi Hrep) as [Hl1 Hl2].
  assert (mem d' = mem d) as Hmem by apply Hrep.
  split; simpl.
  - assert (num_buckets d' = num_buckets d) as -> by apply Hrep. apply Hi.
  - done.
  - done.
  - eapply (replaced_placed d d'); [done..|]. intros x Hx. simpl in Hx.
    assert (x ∈ default [] oc) as Hx' by (apply (elem_of_Permutation_proper x _ _ Hp); by right).
    destruct oc as [c|]; [|by apply elem_of_nil in Hx']. by eapply (inv_placed _ _ _ Hi).
  - intros x Hx. rw Hmem. apply (inv_mem _ _ _ Hi). rw /= He. by right.
  - pose proof (inv_keys _ _ _ Hi) as Hk. rw /= He in Hk. rw Hmem. by apply NoDup_cons in Hk as [_ Hk].
  - pose proof (inv_count _ _ _ Hi) as Hc. unfold d', cut. destruct second; simpl; [done|].
    simpl in Ht. simplify_eq. pose proof (Permutation_length (flat_insert _ _ _ oc' Hb)) as Hfl.
    rw !length_app /= in Hfl. unfold oc' in Hfl. lia.
  - intros Hs2. assert (is_Some (tbl2 d)) as H2.
    { destruct Hrep as [(_&_&_&_&_&_&_&Hs) _]. destruct Hs2 as [t2 Ht2].
      rw Ht2 in Hs. destruct (tbl2 d); [by eexists|done]. }
    pose proof (inv_count2 _ _ _ Hi H2) as Hc. unfold d', cut, flat2 in *. destruct second; simpl; [|done].
    simpl in Ht. destruct (tbl2 d) as [t|]; simplify_eq/=.
    pose proof (Permutation_length (flat_insert _ _ _ oc' Hb)) as Hfl.
    rw !length_app /= in Hfl. unfold oc' in Hfl. lia.
Qed.

Lemma Remove_present d k h v :
  wf d → abs d !! (h, k) = Some v →
  ∃ a d', Remove d k h = Some (v, d') ∧ wf d' ∧ abs d' = delete (h, k) (abs d) ∧
    keyof (mem d) a = (h, k) ∧ entries d ≡ₚ a :: entries d' ∧
    mem d' = delete a (mem d) ∧ order d' = list_remove a <$> order d ∧ cookies d' = cookies d.
Proof.
  intros [Hi Hn] Habs. destruct (find_spec d _ _ k h Hi) as (ttbl & oc & r & Ht & Hb & Hr & Hspec).
  unfold Remove. destruct (place d h) as [second b]; simpl in *. obind Ht. obind Hb. obind Hr.
  destruct r as [[j a]|].
  2: { exfalso. destruct (abs_entry _ _ _ Habs) as (a & Ha & Hk). by apply (Hspec a). }
  destruct Hspec as (Hj & Ha & Hk). destruct (inv_mem _ _ _ Hi a Ha) as [e He]. obind He.
  pose proof (abs_entries d _ a Hi Ha) as Hv. rw Hk Habs /entry_of He /= in Hv.
  injection Hv as Hv. rw -Hv.
  pose proof (cut_inv d second b j ttbl oc a Hi Ht Hb Hj) as [Hi1 He1].
  pose proof (cut_replaced d second b j ttbl (default [] oc) Ht) as [Hs1 _].
  fold (cut d second b j ttbl (default [] oc)).
  set (d1 := cut d second b j ttbl (default [] oc)) in *.
  pose proof (inv_keys _ _ _ Hi) as Hnd. simpl in Hnd. rw He1 in Hnd.
  apply NoDup_cons in Hnd as [Hna Hnd].
  assert (∀ x, x ∈ entries d1 → x ≠ a) as Hne.
  { intros x Hx ->. apply Hna. by apply list_elem_of_fmap_2. }
  assert (mem d1 = mem d) as Hm1 by apply Hs1.
  assert (order d1 = order d ∧ cookies d1 = cookies d) as [Ho1 Hc1] by (split; apply Hs1).
  assert (∀ x, x ∈ entries d1 → entry_of (delete a (mem d)) x = entry_of (mem d) x) as Hent.
  { intros x Hx. unfold entry_of. rw lookup_delete_ne //. by apply not_eq_sym, Hne. }
  set (d2 := set_cookies (set_order d1 (list_remove a <$> order d1)) (cookies d1)
    (adjust_cookies a (bucket_of h (num_buckets d1)) j (cookies d1) (cookie_mem d1))).
  assert (inv d2 [] 0) as Hi2 by by destruct Hi1.
  assert (wf (set_mem d2 (delete a (mem d2)))) as Hwf.
  { split.
    - apply (inv_store d2 0 _ Hi2). intros x Hx. change (entries d2) with (entries d1) in Hx.
      change (mem d2) with (mem d1). rw Hm1. unfold keyof. rw Hent //. split; [|done].
      rw lookup_delete_ne; [|by apply not_eq_sym, Hne]. apply (inv_mem _ _ _ Hi). rw /= He1. by right.
    - destruct Hs1 as (Hnb & _ & Hind & _ & _ & _ & _ & Hs2). intros [t2 Ht2]. simpl in Ht2.
      rw /= Hind Hnb. apply Hn. rw Ht2 in Hs2. destruct (tbl2 d); [by eexists|done]. }
  exists a. eexists. split; [done|]. split_and!; [exact Hwf| |done|exact He1| |by rw /= Ho1|by rw /= Hc1].
  - apply (abs_eq _ 0); [apply Hwf|..]; simpl; rw Hm1.
    + intros x Hx. change (x ∈ entries d1) in Hx. unfold keyof. rw !Hent //.
      rw lookup_delete_ne.
      * apply (abs_entries d 0 x Hi). rw He1. by right.
      * rw -Hk. intros Heq. apply Hna. apply list_elem_of_fmap. by exists x.
    + intros K w [HK Hw]%lookup_delete_Some. destruct (abs_entry _ _ _ Hw) as (x & Hx & Hkx).
      rw He1 in Hx. apply elem_of_cons in Hx as [->|Hx]; [congruence|].
      exists x. split; [done|]. unfold keyof. by rw Hent.
  - by rw /= Hm1.
Qed.

(** ** The dictionary as a map *)

(** The order list holds the entries, in the order [ks] of their keys. *)
Definition order_ok (d : Dictionary) (ks : list K) : Prop :=
  match order d with
  | Some o => o ≡ₚ entries d ∧ keyof (mem d) <$> o = ks
  | None => True
  end.

(** [rep d M ks]: [d] implements the map [M] (no value is NULL), filled in the
    order [ks]. *)
Definition rep (d : Dictionary) (M : gmap K val) (ks : list K) : Prop :=
  wf d ∧ abs d = M ∧ (∀ K v, M !! K = Some v → v ≠ 0) ∧ order_ok d ks.

Lemma list_remove_app a l1 l2 : a ∉ l1 → list_remove a (l1 ++ a :: l2) = l1 ++ l2.
Proof.
  induction l1 as [|x l1 IH]; intros Ha; simpl; [by rw decide_True|].
  rw not_elem_of_cons in Ha. rw decide_False; [|naive_solver]. f_equal. naive_solver.
Qed.

(** Removing the entry with key [K] from the order list removes [K] from the
    order of keys. *)
Fixpoint remove_key (k : K) (ks : list K) : list K :=
  match ks with
  | [] => []
  | x :: ks => if decide (x = k) then ks else x :: remove_key k ks
  end.

Lemma list_remove_keys m a o :
  a ∈ o → NoDup (keyof m <$> o) →
  list_remove a o ++ [a] ≡ₚ o ∧
  (keyof m <$> list_remove a o) = remove_key (keyof m a) (keyof m <$> o).
Proof.
  intros Ha Hnd. induction o as [|x o IH]; [by apply elem_of_nil in Ha|].
  rw fmap_cons in Hnd. apply NoDup_cons in Hnd as [Hx Hnd]. simpl.
  destruct (decide (x = a)) as [->|Hne].
  - rw decide_True //. split; [|done]. by rw Permutation_app_comm.
  - apply elem_of_cons in Ha as [->|Ha]; [done|].
    rw decide_False; [|intros Hk; apply Hx; rw Hk; by apply list_elem_of_fmap_2].
    destruct (IH Ha Hnd) as [Hp Hk]. split; [by rw /= Hp|by rw fmap_cons Hk].
Qed.

Lemma rep_Insert d M ks a k h v :
  rep d M ks → mem d !! a = None → v ≠ 0 →
  ∃ d', Insert d a k h v = Some (default 0 (M !! (h, k)), d') ∧
    rep d' (<[(h, k) := v]> M) (if decide (is_Some (M !! (h, k))) then ks else ks ++ [(h, k)]) ∧
    cookies d' = cookies d.
Proof.
  intros (Hwf & <- & HM & Ho) Ha Hv. destruct (abs d !! (h, k)) as [old|] eqn:Hold.
  - destruct (Insert_old d a k h v old Hwf Ha Hold) as (d' & Hi & Hwf' & Habs & He & Hord & Hc & Hkeys);
      [by eapply HM|].
    exists d'. split; [done|]. split; [|done]. case_decide as Hd; [|by destruct Hd].
    split_and!; [done|done| |].
    + intros K w [[_ <-]|[_ Hw]]%lookup_insert_Some; [done|by eapply HM].
    + unfold order_ok in *. rw Hord. destruct (order d) as [o|]; [|done].
      destruct Ho as [Hp Hks]. split; [by rw Hp He|]. rw -Hks.
      apply list_fmap_ext. intros i x Hx. apply Hkeys. rw -Hp. by eapply list_elem_of_lookup_2.
  - destruct (Insert_new d a k h v Hwf Ha Hold) as (d' & Hi & Hwf' & Habs & He & Hm & Hord & Hc).
    exists d'. split; [done|]. split; [|done]. case_decide as Hd; [by destruct Hd|].
    split_and!; [done|done| |].
    + intros K w [[_ <-]|[_ Hw]]%lookup_insert_Some; [done|by eapply HM].
    + unfold order_ok in *. rw Hord. destruct (order d) as [o|]; [|done].
      destruct Ho as [Hp Hks]. simpl. split; [by rw He Hp -Permutation_cons_append|].
      rw Hm fmap_app -Hks /= {2}/keyof /entry_of lookup_insert_eq /=. f_equal.
      apply list_fmap_ext. intros i x Hx. apply keyof_insert_ne. intros ->.
      destruct (inv_mem _ _ _ (proj1 Hwf) a) as [? ?]; [|congruence].
      rw /= -Hp. by eapply list_elem_of_lookup_2.
Qed.

Lemma dict_Remove d M ks k h :
  rep d M ks →
  ∃ d', Remove d k h = Some (default 0 (M !! (h, k)), d') ∧
    rep d' (delete (h, k) M) (remove_key (h, k) ks) ∧ cookies d' = cookies d.
Proof.
  intros (Hwf & <- & HM & Ho). destruct (abs d !! (h, k)) as [v|] eqn:Hv.
  - destruct (Remove_present d k h v Hwf Hv) as (a & d' & Hr & Hwf' & Habs & Hk & He & Hm & Hord & Hc).
    exists d'. split; [done|]. split; [|done]. split_and!; [done|done| |].
    + intros K w [_ Hw]%lookup_delete_Some. by eapply HM.
    + unfold order_ok in *. rw Hord. destruct (order d) as [o|]; simpl; [|done].
      destruct Ho as [Hp Hks].
      pose proof (inv_keys _ _ _ (proj1 Hwf)) as Hnd. simpl in Hnd.
      assert (a ∈ o) as Hao by (rw Hp He; by left).
      destruct (list_remove_keys (mem d) a o) as [Hlp Hlk]; [done|by rw Hp|].
      split; [apply (Permutation_app_inv_r [a]); rw Hlp Hp He; by rw Permutation_cons_append|].
      rw -Hks -Hk -Hlk Hm. apply list_fmap_ext. intros i x Hx. unfold keyof, entry_of.
      rw lookup_delete_ne //. intros <-.
      assert (NoDup (list_remove a o ++ [a])) as Hnd2.
      { rw Hlp Hp. by apply NoDup_fmap_1 in Hnd. }
      apply NoDup_app in Hnd2 as (_ & Hd & _). apply (Hd a); [by eapply list_elem_of_lookup_2|by left].
  - exists d. rw Remove_absent //. split; [done|]. split; [|done]. rw delete_id //.
    split_and!; [done|done|done|]. unfold order_ok in *. destruct (order d) as [o|]; [|done].
    destruct Ho as [Hp Hks]. split; [done|].
    assert ((h, k) ∉ ks) as Hn.
    { rw -Hks. intros (x & Hx & Hin)%list_elem_of_fmap. rw Hp in Hin.
      pose proof (abs_entries d 0 x (proj1 Hwf) Hin) as Hax. by rw -Hx Hv in Hax. }
    rw Hks. clear -Hn. induction ks as [|x ks IH]; [done|]. rw not_elem_of_cons in Hn. simpl.
    rw decide_False; [|naive_solver]. f_equal. apply IH. naive_solver.
Qed.

Lemma rep_Length d M ks : rep d M ks → Length d = Z.of_nat (size M).
Proof.
  intros ([Hi _] & <- & _ & _). rw (abs_size d 0 Hi). unfold Length, entries, flat2. rw length_app.
  pose proof (inv_count _ _ _ Hi) as Hc. pose proof (inv_count2 _ _ _ Hi) as Hc2. unfold flat2 in Hc2.
  destruct (tbl2 d) as [t2|]; simpl in *; [rw Hc2; [|by eexists]|]; lia.
Qed.

Lemma rep_NthEntry d M ks n :
  rep d M ks → is_Some (order d) →
  NthEntry d n = Some (if decide (0 ≤ n < Z.of_nat (size M))%Z then
    K ← ks !! Z.to_nat n; v ← M !! K; Some (mkDE K.2 K.1 v) else None).
Proof.
  intros Hrep [o Ho]. pose proof (rep_Length _ _ _ Hrep) as Hl.
  destruct Hrep as ([Hi _] & <- & _ & Hok). unfold order_ok in Hok. rw Ho in Hok. destruct Hok as [Hp Hks].
  unfold NthEntry. rw Ho Hl. rw (abs_size d 0 Hi).
  destruct (decide (n < 0 ∨ Z.of_nat (length (entries d)) ≤ n)%Z) as [Hd|Hd].
  - rw decide_False //. lia.
  - rw decide_True; [|lia].
    destruct (lookup_lt_is_Some_2 o (Z.to_nat n)) as [a Ha]; [rw Hp; lia|].
    rw Ha /= -Hks list_lookup_fmap Ha /=.
    assert (a ∈ entries d) as Hin by (rw -Hp; by eapply list_elem_of_lookup_2).
    rw (abs_entries d 0 a Hi Hin) /=. destruct (inv_mem _ _ _ Hi a Hin) as [e He].
    unfold keyof, entry_of. rw He /=. by destruct e.
Qed.

(** ** Iteration *)

(** The table a cookie stands in: its pointer, the number of buckets the loop
    uses, and whether it is the old table. *)
Definition cookie_table (d : Dictionary) (ck : IterCookie) : nat * bool :=
  match ttbl ck with Some p => (p, nbp ck) | None => (tid (tbl d), false) end.

(** A cookie that an iteration without changes to the dictionary can reach. *)
Definition cookie_ok (d : Dictionary) (ck : IterCookie) : Prop :=
  inserted ck = [] ∧
  ((cookie_table d ck = (tid (tbl d), false) ∧ bucket ck < num_buckets d) ∨
   (∃ t2, tbl2 d = Some t2 ∧ cookie_table d ck = (tid t2, true) ∧ bucket ck < num_buckets2 d)).

(** The entries from position [(b, o)] of a table on. *)
Definition from_pos (t : list (option (list addr))) (b o : nat) : list addr :=
  drop o (default [] (mjoin (t !! b))) ++ flat (drop (S b) t).

(** What the iteration has still to visit. *)
Definition remaining (d : Dictionary) (ck : IterCookie) : list addr :=
  if (cookie_table d ck).2 then from_pos (default [] (buckets <$> tbl2 d)) (bucket ck) (offset ck)
  else from_pos (buckets (tbl d)) (bucket ck) (offset ck) ++ flat2 d.

Lemma flat_drop t b oc : t !! b = Some oc → flat (drop b t) = default [] oc ++ flat (drop (S b) t).
Proof. intros Hb. unfold flat. by rw (drop_S _ _ _ Hb). Qed.

Lemma next_bucket_spec fuel b t :
  length t - b ≤ fuel →
  let b' := next_bucket fuel b (length t) t in
  b ≤ b' ∧ flat (drop b t) = flat (drop b' t) ∧
  (b' < length t → ∃ a c, t !! b' = Some (Some (a :: c))).
Proof.
  revert b. induction fuel as [|fuel IH]; intros b Hf; simpl; [split_and!; [lia|done|lia]|].
  case_decide as Hd.
  - destruct Hd as [Hb He]. destruct (lookup_lt_is_Some_2 t b Hb) as [oc Hoc].
    rw Hoc /= in He. destruct (IH (S b)) as (H1 & H2 & H3); [lia|].
    split_and!; [lia|by rw (flat_drop _ _ _ Hoc) He|done].
  - split_and!; [lia|done|]. intros Hb. destruct (lookup_lt_is_Some_2 t b Hb) as [oc Hoc].
    rw Hoc /= in Hd. destruct oc as [[|a c]|]; [by destruct Hd|by exists a, c|by destruct Hd].
Qed.

Section iteration.
Context (d0 : Dictionary) (c : addr).
Context (Hwf : wf d0).
(** Two live tables have different addresses. *)
Context (Htid : ∀ t2, tbl2 d0 = Some t2 → tid t2 ≠ tid (tbl d0)).

(** The state during the iteration: only the cookie has changed. *)
Definition at_cookie (ck : IterCookie) : Dictionary := set_cookie d0 c ck.

Definition visits (d : Dictionary) (rem : list addr) (res : option (option DictEntry * Dictionary))
    : Prop :=
  match rem with
  | [] => ∃ d', res = Some (None, d') ∧ cookie_mem d' !! c = None
  | a :: rest => ∃ e ck', mem d0 !! a = Some e ∧ res = Some (Some e, set_cookie d c ck') ∧
      cookie_ok d0 ck' ∧ remaining d0 ck' = rest
  end.

Lemma entry_mem a : a ∈ entries d0 → ∃ e, mem d0 !! a = Some e.
Proof. intros Ha. destruct (inv_mem _ _ _ (proj1 Hwf) a Ha) as [e He]. by exists e. Qed.

(** One call inside a table [t] of [n] buckets whose pointer is [tp]; [tl] are
    the entries after this table. *)
Lemma step_in_table t n b o tp np ck :
  cookie_table d0 ck = (tp, np) → bucket ck = b → offset ck = o → inserted ck = [] →
  deref d0 tp = Some t → n = length t → b < n →
  n = (if np then num_buckets2 d0 else num_buckets d0) →
  (np = false ∧ tp = tid (tbl d0) ∧ t = buckets (tbl d0) ∨
   np = true ∧ ∃ t2, tbl2 d0 = Some t2 ∧ tp = tid t2 ∧ t = buckets t2) →
  ∀ fuel d, tbl d = tbl d0 → tbl2 d = tbl2 d0 → num_buckets d = num_buckets d0 →
  num_buckets2 d = num_buckets2 d0 → mem d = mem d0 → cookie_mem d !! c = Some ck →
  (from_pos t b o = [] → visits d (if np then [] else flat2 d0)
     (match tbl2 d with
      | Some t2 => if decide (tp = tid (tbl d)) then
          NextEntry_fuel fuel (set_cookie d c (mkCookie 0 0 (Some (tid t2)) true [])) c
          else Some (None, set_cookies d (list_remove c (cookies d)) (delete c (cookie_mem d)))
      | None => Some (None, set_cookies d (list_remove c (cookies d)) (delete c (cookie_mem d)))
      end)) →
  visits d (remaining d0 ck) (NextEntry_fuel (S fuel) d c).
Proof.
  intros Hct Hbk Hof Hins Hder Hlen Hb Hnp Hwhich fuel d Ht Ht2 Hn Hn2 Hm Hck Hend. simpl.
  obind Hck. rw Hins /=.
  assert (cookie_table d ck = (tp, np)) as Hct' by (unfold cookie_table in *; by rw Ht).
  unfold cookie_table in Hct'. rw Hct'.
  assert (deref d tp = Some t) as Hder' by (unfold deref; by rw Ht Ht2). obind Hder'.
  assert (remaining d0 ck = from_pos t b o ++ (if np then [] else flat2 d0)) as ->.
  { unfold remaining. rw Hct Hbk Hof /=. destruct Hwhich as [(-> & _ & ->)|(-> & t2 & H2 & _ & ->)]; [done|].
    by rw H2 /= app_nil_r. }
  rw Hbk Hof. destruct (lookup_lt_is_Some_2 t b) as [oc Hoc]; [lia|]. obind Hoc.
  assert (∀ b' o', b' < n → cookie_ok d0 (mkCookie b' o' (Some tp) np []) ∧
    remaining d0 (mkCookie b' o' (Some tp) np []) = from_pos t b' o' ++ (if np then [] else flat2 d0)) as Hnew.
  { intros b' o' Hb'. unfold cookie_ok, remaining, cookie_table. simpl.
    destruct Hwhich as [(-> & -> & ->)|(-> & t2 & H2 & -> & ->)].
    - split; [split; [done|]; left; split; [done|lia]|done].
    - split; [split; [done|]; right; exists t2; split_and!; [done|done|lia]|by rw H2 /= app_nil_r]. }
  assert (∀ b' c' a', t !! b' = Some (Some c') → a' ∈ c' → ∃ e, mem d0 !! a' = Some e) as Hmem.
  { intros b' c' a' Hb' Ha'. apply entry_mem. apply elem_of_entries.
    destruct Hwhich as [(-> & -> & ->)|(-> & t2 & H2 & -> & ->)]; [by exists false, (buckets (tbl d0)), b', c'|].
    exists true, (buckets t2), b', c'. by rw /= H2. }
  unfold from_pos. rw Hoc /=. destruct (default [] oc !! o) as [a|] eqn:Ha.
  - rw (drop_S _ _ _ Ha) /=. destruct oc as [c0|]; [|by rw lookup_nil in Ha].
    destruct (Hmem b c0 a Hoc) as [e He]; [by eapply list_elem_of_lookup_2|].
    rw Hm He /=. exists e. eexists. split; [done|]. split; [done|].
    destruct (Hnew b (S o) ltac:(lia)) as [H1 H2]. split; [done|]. by rw H2 /from_pos Hoc.
  - apply lookup_ge_None in Ha. rw drop_ge //=.
    assert ((if np then num_buckets2 d else num_buckets d) = length t) as Hnb by (rw Hn Hn2; congruence).
    rw Hnb. destruct (next_bucket_spec (length t) (S b) t) as (H1 & H2 & H3); [lia|].
    set (b' := next_bucket (length t) (S b) (length t) t) in *. rw H2.
    destruct (decide (length t ≤ b')) as [Hle|Hle].
    + assert (flat (drop b' t) = []) as Hnil by (rw drop_ge; [done|lia]). rw Hnil /=. apply Hend.
      by rw /from_pos Hoc /= drop_ge //= H2 Hnil.
    + destruct H3 as (a & c' & Hc'); [lia|]. rw (flat_drop _ _ _ Hc') Hc' /=.
      destruct (Hmem b' (a :: c') a Hc') as [e He]; [by left|]. rw Hm He /=.
      exists e. eexists. split; [done|]. split; [done|].
      destruct (Hnew b' 1 ltac:(lia)) as [H4 H5]. split; [done|]. by rw H5 /from_pos Hc' /= drop_0 -assoc.
Qed.

(** What stays the same during the iteration. *)
Definition same_tables (d : Dictionary) : Prop :=
  tbl d = tbl d0 ∧ tbl2 d = tbl2 d0 ∧ num_buckets d = num_buckets d0 ∧
  num_buckets2 d = num_buckets2 d0 ∧ mem d = mem d0.

Lemma step_second fuel d t2 ck :
  same_tables d → cookie_mem d !! c = Some ck → inserted ck = [] → tbl2 d0 = Some t2 →
  cookie_table d0 ck = (tid t2, true) → bucket ck < num_buckets2 d0 →
  visits d (remaining d0 ck) (NextEntry_fuel (S fuel) d c).
Proof.
  intros (Ht & Ht2 & Hn & Hn2 & Hm) Hck Hins H2 Hct Hb.
  destruct (inv_tbl2 _ _ _ (proj1 Hwf) t2 H2) as [Hpos Hlen].
  apply (step_in_table (buckets t2) (num_buckets2 d0) (bucket ck) (offset ck) (tid t2) true); try done.
  - unfold deref. rw decide_False; [|by apply Htid]. by rw H2 /= decide_True.
  - right. split; [done|]. by exists t2.
  - intros _. simpl. rw Ht2 H2 Ht decide_False; [|by apply Htid].
    eexists; split; [done|]. by rw /= lookup_delete_eq.
Qed.

Lemma visits_set_cookie d rem res ck : visits (set_cookie d c ck) rem res → visits d rem res.
Proof.
  destruct rem as [|a rest]; simpl; [done|]. intros (e & ck' & He & -> & Hrest).
  exists e, ck'. split; [done|]. split; [|done]. unfold set_cookie, set_cookies. simpl.
  by rw insert_insert_eq.
Qed.

Lemma NextEntry_visits d ck :
  same_tables d → cookie_mem d !! c = Some ck → cookie_ok d0 ck →
  visits d (remaining d0 ck) (NextEntry d c).
Proof.
  intros Hsame Hck [Hins [[Hct Hb]|(t2 & H2 & Hct & Hb)]]; [|by eapply step_second].
  pose proof Hsame as (Ht & Ht2 & Hn & Hn2 & Hm). pose proof (inv_len _ _ _ (proj1 Hwf)) as Hlen.
  apply (step_in_table (buckets (tbl d0)) (num_buckets d0) (bucket ck) (offset ck) (tid (tbl d0)) false); try done.
  - unfold deref. by rw decide_True.
  - by left.
  - intros _. rw Ht2 Ht. unfold flat2.
    assert (tbl2 d0 = None ∨ ∃ t2, tbl2 d0 = Some t2) as [H2|[t2 H2]] by (destruct (tbl2 d0); eauto); rw H2.
    { eexists; split; [done|]. by rw /= lookup_delete_eq. }
    + rw decide_True //.
      destruct (inv_tbl2 _ _ _ (proj1 Hwf) t2 H2) as [Hpos Hlen2].
      set (ck0 := mkCookie 0 0 (Some (tid t2)) true []).
      change (visits d (flat (buckets t2)) (NextEntry_fuel 1 (set_cookie d c ck0) c)).
      assert (flat (buckets t2) = remaining d0 ck0) as ->.
      { unfold remaining, from_pos. rw /= H2 /= drop_0.
        destruct (lookup_lt_is_Some_2 (buckets t2) 0) as [oc Hoc]; [lia|].
        rw Hoc /=. by rw -(flat_drop _ _ _ Hoc) drop_0. }
      apply (visits_set_cookie d _ _ ck0), (step_second 0 _ t2); try done.
      by rw /= lookup_insert_eq.
Qed.

(** Calling [NextEntry] until it returns NULL. *)
Fixpoint drain (fuel : nat) (d : Dictionary) : option (list DictEntry) :=
  match fuel with
  | O => None
  | S fuel => '(r, d) ← NextEntry d c;
    match r with Some e => es ← drain fuel d; Some (e :: es) | None => Some [] end
  end.

Lemma drain_remaining fuel d ck :
  same_tables d → cookie_mem d !! c = Some ck → cookie_ok d0 ck → length (remaining d0 ck) < fuel →
  drain fuel d = Some (entry_of (mem d0) <$> remaining d0 ck).
Proof.
  revert d ck. induction fuel as [|fuel IH]; intros d ck Hs Hck Hok Hf; [lia|]. simpl.
  pose proof (NextEntry_visits d ck Hs Hck Hok) as Hv.
  destruct (remaining d0 ck) as [|a rest]; simpl in *.
  - destruct Hv as (d' & Hr & _). by rw Hr.
  - destruct Hv as (e & ck' & He & Hr & Hok' & Hrest). rw Hr /=.
    rw (IH (set_cookie d c ck') ck'); [by rw /= Hrest /entry_of He|done|by rw /= lookup_insert_eq|done|].
    rw Hrest. lia.
Qed.
End iteration.

(** ** Primes *)

Lemma IsPrime_from_spec fuel j n x :
  (0 < j → IsPrime_from fuel j n = true → j ≤ x < j + Z.of_nat fuel → x * x ≤ n → n mod x ≠ 0)%Z.
Proof.
  revert j. induction fuel as [|fuel IH]; intros j Hj Hp Hx Hxx; simpl in Hp; [lia|].
  rw (proj2 (Z.leb_le _ _)) in Hp; [|nia].
  destruct (Z.eqb_spec (n mod j) 0) as [|Hne]; [done|].
  destruct (decide (x = j)) as [->|]; [done|]. apply (IH (j + 1)%Z); [lia|done|lia|done].
Qed.

Lemma IsPrime_no_divisor n x :
  Z.odd n = true → IsPrime n = true → (1 < x < n → n mod x ≠ 0)%Z.
Proof.
  intros Ho Hp Hx Hmod. unfold IsPrime in Hp.
  assert (∀ y, 1 < y → y * y ≤ n → n mod y = 0 → False)%Z as Hsmall.
  { intros y Hy Hyy Hm. destruct (decide (y = 2)%Z) as [->|].
    - rw Zmod_even -Z.negb_odd Ho in Hm. done.
    - apply (IsPrime_from_spec (Z.to_nat n) 3 n y); [lia|done|nia|done|done]. }
  pose proof (Z_div_exact_full_2 n x ltac:(lia) Hmod) as Hn.
  set (y := (n / x)%Z) in *. clearbody y. destruct (Z_le_gt_dec (x * x) n); [apply (Hsmall x); [lia|done|done]|].
  apply (Hsmall y); [nia|nia|]. rw {1}Hn. apply Z_mod_mult.
Qed.

Lemma NextPrime_small n :
  (0 < n < 1000)%Z → (n ≤ NextPrime n)%Z ∧ Z.odd (NextPrime n) = true ∧ IsPrime (NextPrime n) = true.
Proof.
  intros Hn.
  assert (Forall (λ k, let n := Z.of_nat k in (n <=? NextPrime n)%Z && Z.odd (NextPrime n) &&
    IsPrime (NextPrime n) = true) (seq 1 999)) as Hall.
  { apply (bool_decide_unpack _). vm_compute. exact I. }
  rw Forall_forall in Hall. specialize (Hall (Z.to_nat n)). rw /= Z2Nat.id in Hall; [|lia].
  assert (Z.to_nat n ∈ seq 1 999) as Hin by (apply elem_of_seq; lia).
  apply Hall in Hin. rw !andb_true_iff in Hin. destruct Hin as [[H1 H2] H3]. by split_and!; [lia| |].
Qed.

(** ** Properties *)

(** C9. A dictionary implements a finite map, also while it is being resized:
    [Lookup] returns the value of the key (NULL if there is none), [Insert]
    replaces or adds the key and returns the old value, [Remove] deletes it and
    returns its value, [Length] is the number of keys, and an ordered dictionary
    enumerates the keys in the order of their first insertion.  No call reaches
    the internal errors of the resizing code. *)
Theorem ops_implement_map (d : Dictionary) (M : gmap K val) (ks : list K) (Hrep : rep d M ks) :
  (∀ k h, Lookup d k h = Some (default 0 (M !! (h, k)))) ∧
  (∀ a k h v, mem d !! a = None → v ≠ 0 →
     ∃ d', Insert d a k h v = Some (default 0 (M !! (h, k)), d') ∧
       rep d' (<[(h, k) := v]> M) (if decide (is_Some (M !! (h, k))) then ks else ks ++ [(h, k)])) ∧
  (∀ k h, ∃ d', Remove d k h = Some (default 0 (M !! (h, k)), d') ∧
     rep d' (delete (h, k) M) (remove_key (h, k) ks)) ∧
  Length d = Z.of_nat (size M) ∧
  (is_Some (order d) → ∀ n, NthEntry d n =
     Some (if decide (0 ≤ n < Z.of_nat (size M))%Z then
       K ← ks !! Z.to_nat n; v ← M !! K; Some (mkDE K.2 K.1 v) else None)).
Proof.
  split_and!.
  - intros k h. destruct Hrep as ([Hi _] & <- & _). by eapply Lookup_abs.
  - intros a k h v Ha Hv. destruct (rep_Insert d M ks a k h v Hrep Ha Hv) as (d' & H1 & H2 & _). eauto.
  - intros k h. destruct (dict_Remove d M ks k h Hrep) as (d' & H1 & H2 & _). eauto.
  - by eapply rep_Length.
  - intros Ho n. by eapply rep_NthEntry.
Qed.

(** C24. An iteration during which the dictionary is not changed returns every
    entry exactly once, in both tables if a resizing is under way, and then
    NULL. *)
Theorem iteration_visits_all (d : Dictionary) (c : addr) (M : gmap K val) (ks : list K)
    (Hrep : rep d M ks)
    (Htid : ∀ t2, tbl2 d = Some t2 → tid t2 ≠ tid (tbl d)) :
  ∃ es, drain c (S (size M)) (InitForIteration d c) = Some es ∧
    ((λ e, ((hash e, key e), value e)) <$> es) ≡ₚ map_to_list M.
Proof.
  destruct Hrep as (Hwf & <- & _). pose proof (proj1 Hwf) as Hi.
  assert (remaining d (IterCookie_new 0 0) = entries d) as Hrem.
  { unfold remaining, entries, from_pos. rw /= drop_0.
    destruct (lookup_lt_is_Some_2 (buckets (tbl d)) 0) as [oc Hoc];
      [rw (inv_len _ _ _ Hi); apply Hi|].
    rw Hoc /=. by rw -(flat_drop _ _ _ Hoc) drop_0. }
  eexists. split.
  - rw (drain_remaining d c Hwf Htid (S (size (abs d))) (InitForIteration d c) (IterCookie_new 0 0)); [done|done| | |].
    + by rw /= lookup_insert_eq.
    + split; [done|]. left. split; [done|]. apply Hi.
    + rw Hrem (abs_size d 0 Hi). lia.
  - rw Hrem. unfold abs. rw map_to_list_to_map.
    + by rw -list_fmap_compose.
    + pose proof (inv_keys _ _ _ Hi) as Hk. by rw -list_fmap_compose.
Qed.

(** [NextPrime] returns an odd number that is at least its argument, and a
    prime one as long as the argument is below the threshold of 1000. *)
Theorem NextPrime_prime (n : Z) (Hn : (0 < n)%Z) :
  (n ≤ NextPrime n)%Z ∧ Z.odd (NextPrime n) = true ∧
  (n < PRIME_THRESH → ∀ x, 1 < x < NextPrime n → NextPrime n mod x ≠ 0)%Z.
Proof.
  destruct (Z_lt_le_dec n 1000) as [Hlt|Hge].
  - destruct (NextPrime_small n) as (H1 & H2 & H3); [lia|]. split_and!; [done|done|].
    intros _ x Hx. by apply IsPrime_no_divisor.
  - unfold NextPrime, PRIME_THRESH. destruct (Z.even n) eqn:He.
    + rw (proj2 (Z.ltb_lt _ _)); [|lia]. split_and!; [lia| |lia].
      by rw Z.add_1_r Z.odd_succ.
    + destruct (decide (n = 1000)%Z) as [->|Hne]; [done|].
      rw (proj2 (Z.ltb_lt _ _)); [|lia]. split_and!; [lia| |lia].
      by rw -Z.negb_even He.
Qed.

(** Ten entries whose hashes are 0 modulo 3 (the old size) and 1 modulo 7 (the
    new size): the tenth insertion moves them all to bucket 1 of the new table. *)
Definition insert_many (n : nat) (d : Dictionary) : option Dictionary :=
  foldl (λ od i, d ← od; r ← Insert d i [Z.of_nat i] (15 + 21 * Z.of_nat i) (S i); Some r.2)
    (Some d) (seq 0 n).

Definition resizing_sample : option Dictionary := insert_many 10 (Dictionary_new true 3).

(** The header promises that an iteration with a robust cookie eventually
    visits all unmodified entries.  It does not when the dictionary is being
    resized: [Remove] adjusts the cookies by the bucket number in the old table
    even if the entry is in the new one, so the entry after a removed one is
    skipped. *)
Theorem robust_cookie_skips_entry :
  ∃ d e1 d1 v d2 es k w,
    resizing_sample = Some d ∧
    NextEntry (MakeRobustCookie (InitForIteration d 100) 100) 100 = Some (Some e1, d1) ∧
    Remove d1 (key e1) (hash e1) = Some (v, d2) ∧
    drain 100 20 d2 = Some es ∧
    abs d2 !! k = Some w ∧ Forall (λ e, (hash e, key e) ≠ k) es.
Proof.
  destruct resizing_sample as [d|] eqn:Hd; [|by vm_compute in Hd].
  destruct (NextEntry (MakeRobustCookie (InitForIteration d 100) 100) 100) as [[[e1|] d1]|] eqn:Hn;
    vm_compute in Hd; injection Hd as <-; [|by vm_compute in Hn..].
  vm_compute in Hn. injection Hn as <- <-.
  do 8 eexists. split; [done|]. split; [vm_compute; done|]. split; [vm_compute; done|].
  split; [vm_compute; done|]. split.
  - instantiate (2 := (36%Z, [1%Z])). vm_compute. done.
  - apply (bool_decide_unpack _). vm_compute. done.
Qed.

(** [Clear] leaves the order list of an ordered dictionary alone: after the
    next insertion, [NthEntry(0)] follows a pointer to an entry that has been
    freed. *)
Theorem Clear_keeps_stale_order :
  ∃ d d', insert_many 1 (Dictionary_new true 3) = Some d ∧
    Insert (Clear d) 50 [7%Z] 7 9 = Some (0, d') ∧ Length d' = 1%Z ∧ NthEntry d' 0 = None.
Proof.
  do 2 eexists. split; [vm_compute; done|]. split; [vm_compute; done|]. split; vm_compute; done.
Qed.

(** ** Witnesses *)

Lemma rep_empty ordered n : (0 < n)%Z → rep (Dictionary_new ordered n) ∅ [].
Proof.
  intros Hn. pose proof (NextPrime_pos n Hn) as Hp. unfold Dictionary_new.
  set (k := Z.to_nat (NextPrime n)). assert (0 < k) by lia.
  assert (flat (replicate k None) = []) as Hf.
  { unfold flat. rw fmap_replicate. clear. by induction k. }
  split; [split; [split|by intros []]|]; simpl; try done.
  - by rw length_replicate.
  - intros s t b c a Hst Hb Ha. destruct s; simplify_eq/=. by apply lookup_replicate in Hb as [? _].
  - intros a. unfold entries, flat2. rw /= Hf. by intros ?%elem_of_nil.
  - unfold entries, flat2. rw /= Hf. constructor.
  - rw Hf. done.
  - split_and!; [by rw /abs /entries /flat2 /= Hf|by intros ??|]. unfold order_ok. simpl.
    destruct ordered; [|done]. by rw /entries /flat2 /= Hf.
Qed.

(** An ordered dictionary of three buckets that gets one entry. *)
Lemma dict_sample_rep :
  ∃ d, Insert (Dictionary_new true 3) 1 [65%Z] 4 10 = Some (0, d) ∧
    rep d {[ (4%Z, [65%Z]) := 10 ]} [(4%Z, [65%Z])].
Proof.
  destruct (rep_Insert _ _ _ 1 [65%Z] 4 10 (rep_empty true 3 eq_refl)) as (d & H1 & H2 & _); [done|done|].
  exists d. split; [done|]. by rw insert_empty in H2.
Qed.

Lemma ops_implement_map_witness :
  ∃ d, rep d {[ (4%Z, [65%Z]) := 10 ]} [(4%Z, [65%Z])] ∧ Lookup d [65%Z] 4 = Some 10 ∧
    Length d = 1%Z.
Proof.
  destruct dict_sample_rep as (d & _ & Hrep). exists d. split; [exact Hrep|].
  destruct (ops_implement_map d _ _ Hrep) as (H1 & _ & _ & H4 & _).
  split; [|exact H4]. rw H1. by rw lookup_singleton_eq.
Defined.

Lemma iteration_visits_all_witness :
  ∃ d es, rep d {[ (4%Z, [65%Z]) := 10 ]} [(4%Z, [65%Z])] ∧
    drain 7 2 (InitForIteration d 7) = Some es ∧
    ((λ e, ((hash e, key e), value e)) <$> es) ≡ₚ [((4%Z, [65%Z]), 10)].
Proof.
  destruct dict_sample_rep as (d & Hins & Hrep). exists d.
  destruct (iteration_visits_all d 7 _ _ Hrep) as (es & H1 & H2).
  { vm_compute in Hins. injection Hins as <-. simpl. discriminate. }
  exists es. split; [exact Hrep|]. rw map_size_singleton in H1. split; [exact H1|].
  by rw map_to_list_singleton in H2.
Defined.

Lemma NextPrime_prime_witness : (16 ≤ NextPrime 16)%Z ∧ NextPrime 16 = 17%Z.
Proof. split; [exact (proj1 (NextPrime_prime 16 eq_refl))|reflexivity]. Defined.

End D.
