(* ===== verification/Reassem.v ===== *)
(** Reassem: the generic reassembler of Reassem.cc / Reassem.h.

    A reassembler keeps the data received so far as a doubly linked list of
    blocks in sequence order.  [BlockInserted], [Overlap] and [Undelivered] are
    virtual; the concrete reassemblers (Frag, TcpReassem) derive from it, so the
    operations work on any state that contains a [Reassembler]. *)
From S2P Require Import Prelude.

Module R.

Abbreviation addr := nat (only parsing).
Abbreviation bytes := (list Z) (only parsing).

Record DataBlock := mkBlock {
  next : option addr; prev : option addr; seq : Z; upper : Z; block : bytes
}.

Definition Size (b : DataBlock) : Z := upper b - seq b.

(** The blocks live in [heap]; [fresh_addr] is the address of the next one. *)
Record Reassembler := mkR {
  blocks : option addr; last_block : option addr;
  last_reassem_seq : Z; trim_seq : Z;
  heap : gmap addr DataBlock; fresh_addr : addr
}.

Definition Reassembler_new (init_seq : Z) : Reassembler := mkR None None init_seq init_seq ∅ 0.

Definition set_blocks (r : Reassembler) (b : option addr) : Reassembler :=
  mkR b (last_block r) (last_reassem_seq r) (trim_seq r) (heap r) (fresh_addr r).
Definition set_last_block (r : Reassembler) (b : option addr) : Reassembler :=
  mkR (blocks r) b (last_reassem_seq r) (trim_seq r) (heap r) (fresh_addr r).
Definition set_last_reassem_seq (r : Reassembler) (v : Z) : Reassembler :=
  mkR (blocks r) (last_block r) v (trim_seq r) (heap r) (fresh_addr r).
Definition set_trim_seq (r : Reassembler) (v : Z) : Reassembler :=
  mkR (blocks r) (last_block r) (last_reassem_seq r) v (heap r) (fresh_addr r).
Definition set_heap (r : Reassembler) (h : gmap addr DataBlock) : Reassembler :=
  mkR (blocks r) (last_block r) (last_reassem_seq r) (trim_seq r) h (fresh_addr r).

Definition set_next (d : DataBlock) (n : option addr) : DataBlock :=
  mkBlock n (prev d) (seq d) (upper d) (block d).
Definition set_prev (d : DataBlock) (p : option addr) : DataBlock :=
  mkBlock (next d) p (seq d) (upper d) (block d).

(** [p->f = v] for a pointer that may be null (the guarded form of the code);
    [None] if the pointer dangles. *)
Definition update_opt (h : gmap addr DataBlock) (p : option addr) (f : DataBlock → DataBlock)
    : option (gmap addr DataBlock) :=
  match p with
  | None => Some h
  | Some a => d ← h !! a; Some (<[a := f d]> h)
  end.

(** [new DataBlock(data, size, seq, prev, next)]: copies [size] bytes of [data],
    which must be there, and links the block in. *)
Definition DataBlock_new (r : Reassembler) (data : bytes) (size arg_seq : Z)
    (arg_prev arg_next : option addr) : option (addr * Reassembler) :=
  if decide (size < 0 ∨ Z.of_nat (length data) < size)%Z then None
  else
    let a := fresh_addr r in
    let h := <[a := mkBlock arg_next arg_prev arg_seq (arg_seq + size)
                      (take (Z.to_nat size) data)]> (heap r) in
    h ← update_opt h arg_prev (λ d, set_next d (Some a));
    h ← update_opt h arg_next (λ d, set_prev d (Some a));
    Some (a, mkR (blocks r) (last_block r) (last_reassem_seq r) (trim_seq r) h (S a)).

(** A state that contains a reassembler. *)
Class HasReassembler (S : Type) := { core : S → Reassembler; put : Reassembler → S → S }.

Class ReassemblerLaws (S : Type) `{HasReassembler S} := {
  core_put : ∀ r (s : S), core (put r s) = r;
  put_put : ∀ r r' (s : S), put r (put r' s) = put r s;
  put_core : ∀ s : S, put (core s) s = s
}.

(** The virtual functions. *)
Record virtuals (S : Type) := mkVirtuals {
  v_BlockInserted : addr → S → option S;
  v_Overlap : bytes → bytes → Z → S → option S;
  v_Undelivered : Z → S → option S
}.
Arguments mkVirtuals {S}.
Arguments v_BlockInserted {S}.
Arguments v_Overlap {S}.
Arguments v_Undelivered {S}.

Section operations.
Context {S : Type} `{HasReassembler S}.
Variable v : virtuals S.

Definition modify (f : Reassembler → Reassembler) (s : S) : S := put (f (core s)) s.

Definition new_block (data : bytes) (size arg_seq : Z) (p n : option addr) (s : S)
    : option (addr * S) :=
  '(a, r) ← DataBlock_new (core s) data size arg_seq p n; Some (a, put r s).

(** [while ( b->next && seq_delta(b->upper, seq) <= 0 ) b = b->next] *)
Fixpoint skip_before (fuel : nat) (h : gmap addr DataBlock) (b : addr) (sq : Z) : option addr :=
  match fuel with
  | O => None
  | Datatypes.S fuel =>
    d ← h !! b;
    match next d with
    | Some n => if (seq_delta (upper d) sq <=? 0)%Z then skip_before fuel h n sq else Some b
    | None => Some b
    end
  end.

(** [if ( b == blocks ) blocks = new_b] *)
Definition relink_first (b new_b : addr) (s : S) : S :=
  if decide (blocks (core s) = Some b) then modify (λ r, set_blocks r (Some new_b)) s else s.

Fixpoint AddAndCheck (fuel : nat) (b : addr) (sq up : Z) (data : bytes) (s : S)
    : option (addr * S) :=
  match fuel with
  | O => None
  | Datatypes.S fuel =>
    let append_to p :=
      '(a, s) ← new_block data (up - sq) sq p None s;
      Some (a, modify (λ r, set_last_block r (Some a)) s) in
    at_end ← match last_block (core s) with
             | Some lb => ld ← heap (core s) !! lb; Some (bool_decide (sq = upper ld))
             | None => Some false
             end;
    if (at_end : bool) then append_to (last_block (core s))
    else
      b ← skip_before (Datatypes.S (size (heap (core s)))) (heap (core s)) b sq;
      bd ← heap (core s) !! b;
      if (seq_delta (upper bd) sq <=? 0)%Z then append_to (Some b)
      else if (seq_delta up (seq bd) <=? 0)%Z then
        '(new_b, s) ← new_block data (seq_delta up sq) sq (prev bd) (Some b) s;
        Some (new_b, relink_first b new_b s)
      else
        '(new_b, sq, data, s) ←
          (if (seq_delta sq (seq bd) <? 0)%Z then
             let prefix_len := seq_delta (seq bd) sq in
             '(new_b, s) ← new_block data prefix_len sq (prev bd) (Some b) s;
             Some (new_b, sq + prefix_len, drop (Z.to_nat prefix_len) data, relink_first b new_b s)%Z
           else Some (b, sq, data, s));
        let overlap_offset := seq_delta sq (seq bd) in
        let new_b_len := seq_delta up sq in
        let b_len := seq_delta (upper bd) sq in
        let overlap_len := Z.min new_b_len b_len in
        s ← v_Overlap v (drop (Z.to_nat overlap_offset) (block bd)) data overlap_len s;
        '(new_b, s) ←
          (if (overlap_len <? new_b_len)%Z then
             '(nb, s) ← AddAndCheck fuel b (sq + overlap_len) up
                          (drop (Z.to_nat overlap_len) data) s;
             Some (if decide (new_b = b) then nb else new_b, s)
           else Some (new_b, s));
        nd ← heap (core s) !! new_b;
        Some (new_b, if decide (prev nd = last_block (core s))
                     then modify (λ r, set_last_block r (Some new_b)) s else s)
  end.

Definition NewBlock (sq len : Z) (data : bytes) (s : S) : option S :=
  if (len =? 0)%Z then Some s
  else
    let upper_seq := (sq + len)%Z in
    if (seq_delta upper_seq (trim_seq (core s)) <=? 0)%Z then Some s
    else
      let '(sq, len, data) :=
        if (seq_delta sq (trim_seq (core s)) <? 0)%Z then
          let amount_old := seq_delta (trim_seq (core s)) sq in
          (sq + amount_old, len - amount_old, drop (Z.to_nat amount_old) data)%Z
        else (sq, len, data) in
      '(start_block, s) ←
        match blocks (core s) with
        | None =>
          '(a, s) ← new_block data len sq None None s;
          Some (a, modify (λ r, set_last_block (set_blocks r (Some a)) (Some a)) s)
        | Some b => AddAndCheck (Datatypes.S (length data)) b sq upper_seq data s
        end;
      v_BlockInserted v start_block s.

(** The loop of [TrimToSeq] that deletes the blocks up to [sq]. *)
Fixpoint trim_loop (fuel : nat) (sq num_missing : Z) (s : S) : option (Z * S) :=
  match fuel with
  | O => None
  | Datatypes.S fuel =>
    match blocks (core s) with
    | None => Some (num_missing, s)
    | Some a =>
      d ← heap (core s) !! a;
      if (seq_delta (upper d) sq <=? 0)%Z then
        next_d ← match next d with
                 | Some b => bd ← heap (core s) !! b; Some (Some bd)
                 | None => Some None
                 end;
        let b_le := match next_d with Some bd => (seq_delta (seq bd) sq <=? 0)%Z | None => false end in
        let missing :=
          if b_le then
            match next_d with
            | Some bd => if (upper d =? seq bd)%Z then 0%Z else seq_delta (seq bd) (upper d)
            | None => 0%Z
            end
          else if (upper d =? sq)%Z || (upper d =? sq - 1)%Z then 0%Z else seq_delta sq (upper d) in
        trim_loop fuel sq (num_missing + missing)
          (modify (λ r, set_blocks (set_heap r (delete a (heap r))) (next d)) s)
      else Some (num_missing, s)
    end
  end.

Definition TrimToSeq (sq : Z) (s : S) : option (Z * S) :=
  num_missing ← match blocks (core s) with
    | Some a =>
      d ← heap (core s) !! a;
      Some (if (0 <? seq_delta (seq d) (last_reassem_seq (core s)))%Z
            then seq_delta (seq d) (last_reassem_seq (core s)) else 0%Z)
    | None => Some (if (0 <? seq_delta sq (last_reassem_seq (core s)))%Z
                    then seq_delta sq (last_reassem_seq (core s)) else 0%Z)
    end;
  s ← (if (0 <? seq_delta sq (last_reassem_seq (core s)))%Z then v_Undelivered v sq s else Some s);
  '(num_missing, s) ← trim_loop (Datatypes.S (size (heap (core s)))) sq num_missing s;
  s ← match blocks (core s) with
      | Some a =>
        d ← heap (core s) !! a;
        let s := modify (λ r, set_heap r (<[a := set_prev d None]> (heap r))) s in
        if (seq d =? last_reassem_seq (core s))%Z then v_BlockInserted v a s else Some s
      | None => Some (modify (λ r, set_last_block r None) s)
      end;
  Some (num_missing, if (0 <? seq_delta sq (trim_seq (core s)))%Z
                     then modify (λ r, set_trim_seq r sq) s else s).

Fixpoint clear_loop (fuel : nat) (s : S) : option S :=
  match fuel with
  | O => None
  | Datatypes.S fuel =>
    match blocks (core s) with
    | None => Some s
    | Some a =>
      d ← heap (core s) !! a;
      clear_loop fuel (modify (λ r, set_blocks (set_heap r (delete a (heap r))) (next d)) s)
    end
  end.

Definition ClearBlocks (s : S) : option S :=
  s ← clear_loop (Datatypes.S (size (heap (core s)))) s;
  Some (modify (λ r, set_last_block r None) s).

Definition HasBlocks (s : S) : bool := bool_decide (is_Some (blocks (core s))).
Definition LastReassemSeq (s : S) : Z := last_reassem_seq (core s).

Fixpoint total_size (fuel : nat) (h : gmap addr DataBlock) (b : option addr) : option Z :=
  match b, fuel with
  | None, _ => Some 0%Z
  | Some _, O => None
  | Some a, Datatypes.S fuel => d ← h !! a; n ← total_size fuel h (next d); Some (Size d + n)%Z
  end.

Definition TotalSize (s : S) : option Z :=
  total_size (size (heap (core s))) (heap (core s)) (blocks (core s)).

End operations.

(** [Reassembler::Undelivered], overridden by the TCP reassembler. *)
Definition Undelivered {S} `{HasReassembler S} (up_to_seq : Z) (s : S) : option S :=
  Some (modify (λ r, set_last_reassem_seq r up_to_seq) s).

(** ** Specification *)

(** A piece of data: its first sequence number and its bytes. *)
Abbreviation chunk := (Z * list Z)%type (only parsing).

Definition len (d : bytes) : Z := Z.of_nat (length d).
(** [memcmp]: whether the first [n] bytes differ; both buffers must have them. *)
Definition memcmp_ne (b1 b2 : bytes) (n : Z) : option bool :=
  if decide (n ≤ len b1 ∧ n ≤ len b2)%Z
  then Some (negb (bool_decide (take (Z.to_nat n) b1 = take (Z.to_nat n) b2))) else None.

Definition chunk_end (c : chunk) : Z := (c.1 + len c.2)%Z.

(** The largest sequence number: the positions are C [int]s. *)
Definition max_seq : Z := 2147483647.

(** Nonempty chunks, in order and without overlap, between [lo] and [hi]. *)
Fixpoint ordered (lo hi : Z) (L : list chunk) : Prop :=
  match L with
  | [] => (lo ≤ hi)%Z
  | c :: L => (lo ≤ c.1)%Z ∧ c.2 ≠ [] ∧ ordered (chunk_end c) hi L
  end.

(** The byte stored at a position. *)
Definition byte_of (c : chunk) (p : Z) : option Z :=
  if decide (c.1 ≤ p < chunk_end c)%Z then c.2 !! Z.to_nat (p - c.1) else None.

Fixpoint content (L : list chunk) (p : Z) : option Z :=
  match L with
  | [] => None
  | c :: L => match byte_of c p with Some x => Some x | None => content L p end
  end.

(** The reference for [AddAndCheck]: fill the gaps of [L] with the new data. *)
Fixpoint add_data (L : list chunk) (sq : Z) (data : bytes) : list chunk :=
  match L with
  | [] => match data with [] => [] | _ => [(sq, data)] end
  | c :: L' =>
    if decide (data = []) then L
    else if decide (chunk_end c ≤ sq)%Z then c :: add_data L' sq data
    else if decide (sq + len data ≤ c.1)%Z then (sq, data) :: L
    else
      let pre := if decide (sq < c.1)%Z then [(sq, take (Z.to_nat (c.1 - sq)) data)] else [] in
      pre ++ c :: add_data L' (chunk_end c) (drop (Z.to_nat (chunk_end c - sq)) data)
  end.

(** The blocks [l] are linked in this order, and hold [L]. *)
Definition the_block (h : gmap addr DataBlock) (a : addr) : DataBlock :=
  default (mkBlock None None 0 0 []) (h !! a).
Definition view (h : gmap addr DataBlock) (l : list addr) : list chunk :=
  (λ a, (seq (the_block h a), block (the_block h a))) <$> l.

Definition before (l : list addr) (i : nat) : option addr :=
  match i with O => None | S j => l !! j end.

Definition linked (h : gmap addr DataBlock) (l : list addr) : Prop :=
  NoDup l ∧ ∀ i a, l !! i = Some a → ∃ d, h !! a = Some d ∧
    prev d = before l i ∧ next d = l !! S i ∧ upper d = (seq d + len (block d))%Z.

Record wf (r : Reassembler) (l : list addr) : Prop := {
  wf_linked : linked (heap r) l;
  wf_first : blocks r = head l;
  wf_last : last_block r = last l;
  wf_fresh : ∀ a d, heap r !! a = Some d → a < fresh_addr r
}.

(** [rep r L]: the reassembler holds the chunks [L]. *)
Definition rep (r : Reassembler) (L : list chunk) : Prop :=
  ∃ l, wf r l ∧ view (heap r) l = L ∧ ordered 0 max_seq L.

(** ** The reference *)

Lemma len_nonneg d : (0 ≤ len d)%Z.
Proof. unfold len. lia. Qed.

Lemma len_pos d : d ≠ [] → (0 < len d)%Z.
Proof. unfold len. destruct d; simpl; [done|lia]. Qed.

Lemma len_take n d : len (take n d) = Z.min (Z.of_nat n) (len d).
Proof. unfold len. rw length_take. lia. Qed.

Lemma len_drop n d : len (drop n d) = Z.max 0 (len d - Z.of_nat n).
Proof. unfold len. rw length_drop. lia. Qed.

Lemma ordered_le lo hi L : ordered lo hi L → (lo ≤ hi)%Z.
Proof.
  revert lo. induction L as [|c L IH]; intros lo; simpl; [done|].
  intros (H1 & H2 & H3%IH). pose proof (len_nonneg c.2). unfold chunk_end in H3. lia.
Qed.

Lemma ordered_weaken lo lo' hi L : (lo' ≤ lo)%Z → ordered lo hi L → ordered lo' hi L.
Proof. destruct L; simpl; [lia|]. intros ? (? & ? & ?). split_and!; [lia|done|done]. Qed.

Lemma ordered_app lo hi L1 L2 :
  ordered lo hi (L1 ++ L2) ↔ ∃ m, ordered lo m L1 ∧ ordered m hi L2.
Proof.
  revert lo. induction L1 as [|c L1 IH]; intros lo; simpl.
  - split; [intros Ho; exists lo; by split|]. intros (m & H1 & H2). by eapply ordered_weaken.
  - rw IH. naive_solver.
Qed.

Lemma ordered_elem lo hi L c : ordered lo hi L → c ∈ L → (lo ≤ c.1 ∧ chunk_end c ≤ hi)%Z ∧ c.2 ≠ [].
Proof.
  revert lo. induction L as [|x L IH]; intros lo; simpl; [by intros _ ?%elem_of_nil|].
  intros (H1 & H2 & H3) [->|Hc]%elem_of_cons.
  - split; [|done]. split; [done|by eapply ordered_le].
  - destruct (IH _ H3 Hc) as [[? ?] ?]. split; [|done]. pose proof (len_nonneg x.2).
    unfold chunk_end in *. lia.
Qed.

Lemma add_data_nil L sq : add_data L sq [] = L.
Proof. by destruct L. Qed.

(** Chunks that end before the new data are not touched. *)
Lemma add_data_skip L1 L2 sq data :
  Forall (λ c, chunk_end c ≤ sq)%Z L1 →
  add_data (L1 ++ L2) sq data = L1 ++ add_data L2 sq data.
Proof.
  intros Hall. destruct (decide (data = [])) as [->|Hd]; [by rw !add_data_nil|]. induction Hall as [|c L1 Hc Hall IH]; [done|]. simpl.
  rw decide_False // decide_True //. by rw IH.
Qed.

Lemma add_data_ordered lo hi L sq data :
  ordered lo hi L → data ≠ [] → (lo ≤ sq)%Z → (sq + len data ≤ hi)%Z →
  ordered lo hi (add_data L sq data).
Proof.
  revert lo sq data. induction L as [|c L IH]; intros lo sq data Ho Hd Hlo Hhi; simpl.
  - destruct data as [|x data]; [done|]. simpl. split_and!; [done|done|]. unfold chunk_end. simpl. lia.
  - simpl in Ho. destruct Ho as (H1 & H2 & H3). pose proof (len_pos _ H2) as Hc.
    rw decide_False //. case_decide as Hend.
    { simpl. split_and!; [done|done|]. by apply IH. }
    case_decide as Hbef.
    { simpl. split_and!; [done|done|unfold chunk_end; simpl; lia|done|done]. }
    assert (ordered (chunk_end c) hi (add_data L (chunk_end c) (drop (Z.to_nat (chunk_end c - sq)) data))) as Hrec.
    { destruct (decide (drop (Z.to_nat (chunk_end c - sq)) data = [])) as [->|Hne].
      - by rw add_data_nil.
      - apply IH; [done|done|lia|]. rw len_drop. apply ordered_le in H3. lia. }
    case_decide as Hpre; simpl.
    + split_and!; [done| | |done|done].
      * intros Ht. apply (f_equal len) in Ht. rw len_take in Ht. pose proof (len_pos _ Hd).
        unfold len at 2 in Ht. simpl in Ht. lia.
      * unfold chunk_end at 1. simpl. rw len_take. lia.
    + split_and!; [lia|done|done].
Qed.

Lemma content_before lo hi L p : ordered lo hi L → (p < lo)%Z → content L p = None.
Proof.
  revert lo. induction L as [|c L IH]; intros lo Ho Hp; simpl; [done|].
  simpl in Ho. destruct Ho as (H1 & H2 & H3). pose proof (len_nonneg c.2).
  unfold byte_of. rw decide_False; [|lia]. eapply IH; [done|]. unfold chunk_end. lia.
Qed.

Lemma byte_of_Some c p : (c.1 ≤ p < chunk_end c)%Z → is_Some (byte_of c p).
Proof.
  intros Hp. unfold byte_of. rw decide_True //. apply lookup_lt_is_Some.
  unfold chunk_end, len in Hp. lia.
Qed.

Lemma byte_of_None c p : ¬ (c.1 ≤ p < chunk_end c)%Z → byte_of c p = None.
Proof. intros. unfold byte_of. by rw decide_False. Qed.

Lemma byte_of_range c p x : byte_of c p = Some x → (c.1 ≤ p < chunk_end c)%Z.
Proof. unfold byte_of. by case_decide. Qed.

(** The new data fills exactly the positions that were empty: bytes already held
    win over new ones. *)
Lemma add_data_content lo hi L sq data p :
  ordered lo hi L → data ≠ [] →
  content (add_data L sq data) p =
    match content L p with Some x => Some x | None => byte_of (sq, data) p end.
Proof.
  revert lo sq data. induction L as [|c L IH]; intros lo sq data Ho Hd; simpl.
  - destruct data as [|x data]; [done|]. simpl. by destruct (byte_of _ p).
  - simpl in Ho. destruct Ho as (H1 & H2 & H3). pose proof (len_pos _ H2) as Hc.
    rw decide_False //. case_decide as Hend.
    { simpl. rw (IH _ _ _ H3 Hd). by destruct (byte_of c p). }
    assert (content L p = None ∨ chunk_end c ≤ p)%Z as Hcl.
    { destruct (decide (p < chunk_end c)%Z); [left; by eapply content_before|right; lia]. }
    case_decide as Hbef.
    { simpl. destruct (byte_of (sq, data) p) eqn:Hn; [|by repeat case_match].
      unfold byte_of in Hn. case_decide as Hr; [|done]. unfold chunk_end in Hr; simpl in Hr.
      unfold byte_of. rw decide_False; [|lia].
      destruct Hcl as [->|Hcl]; [done|]. unfold chunk_end in Hcl. lia. }
    set (data' := drop (Z.to_nat (chunk_end c - sq)) data).
    assert (content (add_data L (chunk_end c) data') p =
      match content L p with Some x => Some x | None => byte_of (chunk_end c, data') p end) as Hrec.
    { destruct (decide (data' = [])) as [->|Hne]; [|by eapply IH].
      rw add_data_nil. destruct (content L p); [done|]. unfold byte_of, chunk_end, len. simpl.
      rw decide_False; [done|lia]. }
    assert (byte_of c p = None → content L p = None →
      byte_of (sq, data) p = if decide (p < c.1)%Z then byte_of (sq, take (Z.to_nat (c.1 - sq)) data) p
        else byte_of (chunk_end c, data') p) as Hsplit.
    { intros Hnc _. destruct (decide (c.1 ≤ p < chunk_end c)%Z) as [Hin|Hout].
      { destruct (byte_of_Some c p Hin). congruence. }
      unfold byte_of, chunk_end. simpl. destruct (decide (p < c.1)%Z) as [Hlt|Hlt].
      - rw len_take. repeat case_decide; try lia; [|done]. rw lookup_take_lt; [done|lia].
      - unfold data'. rw len_drop. unfold chunk_end in Hout. repeat case_decide; try (unfold chunk_end in *; lia); [|done].
        rw lookup_drop. f_equal. unfold chunk_end in *. lia. }
    assert (∀ q, (c.1 ≤ q)%Z → byte_of (sq, take (Z.to_nat (c.1 - sq)) data) q = None) as Htake.
    { intros q Hq. apply byte_of_None. unfold chunk_end. simpl. rw len_take. lia. }
    destruct (decide (sq < c.1)%Z) as [Hpre|Hpre]; simpl; rw Hrec.
    + destruct (byte_of c p) as [x|] eqn:Hbc.
      { rw Htake //. by apply byte_of_range in Hbc as [? _]. }
      destruct (content L p) as [y|] eqn:HcL.
      * destruct Hcl as [?|Hcl]; [done|]. rw Htake //. unfold chunk_end in Hcl. lia.
      * rw Hsplit //. destruct (decide (p < c.1)%Z) as [Hlt|Hlt]; [|rw Htake //; lia].
        destruct (byte_of (sq, take _ data) p) eqn:Ht; [done|].
        apply byte_of_None. simpl. unfold chunk_end in *. lia.
    + destruct (byte_of c p) as [x|] eqn:Hbc; [done|].
      destruct (content L p) as [y|] eqn:HcL; [done|]. rw Hsplit //.
      destruct (decide (p < c.1)%Z) as [Hlt|Hlt]; [|done].
      rw !byte_of_None //; simpl; unfold chunk_end in *; simpl; rw ?len_take; lia.
Qed.

(** ** The linked list *)

Lemma update_opt_lookup h p f h' x :
  update_opt h p f = Some h' → h' !! x = if decide (p = Some x) then f <$> h !! x else h !! x.
Proof.
  destruct p as [a|]; simpl; [|by intros [= ->]].
  destruct (h !! a) as [d|] eqn:Hd; simpl; [|done]. intros [= <-].
  destruct (decide (Some a = Some x)) as [Hax|Hax].
  - injection Hax as ->. by rw lookup_insert_eq Hd.
  - rw lookup_insert_ne //. congruence.
Qed.

Lemma update_opt_Some h p f :
  (∀ a, p = Some a → is_Some (h !! a)) → ∃ h', update_opt h p f = Some h'.
Proof.
  intros Hp. destruct p as [a|]; simpl; [|by exists h].
  destruct (Hp a eq_refl) as [d ->]. by eexists.
Qed.

(** The list with [a] inserted at position [i]. *)
Definition insert_at {A} (i : nat) (a : A) (l : list A) : list A := take i l ++ a :: drop i l.

Lemma insert_at_lookup {A} (l : list A) i a j :
  i ≤ length l → insert_at i a l !! j =
    if decide (j < i) then l !! j else if decide (j = i) then Some a else l !! (j - 1).
Proof.
  intros Hi. unfold insert_at. assert (length (take i l) = i) as Hl by (rw length_take; lia).
  case_decide; [rw lookup_app_l; [|lia]; by rw lookup_take_lt|].
  rw lookup_app_r; [|lia]. rw Hl. case_decide; [by subst; rw Nat.sub_diag|].
  replace (j - i) with (S (j - 1 - i)) by lia. simpl. rw lookup_drop. f_equal. lia.
Qed.

Lemma linked_lookup h l i a :
  linked h l → l !! i = Some a → h !! a = Some (the_block h a) ∧ prev (the_block h a) = before l i ∧
    next (the_block h a) = l !! S i ∧ upper (the_block h a) = (seq (the_block h a) + len (block (the_block h a)))%Z.
Proof.
  intros [_ Hl] Hi. destruct (Hl i a Hi) as (d & Hd & ?). unfold the_block. by rw Hd.
Qed.

Lemma view_lookup h l i a :
  l !! i = Some a → view h l !! i = Some (seq (the_block h a), block (the_block h a)).
Proof. intros Hi. unfold view. by rw list_lookup_fmap Hi. Qed.

Lemma upper_chunk h l i a :
  linked h l → l !! i = Some a →
  upper (the_block h a) = chunk_end (seq (the_block h a), block (the_block h a)).
Proof. intros Hl Hi. by destruct (linked_lookup h l i a Hl Hi) as (_ & _ & _ & ->). Qed.

Lemma NoDup_insert_at {A} (l : list A) i a : a ∉ l → NoDup l → NoDup (insert_at i a l).
Proof.
  intros Ha Hnd. unfold insert_at. rw -Permutation_middle take_drop. by constructor.
Qed.

(** Decide every [decide] of the goal from the context. *)
Ltac decide_all :=
  repeat first [rw decide_True; [|by lia || assumption] | rw decide_False; [|by lia || assumption]].

(** Blocks that hold the same data (their links may differ). *)
Definition same_data (d d' : DataBlock) : Prop :=
  seq d' = seq d ∧ upper d' = upper d ∧ block d' = block d.

(** Linking a new block in at position [i]. *)
Lemma new_block_linked r l i data size sq :
  linked (heap r) l → (∀ a d, heap r !! a = Some d → a < fresh_addr r) → i ≤ length l →
  (0 ≤ size ≤ len data)%Z →
  let a := fresh_addr r in
  ∃ r', DataBlock_new r data size sq (before l i) (l !! i) = Some (a, r') ∧ (a ∉ l) ∧
    linked (heap r') (insert_at i a l) ∧
    view (heap r') (insert_at i a l) = insert_at i (sq, take (Z.to_nat size) data) (view (heap r) l) ∧
    (∀ x d, heap r' !! x = Some d → x < fresh_addr r') ∧
    (∀ x, x ∈ l → same_data (the_block (heap r) x) (the_block (heap r') x)) ∧
    blocks r' = blocks r ∧ last_block r' = last_block r ∧
    last_reassem_seq r' = last_reassem_seq r ∧ trim_seq r' = trim_seq r.
Proof.
  intros Hl Hf Hi Hsz a. unfold DataBlock_new. rw decide_False; [|unfold len in Hsz; lia].
  assert (a ∉ l) as Ha.
  { intros [j Hj]%list_elem_of_lookup_1. destruct (linked_lookup _ _ _ _ Hl Hj) as [Hd _].
    apply Hf in Hd. unfold a in Hd. lia. }
  set (nb := mkBlock (l !! i) (before l i) sq (sq + size) (take (Z.to_nat size) data)).
  assert (∀ j x, l !! j = Some x → <[a := nb]> (heap r) !! x = Some (the_block (heap r) x)) as Hkeep.
  { intros j x Hx. rw lookup_insert_ne; [by destruct (linked_lookup _ _ _ _ Hl Hx)|].
    intros <-. apply Ha. by eapply list_elem_of_lookup_2. }
  assert (before l i ≠ Some a ∧ l !! i ≠ Some a) as [Hpa Hna].
  { split; [destruct i as [|i]; [done|]; simpl|]; intros Hx; apply Ha; by eapply list_elem_of_lookup_2. }
  destruct (update_opt_Some (<[a := nb]> (heap r)) (before l i) (λ d, set_next d (Some a))) as [h1 H1].
  { intros x Hx. destruct i as [|i]; [done|]. rw (Hkeep i x) //. }
  rw H1 /=.
  destruct (update_opt_Some h1 (l !! i) (λ d, set_prev d (Some a))) as [h2 H2].
  { intros x Hx. rw (update_opt_lookup _ _ _ _ _ H1). rw (Hkeep i x) //. by case_decide; eexists. }
  rw H2 /=. eexists; split; [done|]. simpl.
  assert (∀ x, h2 !! x = (if decide (l !! i = Some x) then λ d, set_prev d (Some a) else id) <$>
    ((if decide (before l i = Some x) then λ d, set_next d (Some a) else id) <$> (<[a := nb]> (heap r) !! x))) as Hh2.
  { intros x. rw (update_opt_lookup _ _ _ _ _ H2) (update_opt_lookup _ _ _ _ _ H1).
    repeat case_decide; by rw ?option_fmap_id. }
  assert (∀ x, x ∈ l → same_data (the_block (heap r) x) (the_block h2 x)) as Hdata.
  { intros x [j Hj]%list_elem_of_lookup_1. unfold same_data. unfold the_block at 1 3 5.
    rw Hh2 (Hkeep j x) //=. by repeat case_decide. }
  assert (h2 !! a = Some nb) as Hnb.
  { rw Hh2 lookup_insert_eq. by rw !decide_False. }
  split; [done|]. split; [split; [by apply NoDup_insert_at; [|apply Hl]|]|split; [|split; [|by split]]].
  - intros j x. rw insert_at_lookup //. intros Hj.
    assert (before (insert_at i a l) j = if decide (j ≤ i) then before l j else if decide (j = S i) then Some a else l !! (j - 2)) as Hbef.
    { destruct j as [|j]; [done|]. simpl. rw insert_at_lookup //.
      repeat case_decide; try lia; try done. }
    rw Hbef insert_at_lookup //.
    destruct (decide (j = i)) as [->|Hji].
    { rw decide_False in Hj; [|lia]. injection Hj as <-.
      exists nb. split; [done|]. rw decide_True // decide_False; [|lia]. rw decide_False; [|lia].
      split; [done|]. split; [simpl; f_equal; lia|]. simpl. rw len_take. lia. }
    set (k := if decide (j < i) then j else j - 1).
    assert (l !! k = Some x) as Hk by (unfold k; by destruct (decide (j < i))).
    destruct (linked_lookup _ _ _ _ Hl Hk) as (Hx & Hxp & Hxn & Hxu).
    assert (l !! i = Some x ↔ j = S i) as Hni.
    { split; [|intros ->; unfold k in Hk; rw decide_False in Hk; [|lia]; by rw /= Nat.sub_0_r in Hk].
      intros Hix. pose proof (NoDup_lookup _ _ _ _ (proj1 Hl) Hix Hk) as Hik. unfold k in Hik. case_decide; lia. }
    assert (before l i = Some x ↔ S j = i) as Hpi.
    { split; [|intros <-; unfold k in Hk; rw decide_True in Hk; [done|lia]].
      destruct i as [|i]; [done|]. simpl. intros Hix.
      pose proof (NoDup_lookup _ _ _ _ (proj1 Hl) Hix Hk) as Hik. unfold k in Hik. case_decide; lia. }
    eexists. rw Hh2 (Hkeep k x) //=. split; [done|]. unfold k in *. clear k Hk.
    destruct (decide (j < i)) as [Hlt|Hge].
    + assert (l !! i ≠ Some x) by (rw Hni; lia). decide_all. simpl.
      destruct (decide (before l i = Some x)) as [Hb|Hb]; rw Hpi in Hb; decide_all; by split_and!.
    + assert (before l i ≠ Some x) by (rw Hpi; lia). decide_all. simpl.
      destruct j as [|j]; [lia|]. rw Nat.sub_succ Nat.sub_0_r in Hxp Hxn. simpl in *.
      destruct (decide (l !! i = Some x)) as [Hb|Hb]; rw Hni in Hb; decide_all; rw ?Nat.sub_0_r; split_and!; try done.
      rw Hxp. destruct j as [|j]; [lia|]. simpl. f_equal. lia.
  - unfold view, insert_at. rw fmap_app fmap_cons fmap_take fmap_drop. unfold the_block at 3 4. rw Hnb /=.
    f_equal; [|f_equal]; rw -?fmap_take -?fmap_drop; apply list_fmap_ext; intros j x Hx;
      destruct (Hdata x) as (-> & _ & ->); try done; apply list_elem_of_lookup_2 in Hx; revert Hx;
      [apply subseteq_take|apply subseteq_drop].
  - intros x d. rw Hh2. intros Hx. destruct (decide (x = a)) as [->|Hxa]; [lia|].
    rw lookup_insert_ne in Hx; [|by apply not_eq_sym]. destruct (heap r !! x) as [d0|] eqn:Hd0; [|by destruct (decide _), (decide _)].
    apply Hf in Hd0. lia.
Qed.

(** ** Inserting data *)

(** Sequence numbers for which [seq_delta] is the difference. *)
Definition in_range (z : Z) : Prop := (0 ≤ z ≤ max_seq)%Z.

Lemma seq_delta_range a b : in_range a → in_range b → seq_delta a b = (a - b)%Z.
Proof. unfold in_range, max_seq. intros. apply seq_delta_small. lia. Qed.

(** The members [NewBlock] and its helpers leave alone. *)
Definition same_seqs (r r' : Reassembler) : Prop :=
  last_reassem_seq r' = last_reassem_seq r ∧ trim_seq r' = trim_seq r.

Lemma same_seqs_trans r1 r2 r3 : same_seqs r1 r2 → same_seqs r2 r3 → same_seqs r1 r3.
Proof. unfold same_seqs. intros; destruct_and!. split; congruence. Qed.

(** A block of an ordered list, as a chunk within the bounds. *)
Lemma block_range h l lo i a :
  (0 ≤ lo)%Z → linked h l → ordered lo max_seq (view h l) → l !! i = Some a →
  (lo ≤ seq (the_block h a))%Z ∧ (seq (the_block h a) < upper (the_block h a) ≤ max_seq)%Z.
Proof.
  intros Hlo Hl Ho Hi. pose proof (upper_chunk _ _ _ _ Hl Hi) as Hu.
  pose proof (view_lookup h l i a Hi) as Hv. apply list_elem_of_lookup_2 in Hv.
  destruct (ordered_elem _ _ _ _ Ho Hv) as [[H1 H2] H3]. rw Hu. simpl in *.
  pose proof (len_pos _ H3). unfold chunk_end in *. simpl in *. lia.
Qed.

(** In an ordered list, blocks end before later ones start. *)
Lemma block_order h l lo i j a b :
  linked h l → ordered lo max_seq (view h l) → l !! i = Some a → l !! j = Some b → i < j →
  (upper (the_block h a) ≤ seq (the_block h b))%Z.
Proof.
  intros Hl Ho Ha Hb Hij. rw (upper_chunk _ _ _ _ Hl Ha).
  pose proof (view_lookup h l i a Ha) as Hva. pose proof (view_lookup h l j b Hb) as Hvb.
  rw -(take_drop_middle _ _ _ Hva) in Ho. apply ordered_app in Ho as (m & _ & Ho).
  simpl in Ho. destruct Ho as (_ & _ & Ho).
  assert (drop (S i) (view h l) !! (j - S i) = Some (seq (the_block h b), block (the_block h b))) as Hd.
  { rw lookup_drop -Hvb. f_equal. lia. }
  apply list_elem_of_lookup_2 in Hd. by destruct (ordered_elem _ _ _ _ Ho Hd) as [[? _] _].
Qed.

(** The first block that does not end at or before [sq], or the last one. *)
Lemma skip_before_spec fuel h l lo i b sq :
  (0 ≤ lo)%Z → linked h l → ordered lo max_seq (view h l) → in_range sq →
  l !! i = Some b → length l - i < fuel →
  (∀ k x, k < i → l !! k = Some x → (upper (the_block h x) ≤ sq)%Z) →
  ∃ j b', skip_before fuel h b sq = Some b' ∧ l !! j = Some b' ∧
    (∀ k x, k < j → l !! k = Some x → (upper (the_block h x) ≤ sq)%Z) ∧
    ((sq < upper (the_block h b'))%Z ∨ S j = length l).
Proof.
  intros Hlo Hl Ho Hsq. revert i b. induction fuel as [|fuel IH]; intros i b Hi Hf Hbef; [lia|]. simpl.
  destruct (linked_lookup _ _ _ _ Hl Hi) as (Hb & _ & Hn & _). rw Hb /= Hn.
  destruct (block_range _ _ _ _ _ Hlo Hl Ho Hi) as [H1 H2].
  pose proof (lookup_lt_Some _ _ _ Hi).
  destruct (l !! S i) as [n|] eqn:Hni.
  - rw seq_delta_range; [|unfold in_range; lia|done].
    destruct (Z.leb_spec (upper (the_block h b) - sq) 0).
    + apply (IH (S i)); [done|lia|]. intros k x Hk Hx.
      destruct (decide (k = i)) as [->|]; [simplify_eq; lia|]. apply (Hbef k); [lia|done].
    + exists i, b. split_and!; [done|done|done|]. left. lia.
  - exists i, b. split_and!; [done|done|done|]. right. apply lookup_ge_None in Hni. lia.
Qed.

Lemma linked_size h l : linked h l → length l ≤ size h.
Proof.
  intros Hl. rw -(size_dom h) -(size_list_to_set (C := gset nat) l); [|apply Hl].
  apply subseteq_size. intros x. rw elem_of_list_to_set elem_of_dom.
  intros [i Hi]%list_elem_of_lookup_1. destruct (linked_lookup _ _ _ _ Hl Hi) as [-> _]. by eexists.
Qed.

Section insertion.
Context {St : Type} `{HasReassembler St} `{!ReassemblerLaws St} (v : virtuals St).

(** [Overlap] reports, but does not touch the blocks; it is called for [n] bytes
    that are there in both buffers.  [Q] says what else it keeps. *)
Definition overlap_reports (Q : St → Prop) : Prop :=
  (∀ r s, Q s → Q (put r s)) ∧
  ∀ b1 b2 n s, (0 ≤ n ≤ len b1)%Z → (n ≤ len b2)%Z → Q s →
    ∃ s', v_Overlap v b1 b2 n s = Some s' ∧ core s' = core s ∧ Q s'.

Context (Q : St → Prop).

Context (HOv : overlap_reports Q).

Lemma Q_modify f s : Q s → Q (modify f s).
Proof. apply HOv. Qed.

(** What every step of an insertion keeps. *)
Definition kept (s s' : St) : Prop := same_seqs (core s) (core s') ∧ (Q s → Q s').

Lemma kept_trans s1 s2 s3 : kept s1 s2 → kept s2 s3 → kept s1 s3.
Proof. intros [? ?] [? ?]. split; [by eapply same_seqs_trans|auto]. Qed.

Lemma kept_modify s s1 f :
  (∀ r, same_seqs r (f r)) → kept s s1 → kept s (modify f s1).
Proof.
  intros Hf [Hs HQ]. split; [|intros; by apply Q_modify, HQ].
  unfold modify. rw core_put. by eapply same_seqs_trans.
Qed.

Lemma kept_relink s s1 b nb : kept s s1 → kept s (relink_first b nb s1).
Proof. intros. unfold relink_first. case_decide; [|done]. by apply kept_modify; [done|]. Qed.

Lemma Q_relink b nb s : Q s → Q (relink_first b nb s).
Proof. unfold relink_first. case_decide; [apply Q_modify|done]. Qed.

Lemma new_block_at s l i data size sq :
  wf (core s) l → i ≤ length l → (0 ≤ size ≤ len data)%Z →
  ∃ a s1, new_block data size sq (before l i) (l !! i) s = Some (a, s1) ∧ (a ∉ l) ∧
    linked (heap (core s1)) (insert_at i a l) ∧
    view (heap (core s1)) (insert_at i a l) = insert_at i (sq, take (Z.to_nat size) data) (view (heap (core s)) l) ∧
    (∀ x d, heap (core s1) !! x = Some d → x < fresh_addr (core s1)) ∧
    (∀ x, x ∈ l → same_data (the_block (heap (core s)) x) (the_block (heap (core s1)) x)) ∧
    blocks (core s1) = blocks (core s) ∧ last_block (core s1) = last_block (core s) ∧
    kept s s1.
Proof.
  intros [Hl _ _ Hf] Hi Hsz.
  destruct (new_block_linked (core s) l i data size sq Hl Hf Hi Hsz)
    as (r' & Hn & Ha & Hl' & Hv' & Hf' & Hdt & Hb & Hlb & Hls & Ht).
  unfold new_block. rw Hn /=. eexists _, _. split; [done|]. rw core_put. split_and!; try done.
  split; [by rw core_put|apply HOv].
Qed.

(** The new block goes before an existing one. *)
Lemma insert_before s l i b data size sq :
  wf (core s) l → l !! i = Some b → (0 ≤ size ≤ len data)%Z →
  ∃ a s1, new_block data size sq (before l i) (Some b) s = Some (a, s1) ∧ (a ∉ l) ∧
    wf (core (relink_first b a s1)) (insert_at i a l) ∧
    view (heap (core (relink_first b a s1))) (insert_at i a l) =
      insert_at i (sq, take (Z.to_nat size) data) (view (heap (core s)) l) ∧
    (∀ x, x ∈ l → same_data (the_block (heap (core s)) x) (the_block (heap (core (relink_first b a s1))) x)) ∧
    kept s (relink_first b a s1).
Proof.
  intros Hwf Hi Hsz. pose proof (lookup_lt_Some _ _ _ Hi) as Hlt.
  destruct (new_block_at s l i data size sq Hwf) as (a & s1 & Hn & Ha & Hl' & Hv' & Hf' & Hdt & Hb & Hlb & Hs); [lia|done|].
  rw Hi in Hn. exists a, s1. split; [done|]. split; [done|].
  assert (last (insert_at i a l) = last l) as Hlast.
  { unfold insert_at. transitivity (last (take i l ++ drop i l)); [|by rw take_drop].
    rw !last_app last_cons.
    destruct (last (drop i l)) eqn:Hd; [done|]. apply last_None in Hd.
    apply (f_equal length) in Hd. rw length_drop /= in Hd. lia. }
  assert (blocks (core s1) = Some b ↔ i = 0) as Hfirst.
  { rw Hb (wf_first _ _ Hwf) head_lookup. split; [|by intros ->].
    intros H0. by apply (NoDup_lookup _ _ _ _ (proj1 (wf_linked _ _ Hwf)) Hi H0). }
  pose proof (kept_relink s s1 b a Hs) as Hk. revert Hk.
  unfold relink_first, modify. case_decide as Hd; rw Hfirst in Hd; intros Hk.
  - split; [|split; [by rw core_put|split; [by rw core_put|exact Hk]]].
    subst i. rw core_put. split; simpl; [done|done| |done]. by rw Hlb (wf_last _ _ Hwf) Hlast.
  - split; [|by split_and!]. split; [done| |by rw Hlb (wf_last _ _ Hwf) Hlast|done].
    rw Hb (wf_first _ _ Hwf). destruct i as [|i]; [done|]. by destruct l.
Qed.

(** The new block goes to the end. *)
Lemma insert_last s l data size sq :
  wf (core s) l → l ≠ [] → (0 ≤ size ≤ len data)%Z →
  ∃ a s1, new_block data size sq (last l) None s = Some (a, s1) ∧ (a ∉ l) ∧
    let s2 := modify (λ r, set_last_block r (Some a)) s1 in
    wf (core s2) (l ++ [a]) ∧
    view (heap (core s2)) (l ++ [a]) = view (heap (core s)) l ++ [(sq, take (Z.to_nat size) data)] ∧
    (∀ x, x ∈ l → same_data (the_block (heap (core s)) x) (the_block (heap (core s2)) x)) ∧
    kept s s2.
Proof.
  intros Hwf Hne Hsz.
  destruct (new_block_at s l (length l) data size sq Hwf) as (a & s1 & Hn & Ha & Hl' & Hv' & Hf' & Hdt & Hb & Hlb & Hs); [lia|done|].
  assert (before l (length l) = last l) as Hbef.
  { rw last_lookup. by destruct l. }
  rw Hbef lookup_ge_None_2 in Hn; [|done]. exists a, s1. split; [done|]. split; [done|].
  unfold insert_at in Hl', Hv'. rw take_ge // drop_ge // in Hl'. rw take_ge // drop_ge // in Hv'.
  rw take_ge in Hv'; [|unfold view; by rw length_fmap]. rw drop_ge in Hv'; [|unfold view; by rw length_fmap].
  assert (kept s (modify (λ r, set_last_block r (Some a)) s1)) as Hk by by apply kept_modify.
  revert Hk. unfold modify. rw core_put. intros Hk. split; [|by split_and!].
  split; simpl; [done| |by rw last_snoc|done]. rw Hb (wf_first _ _ Hwf). by destruct l.
Qed.

(** A position at which no block of an ordered list has data. *)
Lemma content_gap lo L1 L2 p :
  ordered lo max_seq (L1 ++ L2) → Forall (λ c, chunk_end c ≤ p)%Z L1 →
  (match L2 with [] => True | c :: _ => p < c.1 end)%Z → content (L1 ++ L2) p = None.
Proof.
  intros Ho Hall H2. induction Hall as [|c L1 Hc Hall IH] in lo, Ho |- *; simpl.
  - destruct L2 as [|c L2]; [done|]. apply (content_before c.1 max_seq); [|done].
    simpl in Ho. destruct Ho as (? & ? & ?). simpl. by split_and!.
  - simpl in Ho. destruct Ho as (_ & _ & Ho). rw byte_of_None; [|lia]. by eapply IH.
Qed.

(** The chunks before position [i] end at or before [sq]. *)
Lemma view_before h l i sq :
  linked h l → (∀ k x, k < i → l !! k = Some x → (upper (the_block h x) ≤ sq)%Z) →
  Forall (λ c, chunk_end c ≤ sq)%Z (take i (view h l)).
Proof.
  intros Hl Hbef. apply Forall_lookup. intros k c Hc. apply lookup_take_Some in Hc as [Hc Hk].
  unfold view in Hc. rw list_lookup_fmap in Hc. destruct (l !! k) as [x|] eqn:Hx; simplify_eq/=.
  rw -(upper_chunk _ _ _ _ Hl Hx). by apply (Hbef k).
Qed.

(** The block that [AddAndCheck] returns starts at the first position of the new
    data that was missing, if there is one. *)
Definition starts_new (L : list chunk) (sq up : Z) (h : gmap addr DataBlock) (nb : addr) : Prop :=
  ∀ q, (sq ≤ q < up)%Z → content L q = None → (∀ p, (sq ≤ p < q)%Z → content L p ≠ None) →
    seq (the_block h nb) = q.

Lemma starts_new_first L sq up h nb :
  content L sq = None → seq (the_block h nb) = sq → starts_new L sq up h nb.
Proof.
  intros Hc Hs q Hq Hcq Hall. destruct (decide (q = sq)) as [->|]; [done|].
  by destruct (Hall sq); [lia|].
Qed.

Lemma view_insert_at_seq h l i a c :
  i ≤ length l → view h (insert_at i a l) !! i = Some c → seq (the_block h a) = c.1.
Proof.
  intros Hi Hc. rw (view_lookup h _ i a) in Hc; [by simplify_eq|].
  rw insert_at_lookup //. by decide_all.
Qed.

(** What an insertion has achieved. *)
Definition added (s : St) (l : list addr) (sq : Z) (data : bytes) (nb : addr) (s' : St)
    (l' : list addr) : Prop :=
  wf (core s') l' ∧ view (heap (core s')) l' = add_data (view (heap (core s)) l) sq data ∧
  nb ∈ l' ∧ kept s s' ∧ l ⊆ l' ∧
  (∀ x, x ∈ l → same_data (the_block (heap (core s)) x) (the_block (heap (core s')) x)) ∧
  starts_new (view (heap (core s)) l) sq (sq + len data) (heap (core s')) nb.

Lemma append_added s l sq data :
  wf (core s) l → ordered 0 max_seq (view (heap (core s)) l) → l ≠ [] → data ≠ [] →
  (∀ k x, k < length l → l !! k = Some x → (upper (the_block (heap (core s)) x) ≤ sq)%Z) →
  ∃ nb s', ('(a, s) ← new_block data (sq + len data - sq) sq (last l) None s;
      Some (a, modify (λ r, set_last_block r (Some a)) s)) = Some (nb, s') ∧
    added s l sq data nb s' (l ++ [nb]).
Proof.
  intros Hwf Ho Hne Hd Hall. replace (sq + len data - sq)%Z with (len data) by lia.
  destruct (insert_last s l data (len data) sq Hwf Hne) as (a & s1 & Hn & Ha & Hwf' & Hv' & Hdt & Hs');
    [pose proof (len_nonneg data); lia|].
  rw Hn /=. eexists _, _. split; [done|].
  pose proof (view_before _ _ _ _ (wf_linked _ _ Hwf) Hall) as Hb.
  rw take_ge in Hb; [|unfold view; by rw length_fmap].
  assert (take (Z.to_nat (len data)) data = data) as Htk by (rw take_ge //; unfold len; lia).
  rw Htk in Hv'. split; [done|].
  split; [|split; [set_solver|split; [done|split; [set_solver|split; [done|]]]]].
  - rw Hv'. rw -{2}(app_nil_r (view (heap (core s)) l)) add_data_skip //. by destruct data.
  - apply starts_new_first.
    + rw -(app_nil_r (view _ _)). apply (content_gap 0); [by rw app_nil_r|done|done].
    + assert (view (heap (core (modify (λ r, set_last_block r (Some a)) s1))) (l ++ [a]) !! length l = Some (sq, data)) as Hx.
      { rw Hv'. apply list_lookup_middle. unfold view. by rw length_fmap. }
      rw (view_lookup _ _ _ a) in Hx; [by simplify_eq|]. by apply list_lookup_middle.
Qed.

(** [add_data] on a list split at the first block that matters. *)
Lemma add_data_at h l i b sq data :
  linked h l → l !! i = Some b → data ≠ [] →
  (∀ k x, k < i → l !! k = Some x → (upper (the_block h x) ≤ sq)%Z) →
  add_data (view h l) sq data =
    take i (view h l) ++ add_data ((seq (the_block h b), block (the_block h b)) :: drop (S i) (view h l)) sq data.
Proof.
  intros Hl Hi Hd Hbef. pose proof (view_lookup h l i b Hi) as Hv.
  rw -{1}(take_drop_middle _ _ _ Hv) add_data_skip //. by apply view_before.
Qed.

Lemma content_at h l i b sq :
  linked h l → ordered 0 max_seq (view h l) → l !! i = Some b → (sq < seq (the_block h b))%Z →
  (∀ k x, k < i → l !! k = Some x → (upper (the_block h x) ≤ sq)%Z) →
  content (view h l) sq = None.
Proof.
  intros Hl Ho Hi Hsq Hbef. pose proof (view_lookup h l i b Hi) as Hv.
  rw -(take_drop_middle _ _ _ Hv). apply (content_gap 0).
  - by rw take_drop_middle.
  - by apply view_before.
  - done.
Qed.

(** The new block comes completely before block [b]. *)
Lemma before_added s l i b sq data size :
  wf (core s) l → ordered 0 max_seq (view (heap (core s)) l) → l !! i = Some b → data ≠ [] →
  (∀ k x, k < i → l !! k = Some x → (upper (the_block (heap (core s)) x) ≤ sq)%Z) →
  (0 < size ≤ len data)%Z → (sq + size ≤ seq (the_block (heap (core s)) b))%Z →
  ∃ nb s1, new_block data size sq (prev (the_block (heap (core s)) b)) (Some b) s = Some (nb, s1) ∧
    added s l sq (take (Z.to_nat size) data) nb (relink_first b nb s1) (insert_at i nb l) ∧ nb ≠ b.
Proof.
  intros Hwf Ho Hi Hd Hbef Hsz Hle. pose proof (wf_linked _ _ Hwf) as Hl.
  destruct (linked_lookup _ _ _ _ Hl Hi) as (Hb & Hp & _). rw Hp.
  pose proof (lookup_lt_Some _ _ _ Hi) as Hlt.
  destruct (insert_before s l i b data size sq Hwf Hi) as (a & s1 & Hn & Ha & Hwf' & Hv' & Hdt & Hs'); [lia|].
  exists a, s1. split; [done|]. split; [|intros ->; apply Ha; by eapply list_elem_of_lookup_2].
  assert (take (Z.to_nat size) data ≠ []) as Htk.
  { intros Ht. apply (f_equal len) in Ht. rw len_take in Ht. unfold len at 2 in Ht. simpl in Ht. lia. }
  assert (len (take (Z.to_nat size) data) = size) as Hlen by (rw len_take; lia).
  split; [done|]. assert (l ⊆ insert_at i a l) as Hsub.
  { intros x Hx. unfold insert_at. rw -(take_drop i l) in Hx. set_solver. }
  split; [|split; [unfold insert_at; set_solver|split; [done|split; [done|split; [done|]]]]].
  - rw Hv' (add_data_at _ _ _ _ _ _ Hl Hi Htk Hbef). unfold insert_at. f_equal.
    pose proof (view_lookup (heap (core s)) l i b Hi) as Hvi.
    rw (drop_S _ _ _ Hvi). simpl. destruct (block_range _ _ _ _ _ (Z.le_refl 0) Hl Ho Hi) as [H1 H2].
    rw (upper_chunk _ _ _ _ Hl Hi) in H2.
    rw decide_False // decide_False; [|lia]. rw decide_True //. simpl. lia.
  - apply starts_new_first; [eapply content_at; [done..|lia|done]|].
    apply (view_insert_at_seq _ l i a (sq, take (Z.to_nat size) data)); [lia|]. rw Hv' insert_at_lookup; [by decide_all|].
    unfold view. rw length_fmap. lia.
Qed.

(** The last statement of [AddAndCheck] never changes anything. *)
Lemma prev_not_last r l nb :
  wf r l → nb ∈ l → ∃ nd, heap r !! nb = Some nd ∧ prev nd ≠ last_block r.
Proof.
  intros Hwf [i Hi]%list_elem_of_lookup_1. pose proof (wf_linked _ _ Hwf) as Hl.
  destruct (linked_lookup _ _ _ _ Hl Hi) as (Hb & Hp & _). eexists. split; [done|].
  rw Hp (wf_last _ _ Hwf) last_lookup. pose proof (lookup_lt_Some _ _ _ Hi) as Hlt.
  destruct (lookup_lt_is_Some_2 l (length l - 1)) as [y Hy]; [lia|].
  replace (pred (length l)) with (length l - 1) by lia. rw Hy.
  destruct i as [|i]; simpl; [done|]. intros Hiy.
  pose proof (NoDup_lookup _ _ _ _ (proj1 Hl) Hiy Hy). lia.
Qed.

Lemma content_in L c p : c ∈ L → (c.1 ≤ p < chunk_end c)%Z → content L p ≠ None.
Proof.
  intros Hc Hp. induction L as [|x L IH]; [by apply elem_of_nil in Hc|]. simpl.
  apply elem_of_cons in Hc as [<-|Hc].
  - destruct (byte_of_Some c p Hp) as [y Hy]. by rw Hy.
  - destruct (byte_of x p); [done|by apply IH].
Qed.

Lemma block_content h l j b q :
  linked h l → l !! j = Some b → (seq (the_block h b) ≤ q < upper (the_block h b))%Z →
  content (view h l) q ≠ None.
Proof.
  intros Hl Hj Hq. rw (upper_chunk _ _ _ _ Hl Hj) in Hq.
  apply (content_in _ (seq (the_block h b), block (the_block h b))); [|done].
  eapply list_elem_of_lookup_2. by apply view_lookup.
Qed.

(** The recursive call that adds what is left of the data after block [b']. *)
Definition adds_rest (fuel : nat) : Prop := ∀ b i sq data s l,
  Q s → wf (core s) l → ordered 0 max_seq (view (heap (core s)) l) → l !! i = Some b →
  (∀ k x, k < i → l !! k = Some x → (upper (the_block (heap (core s)) x) ≤ sq)%Z) →
  data ≠ [] → (0 ≤ sq)%Z → (sq + len data ≤ max_seq)%Z → length data < fuel →
  ∃ nb s' l', AddAndCheck v fuel b sq (sq + len data) data s = Some (nb, s') ∧
    added s l sq data nb s' l'.

(** The second half of [AddAndCheck]: the data overlaps block [b'] from [sq] on. *)
Lemma overlap_step fuel s l j b' sq data new_b b1 :
  adds_rest fuel → Q s → wf (core s) l → ordered 0 max_seq (view (heap (core s)) l) → l !! j = Some b' →
  (∀ k x, k < j → l !! k = Some x → (upper (the_block (heap (core s)) x) ≤ sq)%Z) →
  let up := upper (the_block (heap (core s)) b') in
  (0 ≤ sq < up)%Z → data ≠ [] → (sq + len data ≤ max_seq)%Z → length data ≤ fuel → new_b ∈ l →
  let overlap_len := Z.min (len data) (up - sq) in
  (overlap_len ≤ len b1)%Z →
  let rest := drop (Z.to_nat (up - sq)) data in
  ∃ nb s3 l3,
    (s ← v_Overlap v b1 data overlap_len s;
     '(new_b, s) ←
          (if (overlap_len <? len data)%Z then
             '(nb, s) ← AddAndCheck v fuel b' (sq + overlap_len) (sq + len data)
                          (drop (Z.to_nat overlap_len) data) s;
             Some (if decide (new_b = b') then nb else new_b, s)
           else Some (new_b, s));
     nd ← heap (core s) !! new_b;
     Some (new_b, if decide (prev nd = last_block (core s))
                  then modify (λ r, set_last_block r (Some new_b)) s else s)) =
    Some (if decide (new_b = b') then nb else new_b, s3) ∧ added s l up rest nb s3 l3.
Proof.
  intros IH HQ Hwf Ho Hj Hbef up Hsq Hd Hmx Hf Hnb overlap_len Hb1 rest.
  pose proof (len_nonneg data).
  destruct (proj2 HOv b1 data overlap_len s) as (s2 & Hov & Hcore & HQ2); [lia|lia|done|]. rw Hov /=.
  pose proof (wf_linked _ _ Hwf) as Hl. pose proof (list_elem_of_lookup_2 _ _ _ Hj) as Hb'l.
  destruct (block_range _ _ _ _ _ (Z.le_refl 0) Hl Ho Hj) as [_ Hbr]. fold up in Hbr.
  assert (∃ nb s3 l3, (if (overlap_len <? len data)%Z then
       '(nb, s) ← AddAndCheck v fuel b' (sq + overlap_len) (sq + len data)
                    (drop (Z.to_nat overlap_len) data) s2;
       Some (if decide (new_b = b') then nb else new_b, s)
     else Some (new_b, s2)) = Some (if decide (new_b = b') then nb else new_b, s3) ∧
     added s l up rest nb s3 l3) as (nb & s3 & l3 & Hrun & Hadd).
  { destruct (Z.ltb_spec overlap_len (len data)) as [Hlt|Hge].
    - assert (overlap_len = up - sq)%Z as Hol by lia. rw Hol. fold rest.
      assert (len rest = len data - (up - sq))%Z as Hlr by (unfold rest; rw len_drop; lia).
      destruct (IH b' j up rest s2 l) as (nb & s3 & l3 & Hr & Hadd); rw ?Hcore; try done.
      + intros k x Hk Hx. pose proof (Hbef k x Hk Hx). lia.
      + intros Hr. rw Hr in Hlr. unfold len at 1 in Hlr. simpl in Hlr. lia.
      + lia.
      + lia.
      + unfold len in Hlr. lia.
      + exists nb, s3, l3. replace (up + len rest)%Z with (sq + len data)%Z in Hr by lia.
        replace (sq + (up - sq))%Z with up by lia. rw Hr /=. split; [done|].
        assert (kept s s2) as Hk by (split; [by rw Hcore|done]).
        destruct Hadd as (A1 & A2 & A3 & Hk' & A4 & A5 & A6). rw Hcore in A2, A5, A6.
        unfold added. split_and!; try done. by eapply kept_trans.
    - exists b', s2, l. split; [case_decide; by subst|].
      assert (rest = []) as Hnil by (unfold rest; rw drop_ge //; unfold len in *; lia).
      assert (kept s s2) as Hk by (split; [by rw Hcore|done]).
      unfold added. rw Hcore Hnil add_data_nil. split_and!; try done.
      intros q Hq. unfold len in Hq. simpl in Hq. lia. }
  rw Hrun /=. exists nb, s3, l3. split; [|done]. destruct Hadd as (Hwf3 & _ & Hnb3 & _ & Hsub & _).
  destruct (prev_not_last (core s3) l3 (if decide (new_b = b') then nb else new_b) Hwf3) as (nd & -> & Hne).
  { case_decide; [done|by apply Hsub]. }
  simpl. by rw (decide_False (P := prev nd = _)).
Qed.

Lemma AddAndCheck_spec fuel b i sq data s l :
  Q s → wf (core s) l → ordered 0 max_seq (view (heap (core s)) l) → l !! i = Some b →
  (∀ k x, k < i → l !! k = Some x → (upper (the_block (heap (core s)) x) ≤ sq)%Z) →
  data ≠ [] → (0 ≤ sq)%Z → (sq + len data ≤ max_seq)%Z → length data < fuel →
  ∃ nb s' l', AddAndCheck v fuel b sq (sq + len data) data s = Some (nb, s') ∧
    added s l sq data nb s' l'.
Proof.
  revert b i sq data s l. induction fuel as [|fuel IH]; intros b i sq data s l HQ Hwf Ho Hi Hbef Hd Hsq Hup Hf; [lia|].
  simpl. pose proof (wf_linked _ _ Hwf) as Hl. pose proof (len_pos _ Hd) as Hld.
  assert (in_range sq ∧ in_range (sq + len data)) as [Hrs Hru] by (unfold in_range; lia).
  pose proof (lookup_lt_Some _ _ _ Hi) as Hlt.
  assert (l ≠ []) as Hne by by destruct l.
  destruct (last l) as [lb|] eqn:Hlast; [|by apply last_None in Hlast].
  rw (wf_last _ _ Hwf) Hlast.
  assert (l !! (length l - 1) = Some lb) as Hlb by (rw -Hlast last_lookup; f_equal; lia).
  destruct (linked_lookup _ _ _ _ Hl Hlb) as (-> & _). simpl.
  case_bool_decide as Hend.
  { destruct (append_added s l sq data) as (nb & s' & Hn & Hadd); try done.
    { intros k x Hk Hx. destruct (decide (k = length l - 1)) as [->|]; [simplify_eq; lia|].
      pose proof (block_order _ _ _ _ _ _ _ Hl Ho Hx Hlb ltac:(lia)).
      destruct (block_range _ _ _ _ _ (Z.le_refl 0) Hl Ho Hlb). lia. }
    rw Hlast in Hn. by exists nb, s', (l ++ [nb]). }
  pose proof (linked_size _ _ Hl) as Hsize.
  destruct (skip_before_spec (S (size (heap (core s)))) (heap (core s)) l 0 i b sq)
    as (j & b' & Hskip & Hj & Hbef' & Hor); try done; [lia|].
  simpl in Hskip. rw Hskip /=. clear b i Hi Hbef Hskip Hlt.
  destruct (linked_lookup _ _ _ _ Hl Hj) as (-> & Hp & Hn & Hu). simpl.
  destruct (block_range _ _ _ _ _ (Z.le_refl 0) Hl Ho Hj) as [Hb1 Hb2].
  set (bd := the_block (heap (core s)) b') in *.
  assert (in_range (seq bd) ∧ in_range (upper bd)) as [Hrb Hrbu] by (unfold in_range; lia).
  rw !seq_delta_range //.
  destruct (Z.leb_spec (upper bd - sq) 0) as [Hcb|Hcb].
  { assert (S j = length l) as Hjl by (destruct Hor; [lia|done]).
    destruct (append_added s l sq data) as (nb & s' & Hnw & Hadd); try done.
    { intros k x Hk Hx. destruct (decide (k = j)) as [->|]; [simplify_eq; unfold bd in Hcb; lia|].
      apply (Hbef' k); [lia|done]. }
    rw last_lookup -Hjl /= Hj in Hnw. by exists nb, s', (l ++ [nb]). }
  destruct (Z.leb_spec (sq + len data - seq bd) 0) as [Hbf|Hbf].
  { replace (sq + len data - sq)%Z with (len data) by lia.
    destruct (before_added s l j b' sq data (len data)) as (nb & s1 & Hnw & Hadd & _); try done; try (fold bd; lia).
    fold bd in Hnw. rw Hnw /=. rw take_ge in Hadd; [|unfold len; lia]. by eexists _, _, _. }
  pose proof (add_data_at _ _ _ _ _ _ Hl Hj Hd Hbef') as Hadd0. fold bd in Hadd0.
  simpl in Hadd0. rw decide_False // in Hadd0. rw (decide_False (P := chunk_end _ ≤ sq)%Z) in Hadd0;
    [|fold bd in Hu; unfold chunk_end; simpl; lia].
  rw (decide_False (P := sq + len data ≤ _)%Z) in Hadd0; [|lia].
  change (chunk_end (seq bd, block bd)) with (seq bd + len (block bd))%Z in Hadd0. rw -Hu in Hadd0.
  destruct (Z.ltb_spec (sq - seq bd) 0) as [Hpre|Hpre].
  - (* a prefix goes before [b'] *)
    destruct (before_added s l j b' sq data (seq bd - sq)) as (nb & s1 & Hnw & Hadd1 & Hnbb);
      try done; try (fold bd; lia).
    fold bd in Hnw. rw Hnw /=. clear Hnw.
    destruct Hadd1 as (Hwf1 & Hv1 & Hnb1 & Hs1 & Hsub1 & Hd1 & Hst1).
    set (s1' := relink_first b' nb s1) in *. set (l1 := insert_at j nb l) in *.
    set (pre := take (Z.to_nat (seq bd - sq)) data) in *. set (data1 := drop (Z.to_nat (seq bd - sq)) data).
    assert (len data1 = sq + len data - seq bd)%Z as Hlen1 by (unfold data1; rw len_drop; lia).
    assert (len pre = seq bd - sq)%Z as Hlpre by (unfold pre; rw len_take; lia).
    replace (sq + (seq bd - sq))%Z with (seq bd) by lia.
    rw !(seq_delta_range _ (seq bd)) // -Hlen1.
    assert (l1 !! S j = Some b') as Hj1.
    { unfold l1. pose proof (lookup_lt_Some _ _ _ Hj). rw insert_at_lookup; [|lia]. decide_all.
      by rw /= Nat.sub_0_r. }
    destruct (Hd1 b') as (Hsb & Hub & Hbb); [by eapply list_elem_of_lookup_2|]. fold bd in Hsb, Hub, Hbb.
    assert (view (heap (core s1')) l1 = take j (view (heap (core s)) l) ++ (sq, pre) ::
      (seq bd, block bd) :: drop (S j) (view (heap (core s)) l)) as Hview1.
    { rw Hv1 (add_data_at _ _ _ _ _ _ Hl Hj); [|intros Hpn; rw Hpn in Hlpre; unfold len in Hlpre; simpl in Hlpre; lia|done].
      fold bd. simpl. rw decide_False; [|intros Hpn; rw Hpn in Hlpre; unfold len in Hlpre; simpl in Hlpre; lia].
      rw decide_False; [|unfold chunk_end; simpl; lia]. rw decide_True; [done|simpl; lia]. }
    assert (∀ k x, k < S j → l1 !! k = Some x → (upper (the_block (heap (core s1')) x) ≤ seq bd)%Z) as Hbef1.
    { intros k x Hk Hx. rw -Hsb. apply (block_order (heap (core s1')) l1 0 k (S j)); try done; [apply Hwf1|].
      rw Hv1. apply add_data_ordered; [done| |done|lia]. intros Hpn. rw Hpn in Hlpre. unfold len in Hlpre. simpl in Hlpre. lia. }
    destruct (overlap_step fuel s1' l1 (S j) b' (seq bd) data1 nb
      (drop (Z.to_nat (seq bd - seq bd)) (block bd)) IH (proj2 Hs1 HQ) Hwf1) as (nb3 & s3 & l3 & Hrun & Hadd3); try done.
    { rw Hv1. apply add_data_ordered; [done| |done|lia]. intros Hpn. rw Hpn in Hlpre. unfold len in Hlpre. simpl in Hlpre. lia. }
    { rw Hub. lia. }
    { intros Hpn. rw Hpn in Hlen1. unfold len at 1 in Hlen1. simpl in Hlen1. lia. }
    { lia. }
    { unfold len in Hlen1, Hlpre. unfold data1. rw length_drop. lia. }
    { rw Hub len_drop. lia. }
    rw Hub in Hrun, Hadd3. rw (decide_False (P := nb = b')) // in Hrun.
    replace (seq bd + len data1)%Z with (sq + len data)%Z in Hrun by lia.
    rw Hrun. exists nb, s3, l3. split; [done|].
    destruct Hadd3 as (Hwf3 & Hv3 & Hnb3 & Hs3 & Hsub3 & Hd3 & Hst3).
    split; [done|]. split; [|split; [by apply Hsub3|split; [by eapply kept_trans|split; [set_solver|split]]]].
    + rw Hv3 Hview1 Hadd0 decide_True; [|lia]. fold pre.
      assert (drop (Z.to_nat (upper bd - seq bd)) data1 = drop (Z.to_nat (upper bd - sq)) data) as ->.
      { unfold data1. rw drop_drop. f_equal. lia. }
      change ((sq, pre) :: (seq bd, block bd) :: drop (S j) (view (heap (core s)) l)) with
        ([(sq, pre); (seq bd, block bd)] ++ drop (S j) (view (heap (core s)) l)).
      rw assoc_L add_data_skip; [by rw -assoc_L|].
      apply Forall_app; split; [|repeat constructor; unfold chunk_end; simpl; lia].
      * eapply Forall_impl; [apply (view_before _ _ j (seq bd)); [done|]|simpl; lia].
        intros k x Hk Hx. pose proof (Hbef' k x Hk Hx). lia.
    + intros x Hx. destruct (Hd1 x Hx) as (A1 & A2 & A3), (Hd3 x) as (B1 & B2 & B3); [by apply Hsub1|].
      split_and!; congruence.
    + apply starts_new_first; [eapply content_at; [done..|fold bd; lia|done]|].
      destruct (Hd3 nb Hnb1) as (-> & _). apply (Hst1 sq).
      * rw Hlpre. lia.
      * eapply content_at; [done..|fold bd; lia|done].
      * intros p' Hp'. lia.
  - (* the data starts inside [b'] *)
    destruct (overlap_step fuel s l j b' sq data b'
      (drop (Z.to_nat (seq_delta sq (seq bd))) (block bd)) IH HQ Hwf) as (nb3 & s3 & l3 & Hrun & Hadd3); try done.
    { fold bd. lia. } { lia. } { by eapply list_elem_of_lookup_2. }
    { fold bd. rw (seq_delta_range sq) // len_drop. lia. }
    fold bd in Hrun, Hadd3. rw (decide_True (P := b' = b')) // in Hrun. simpl.
    rw !seq_delta_range // in Hrun. rw !seq_delta_range //.
    replace (sq + len data - sq)%Z with (len data) by lia.
    rw Hrun. exists nb3, s3, l3. split; [done|].
    destruct Hadd3 as (Hwf3 & Hv3 & Hnb3 & Hs3 & Hsub3 & Hd3 & Hst3).
    split; [done|]. split; [|split; [done|split; [done|split; [done|split; [done|]]]]].
    + rw Hv3 Hadd0 decide_False; [|lia]. simpl.
      pose proof (view_lookup (heap (core s)) l j b' Hj) as Hvj.
      rw -{1}(take_drop_middle _ _ _ Hvj). fold bd.
      change ((seq bd, block bd) :: drop (S j) (view (heap (core s)) l)) with
        ([(seq bd, block bd)] ++ drop (S j) (view (heap (core s)) l)).
      rw assoc_L add_data_skip; [by rw -assoc_L|].
      apply Forall_app; split.
      * eapply Forall_impl; [apply (view_before _ _ j sq); done|simpl; lia].
      * apply Forall_singleton. unfold chunk_end. simpl. lia.
    + intros q Hq Hc Hall. apply Hst3; [|done|].
      * assert (upper bd ≤ q)%Z.
        { destruct (decide (upper bd ≤ q)%Z); [done|]. exfalso. revert Hc.
          apply (block_content _ _ _ _ _ Hl Hj). fold bd. lia. }
        rw len_drop. lia.
      * intros p' Hp'. apply Hall. lia.
Qed.

(** ** NewBlock *)

(** The state after the insertion, when [BlockInserted] is called. *)
Definition inserted (s : St) (L : list chunk) (sq : Z) (data : bytes) (nb : addr) (s1 : St) : Prop :=
  ∃ l1, wf (core s1) l1 ∧ view (heap (core s1)) l1 = add_data L sq data ∧
    ordered 0 max_seq (add_data L sq data) ∧ nb ∈ l1 ∧ kept s s1 ∧
    starts_new L sq (sq + len data) (heap (core s1)) nb.

Lemma first_block s sq data :
  wf (core s) [] → data ≠ [] →
  ∃ nb s1, ('(a, s) ← new_block data (len data) sq None None s;
      Some (a, modify (λ r, set_last_block (set_blocks r (Some a)) (Some a)) s)) = Some (nb, s1) ∧
    wf (core s1) [nb] ∧ view (heap (core s1)) [nb] = [(sq, data)] ∧ kept s s1.
Proof.
  intros Hwf Hd. pose proof (len_nonneg data).
  destruct (new_block_at s [] 0 data (len data) sq Hwf) as (a & s1 & Hn & _ & Hl & Hv & Hf & _ & _ & _ & Hs);
    [done|lia|].
  simpl in Hn. rw Hn /=. eexists _, _. split; [done|].
  split; [|split; [|by apply kept_modify]]; unfold modify; rw core_put.
  - by split.
  - change (view (heap (core s1)) [a] = insert_at 0 (sq, take (Z.to_nat (len data)) data) []) in Hv.
    change (view (heap (core s1)) [a] = [(sq, data)]). rw Hv. unfold insert_at, len. simpl.
    by rw Nat2Z.id firstn_all.
Qed.

Lemma NewBlock_spec s L sq data :
  Q s → rep (core s) L → in_range (trim_seq (core s)) → (0 ≤ sq)%Z → (sq + len data ≤ max_seq)%Z →
  if decide (data = [] ∨ sq + len data ≤ trim_seq (core s))%Z
  then NewBlock v sq (len data) data s = Some s
  else
    let amount_old := Z.to_nat (trim_seq (core s) - sq) in
    ∃ nb s1, inserted s L (Z.max sq (trim_seq (core s))) (drop amount_old data) nb s1 ∧
      NewBlock v sq (len data) data s = v_BlockInserted v nb s1.
Proof.
  intros HQ (l & Hwf & <- & Ho) Htr Hsq Hup. set (tr := trim_seq (core s)) in *.
  pose proof (len_nonneg data). unfold NewBlock. fold tr.
  assert (in_range sq ∧ in_range (sq + len data)) as [Hr1 Hr2] by (unfold in_range in *; lia).
  rw !(seq_delta_range _ tr) // (seq_delta_range tr) //.
  destruct (Z.eqb_spec (len data) 0) as [Hz|Hz].
  { rw decide_True; [done|]. left. destruct data; [done|]. unfold len in Hz. simpl in Hz. lia. }
  destruct (Z.leb_spec (sq + len data - tr) 0) as [Hold|Hold].
  { rw decide_True; [done|lia]. }
  rw decide_False; [|intros [->|?]; [done|lia]].
  set (sq' := Z.max sq tr). set (data' := drop (Z.to_nat (tr - sq)) data).
  assert (len data' = sq + len data - sq')%Z as Hlen by (unfold data'; rw len_drop; lia).
  assert ((if (sq - tr <? 0)%Z then (sq + (tr - sq), len data - (tr - sq), data')%Z
           else (sq, len data, data)) = (sq', len data', data')) as ->.
  { destruct (Z.ltb_spec (sq - tr) 0); [repeat f_equal; lia|].
    assert (data' = data) as Hdd by (unfold data'; replace (Z.to_nat (tr - sq)) with 0 by lia; done).
    rw Hdd. repeat f_equal. lia. }
  assert (data' ≠ []) as Hd' by (intros Hn; rw Hn in Hlen; unfold len at 1 in Hlen; simpl in Hlen; lia).
  unfold in_range in *.
  assert (ordered 0 max_seq (add_data (view (heap (core s)) l) sq' data')) as Ho'.
  { apply add_data_ordered; [done|done|lia|lia]. }
  replace (sq + len data)%Z with (sq' + len data')%Z by lia.
  destruct l as [|b l].
  - rw (wf_first _ _ Hwf) /=.
    destruct (first_block s sq' data' Hwf Hd') as (nb & s1 & Hrun & Hwf1 & Hv1 & Hs1). rw Hrun /=.
    exists nb, s1. split; [|done]. exists [nb]. rw Hv1. split_and!; try done.
    + simpl. by destruct data'.
    + by left.
    + apply starts_new_first; [done|]. pose proof (view_lookup (heap (core s1)) [nb] 0 nb eq_refl) as Hv.
      rw Hv1 in Hv. by injection Hv.
  - rw (wf_first _ _ Hwf) /=.
    destruct (AddAndCheck_spec (Datatypes.S (length data')) b 0 sq' data' s (b :: l) HQ Hwf Ho)
      as (nb & s1 & l1 & Hrun & Hwf1 & Hv1 & Hnb & Hs1 & _ & _ & Hst); [done|lia|done|lia|lia|lia|].
    simpl in Hrun. rw Hrun /=. exists nb, s1. split; [|done]. by exists l1.
Qed.

End insertion.

(** ** TrimToSeq *)

(** The chunks left after trimming, and what the loop counts as missing. *)
Fixpoint trim_chunks (sq : Z) (L : list chunk) : list chunk :=
  match L with
  | [] => []
  | c :: L' => if decide (chunk_end c ≤ sq)%Z then trim_chunks sq L' else L
  end.

Definition gap_after (sq : Z) (c : chunk) (L : list chunk) : Z :=
  (let tail := if decide (chunk_end c = sq ∨ chunk_end c = sq - 1) then 0 else sq - chunk_end c in
  match L with
  | c' :: _ => if decide (c'.1 ≤ sq) then c'.1 - chunk_end c else tail
  | [] => tail
  end)%Z.

Fixpoint loop_missing (sq : Z) (L : list chunk) : Z :=
  (match L with
  | [] => 0
  | c :: L' => if decide (chunk_end c ≤ sq) then gap_after sq c L' + loop_missing sq L' else 0
  end)%Z.

Definition initial_missing (lrs sq : Z) (L : list chunk) : Z :=
  (match L with c :: _ => Z.max 0 (c.1 - lrs) | [] => Z.max 0 (sq - lrs) end)%Z.

(** The links during the loop: the first block's [prev] may dangle. *)
Definition linked_tail (h : gmap addr DataBlock) (l : list addr) : Prop :=
  NoDup l ∧ ∀ i a, l !! i = Some a → ∃ d, h !! a = Some d ∧
    (0 < i → prev d = before l i) ∧ next d = l !! S i ∧ upper d = (seq d + len (block d))%Z.

Lemma linked_tail_head h l a d :
  linked_tail h (a :: l) → h !! a = Some d →
  next d = head l ∧ upper d = (seq d + len (block d))%Z ∧ linked_tail (delete a h) l ∧
  view (delete a h) l = view h l.
Proof.
  intros [Hnd Hl] Hd. destruct (Hl 0 a eq_refl) as (d' & Hd' & _ & Hn & Hu). simplify_eq.
  apply NoDup_cons in Hnd as [Ha Hnd].
  assert (∀ x, x ∈ l → delete a h !! x = h !! x) as Hk.
  { intros x Hx. rw lookup_delete_ne //. by intros ->. }
  split; [by rw Hn head_lookup|]. split; [done|]. split; [split; [done|]|].
  - intros i x Hx. destruct (Hl (S i) x Hx) as (dx & Hdx & Hp & Hnx & Hux).
    exists dx. rw Hk; [|by eapply list_elem_of_lookup_2]. split_and!; [done| |done|done].
    intros Hi. rw Hp; [|lia]. by destruct i; [lia|].
  - unfold view. apply list_fmap_ext. intros i x Hx. unfold the_block.
    rw Hk //. by eapply list_elem_of_lookup_2.
Qed.

Section trimming.
Context {St : Type} `{HasReassembler St} `{!ReassemblerLaws St} (v : virtuals St).

Lemma modify_modify f g (s : St) : modify f (modify g s) = modify (λ r, f (g r)) s.
Proof. unfold modify. by rw core_put put_put. Qed.

(** The reassembler during the loop of [TrimToSeq]. *)
Record trimming (r0 r : Reassembler) (l : list addr) : Prop := {
  tr_linked : linked_tail (heap r) l;
  tr_first : blocks r = head l;
  tr_last : l ≠ [] → last_block r = last l;
  tr_fresh : ∀ a d, heap r !! a = Some d → a < fresh_addr r;
  tr_same : same_seqs r0 r
}.

Lemma chunk_lookup h l i a :
  linked_tail h l → l !! i = Some a → ∃ d, h !! a = Some d ∧ view h l !! i = Some (seq d, block d) ∧
    upper d = chunk_end (seq d, block d).
Proof.
  intros [_ Hl] Hi. destruct (Hl i a Hi) as (d & Hd & _ & _ & Hu). exists d.
  unfold view. rw list_lookup_fmap Hi /=. unfold the_block. by rw Hd.
Qed.

Lemma trim_loop_spec fuel sq n (s : St) r0 l lo :
  (0 ≤ lo)%Z → trimming r0 (core s) l → ordered lo max_seq (view (heap (core s)) l) → in_range sq → length l < fuel →
  ∃ s' l', trim_loop fuel sq n s = Some (n + loop_missing sq (view (heap (core s)) l), s')%Z ∧
    trimming r0 (core s') l' ∧ view (heap (core s')) l' = trim_chunks sq (view (heap (core s)) l) ∧
    s' = put (core s') s ∧ (∀ a, a ∈ l' → a ∈ l).
Proof.
  intros Hlo. revert n s l lo Hlo. induction fuel as [|fuel IH]; intros n s l lo Hlo Ht Ho Hsq Hf; [lia|]. simpl.
  rw (tr_first _ _ _ Ht). destruct l as [|a l]; simpl in *.
  { exists s, []. rw Z.add_0_r put_core. by split_and!. }
  pose proof (tr_linked _ _ _ Ht) as Hlt.
  destruct (chunk_lookup _ _ 0 a Hlt eq_refl) as (d & Hd & Hv & Hu). rw Hd /=.
  injection Hv as Hv1 Hv2. rw Hv1 Hv2 in Ho |- *. destruct Ho as (Ho1 & Ho2 & Ho3). simpl in Ho1, Ho2.
  pose proof (len_pos _ Ho2). pose proof (ordered_le _ _ _ Ho3) as Hmx. rw -Hu in Ho3, Hmx |- *.
  assert (in_range (upper d)) as Hru by (unfold in_range; rw Hu; rw Hu in Hmx; unfold chunk_end in *; simpl in *; lia).
  rw seq_delta_range //.
  destruct (Z.leb_spec (upper d - sq) 0) as [Hle|Hgt]; last first.
  { exists s, (a :: l). rw !(decide_False (P := (upper d ≤ sq)%Z)); [|lia..]. rw Z.add_0_r put_core.
    split_and!; try done.
    unfold view. simpl. by rw Hv1 Hv2. }
  rw !(decide_True (P := (upper d ≤ sq)%Z)); [|lia..].
  destruct (linked_tail_head _ _ _ _ Hlt Hd) as (Hnx & _ & Hlt' & Hview').
  set (s1 := modify (λ r, set_blocks (set_heap r (delete a (heap r))) (next d)) s).
  assert (trimming r0 (core s1) l) as Ht1.
  { unfold s1, modify. rw core_put. destruct Ht as [_ _ Hlast Hfr Hsame]. split; simpl; [done|done| | |done].
    - intros Hne. rw Hlast //. rw last_cons. destruct (last l) eqn:Hll; [done|]. by apply last_None in Hll.
    - intros x dx [_ Hx]%lookup_delete_Some. by eapply Hfr. }
  assert (view (heap (core s1)) l = view (heap (core s)) l) as Hview1.
  { unfold s1, modify. rw core_put. apply Hview'. }
  destruct (IH (n + gap_after sq (seq d, block d) (view (heap (core s)) l))%Z s1 l (upper d)) as (s' & l' & Hrun & Ht' & Hv' & Hs' & Hsub).
  { rw Hu /chunk_end /=. lia. }
  { done. } { by rw Hview1. } { done. } { lia. }
  rw Hview1 in Hrun, Hv'.
  exists s', l'. split_and!; [|done|done| |by intros x Hx; right; apply Hsub].
  - rw Z.add_assoc -Hrun. rw Hnx.
    assert (∀ m, m = gap_after sq (seq d, block d) (view (heap (core s)) l) →
      trim_loop fuel sq (n + m) s1 = trim_loop fuel sq (n + gap_after sq (seq d, block d) (view (heap (core s)) l)) s1) as Heq by congruence.
    destruct l as [|b l]; simpl.
    + apply Heq. simpl. rw -Hu. destruct (Z.eqb_spec (upper d) sq), (Z.eqb_spec (upper d) (sq - 1)); simpl;
        repeat case_decide; try lia; try done; rw seq_delta_range //.
    + destruct (chunk_lookup _ _ 1 b Hlt eq_refl) as (bd & Hbd & Hvb & _). rw Hbd /=. apply Heq.
      simpl in Hvb. injection Hvb as Hvb1 Hvb2. simpl in Ho3 |- *. rw Hvb1 Hvb2 in Ho3. rw Hvb1 -Hu.
      destruct Ho3 as (Hb1 & _ & Hb2%ordered_le). simpl in Hb1, Hb2.
      pose proof (len_nonneg (block bd)). unfold chunk_end in Hb2. simpl in Hb2.
      assert (in_range (seq bd)) by (unfold in_range in *; lia).
      rw (seq_delta_range (seq bd) sq) //. destruct (Z.leb_spec (seq bd - sq) 0).
      * rw decide_True; [|lia]. destruct (Z.eqb_spec (upper d) (seq bd)); [lia|]. by rw seq_delta_range.
      * rw decide_False; [|lia].
        destruct (Z.eqb_spec (upper d) sq), (Z.eqb_spec (upper d) (sq - 1)); simpl;
          repeat case_decide; try lia; try done; rw seq_delta_range //.
  - rw {1}Hs'. unfold s1, modify. by rw put_put.
Qed.

(** [Undelivered] moves [last_reassem_seq] at most. *)
Definition undelivered_moves (sq : Z) (s : St) : Prop :=
  (last_reassem_seq (core s) < sq)%Z →
  ∃ s' x, v_Undelivered v sq s = Some s' ∧ core s' = set_last_reassem_seq (core s) x.

Lemma trimming_wf r0 r l : wf r0 l → r = r0 → trimming r0 r l.
Proof.
  intros [[Hnd Hl] Hf Hla Hfr] ->. split; [split; [done|]|done|done|done|done].
  intros i a Hi. destruct (Hl i a Hi) as (d & ? & ? & ? & ?). by exists d.
Qed.

Lemma linked_reset h a l d :
  linked_tail h (a :: l) → h !! a = Some d →
  linked (<[a := set_prev d None]> h) (a :: l) ∧
  view (<[a := set_prev d None]> h) (a :: l) = view h (a :: l).
Proof.
  intros [Hnd Hl] Hd. pose proof Hnd as [Ha _]%NoDup_cons.
  assert (∀ x, x ∈ l → <[a := set_prev d None]> h !! x = h !! x) as Hk.
  { intros x Hx. rw lookup_insert_ne //. by intros ->. }
  split; [split; [done|]|].
  - intros [|i] x Hx.
    + simpl in Hx. injection Hx as <-. destruct (Hl 0 a eq_refl) as (d' & Hd' & _ & Hn & Hu). simplify_eq.
      exists (set_prev d None). by rw lookup_insert_eq.
    + destruct (Hl (S i) x Hx) as (dx & Hdx & Hp & Hn & Hu). exists dx.
      rw Hk; [|by eapply list_elem_of_lookup_2]. split_and!; [done| |done|done]. apply Hp. lia.
  - unfold view. simpl. f_equal.
    + unfold the_block. by rw lookup_insert_eq Hd.
    + apply list_fmap_ext. intros i x Hx. unfold the_block. rw Hk //. by eapply list_elem_of_lookup_2.
Qed.

Lemma trim_chunks_ordered lo L sq : ordered lo max_seq L → ordered lo max_seq (trim_chunks sq L).
Proof.
  revert lo. induction L as [|c L IH]; intros lo Ho; simpl; [done|]. case_decide; [|done].
  simpl in Ho. destruct Ho as (? & ? & Ho%IH). eapply ordered_weaken; [|exact Ho].
  pose proof (len_nonneg c.2). unfold chunk_end. lia.
Qed.

(** The state in which [TrimToSeq] may call [BlockInserted]: the blocks are
    trimmed, and [a] is the first one left. *)
Definition trimmed (s1 s2 : St) (L : list chunk) (sq : Z) : Prop :=
  rep (core s2) (trim_chunks sq L) ∧ same_seqs (core s1) (core s2) ∧ s2 = put (core s2) s1.

Lemma TrimToSeq_spec s L sq :
  undelivered_moves sq s → rep (core s) L → in_range sq → in_range (last_reassem_seq (core s)) →
  ∃ s1 s2,
    (if decide (last_reassem_seq (core s) < sq)%Z then v_Undelivered v sq s = Some s1 else s1 = s) ∧
    trimmed s1 s2 L sq ∧
    TrimToSeq v sq s =
      (s3 ← match blocks (core s2), trim_chunks sq L with
            | Some a, c :: _ => if (c.1 =? last_reassem_seq (core s2))%Z then v_BlockInserted v a s2 else Some s2
            | _, _ => Some s2
            end;
       Some (initial_missing (last_reassem_seq (core s)) sq L + loop_missing sq L,
             if (0 <? seq_delta sq (trim_seq (core s3)))%Z then modify (λ r, set_trim_seq r sq) s3 else s3))%Z.
Proof.
  intros Hund (l & Hwf & <- & Ho) Hsq Hlrs. unfold TrimToSeq.
  set (L := view (heap (core s)) l) in *. set (lrs := last_reassem_seq (core s)) in *.
  pose proof (trimming_wf _ _ _ Hwf eq_refl) as Htr.
  rw (seq_delta_range sq lrs) //.
  (* the initial hole *)
  assert (match blocks (core s) with
    | Some a => d ← heap (core s) !! a;
        Some (if (0 <? seq_delta (seq d) lrs)%Z then seq_delta (seq d) lrs else 0%Z)
    | None => Some (if (0 <? sq - lrs)%Z then (sq - lrs)%Z else 0%Z)
    end = Some (initial_missing lrs sq L)) as ->.
  { rw (wf_first _ _ Hwf). destruct l as [|a l]; simpl.
    - destruct (Z.ltb_spec 0 (sq - lrs)); f_equal; lia.
    - destruct (block_range _ _ _ 0 _ (Z.le_refl 0) (wf_linked _ _ Hwf) Ho eq_refl) as [H1 H2].
      destruct (linked_lookup _ _ 0 a (wf_linked _ _ Hwf) eq_refl) as (-> & _). simpl.
      rw seq_delta_range; [|unfold in_range; lia|done].
      destruct (Z.ltb_spec 0 (seq (the_block (heap (core s)) a) - lrs)); f_equal; lia. }
  simpl.
  (* the undelivered data *)
  assert (∃ s1 x, (if decide (lrs < sq)%Z then v_Undelivered v sq s = Some s1 else s1 = s) ∧
    (if (0 <? sq - lrs)%Z then v_Undelivered v sq s else Some s) = Some s1 ∧
    core s1 = set_last_reassem_seq (core s) x) as (s1 & x & Hu1 & Hu2 & Hc1).
  { destruct (Z.ltb_spec 0 (sq - lrs)).
    - destruct Hund as (s1 & x & Hu & Hc); [fold lrs; lia|]. exists s1, x. by rw decide_True; [|lia].
    - exists s, lrs. rw decide_False; [|lia]. split_and!; [done|done|]. unfold lrs. by destruct (core s). }
  rw Hu2 /=. exists s1.
  assert (trimming (core s1) (core s1) l) as Htr1.
  { rw Hc1. by destruct Htr. }
  assert (view (heap (core s1)) l = L) as Hv1 by by rw Hc1.
  pose proof (linked_size _ _ (wf_linked _ _ Hwf)) as Hsize.
  destruct (trim_loop_spec (Datatypes.S (size (heap (core s1)))) sq (initial_missing lrs sq L) s1 (core s1) l 0)
    as (s2 & l2 & Hrun & Htr2 & Hv2 & Hs2 & _); [done|done|by rw Hv1|done|rw Hc1 /=; lia|].
  rw Hv1 in Hrun, Hv2. simpl in Hrun. rw Hrun /=.
  pose proof (trim_chunks_ordered 0 L sq Ho) as Ho2.
  destruct Htr2 as [Hlt2 Hf2 Hla2 Hfr2 Hsame2]. rw Hf2.
  destruct l2 as [|a l2]; simpl.
  - exists (modify (λ r, set_last_block r None) s2). split; [done|]. simpl in Hv2. split.
    + split; [|split; [by unfold modify; rw core_put|]].
      * exists []. unfold modify. rw core_put -Hv2. split; [split; [split; [constructor|done]|done|done|done]|by split].
      * unfold modify. rw core_put Hs2 put_put. by rw core_put.
    + assert (blocks (core (modify (λ r, set_last_block r None) s2)) = None) as ->
        by (unfold modify; rw core_put; exact Hf2). done.
  - destruct (chunk_lookup _ _ 0 a Hlt2 eq_refl) as (d & Hd & Hvd & _). rw Hd /=.
    exists (modify (λ r, set_heap r (<[a := set_prev d None]> (heap r))) s2). split; [done|].
    destruct (linked_reset _ _ _ _ Hlt2 Hd) as [Hl2' Hv2'].
    split.
    + split; [|split; [by unfold modify; rw core_put|]].
      * exists (a :: l2). unfold modify. rw core_put. split; [split; simpl; [done|done|by apply Hla2|]|].
        -- intros y dy [[<- <-]|[_ Hy]]%lookup_insert_Some; [by eapply Hfr2|by eapply Hfr2].
        -- split; [by rw -Hv2 -Hv2'|done].
      * unfold modify. rw core_put Hs2 put_put. by rw core_put.
    + assert (blocks (core (modify (λ r, set_heap r (<[a := set_prev d None]> (heap r))) s2)) = Some a) as ->
        by (unfold modify; rw core_put; exact Hf2).
      assert (∃ L', trim_chunks sq L = (seq d, block d) :: L') as [L' ->].
      { rw -Hv2. exists (view (heap (core s2)) l2). simpl in Hvd. injection Hvd as H1 H2.
        unfold view. simpl. by rw H1 H2. }
      assert (last_reassem_seq (core (modify (λ r, set_heap r (<[a := set_prev d None]> (heap r))) s2)) =
        last_reassem_seq (core s2)) as -> by (unfold modify; by rw core_put).
      done.
Qed.
End trimming.

(** ** Counting missing bytes *)

(** The positions of [[lo, hi)] for which no data is held. *)
Definition uncovered (L : list chunk) (lo hi : Z) : Z :=
  Z.of_nat (length (filter (λ p, content L p = None) (seqZ lo (hi - lo)))).

Lemma filter_ext_in {A} (P Q : A → Prop) `{!∀ x, Decision (P x), !∀ x, Decision (Q x)} (l : list A) :
  (∀ x, x ∈ l → P x ↔ Q x) → filter P l = filter Q l.
Proof.
  induction l as [|x l IH]; intros Hpq; [done|]. rw !filter_cons.
  assert (filter P l = filter Q l) as -> by (apply IH; intros; apply Hpq; by right).
  pose proof (Hpq x ltac:(by left)). by repeat case_decide; try tauto.
Qed.

Lemma uncovered_split L lo m hi :
  (lo ≤ m ≤ hi)%Z → uncovered L lo hi = (uncovered L lo m + uncovered L m hi)%Z.
Proof.
  intros Hm. unfold uncovered. replace (hi - lo)%Z with ((m - lo) + (hi - m))%Z by lia.
  rw seqZ_app; [|lia..]. rw filter_app length_app. replace (lo + (m - lo))%Z with m by lia. lia.
Qed.

Lemma uncovered_all L lo hi :
  (lo ≤ hi)%Z → (∀ p, (lo ≤ p < hi)%Z → content L p = None) → uncovered L lo hi = (hi - lo)%Z.
Proof.
  intros Hlo Hc. unfold uncovered.
  rw (filter_ext_in _ (λ _, True)); [|intros p [? ?]%elem_of_seqZ; split; [done|intros _; apply Hc; lia]].
  assert (∀ l : list Z, filter (λ _, True) l = l) as ->.
  { intros l. induction l as [|x l IH]; [done|]. by rw filter_cons IH. }
  rw length_seqZ. lia.
Qed.

Lemma uncovered_none L lo hi :
  (∀ p, (lo ≤ p < hi)%Z → content L p ≠ None) → uncovered L lo hi = 0%Z.
Proof.
  intros Hc. unfold uncovered.
  rw (filter_ext_in _ (λ _, False)); [|intros p [? ?]%elem_of_seqZ; split; [apply Hc; lia|done]].
  assert (∀ l : list Z, filter (λ _, False) l = []) as ->; [|done].
  intros l. induction l as [|x l IH]; [done|]. by rw filter_cons.
Qed.

Lemma uncovered_ext L L' lo hi :
  (∀ p, (lo ≤ p < hi)%Z → content L p = content L' p) → uncovered L lo hi = uncovered L' lo hi.
Proof.
  intros Hc. unfold uncovered. f_equal. f_equal. apply filter_ext_in.
  intros p [? ?]%elem_of_seqZ. rw Hc; [done|lia].
Qed.

Lemma content_after c L p : (chunk_end c ≤ p)%Z → content (c :: L) p = content L p.
Proof. intros Hp. simpl. rw byte_of_None; [done|lia]. Qed.

Lemma missing_count L lo sq :
  ordered lo max_seq L → (lo ≤ sq)%Z →
  match L with c :: _ => (c.1 ≤ sq)%Z | [] => True end →
  ∃ tol, (0 ≤ tol ≤ 1)%Z ∧
    (initial_missing lo sq L + loop_missing sq L + tol)%Z = uncovered L lo sq ∧
    (content L (sq - 1) ≠ None → tol = 0%Z).
Proof.
  revert lo. induction L as [|c L IH]; intros lo Ho Hlo Hc.
  - exists 0%Z. split; [lia|]. split; [|done]. rw uncovered_all //=. lia.
  - simpl in Ho. destruct Ho as (H1 & H2 & H3). pose proof (len_pos _ H2) as Hlen.
    assert (uncovered (c :: L) lo c.1 = c.1 - lo)%Z as Hu1.
    { apply uncovered_all; [done|]. intros p Hp. apply (content_before c.1 max_seq); [|lia].
      simpl. by split_and!. }
    rw (uncovered_split _ lo c.1); [|lia]. rw Hu1. simpl.
    assert (∀ p, (c.1 ≤ p < chunk_end c)%Z → content (c :: L) p ≠ None) as Hcov.
    { intros p Hp. apply (content_in _ c); [by left|done]. }
    case_decide as Hend; last first.
    { exists 0%Z. split; [lia|]. split; [|done]. rw (uncovered_none _ c.1); [lia|].
      intros p Hp. apply Hcov. lia. }
    assert (c.1 < chunk_end c)%Z by (unfold chunk_end; lia).
    rw (uncovered_split _ c.1 (chunk_end c)); [|lia]. rw (uncovered_none _ c.1) //.
    rw (uncovered_ext (c :: L) L (chunk_end c) sq); [|intros p Hp; by apply content_after; lia].
    assert (match L with c' :: _ => (c'.1 ≤ sq)%Z | [] => False end ∨
      (gap_after sq c L = if decide (chunk_end c = sq ∨ chunk_end c = sq - 1)%Z then 0 else sq - chunk_end c)%Z ∧
      loop_missing sq L = 0%Z ∧ ∀ p, (chunk_end c ≤ p ≤ sq)%Z → content L p = None) as [Hnext|(Hg & Hl & Hnone)].
    { destruct L as [|c' L]; simpl; [by right|]. destruct (decide (c'.1 ≤ sq)%Z); [by left|right].
      split; [done|]. simpl in H3. destruct H3 as (? & Hne & ?). pose proof (len_pos _ Hne).
      split; [rw decide_False; [done|unfold chunk_end; lia]|].
      intros p Hp. rw byte_of_None; [|lia]. eapply content_before; [done|]. unfold chunk_end. lia. }
    + destruct L as [|c' L]; [done|].
      destruct (IH (chunk_end c) H3 Hend Hnext) as (tol & Ht & Hsum & Htol).
      exists tol. split; [done|]. split.
      * simpl in H3. rw -Hsum. unfold gap_after. rw decide_True //. simpl. lia.
      * intros Hcs. destruct (decide (chunk_end c ≤ sq - 1)%Z) as [Hle|Hgt].
        { apply Htol. intros Hn. apply Hcs. rw byte_of_None; [done|lia]. }
        assert (chunk_end c = sq) as Heq by lia. rw Heq in Hsum.
        rw (uncovered_none _ sq sq) in Hsum; [|lia].
        simpl in H3, Hsum. destruct H3 as (? & Hne & _). pose proof (len_pos _ Hne).
        rw decide_False in Hsum; [lia|unfold chunk_end; lia].
    + rw Hl (uncovered_all L (chunk_end c) sq) //; [|intros p Hp; apply Hnone; lia]. rw Hg.
      case_decide as Hd.
      * exists (sq - chunk_end c)%Z. split; [lia|]. split; [lia|]. intros Hcs.
        destruct (decide (chunk_end c = sq)); [lia|]. exfalso. apply Hcs.
        rw byte_of_None; [|lia]. apply Hnone. lia.
      * exists 0%Z. split; [lia|]. split; [lia|done].
Qed.

(** ** ClearBlocks and TotalSize *)

Section clearing.
Context {St : Type} `{HasReassembler St} `{!ReassemblerLaws St}.

Lemma clear_loop_spec fuel (s : St) r0 l :
  trimming r0 (core s) l → length l < fuel →
  ∃ s', clear_loop fuel s = Some s' ∧ trimming r0 (core s') [] ∧ s' = put (core s') s.
Proof.
  revert s l. induction fuel as [|fuel IH]; intros s l Ht Hf; [lia|]. simpl.
  rw (tr_first _ _ _ Ht). destruct l as [|a l]; simpl.
  { exists s. by rw put_core. }
  pose proof (tr_linked _ _ _ Ht) as Hlt.
  destruct (chunk_lookup _ _ 0 a Hlt eq_refl) as (d & Hd & _). rw Hd /=.
  destruct (linked_tail_head _ _ _ _ Hlt Hd) as (Hnx & _ & Hlt' & _).
  set (s1 := modify (λ r, set_blocks (set_heap r (delete a (heap r))) (next d)) s).
  assert (trimming r0 (core s1) l) as Ht1.
  { unfold s1, modify. rw core_put. destruct Ht as [_ _ Hlast Hfr Hsame]. split; simpl; [done|done| | |done].
    - intros Hne. rw Hlast //. rw last_cons. destruct (last l) eqn:Hll; [done|]. by apply last_None in Hll.
    - intros x dx [_ Hx]%lookup_delete_Some. by eapply Hfr. }
  destruct (IH s1 l Ht1) as (s' & Hrun & Ht' & Hs'); [simpl in Hf; lia|].
  exists s'. split; [done|]. split; [done|]. rw {1}Hs'. unfold s1, modify. by rw put_put.
Qed.

Lemma ClearBlocks_spec (s : St) L :
  rep (core s) L →
  ∃ s', ClearBlocks s = Some s' ∧ rep (core s') [] ∧ same_seqs (core s) (core s') ∧ s' = put (core s') s.
Proof.
  intros (l & Hwf & _ & _). unfold ClearBlocks.
  pose proof (linked_size _ _ (wf_linked _ _ Hwf)) as Hsize.
  destruct (clear_loop_spec (Datatypes.S (size (heap (core s)))) s (core s) l) as (s1 & Hrun & Ht1 & Hs1);
    [by apply trimming_wf|lia|].
  rw Hrun /=. eexists. split; [done|]. destruct Ht1 as [_ Hf _ Hfr Hsame].
  unfold modify. rw core_put. split; [|split; [exact Hsame|]].
  - exists []. split; [split; [split; [constructor|done]|done|done|done]|by split].
  - rw Hs1 put_put. done.
Qed.

(** The number of bytes a list of chunks holds. *)
Definition bytes_held (L : list chunk) : Z := foldr (λ c n, len c.2 + n)%Z 0%Z L.

Lemma total_size_spec fuel h l i :
  linked h l → length l - i ≤ fuel → total_size fuel h (l !! i) = Some (bytes_held (drop i (view h l))).
Proof.
  intros Hl. revert i. induction fuel as [|fuel IH]; intros i Hf.
  - rw lookup_ge_None_2; [|lia]. rw drop_ge; [done|]. unfold view. rw length_fmap. lia.
  - destruct (l !! i) as [a|] eqn:Hi; simpl; last first.
    { apply lookup_ge_None in Hi. rw drop_ge; [done|]. unfold view. by rw length_fmap. }
    destruct (linked_lookup _ _ _ _ Hl Hi) as (-> & _ & Hn & Hu). simpl. rw Hn.
    pose proof (lookup_lt_Some _ _ _ Hi).
    rw (IH (S i)); [|lia]. rw (drop_S _ _ _ (view_lookup h l i a Hi)) /=. f_equal.
    unfold Size. rw Hu. lia.
Qed.

Lemma TotalSize_spec (s : St) L : rep (core s) L → TotalSize s = Some (bytes_held L).
Proof.
  intros (l & Hwf & <- & _). unfold TotalSize. rw (wf_first _ _ Hwf) head_lookup.
  rw (total_size_spec _ _ l 0); [by rw drop_0|apply Hwf|].
  pose proof (linked_size _ _ (wf_linked _ _ Hwf)). lia.
Qed.

End clearing.

(** ** Properties *)

(** The data that survives the cut at [trim_seq]. *)
Lemma byte_of_cut sq tr data p :
  (tr < sq + len data)%Z →
  byte_of (Z.max sq tr, drop (Z.to_nat (tr - sq)) data) p =
    if decide (tr ≤ p)%Z then byte_of (sq, data) p else None.
Proof.
  intros Htr. unfold byte_of, chunk_end. simpl. rw len_drop.
  destruct (decide (tr ≤ p)%Z); repeat case_decide; try lia; try done.
  rw lookup_drop. f_equal. lia.
Qed.

(** C16. New data fills exactly the positions at and above [trim_seq] for which no
    byte was held: bytes that have been received before win over a later,
    possibly different copy, the list of blocks stays in order and free of
    overlaps, and [BlockInserted] is then called for a block of the list.  [Overlap]
    is only called for bytes that are in both buffers. *)
Theorem NewBlock_fills_gaps {St} `{HasReassembler St} `{!ReassemblerLaws St} (v : virtuals St)
    (Q : St → Prop) (s : St) (L : list chunk) (sq : Z) (data : bytes)
    (HOv : overlap_reports v Q) (HQ : Q s) (Hrep : rep (core s) L)
    (Htr : in_range (trim_seq (core s))) (Hsq : (0 ≤ sq)%Z) (Hup : (sq + len data ≤ max_seq)%Z)
    (Hnew : data ≠ [] ∧ (trim_seq (core s) < sq + len data)%Z) :
  ∃ nb s1 L1, NewBlock v sq (len data) data s = v_BlockInserted v nb s1 ∧
    rep (core s1) L1 ∧ is_Some (heap (core s1) !! nb) ∧ same_seqs (core s) (core s1) ∧ Q s1 ∧
    ∀ p, content L1 p = match content L p with
      | Some x => Some x
      | None => if decide (trim_seq (core s) ≤ p)%Z then byte_of (sq, data) p else None
      end.
Proof.
  destruct Hnew as [Hd Hlt].
  pose proof (NewBlock_spec v Q HOv s L sq data HQ Hrep Htr Hsq Hup) as Hspec.
  rw decide_False in Hspec; [|intros [?|?]; [done|lia]].
  destruct Hspec as (nb & s1 & (l1 & Hwf1 & Hv1 & Ho1 & Hnb & Hs1 & _) & Hrun).
  exists nb, s1, (add_data L (Z.max sq (trim_seq (core s))) (drop (Z.to_nat (trim_seq (core s) - sq)) data)).
  split; [done|]. split; [by exists l1|]. split; [|split; [apply Hs1|split; [by apply Hs1|]]].
  - apply list_elem_of_lookup_1 in Hnb as [i Hi].
    destruct (linked_lookup _ _ _ _ (wf_linked _ _ Hwf1) Hi) as [-> _]. by eexists.
  - intros p. destruct Hrep as (l & Hwf & Hv & Ho). rw (add_data_content 0 max_seq) //; [by rw byte_of_cut|].
    intros Hn. apply (f_equal len) in Hn. rw len_drop in Hn. pose proof (len_pos _ Hd). change (len []) with 0%Z in Hn. lia.
Qed.

(** [TrimToSeq] keeps exactly the blocks that reach above [seq], and returns
    the number of bytes between [last_reassem_seq] and [seq] that were never
    received, up to one (the octet a FIN takes): it is exact when the byte before
    [seq] was received.  This holds when the first block does not start above
    [seq]. *)
Theorem TrimToSeq_counts_missing {St} `{HasReassembler St} `{!ReassemblerLaws St} (v : virtuals St)
    (s : St) (L : list chunk) (sq : Z)
    (Hund : undelivered_moves v sq s) (HBI : ∀ a s, is_Some (v_BlockInserted v a s))
    (Hrep : rep (core s) L) (Hsq : in_range sq) (Hlrs : (0 ≤ last_reassem_seq (core s) ≤ sq)%Z)
    (Hfirst : match L with c :: _ => (last_reassem_seq (core s) ≤ c.1 ≤ sq)%Z | [] => True end) :
  ∃ n s2 s', TrimToSeq v sq s = Some (n, s') ∧ rep (core s2) (trim_chunks sq L) ∧
    (s' = s2 ∨ (∃ a, v_BlockInserted v a s2 = Some s') ∨ (∃ s3, s' = modify (λ r, set_trim_seq r sq) s3 ∧
       (s3 = s2 ∨ ∃ a, v_BlockInserted v a s2 = Some s3))) ∧
    (n ≤ uncovered L (last_reassem_seq (core s)) sq ≤ n + 1)%Z ∧
    (content L (sq - 1) ≠ None → n = uncovered L (last_reassem_seq (core s)) sq).
Proof.
  pose proof Hrep as (l & _ & _ & Ho).
  destruct (TrimToSeq_spec v s L sq Hund Hrep Hsq) as (s1 & s2 & _ & (Hr2 & _ & _) & Hrun);
    [unfold in_range in *; lia|].
  set (lrs := last_reassem_seq (core s)) in *.
  assert (ordered lrs max_seq L) as Hol.
  { destruct L as [|c L]; simpl in *; [unfold in_range in Hsq; lia|]. destruct Ho as (? & ? & ?). split; [lia|by split]. }
  destruct (missing_count L lrs sq Hol) as (tol & Ht & Hsum & Htol); [lia|destruct L; [done|]; simpl in *; lia|].
  set (n := (initial_missing lrs sq L + loop_missing sq L)%Z) in *.
  assert (∃ s3, match blocks (core s2), trim_chunks sq L with
      | Some a, c :: _ => if (c.1 =? last_reassem_seq (core s2))%Z then v_BlockInserted v a s2 else Some s2
      | _, _ => Some s2 end = Some s3 ∧ (s3 = s2 ∨ ∃ a, v_BlockInserted v a s2 = Some s3)) as (s3 & H3 & Hor).
  { destruct (blocks (core s2)) as [a|]; [|by eauto]. destruct (trim_chunks sq L) as [|c ?]; [by eauto|].
    destruct (c.1 =? _)%Z; [|by eauto]. destruct (HBI a s2) as [s3 Hs3]. exists s3. eauto. }
  rw H3 /= in Hrun.
  exists n, s2, (if (0 <? seq_delta sq (trim_seq (core s3)))%Z then modify (λ r, set_trim_seq r sq) s3 else s3).
  split; [done|]. split; [done|]. split; [|split; [lia|intros Hc%Htol; lia]].
  destruct (0 <? _)%Z; [right; right; eauto|]. destruct Hor as [->|Hor]; [by left|right; by left].
Qed.

(** When the first block starts above [seq], [TrimToSeq] returns the length of
    the whole hole below that block, not of the part that is trimmed: the rest of
    the hole is reported as missing although it may still arrive, and is counted
    again by the next call. *)
Theorem TrimToSeq_overcounts {St} `{HasReassembler St} `{!ReassemblerLaws St} (v : virtuals St)
    (s : St) (L : list chunk) (c : chunk) (sq : Z)
    (Hund : undelivered_moves v sq s) (Hrep : rep (core s) (c :: L)) (Hsq : in_range sq)
    (Hlrs : (0 ≤ last_reassem_seq (core s) < sq)%Z) (Hc : (sq < c.1)%Z)
    (HBI : ∀ a s, is_Some (v_BlockInserted v a s)) :
  ∃ s', TrimToSeq v sq s = Some (c.1 - last_reassem_seq (core s), s')%Z ∧
    (uncovered (c :: L) (last_reassem_seq (core s)) sq < c.1 - last_reassem_seq (core s))%Z.
Proof.
  pose proof Hrep as (l & _ & _ & Ho). simpl in Ho. destruct Ho as (H1 & H2 & H3).
  pose proof (len_pos _ H2).
  destruct (TrimToSeq_spec v s (c :: L) sq Hund Hrep Hsq) as (s1 & s2 & _ & _ & Hrun);
    [unfold in_range in *; lia|].
  assert (trim_chunks sq (c :: L) = c :: L) as Htc by (simpl; rw decide_False; [done|unfold chunk_end; lia]).
  assert (loop_missing sq (c :: L) = 0%Z) as Hlm by (simpl; rw decide_False; [done|unfold chunk_end; lia]).
  rw Htc Hlm Z.add_0_r /= Z.max_r in Hrun; [|lia].
  rw uncovered_all; [|lia|intros p Hp; apply (content_before c.1 max_seq); [by split_and!|lia]].
  destruct (blocks (core s2)) as [a|]; [destruct (c.1 =? _)%Z; [destruct (HBI a s2) as [s3 Hs3]; rw Hs3 in Hrun|]|];
    simpl in Hrun; (eexists; split; [exact Hrun|lia]).
Qed.

(** ** Witnesses *)

(** A reassembler on its own, with silent virtual functions. *)
#[local] Instance self_reassembler : HasReassembler Reassembler := {| core r := r; put r _ := r |}.
#[local] Instance self_laws : ReassemblerLaws Reassembler.
Proof. by split. Qed.

Definition silent : virtuals Reassembler :=
  mkVirtuals (λ _ s, Some s) (λ _ _ _ s, Some s) Undelivered.

Lemma silent_overlap : overlap_reports silent (λ _, True).
Proof. split; [done|]. intros ? ? ? s _ _ _. by exists s. Qed.

Lemma silent_undelivered sq s : undelivered_moves silent sq s.
Proof. intros _. by exists (set_last_reassem_seq s sq), sq. Qed.

(** Bytes 1 to 3 missing, then two blocks, [4, 6) and [8, 9). *)
Definition gap_sample : Reassembler :=
  mkR (Some 0) (Some 1) 1 1
    {[ 0 := mkBlock (Some 1) None 4 6 [10; 11]%Z; 1 := mkBlock None (Some 0) 8 9 [14]%Z ]} 2.

Lemma gap_sample_rep : rep gap_sample [(4, [10; 11]); (8, [14])]%Z.
Proof.
  exists [0; 1]. split; [split|by split_and!]; simpl; try done.
  - split; [by apply (bool_decide_unpack _)|]. intros [|[|i]] a Ha; simplify_eq/=.
    + by eexists.
    + by eexists.
  - intros a d [[<- _]|[_ [<- _]%lookup_singleton_Some]]%lookup_insert_Some; lia.
Qed.

Lemma NewBlock_fills_gaps_witness :
  ∃ nb s1 L1, NewBlock silent 2 6 [1; 2; 3; 4; 5; 6]%Z gap_sample = v_BlockInserted silent nb s1 ∧
    rep s1 L1 ∧ content L1 4 = Some 10%Z ∧ content L1 6 = Some 5%Z.
Proof.
  destruct (NewBlock_fills_gaps silent _ gap_sample _ 2 [1; 2; 3; 4; 5; 6]%Z silent_overlap I gap_sample_rep)
    as (nb & s1 & L1 & H1 & H2 & _ & _ & _ & H5);
    [split; simpl; unfold max_seq; lia|lia|unfold len, max_seq; simpl; lia|split; [done|simpl; unfold len; simpl; lia]|].
  exists nb, s1, L1. split; [exact H1|]. split; [exact H2|]. rw !H5. split; reflexivity.
Defined.

Lemma TrimToSeq_counts_missing_witness :
  ∃ n s', TrimToSeq silent 9 gap_sample = Some (n, s') ∧ n = 5%Z.
Proof.
  destruct (TrimToSeq_counts_missing silent gap_sample [(4, [10; 11]); (8, [14])]%Z 9 (silent_undelivered _ _))
    as (n & s2 & s' & H1 & _ & _ & _ & H4).
  { intros a s. by eexists. } { exact gap_sample_rep. }
  { unfold in_range, max_seq. lia. } { simpl. lia. } { simpl. lia. }
  exists n, s'. split; [exact H1|]. rw H4; [reflexivity|discriminate].
Defined.

Lemma TrimToSeq_overcounts_witness :
  ∃ s', TrimToSeq silent 2 gap_sample = Some (3, s')%Z ∧
    TrimToSeq silent 4 s' = Some (2%Z, set_trim_seq (set_last_reassem_seq s' 4) 4).
Proof.
  destruct (TrimToSeq_overcounts silent gap_sample [(8, [14])]%Z (4, [10; 11])%Z 2 (silent_undelivered _ _) gap_sample_rep)
    as (s' & H1 & _); [unfold in_range, max_seq; lia|simpl; lia|simpl; lia|intros a s; by eexists|].
  exists s'. split; [exact H1|]. vm_compute in H1. injection H1 as <-. vm_compute. reflexivity.
Defined.

End R.
