(* ===== verification/IP.v ===== *)
(** IP: the packet headers of IP.h / IP.cc.

    A packet is the list of its bytes; the pointers into it are offsets, and a
    read outside the packet has no result ([None]).  [IPv6_Hdr_Chain::Init]
    walks the extension headers of an IPv6 packet; [IP_Hdr] gives both versions
    one interface. *)
From S2P Require Import Prelude.
From stdpp Require Import strings pretty.

Module IP.

Abbreviation bytes := (list Z) (only parsing).

(** ** Reading packets *)

Definition get8 (p : bytes) (i : Z) : option Z :=
  if decide (0 ≤ i)%Z then p !! Z.to_nat i else None.
(** [ntohs] and [ntohl] of the field at an offset. *)
Definition get16 (p : bytes) (i : Z) : option Z :=
  a ← get8 p i; b ← get8 p (i + 1); Some (a * 256 + b)%Z.
Definition get32 (p : bytes) (i : Z) : option Z :=
  a ← get16 p i; b ← get16 p (i + 2); Some (a * 65536 + b)%Z.
Definition slice (p : bytes) (i n : Z) : option bytes :=
  if decide (0 ≤ i ∧ 0 ≤ n ∧ i + n ≤ Z.of_nat (length p))%Z
  then Some (take (Z.to_nat n) (drop (Z.to_nat i) p)) else None.
Definition set8 (p : bytes) (i v : Z) : option bytes :=
  if decide (0 ≤ i < Z.of_nat (length p))%Z then Some (<[Z.to_nat i := v]> p) else None.

(** Protocol numbers (netinet/in.h). *)
Definition IPPROTO_HOPOPTS : Z := 0.
Definition IPPROTO_IPV6 : Z := 41.
Definition IPPROTO_ROUTING : Z := 43.
Definition IPPROTO_FRAGMENT : Z := 44.
Definition IPPROTO_ESP : Z := 50.
Definition IPPROTO_AH : Z := 51.
Definition IPPROTO_NONE : Z := 59.
Definition IPPROTO_DSTOPTS : Z := 60.
Definition IPPROTO_MOBILITY : Z := 135.
Definition IPPROTO_RAW : Z := 255.

(** ** IPv6 headers *)

Record IPv6_Hdr := mkIPv6Hdr { type : Z; data : Z }.

Record IPv6_Hdr_Chain := mkChain {
  chain : list IPv6_Hdr; total_length : Z;
  homeAddr : option bytes; finalDst : option bytes; weirds : list string
}.

Definition empty_chain : IPv6_Hdr_Chain := mkChain [] 0 None None [].

Section headers.
(** The configuration option of the build. *)
Variable ENABLE_MOBILE_IPV6 : bool.

Definition is_mobility (t : Z) : bool := ENABLE_MOBILE_IPV6 && (t =? IPPROTO_MOBILITY)%Z.

(** The headers whose first byte is the next header. *)
Definition has_next (t : Z) : bool :=
  ((t =? IPPROTO_HOPOPTS) || (t =? IPPROTO_DSTOPTS) || (t =? IPPROTO_ROUTING) ||
   (t =? IPPROTO_FRAGMENT) || (t =? IPPROTO_AH))%Z || is_mobility t.

Definition ChangeNext (h : IPv6_Hdr) (next_type : Z) (p : bytes) : option bytes :=
  if (type h =? IPPROTO_IPV6)%Z then set8 p (data h + 6) next_type
  else if has_next (type h) then set8 p (data h) next_type
  else Some p.

Definition NextHdr (p : bytes) (h : IPv6_Hdr) : option Z :=
  if (type h =? IPPROTO_IPV6)%Z then get8 p (data h + 6)
  else if has_next (type h) then get8 p (data h)
  else Some IPPROTO_NONE.

Definition Length (p : bytes) (h : IPv6_Hdr) : option Z :=
  let t := type h in
  if (t =? IPPROTO_IPV6)%Z then Some 40%Z
  else if ((t =? IPPROTO_HOPOPTS) || (t =? IPPROTO_DSTOPTS) || (t =? IPPROTO_ROUTING))%Z || is_mobility t then
    n ← get8 p (data h + 1); Some (uint16 (8 + 8 * n))
  else if (t =? IPPROTO_FRAGMENT)%Z then Some 8%Z
  else if (t =? IPPROTO_AH)%Z then n ← get8 p (data h + 1); Some (uint16 (8 + 4 * n))
  else if (t =? IPPROTO_ESP)%Z then Some 8%Z
  else Some 0%Z.

Definition isIPv6ExtHeader (t : Z) : bool :=
  ((t =? IPPROTO_HOPOPTS) || (t =? IPPROTO_ROUTING) || (t =? IPPROTO_DSTOPTS) ||
   (t =? IPPROTO_FRAGMENT) || (t =? IPPROTO_AH) || (t =? IPPROTO_ESP))%Z || is_mobility t.

Definition add_weird (c : IPv6_Hdr_Chain) (w : string) : IPv6_Hdr_Chain :=
  mkChain (chain c) (total_length c) (homeAddr c) (finalDst c) (weirds c ++ [w]).
Definition set_finalDst (c : IPv6_Hdr_Chain) (a : bytes) : IPv6_Hdr_Chain :=
  mkChain (chain c) (total_length c) (homeAddr c) (Some a) (weirds c).
Definition set_homeAddr (c : IPv6_Hdr_Chain) (a : bytes) : IPv6_Hdr_Chain :=
  mkChain (chain c) (total_length c) (Some a) (finalDst c) (weirds c).

Definition ProcessRoutingHeader (p : bytes) (r len : Z) (c : IPv6_Hdr_Chain) : option IPv6_Hdr_Chain :=
  match finalDst c with
  | Some _ => Some (add_weird c "multiple_routing_headers")
  | None =>
    let addr := slice p (r + len - 16) 16 in
    ip6r_type ← get8 p (r + 2); ip6r_segleft ← get8 p (r + 3); ip6r_len ← get8 p (r + 1);
    if (ip6r_type =? 0)%Z then
      c ← (if (0 <? ip6r_segleft)%Z && (2 <=? ip6r_len)%Z then
             if (ip6r_len mod 2 =? 0)%Z then a ← addr; Some (set_finalDst c a)
             else Some (add_weird c "odd_routing0_len")
           else Some c);
      Some (add_weird c "routing0_hdr")
    else if ENABLE_MOBILE_IPV6 && (ip6r_type =? 2)%Z then
      if (0 <? ip6r_segleft)%Z then
        if (ip6r_len =? 2)%Z then a ← addr; Some (set_finalDst c a)
        else Some (add_weird c "bad_routing2_len")
      else Some c
    else Some (add_weird c ("unknown_routing_type_" +:+ pretty (Z.to_N ip6r_type)))
  end.

(** The loop over the options; [len] is a [uint16]. *)
Fixpoint dst_opts_loop (fuel : nat) (p : bytes) (data len : Z) (c : IPv6_Hdr_Chain)
    : option IPv6_Hdr_Chain :=
  match fuel with
  | O => None
  | S fuel =>
    if (0 <? len)%Z then
      ip6o_type ← get8 p data;
      c ← (if (ip6o_type =? 201)%Z then
             ip6o_len ← get8 p (data + 1);
             if (ip6o_len =? 16)%Z then
               match homeAddr c with
               | Some _ => Some (add_weird c "multiple_home_addr_opts")
               | None => a ← slice p (data + 2) 16; Some (set_homeAddr c a)
               end
             else Some (add_weird c "bad_home_addr_len")
           else Some c);
      if (ip6o_type =? 0)%Z then dst_opts_loop fuel p (data + 1) (uint16 (len - 1)) c
      else
        ip6o_len ← get8 p (data + 1);
        dst_opts_loop fuel p (data + (2 + ip6o_len)) (uint16 (len - (2 + ip6o_len))) c
    else Some c
  end.

Definition ProcessDstOpts (p : bytes) (d len : Z) (c : IPv6_Hdr_Chain) : option IPv6_Hdr_Chain :=
  dst_opts_loop (S (length p)) p (d + 2) (uint16 (len - 2)) c.

(** The body of [Init] and its [do ... while]. *)
Fixpoint init_loop (fuel : nat) (p : bytes) (hdrs total_len next_type : Z)
    (set_next : bool) (next : Z) (c : IPv6_Hdr_Chain) : option (bytes * IPv6_Hdr_Chain) :=
  match fuel with
  | O => None
  | S fuel =>
    if (total_len <? 2)%Z then Some (p, c)
    else
      let current_type := next_type in
      let h := mkIPv6Hdr current_type hdrs in
      next_type ← NextHdr p h;
      cur_len ← Length p h;
      if (total_len <? cur_len)%Z then Some (p, c)
      else
        '(p, next_type) ←
          (if set_next && (next_type =? IPPROTO_FRAGMENT)%Z
           then p ← ChangeNext h (uint8 next) p; Some (p, uint8 next) else Some (p, next_type));
        let c := mkChain (chain c ++ [h]) (total_length c) (homeAddr c) (finalDst c) (weirds c) in
        c ← (if (current_type =? IPPROTO_ROUTING)%Z then ProcessRoutingHeader p hdrs cur_len c else Some c);
        c ← (if ENABLE_MOBILE_IPV6 && (current_type =? IPPROTO_DSTOPTS)%Z
             then ProcessDstOpts p hdrs cur_len c else Some c);
        let c := mkChain (chain c) (uint16 (total_length c + cur_len)) (homeAddr c) (finalDst c) (weirds c) in
        if negb (current_type =? IPPROTO_FRAGMENT)%Z && negb (current_type =? IPPROTO_ESP)%Z &&
           negb (is_mobility current_type) && isIPv6ExtHeader next_type
        then init_loop fuel p (hdrs + cur_len) (total_len - cur_len) next_type set_next next c
        else Some (p, c)
  end.

(** A packet shorter than the fixed header is an internal error. *)
Definition Init (p : bytes) (total_len : Z) (set_next : bool) (next : Z) : option (bytes * IPv6_Hdr_Chain) :=
  if (total_len <? 40)%Z then None
  else init_loop (S (Z.to_nat total_len)) p 0 total_len IPPROTO_IPV6 set_next next empty_chain.

(** [chain[chain.size()-1]] *)
Definition last_hdr (c : IPv6_Hdr_Chain) : option IPv6_Hdr := last (chain c).

Definition Size (c : IPv6_Hdr_Chain) : Z := Z.of_nat (length (chain c)).
Definition TotalLength (c : IPv6_Hdr_Chain) : Z := total_length c.

Definition chain_IsFragment (c : IPv6_Hdr_Chain) : option bool :=
  h ← last_hdr c; Some (type h =? IPPROTO_FRAGMENT)%Z.
(** [GetFragHdr]: the offset of the fragment header. *)
Definition GetFragHdr (c : IPv6_Hdr_Chain) : option (option Z) :=
  h ← last_hdr c; Some (if (type h =? IPPROTO_FRAGMENT)%Z then Some (data h) else None).
Definition chain_FragOffset (p : bytes) (c : IPv6_Hdr_Chain) : option Z :=
  f ← GetFragHdr c;
  match f with Some d => x ← get16 p (d + 2); Some (Z.land x 0xfff8) | None => Some 0%Z end.
Definition chain_ID (p : bytes) (c : IPv6_Hdr_Chain) : option Z :=
  f ← GetFragHdr c; match f with Some d => get32 p (d + 4) | None => Some 0%Z end.
Definition chain_MF (p : bytes) (c : IPv6_Hdr_Chain) : option bool :=
  f ← GetFragHdr c;
  match f with Some d => x ← get16 p (d + 2); Some (negb (Z.land x 1 =? 0)%Z) | None => Some false end.
Definition chain_SrcAddr (p : bytes) (c : IPv6_Hdr_Chain) : option bytes :=
  match homeAddr c with
  | Some a => Some a
  | None => h ← head (chain c); slice p (data h + 8) 16
  end.
Definition chain_DstAddr (p : bytes) (c : IPv6_Hdr_Chain) : option bytes :=
  match finalDst c with
  | Some a => Some a
  | None => h ← head (chain c); slice p (data h + 24) 16
  end.

(** ** IP_Hdr *)

Inductive IP_Hdr :=
  | Hdr4 (p : bytes)
  | Hdr6 (p : bytes) (c : IPv6_Hdr_Chain).

Definition ip_v (p : bytes) : option Z := x ← get8 p 0; Some (Z.shiftr x 4).
Definition ip_hl (p : bytes) : option Z := x ← get8 p 0; Some (Z.land x 15).

(** Another version is an internal error. *)
Definition IP_Hdr_new (p : bytes) (len : Z) : option IP_Hdr :=
  v ← ip_v p;
  if (v =? 4)%Z then Some (Hdr4 p)
  else if (v =? 6)%Z then '(p, c) ← Init p len false 0; Some (Hdr6 p c)
  else None.

Definition packet (h : IP_Hdr) : bytes := match h with Hdr4 p | Hdr6 p _ => p end.
Definition IP4_Hdr (h : IP_Hdr) : bool := match h with Hdr4 _ => true | Hdr6 _ _ => false end.

Definition SrcAddr (h : IP_Hdr) : option bytes :=
  match h with Hdr4 p => slice p 12 4 | Hdr6 p c => chain_SrcAddr p c end.
Definition DstAddr (h : IP_Hdr) : option bytes :=
  match h with Hdr4 p => slice p 16 4 | Hdr6 p c => chain_DstAddr p c end.
Definition IPHeaderSrcAddr (h : IP_Hdr) : option bytes :=
  match h with Hdr4 p => slice p 12 4 | Hdr6 p _ => slice p 8 16 end.
Definition IPHeaderDstAddr (h : IP_Hdr) : option bytes :=
  match h with Hdr4 p => slice p 16 4 | Hdr6 p _ => slice p 24 16 end.
Definition HdrLen (h : IP_Hdr) : option Z :=
  match h with Hdr4 p => x ← ip_hl p; Some (x * 4)%Z | Hdr6 _ c => Some (TotalLength c) end.
Definition TotalLen (h : IP_Hdr) : option Z :=
  match h with Hdr4 p => get16 p 2 | Hdr6 p _ => x ← get16 p 4; Some (x + 40)%Z end.
Definition PayloadLen (h : IP_Hdr) : option Z :=
  match h with
  | Hdr4 p => n ← get16 p 2; x ← ip_hl p; Some (uint16 (n - x * 4))
  | Hdr6 p c => n ← get16 p 4; Some (uint16 (n + 40 - TotalLength c))
  end.
(** [Payload()]: the offset of the payload. *)
Definition Payload (h : IP_Hdr) : option Z := HdrLen h.
Definition LastHeader (h : IP_Hdr) : option Z :=
  match h with Hdr4 _ => Some IPPROTO_RAW | Hdr6 _ c => x ← last_hdr c; Some (type x) end.
Definition NextProto (h : IP_Hdr) : option Z :=
  match h with Hdr4 p => get8 p 9 | Hdr6 p c => x ← last_hdr c; NextHdr p x end.
Definition TTL (h : IP_Hdr) : option Z :=
  match h with Hdr4 p => get8 p 8 | Hdr6 p _ => get8 p 7 end.
Definition IsFragment (h : IP_Hdr) : option bool :=
  match h with
  | Hdr4 p => x ← get16 p 6; Some (negb (Z.land x 0x3fff =? 0)%Z)
  | Hdr6 _ c => chain_IsFragment c
  end.
Definition FragOffset (h : IP_Hdr) : option Z :=
  match h with
  | Hdr4 p => x ← get16 p 6; Some (Z.land x 0x1fff * 8)%Z
  | Hdr6 p c => chain_FragOffset p c
  end.
Definition ID (h : IP_Hdr) : option Z :=
  match h with Hdr4 p => get16 p 4 | Hdr6 p c => chain_ID p c end.
Definition MF (h : IP_Hdr) : option bool :=
  match h with
  | Hdr4 p => x ← get16 p 6; Some (negb (Z.land x 0x2000 =? 0)%Z)
  | Hdr6 p c => chain_MF p c
  end.
Definition DF (h : IP_Hdr) : option bool :=
  match h with
  | Hdr4 p => x ← get16 p 6; Some (negb (Z.land x 0x4000 =? 0)%Z)
  | Hdr6 _ _ => Some false
  end.
Definition FlowLabel (h : IP_Hdr) : option Z :=
  match h with Hdr4 _ => Some 0%Z | Hdr6 p _ => x ← get32 p 0; Some (Z.land x 0x000fffff) end.
Definition NumHeaders (h : IP_Hdr) : Z :=
  match h with Hdr4 _ => 1%Z | Hdr6 _ c => Size c end.

End headers.

(** ** Specification *)

(** The octets of a packet. *)
Definition bytes_ok (p : bytes) : Prop := Forall (λ x, 0 ≤ x < 256)%Z p.

(** A fragment header and an encrypted payload end the chain. *)
Definition ends_chain (t : Z) : bool := ((t =? IPPROTO_FRAGMENT) || (t =? IPPROTO_ESP))%Z.

(** The headers [l] follow each other in the packet from [off] to [off'], each
    of the type the one before announces. *)
Fixpoint links (m : bool) (p : bytes) (off t : Z) (l : list IPv6_Hdr) (off' : Z) : Prop :=
  match l with
  | [] => off = off'
  | h :: l => h = mkIPv6Hdr t off ∧ ∃ nt len, NextHdr m p h = Some nt ∧ Length m p h = Some len ∧
                (8 ≤ len)%Z ∧ (l ≠ [] → isIPv6ExtHeader m nt = true ∧ ends_chain t = false) ∧
                links m p (off + len) nt l off'
  end.

(** ** Reads *)

Lemma get8_lookup p i x : get8 p i = Some x ↔ (0 ≤ i)%Z ∧ p !! Z.to_nat i = Some x.
Proof. unfold get8. case_decide; naive_solver. Qed.

Lemma get8_bounds p i x : bytes_ok p → get8 p i = Some x → (0 ≤ x < 256)%Z.
Proof. intros Hp [_ Hx]%get8_lookup. exact (proj1 (Forall_lookup _ _) Hp _ _ Hx). Qed.

Lemma get8_in p i : (0 ≤ i < Z.of_nat (length p))%Z → ∃ x, get8 p i = Some x.
Proof.
  intros Hi. destruct (lookup_lt_is_Some_2 p (Z.to_nat i)) as [x Hx]; [lia|].
  exists x. apply get8_lookup. split; [lia|done].
Qed.

Lemma get16_bounds p i x : bytes_ok p → get16 p i = Some x → (0 ≤ x < 65536)%Z.
Proof.
  unfold get16. intros Hp. destruct (get8 p i) as [a|] eqn:Ha; [|done].
  destruct (get8 p (i + 1)) as [b|] eqn:Hb; [|done]. intros [= <-].
  apply (get8_bounds _ _ _ Hp) in Ha, Hb. lia.
Qed.

Lemma get8_agree p p' i :
  (∀ j, j ≤ Z.to_nat i → p' !! j = p !! j) → get8 p' i = get8 p i.
Proof. intros H. unfold get8. case_decide; [|done]. by apply H. Qed.

Lemma slice_in p i n : (0 ≤ i)%Z → (0 ≤ n)%Z → (i + n ≤ Z.of_nat (length p))%Z → is_Some (slice p i n).
Proof. intros. unfold slice. rw decide_True; [|done]. by eexists. Qed.

Lemma set8_in p i v : (0 ≤ i < Z.of_nat (length p))%Z → set8 p i v = Some (<[Z.to_nat i := v]> p).
Proof. intros. unfold set8. by rw decide_True. Qed.

Lemma bytes_ok_insert p i v : bytes_ok p → (0 ≤ v < 256)%Z → bytes_ok (<[i := v]> p).
Proof. intros. by apply Forall_insert. Qed.

(** ** The chain of headers, without Mobile IPv6 *)

Section chain.

Abbreviation NextHdr := (NextHdr false).
Abbreviation Length := (Length false).
Abbreviation links := (links false).
Abbreviation isIPv6ExtHeader := (isIPv6ExtHeader false).

(** The types [init_loop] reaches, with the bytes the fixed header needs. *)
Definition walkable (t total : Z) : Prop :=
  (t = IPPROTO_IPV6 ∧ 40 ≤ total)%Z ∨ isIPv6ExtHeader t = true.

Lemma ext_cases t : isIPv6ExtHeader t = true →
  t = IPPROTO_ESP ∨ (has_next false t = true ∧ t ≠ IPPROTO_ESP ∧ t ≠ IPPROTO_IPV6).
Proof.
  unfold isIPv6ExtHeader, has_next, is_mobility. rw !orb_false_r.
  rw !orb_true_iff !Z.eqb_eq. unfold IPPROTO_ESP, IPPROTO_IPV6, IPPROTO_HOPOPTS, IPPROTO_ROUTING,
    IPPROTO_DSTOPTS, IPPROTO_FRAGMENT, IPPROTO_AH. lia.
Qed.

Lemma header_read p t off total :
  bytes_ok p → walkable t total → (0 ≤ off)%Z → (2 ≤ total)%Z → (off + total ≤ Z.of_nat (length p))%Z →
  ∃ nt len, NextHdr p (mkIPv6Hdr t off) = Some nt ∧ Length p (mkIPv6Hdr t off) = Some len ∧
    (8 ≤ len ≤ 2048)%Z ∧ (0 ≤ nt < 256)%Z.
Proof.
  intros Hp Hw Hoff Htot Hlen. unfold NextHdr, Length. simpl.
  destruct (get8_in p (off + 1)) as [n Hn]; [lia|]. pose proof (get8_bounds _ _ _ Hp Hn).
  destruct (get8_in p off) as [x Hx]; [lia|]. pose proof (get8_bounds _ _ _ Hp Hx).
  destruct Hw as [[-> Ht]|Ht].
  - destruct (get8_in p (off + 6)) as [y Hy]; [lia|]. pose proof (get8_bounds _ _ _ Hp Hy).
    simpl. eauto 10 with lia.
  - rw Hn Hx /=. assert (∀ k, (0 ≤ k ≤ 8)%Z → uint16 (8 + k * n) = 8 + k * n)%Z as Hu.
    { intros k Hk. apply wrap_u_small. nia. }
    rw !Hu; [|lia..]. destruct (ext_cases t Ht) as [->|(Hh & He & Hv)].
    + simpl. unfold IPPROTO_NONE. eauto 10 with lia.
    + apply Z.eqb_neq in He as He', Hv as Hv'. rw Hh Hv' He'.
      assert (∃ len, (if ((t =? IPPROTO_HOPOPTS) || (t =? IPPROTO_DSTOPTS) || (t =? IPPROTO_ROUTING))%Z || is_mobility false t
         then Some (8 + 8 * n) else if t =? IPPROTO_FRAGMENT then Some 8 else if t =? IPPROTO_AH
         then Some (8 + 4 * n) else Some 0)%Z = Some len ∧ (8 ≤ len ≤ 2048)%Z) as (len & Hl & ?).
      { unfold has_next, is_mobility in *. rw !orb_false_r in Hh. rw !orb_false_r.
        repeat match goal with |- context [(?a =? ?b)%Z] => destruct (a =? b)%Z end; simpl in *; try done; eauto with lia. }
      exists x, len. split; [done|]. split; [exact Hl|done].
Qed.

Lemma header_agree p p' t off len :
  (8 ≤ len)%Z → (0 ≤ off)%Z → (∀ j, (Z.of_nat j < off + len)%Z → p' !! j = p !! j) →
  NextHdr p' (mkIPv6Hdr t off) = NextHdr p (mkIPv6Hdr t off) ∧
  Length p' (mkIPv6Hdr t off) = Length p (mkIPv6Hdr t off).
Proof.
  intros Hl Ho Hag. unfold NextHdr, Length. simpl.
  assert (∀ i, (0 ≤ i < 8)%Z → get8 p' (off + i) = get8 p (off + i)) as Hg.
  { intros i Hi. apply get8_agree. intros j Hj. apply Hag. lia. }
  pose proof (Hg 0%Z) as Hg0. rw Z.add_0_r in Hg0. by rw !Hg // Hg0.
Qed.

(** Redirecting the next-header field of a header that points to a fragment
    header changes that field only. *)
Lemma ChangeNext_spec p t off next len total :
  bytes_ok p → walkable t total → (0 ≤ off)%Z → (len ≤ total)%Z → (off + total ≤ Z.of_nat (length p))%Z →
  NextHdr p (mkIPv6Hdr t off) = Some IPPROTO_FRAGMENT → Length p (mkIPv6Hdr t off) = Some len → (8 ≤ len)%Z →
  ∃ p', ChangeNext false (mkIPv6Hdr t off) (uint8 next) p = Some p' ∧ bytes_ok p' ∧ length p' = length p ∧
    NextHdr p' (mkIPv6Hdr t off) = Some (uint8 next) ∧ Length p' (mkIPv6Hdr t off) = Some len ∧
    (∀ j, (Z.of_nat j < off)%Z → p' !! j = p !! j).
Proof.
  intros Hp Hw Ho Hle Htot Hnt Hlen H8. unfold ChangeNext, NextHdr, Length in *. simpl in *.
  pose proof (wrap_u_bounds 8 next ltac:(lia)) as Hb. change (2 ^ 8)%Z with 256%Z in Hb.
  change (wrap_u 8 next) with (uint8 next) in Hb.
  destruct Hw as [[-> Ht]|Ht].
  - simpl in *. rw set8_in; [|lia]. eexists. split; [done|]. split; [by apply bytes_ok_insert|].
    rw length_insert. split; [done|]. split; [|split; [done|]].
    + apply get8_lookup. split; [lia|]. apply list_lookup_insert_eq. lia.
    + intros j Hj. apply list_lookup_insert_ne. lia.
  - destruct (ext_cases t Ht) as [->|(Hh & He & Hv)]; [done|]. apply Z.eqb_neq in Hv as Hv'.
    rw Hh Hv' in Hnt, Hlen |- *. rw set8_in; [|lia]. eexists. split; [done|].
    split; [by apply bytes_ok_insert|]. rw length_insert. split; [done|].
    assert (get8 (<[Z.to_nat off := uint8 next]> p) (off + 1) = get8 p (off + 1)) as ->.
    { unfold get8. case_decide; [|done]. apply list_lookup_insert_ne. lia. }
    split; [|split; [done|]].
    + apply get8_lookup. split; [lia|]. apply list_lookup_insert_eq. lia.
    + intros j Hj. apply list_lookup_insert_ne. lia.
Qed.

Lemma ProcessRoutingHeader_total p off len total c :
  bytes_ok p → (0 ≤ off)%Z → (off + len ≤ Z.of_nat (length p))%Z → (8 ≤ len)%Z →
  Length p (mkIPv6Hdr IPPROTO_ROUTING off) = Some len → (2 ≤ total)%Z →
  ∃ c', ProcessRoutingHeader false p off len c = Some c' ∧ chain c' = chain c ∧ total_length c' = total_length c.
Proof.
  intros Hp Ho Hin H8 Hlen _. unfold ProcessRoutingHeader.
  destruct (finalDst c); [by eexists|].
  destruct (get8_in p (off + 2)) as [ty ->]; [lia|]. destruct (get8_in p (off + 3)) as [sl ->]; [lia|].
  destruct (get8_in p (off + 1)) as [n Hn]; [lia|]. pose proof (get8_bounds _ _ _ Hp Hn).
  unfold Length in Hlen. simpl in Hlen. rw Hn /= in Hlen. injection Hlen as Hlen.
  unfold uint16 in Hlen. rw wrap_u_small in Hlen; [|lia]. rw Hn /=.
  destruct (ty =? 0)%Z; [|by eexists].
  destruct (0 <? sl)%Z; simpl; [|by eexists]. destruct (2 <=? n)%Z eqn:H2; simpl; [|by eexists].
  apply Z.leb_le in H2. destruct (n mod 2 =? 0)%Z; simpl; [|by eexists].
  destruct (slice_in p (off + len - 16) 16) as [a ->]; [lia..|]. simpl. by eexists.
Qed.

(** What a walk over the headers gives: [p'] and [c'] are the packet and the
    chain after it, [l] the headers it added. *)
Record walked (sn : bool) (next : Z) (p : bytes) (off t total : Z) (c : IPv6_Hdr_Chain)
    (p' : bytes) (c' : IPv6_Hdr_Chain) (l : list IPv6_Hdr) : Prop := {
  wk_chain : chain c' = chain c ++ l;
  wk_links : ∃ off', links p' off t l off' ∧ (off' ≤ off + total)%Z ∧
               (total_length c' = total_length c + (off' - off))%Z;
  wk_length : length p' = length p;
  wk_before : ∀ j, (Z.of_nat j < off)%Z → p' !! j = p !! j;
  wk_same : sn = false → p' = p;
  wk_nofrag : sn = true → uint8 next ≠ IPPROTO_FRAGMENT → t ≠ IPPROTO_FRAGMENT →
                ∀ h, h ∈ l → type h ≠ IPPROTO_FRAGMENT
}.

Lemma walked_nil sn next p off t total c :
  (0 ≤ total)%Z → walked sn next p off t total c p c [].
Proof.
  intros. split; try done; [by rw app_nil_r| |].
  - exists off. split; [done|]. lia.
  - intros _ _ _ h Hh. by apply not_elem_of_nil in Hh.
Qed.

Lemma init_loop_spec fuel p off total t sn next c :
  bytes_ok p → walkable t total → (0 ≤ off)%Z → (0 ≤ total)%Z → (off + total ≤ Z.of_nat (length p))%Z →
  Z.to_nat total < fuel → (0 ≤ total_length c)%Z → (total_length c + total ≤ 65535)%Z →
  ∃ p' c' l, init_loop false fuel p off total t sn next c = Some (p', c') ∧
    walked sn next p off t total c p' c' l ∧ bytes_ok p' ∧
    (t = IPPROTO_IPV6 → l ≠ []).
Proof.
  revert p off total t c. induction fuel as [|fuel IH]; intros p off total t c Hp Hw Ho Ht Hin Hf Hc0 Hc; [lia|].
  simpl. destruct (total <? 2)%Z eqn:H2.
  { apply Z.ltb_lt in H2. exists p, c, []. split; [done|]. split; [by apply walked_nil|]. split; [done|].
    intros ->. destruct Hw as [[_ ?]|?]; [lia|done]. }
  apply Z.ltb_ge in H2.
  destruct (header_read p t off total Hp Hw Ho H2 Hin) as (nt & len & Hnt & Hlen & Hl & Hntb).
  rw Hnt Hlen /=. destruct (total <? len)%Z eqn:Htl.
  { apply Z.ltb_lt in Htl. exists p, c, []. split; [done|]. split; [by apply walked_nil|]. split; [done|].
    intros ->. destruct Hw as [[_ ?]|?]; [injection Hlen as <-; lia|done]. }
  apply Z.ltb_ge in Htl.
  (* the next header, after the redirection *)
  assert (∃ p1 nt1, (if sn && (nt =? IPPROTO_FRAGMENT)%Z
      then p0 ← ChangeNext false (mkIPv6Hdr t off) (uint8 next) p; Some (p0, uint8 next) else Some (p, nt)) = Some (p1, nt1) ∧
      bytes_ok p1 ∧ length p1 = length p ∧ NextHdr p1 (mkIPv6Hdr t off) = Some nt1 ∧
      Length p1 (mkIPv6Hdr t off) = Some len ∧ (∀ j, (Z.of_nat j < off)%Z → p1 !! j = p !! j) ∧
      (sn = false → p1 = p) ∧ (sn = true → uint8 next ≠ IPPROTO_FRAGMENT → nt1 ≠ IPPROTO_FRAGMENT))
    as (p1 & nt1 & -> & Hp1 & Hlp & Hnt1 & Hlen1 & Hbef & Hsame & Hnf).
  { destruct sn; simpl; [|exists p, nt; by split_and!]. destruct (nt =? IPPROTO_FRAGMENT)%Z eqn:Hfr.
    - apply Z.eqb_eq in Hfr. subst nt.
      destruct (ChangeNext_spec p t off next len total Hp Hw Ho Htl Hin Hnt Hlen) as (p1 & -> & ?); [lia|].
      simpl. exists p1, (uint8 next). naive_solver.
    - apply Z.eqb_neq in Hfr. exists p, nt. by split_and!. }
  simpl. set (c1 := mkChain (chain c ++ [mkIPv6Hdr t off]) _ _ _ _).
  assert (∃ c2, (if (t =? IPPROTO_ROUTING)%Z then ProcessRoutingHeader false p1 off len c1 else Some c1) = Some c2 ∧
      chain c2 = chain c1 ∧ total_length c2 = total_length c1) as (c2 & -> & Hc2 & Ht2).
  { destruct (t =? IPPROTO_ROUTING)%Z eqn:Hr; [|by exists c1]. apply Z.eqb_eq in Hr. subst t.
    apply (ProcessRoutingHeader_total p1 off len total); try done; rw ?Hlp; lia. }
  simpl. set (c3 := mkChain (chain c2) _ _ _ _).
  assert (total_length c3 = total_length c + len)%Z as Ht3.
  { simpl. rw Ht2 /=. apply wrap_u_small. lia. }
  destruct (_ && _) eqn:Hcond.
  - apply andb_true_iff in Hcond as [Hcond Hext]. rw andb_true_r in Hcond.
    destruct (IH p1 (off + len)%Z (total - len)%Z nt1 c3) as (p' & c' & l & Hrun & Hwk & Hp' & _);
      [done|by right|lia|lia|rw Hlp; lia|lia|lia|lia|].
    destruct Hwk as [Hch (off' & Hlk & Hle & Htot) Hlen' Hbf Hsm Hnof].
    exists p', c', (mkIPv6Hdr t off :: l). split; [done|]. split; [|split; [done|done]].
    destruct (header_agree p1 p' t off len) as [Hn' Hl']; [lia|lia|done|].
    split.
    + rw Hch. simpl. by rw Hc2 /= -assoc.
    + exists off'. split; [|lia]. simpl. split; [done|]. exists nt1, len. rw Hn' Hl'.
      split; [done|]. split; [done|]. split; [lia|]. split; [|done]. intros _. split; [done|].
      unfold ends_chain. apply andb_true_iff in Hcond as [H1%negb_true_iff H3%negb_true_iff]. by rw H1 H3.
    + congruence.
    + intros j Hj. rw Hbf; [|lia]. by apply Hbef.
    + intros Hsn. rw Hsm //. by apply Hsame.
    + intros Hsn Hnx Htf h [->|Hh]%elem_of_cons; [done|]. by apply Hnof; [..|apply Hnf|].
  - exists p1, c3, [mkIPv6Hdr t off]. split; [done|]. split; [|split; [done|done]]. split; try done.
    + exists (off + len)%Z. split; [|lia]. simpl. split; [done|]. exists nt1, len. split_and!; try done. lia.
    + intros _ _ Htf h Hh%list_elem_of_singleton. by subst h.
Qed.

End chain.

Lemma Init_spec p total sn next :
  bytes_ok p → (40 ≤ total ≤ 65535)%Z → (total ≤ Z.of_nat (length p))%Z →
  ∃ p' c, Init false p total sn next = Some (p', c) ∧
    walked sn next p 0 IPPROTO_IPV6 total empty_chain p' c (chain c) ∧ bytes_ok p' ∧ chain c ≠ [].
Proof.
  intros Hp Ht Hl. unfold Init. destruct (total <? 40)%Z eqn:H40; [apply Z.ltb_lt in H40; lia|].
  destruct (init_loop_spec (S (Z.to_nat total)) p 0 total IPPROTO_IPV6 sn next empty_chain)
    as (p' & c & l & Hrun & Hw & Hp' & Hne); try (simpl; done || lia); [left; split; [done|lia]|].
  exists p', c. split; [done|]. pose proof (wk_chain _ _ _ _ _ _ _ _ _ _ Hw) as Hch. simpl in Hch.
  rw Hch. split; [done|]. split; [done|]. by apply Hne.
Qed.

(** ** Properties *)

(** C22. For every IPv6 packet whose first [total_len] bytes are there,
    [IPv6_Hdr_Chain::Init] terminates without reading outside the packet: the
    chain starts with the fixed header, every header starts where the one before
    ends and has the type it announces, only the last is a fragment or an ESP
    header, and [TotalLength] is the sum of the lengths and at most [total_len].
    With [set_next] no fragment header is left in the chain. *)
Theorem Init_walks_headers (p : bytes) (total_len : Z) (set_next : bool) (next : Z)
    (Hp : bytes_ok p) (Hmin : (40 ≤ total_len ≤ 65535)%Z) (Hin : (total_len ≤ Z.of_nat (length p))%Z) :
  ∃ p' c, Init false p total_len set_next next = Some (p', c) ∧
    chain c ≠ [] ∧ links false p' 0 IPPROTO_IPV6 (chain c) (TotalLength c) ∧
    (TotalLength c ≤ total_len)%Z ∧ length p' = length p ∧
    (set_next = false → p' = p) ∧
    (set_next = true → uint8 next ≠ IPPROTO_FRAGMENT → chain_IsFragment c = Some false).
Proof.
  destruct (Init_spec p total_len set_next next Hp Hmin Hin) as (p' & c & Hrun & Hw & _ & Hne).
  destruct Hw as [_ (off' & Hlk & Hle & Htot) Hlen _ Hsame Hnf]. simpl in Htot.
  assert (TotalLength c = off') as Ht by (unfold TotalLength; lia).
  exists p', c. split; [done|]. split; [done|]. rw Ht. split; [done|]. split; [lia|].
  split; [done|]. split; [done|]. intros Hs Hx. unfold chain_IsFragment, last_hdr.
  destruct (last (chain c)) as [h|] eqn:Hl; simpl; [|by apply last_None in Hl].
  f_equal. apply Z.eqb_neq, (Hnf Hs Hx); [done|]. apply last_Some in Hl as [l' ->]. set_solver.
Qed.

(** The three fragment fields of an IPv4 header are consistent: a packet is
    a fragment exactly if it has an offset or more fragments follow; the offset is
    a multiple of 8 below 65536.  The payload length is the total length less the
    header length, or wraps around at 16 bits when the header claims to be longer
    than the packet. *)
Theorem IPv4_fields_consistent (p : bytes) (Hp : bytes_ok p) (Hlen : (20 ≤ length p)%nat) :
  ∃ off hl tl mf, FragOffset (Hdr4 p) = Some off ∧ HdrLen (Hdr4 p) = Some hl ∧
    TotalLen (Hdr4 p) = Some tl ∧ MF (Hdr4 p) = Some mf ∧
    IsFragment (Hdr4 p) = Some (negb (off =? 0)%Z || mf) ∧
    (0 ≤ off < 65536)%Z ∧ (off mod 8 = 0)%Z ∧ (0 ≤ hl ≤ 60)%Z ∧ (0 ≤ tl < 65536)%Z ∧
    PayloadLen (Hdr4 p) = Some (if (hl <=? tl)%Z then tl - hl else tl - hl + 65536)%Z.
Proof.
  destruct (get8_in p 0) as [b0 Hb0]; [lia|]. pose proof (get8_bounds _ _ _ Hp Hb0).
  assert (∀ i, (0 ≤ i < 19)%Z → ∃ x, get16 p i = Some x) as H16.
  { intros i Hi. unfold get16. destruct (get8_in p i) as [a ->]; [lia|].
    destruct (get8_in p (i + 1)) as [b ->]; [lia|]. by eexists. }
  destruct (H16 6%Z) as [f Hf]; [lia|]. destruct (H16 2%Z) as [n Hn]; [lia|].
  pose proof (get16_bounds _ _ _ Hp Hf). pose proof (get16_bounds _ _ _ Hp Hn).
  assert (0 ≤ Z.land b0 15 < 16)%Z as Hhl.
  { change 15%Z with (Z.ones 4). rw Z.land_ones //. by apply Z.mod_pos_bound. }
  assert (0 ≤ Z.land f 0x1fff < 8192)%Z as Ho.
  { change 0x1fff%Z with (Z.ones 13). rw Z.land_ones //. by apply Z.mod_pos_bound. }
  unfold FragOffset, HdrLen, TotalLen, MF, IsFragment, PayloadLen, ip_hl. rw Hb0 Hf Hn /=.
  do 4 eexists. do 4 (split; [reflexivity|]). split; [|split; [lia|split; [|split; [lia|split; [lia|]]]]].
  - f_equal. rw -negb_andb. f_equal.
    change 0x3fff%Z with (Z.lor 0x1fff 0x2000). rw Z.land_lor_distr_r.
    apply eq_true_iff_eq. rw andb_true_iff !Z.eqb_eq Z.lor_eq_0_iff. lia.
  - by apply Z.mod_mul.
  - f_equal. destruct (Z.land b0 15 * 4 <=? n)%Z eqn:Hle.
    + apply Z.leb_le in Hle. apply wrap_u_small. lia.
    + apply Z.leb_gt in Hle. unfold uint16, wrap_u. symmetry. apply Z.mod_unique_pos with (-1)%Z; lia.
Qed.

(** With Mobile IPv6 enabled the loop over destination options trusts the
    length of a home address option: in a header of 8 bytes at the end of a packet
    it reads the address outside of the packet. *)
Theorem home_address_read_outside (p : bytes) (d : Z) (fuel : nat) (c : IPv6_Hdr_Chain)
    (Hd : (0 ≤ d)%Z) (Hend : (d + 8 = Z.of_nat (length p))%Z)
    (Hopt : get8 p (d + 2) = Some 201%Z) (Hol : get8 p (d + 3) = Some 16%Z) (Hc : homeAddr c = None) :
  dst_opts_loop fuel p (d + 2) (uint16 (8 - 2)) c = None.
Proof.
  destruct fuel as [|fuel]; [done|]. simpl. rw Hopt /=.
  replace (d + 2 + 1)%Z with (d + 3)%Z by lia. rw Hol /= Hc /=.
  unfold slice. rw decide_False; [done|lia].
Qed.

(** ** Witnesses *)

(** A fixed header, a routing header of type 0 with one segment left, and a
    fragment header. *)
Definition ipv6_sample : bytes :=
  [96; 0; 0; 0; 0; 32; 43; 64; 32; 1; 0; 0; 0; 0; 0; 0; 0; 0; 0; 0; 0; 0; 0; 1;
   32; 1; 0; 0; 0; 0; 0; 0; 0; 0; 0; 0; 0; 0; 0; 2;
   44; 2; 0; 1; 0; 0; 0; 0; 32; 1; 0; 0; 0; 0; 0; 0; 0; 0; 0; 0; 0; 0; 0; 3;
   17; 0; 0; 17; 0; 0; 0; 7]%Z.

Lemma ipv6_sample_ok : bytes_ok ipv6_sample.
Proof. by apply (bool_decide_unpack _). Qed.

Example ipv6_sample_chain :
  ((λ '(p, c), (chain c, TotalLength c, finalDst c, chain_FragOffset p c, chain_MF p c, chain_ID p c, weirds c))
     <$> Init false ipv6_sample 72 false 0) =
  Some ([mkIPv6Hdr 41 0; mkIPv6Hdr 43 40; mkIPv6Hdr 44 64], 72, Some [32; 1; 0; 0; 0; 0; 0; 0; 0; 0; 0; 0; 0; 0; 0; 3],
        Some 16, Some true, Some 7, ["routing0_hdr"%string])%Z.
Proof. vm_compute. reflexivity. Qed.

Lemma Init_walks_headers_witness :
  ∃ p' c, Init false ipv6_sample 72 true 17 = Some (p', c) ∧ chain_IsFragment c = Some false.
Proof.
  destruct (Init_walks_headers ipv6_sample 72 true 17 ipv6_sample_ok) as (p' & c & H1 & _ & _ & _ & _ & _ & H2);
    [lia|simpl; lia|].
  exists p', c. split; [exact H1|]. apply H2; [reflexivity|discriminate].
Defined.

Definition ipv4_sample : bytes :=
  [69; 0; 0; 16; 0; 1; 32; 2; 64; 17; 0; 0; 10; 0; 0; 1; 10; 0; 0; 2]%Z.

Lemma IPv4_fields_consistent_witness :
  PayloadLen (Hdr4 ipv4_sample) = Some 65532%Z ∧ IsFragment (Hdr4 ipv4_sample) = Some true.
Proof.
  destruct (IPv4_fields_consistent ipv4_sample) as (off & hl & tl & mf & H1 & H2 & H3 & H4 & H5 & _ & _ & _ & _ & H6);
    [by apply (bool_decide_unpack _)|simpl; lia|].
  rw H5 H6. vm_compute in H1, H2, H3, H4. injection H1 as <-. injection H2 as <-. injection H3 as <-.
  injection H4 as <-. split; reflexivity.
Defined.

(** A destination options header of 8 bytes after the fixed header. *)
Definition dstopts_sample : bytes :=
  [96; 0; 0; 0; 0; 8; 60; 64; 32; 1; 0; 0; 0; 0; 0; 0; 0; 0; 0; 0; 0; 0; 0; 1;
   32; 1; 0; 0; 0; 0; 0; 0; 0; 0; 0; 0; 0; 0; 0; 2; 59; 0; 201; 16; 1; 2; 3; 4]%Z.

Lemma home_address_read_outside_witness :
  Init true dstopts_sample 48 false 0 = None ∧
  dst_opts_loop (S (length dstopts_sample)) dstopts_sample 42 6 empty_chain = None ∧
  Init false dstopts_sample 48 false 0 ≠ None.
Proof.
  split; [vm_compute; reflexivity|]. split; [|vm_compute; discriminate].
  apply (home_address_read_outside dstopts_sample 40); reflexivity || lia.
Defined.

End IP.
