(* ===== verification/Frag.v ===== *)
(** Frag: the reassembly of IP fragments, Frag.cc / Frag.h.

    [FragReassembler] is a [Reassembler] whose sequence numbers are offsets into
    the payload of the packet.  The calls that leave the component (weird
    activity, timers, the session table) are the effects in [log].  Mobile IPv6,
    an option of the build that is off by default, is left out. *)
From S2P Require Import Prelude Double Reassem IP.
From stdpp Require Import strings.

Module F.
Import R.

Definition MIN_ACCEPTABLE_FRAG_SIZE : Z := 64.
Definition MAX_ACCEPTABLE_FRAG_SIZE : Z := 64000.

Inductive effect :=
  | Weird (name : string)
  | AddTimer (t : double)
  | CancelTimer
  | RemoveFromSessions.

(** [expire_timer] tells whether the pointer to the timer is set. *)
Record FragReassembler := mkFrag {
  base : Reassembler;
  proto_hdr : bytes; proto_hdr_len : Z;
  reassembled_pkt : option IP.IP_Hdr;
  frag_size : Z; next_proto : Z;
  expire_timer : bool; log : list effect
}.

#[global] Instance frag_reassembler : HasReassembler FragReassembler := {|
  core := base;
  put r s := mkFrag r (proto_hdr s) (proto_hdr_len s) (reassembled_pkt s) (frag_size s)
               (next_proto s) (expire_timer s) (log s)
|}.

Definition emit (e : effect) (s : FragReassembler) : FragReassembler :=
  mkFrag (base s) (proto_hdr s) (proto_hdr_len s) (reassembled_pkt s) (frag_size s)
    (next_proto s) (expire_timer s) (log s ++ [e]).
Definition set_frag_size (n : Z) (s : FragReassembler) : FragReassembler :=
  mkFrag (base s) (proto_hdr s) (proto_hdr_len s) (reassembled_pkt s) n
    (next_proto s) (expire_timer s) (log s).
Definition set_next_proto (n : Z) (s : FragReassembler) : FragReassembler :=
  mkFrag (base s) (proto_hdr s) (proto_hdr_len s) (reassembled_pkt s) (frag_size s)
    n (expire_timer s) (log s).
Definition set_reassembled_pkt (p : IP.IP_Hdr) (s : FragReassembler) : FragReassembler :=
  mkFrag (base s) (proto_hdr s) (proto_hdr_len s) (Some p) (frag_size s)
    (next_proto s) (expire_timer s) (log s).
Definition set_expire_timer (b : bool) (s : FragReassembler) : FragReassembler :=
  mkFrag (base s) (proto_hdr s) (proto_hdr_len s) (reassembled_pkt s) (frag_size s)
    (next_proto s) b (log s).

Definition weird_if (b : bool) (name : string) (s : FragReassembler) : FragReassembler :=
  if b then emit (Weird name) s else s.

(** [IP_Hdr proto_h(proto_hdr, false, proto_hdr_len)]: the header the weirds are
    reported with; its construction stops the program on a malformed header. *)
Definition proto_h (s : FragReassembler) : option IP.IP_Hdr :=
  IP.IP_Hdr_new false (proto_hdr s) (proto_hdr_len s).

Definition Overlap (b1 b2 : bytes) (n : Z) (s : FragReassembler) : option FragReassembler :=
  _ ← proto_h s;
  ne ← memcmp_ne b1 b2 n;
  Some (emit (Weird (if (ne : bool) then "fragment_inconsistency" else "fragment_overlap")) s).

Definition DeleteTimer (s : FragReassembler) : FragReassembler :=
  if expire_timer s then set_expire_timer false (emit CancelTimer s) else s.

(** The first loop of [BlockInserted]: the block at which it stops. *)
Fixpoint contiguous_end (fuel : nat) (h : gmap addr DataBlock) (b : addr) : option DataBlock :=
  match fuel with
  | O => None
  | S fuel =>
    d ← h !! b;
    match next d with
    | None => Some d
    | Some n => nd ← h !! n;
      if (upper d =? seq nd)%Z then contiguous_end fuel h n else Some d
    end
  end.

(** [memcpy] into an array whose cells may be indeterminate. *)
Definition arr_write (a : list (option Z)) (off : Z) (d : bytes) : option (list (option Z)) :=
  if decide (0 ≤ off ∧ off + len d ≤ Z.of_nat (length a))%Z
  then Some (take (Z.to_nat off) a ++ (Some <$> d) ++ drop (Z.to_nat (off + len d)) a) else None.

(** The second loop: copy the blocks below the first hole to [pkt], whose
    payload starts at [base_off]; [n] is the size of the packet. *)
Fixpoint copy_blocks (fuel : nat) (h : gmap addr DataBlock) (n base_off : Z) (b : option addr)
    (a : list (option Z)) : option (list (option Z)) :=
  match b, fuel with
  | None, _ => Some a
  | Some _, O => None
  | Some b, S fuel =>
    d ← h !! b;
    above_hole ← match prev d with
                 | Some p => pd ← h !! p; Some (upper pd <? seq d)%Z
                 | None => Some false
                 end;
    if (above_hole : bool) then Some a
    else if (n <? upper d)%Z then None (* InternalError *)
    else
      a ← arr_write a (base_off + seq d) (take (Z.to_nat (Size d)) (block d));
      copy_blocks fuel h n base_off (next d) a
  end.

(** [htons] of a value stored at an offset. *)
Definition put16 (p : bytes) (i v : Z) : option bytes :=
  p ← IP.set8 p i (uint16 v / 256)%Z; IP.set8 p (i + 1) (uint16 v mod 256)%Z.

(** The end of [BlockInserted], when the whole packet is there. *)
Definition reassemble (s : FragReassembler) : option FragReassembler :=
  let n := (proto_hdr_len s + frag_size s)%Z in
  hdr ← IP.slice (proto_hdr s) 0 (proto_hdr_len s);
  a ← arr_write (arr_alloc (Z.to_nat n)) 0 hdr;
  a ← copy_blocks (S (size (heap (base s)))) (heap (base s)) n (proto_hdr_len s) (blocks (base s)) a;
  pkt ← mapM id a; (* the packet must not have indeterminate bytes *)
  v ← IP.ip_v pkt;
  if (v =? 4)%Z then
    pkt ← put16 pkt 2 (frag_size s + proto_hdr_len s);
    Some (DeleteTimer (set_reassembled_pkt (IP.Hdr4 pkt) s))
  else if (v =? 6)%Z then
    pkt ← put16 pkt 4 (frag_size s + proto_hdr_len s - 40);
    '(pkt, chain) ← IP.Init false pkt n true (next_proto s);
    Some (DeleteTimer (set_reassembled_pkt (IP.Hdr6 pkt chain) s))
  else None (* InternalError *).

Definition BlockInserted (s : FragReassembler) : option FragReassembler :=
  b0 ← blocks (base s); first ← heap (base s) !! b0;
  if (0 <? seq first)%Z || (frag_size s =? 0)%Z then Some s
  else
    let fuel := S (size (heap (base s))) in
    b ← contiguous_end fuel (heap (base s)) b0;
    lb ← last_block (base s); last ← heap (base s) !! lb;
    go ← match next b with
      | Some _ =>
        if (frag_size s <=? upper b)%Z then
          _ ← proto_h s;
          Some (Some (set_frag_size (upper b) (emit (Weird "fragment_size_inconsistency") s)))
        else Some None
      | None =>
        if (frag_size s <? upper last)%Z then
          _ ← proto_h s;
          Some (Some (set_frag_size (upper last) (emit (Weird "fragment_size_inconsistency") s)))
        else if (upper last <? frag_size s)%Z then Some None
        else Some (Some s)
      end;
    match go with
    | None => Some s
    | Some s => reassemble s
    end.

Definition frag_virtuals : virtuals FragReassembler :=
  mkVirtuals (λ _, BlockInserted) Overlap Undelivered.

(** The header of the fragment does not match the one of the first. *)
Definition inconsistent (ip : IP.IP_Hdr) (s : FragReassembler) : option bool :=
  match ip with
  | IP.Hdr4 p =>
    p1 ← IP.get8 p 9; p2 ← IP.get8 (proto_hdr s) 9;
    h1 ← IP.ip_hl p; h2 ← IP.ip_hl (proto_hdr s);
    Some (negb (p1 =? p2)%Z || negb (h1 =? h2)%Z)
  | IP.Hdr6 _ _ =>
    np ← IP.NextProto false ip; hl ← IP.HdrLen ip;
    Some (negb (np =? next_proto s)%Z || negb (hl - 8 =? proto_hdr_len s)%Z)
  end.

(** The size of the fragmented packet after a fragment, and the weirds. *)
Definition update_size (mf : bool) (len upper_seq : Z) (s : FragReassembler) : FragReassembler :=
  let s :=
    if negb mf then
      if (frag_size s =? 0)%Z then set_frag_size upper_seq s
      else if negb (upper_seq =? frag_size s)%Z then
        let s := emit (Weird "fragment_size_inconsistency") s in
        if (frag_size s <? upper_seq)%Z then set_frag_size upper_seq s else s
      else s
    else weird_if (len <? MIN_ACCEPTABLE_FRAG_SIZE)%Z "excessively_small_fragment" s in
  let s := weird_if (MAX_ACCEPTABLE_FRAG_SIZE <? upper_seq)%Z "excessively_large_fragment" s in
  if negb (frag_size s =? 0)%Z && (frag_size s <? upper_seq)%Z
  then set_frag_size upper_seq (emit (Weird "fragment_size_inconsistency") s) else s.

Definition AddFragment (ip : IP.IP_Hdr) (pkt : bytes) (s : FragReassembler) : option FragReassembler :=
  bad ← inconsistent ip s;
  let s := weird_if bad "fragment_protocol_inconsistency" s in
  df ← IP.DF ip;
  let s := weird_if df "fragment_with_DF" s in
  offset ← IP.FragOffset ip; len ← IP.TotalLen ip; hdr_len ← IP.HdrLen ip;
  let upper_seq := (offset + len - hdr_len)%Z in
  s ← (if (offset =? 0)%Z then np ← IP.NextProto false ip; Some (set_next_proto np s) else Some s);
  mf ← IP.MF ip;
  let s := update_size mf len upper_seq s in
  (* the [len - hdr_len] bytes at [pkt + hdr_len] *)
  NewBlock frag_virtuals offset (len - hdr_len)
    (take (Z.to_nat (len - hdr_len)) (drop (Z.to_nat hdr_len) pkt)) s.

(** The constructor; a [frag_timeout] of zero disables the timer. *)
Definition FragReassembler_new (frag_timeout : double) (ip : IP.IP_Hdr) (pkt : bytes) (t : double)
    : option FragReassembler :=
  hl ← IP.HdrLen ip;
  let n := if IP.IP4_Hdr ip then hl else (hl - 8)%Z in
  hdr ← IP.slice (IP.packet ip) 0 n;
  np ← IP.NextProto false ip;
  let s := mkFrag (Reassembler_new 0) hdr n None 0 np false [] in
  let s := if deq frag_timeout (double_of_Z 0) then s
           else set_expire_timer true (emit (AddTimer (dadd t frag_timeout)) s) in
  AddFragment ip pkt s.

Definition Expire (s : FragReassembler) : option FragReassembler :=
  s ← clear_loop (S (size (heap (base s)))) s;
  if expire_timer s then Some (emit RemoveFromSessions (set_expire_timer false s)) else None.

Definition ReassembledPkt (s : FragReassembler) : option IP.IP_Hdr := reassembled_pkt s.

(** ** Specification *)

(** The bytes held without a gap from position [e] on. *)
Fixpoint run_from (e : Z) (L : list chunk) : bytes :=
  match L with
  | [] => []
  | c :: L => if decide (c.1 = e) then c.2 ++ run_from (chunk_end c) L else []
  end.

(** The header of the packet is complete, and no longer than the field for its
    length allows. *)
Definition hdr_ok (s : FragReassembler) : Prop :=
  IP.bytes_ok (proto_hdr s) ∧ len (proto_hdr s) = proto_hdr_len s ∧ (proto_hdr_len s ≤ 65535)%Z ∧
  ((IP.ip_v (proto_hdr s) = Some 4%Z ∧ 20 ≤ proto_hdr_len s)%Z ∨
   (IP.ip_v (proto_hdr s) = Some 6%Z ∧ 40 ≤ proto_hdr_len s)%Z).

(** The bytes held are octets; an IPv6 packet fits into 65535 bytes (a larger
    one needs a jumbo payload option, which the code does not know). *)
Definition data_ok (s : FragReassembler) (L : list chunk) : Prop :=
  ∀ p x, content L p = Some x → (0 ≤ x < 256)%Z ∧
    (IP.ip_v (proto_hdr s) = Some 6%Z → proto_hdr_len s + p < 65535)%Z.

(** What the reassembler keeps between fragments. *)
Record frag_inv (s : FragReassembler) (L : list chunk) : Prop := {
  fi_hdr : hdr_ok s;
  fi_rep : rep (base s) L;
  fi_data : data_ok s L;
  fi_trim : trim_seq (base s) = 0%Z;
  fi_size : (0 ≤ frag_size s)%Z
}.

(** [ip] is the packet with the header of the first fragment and [payload]. *)
Definition assembled (s : FragReassembler) (payload : bytes) (ip : IP.IP_Hdr) : Prop :=
  (IP.ip_v (proto_hdr s) = Some 4%Z ∧ IP.IP4_Hdr ip = true ∧
   drop (Z.to_nat (proto_hdr_len s)) (IP.packet ip) = payload ∧
   (∀ i : nat, i ≠ 2 → i ≠ 3 → (Z.of_nat i < proto_hdr_len s)%Z → IP.packet ip !! i = proto_hdr s !! i) ∧
   IP.TotalLen ip = Some (uint16 (proto_hdr_len s + len payload))) ∨
  (IP.ip_v (proto_hdr s) = Some 6%Z ∧ ∃ pkt p c,
   put16 (proto_hdr s ++ payload) 4 (len payload + proto_hdr_len s - 40) = Some pkt ∧
   IP.Init false pkt (len pkt) true (next_proto s) = Some (p, c) ∧ ip = IP.Hdr6 p c).

(** The members that only [AddFragment] and [BlockInserted] themselves change. *)
Definition same_frame (s s' : FragReassembler) : Prop :=
  proto_hdr s' = proto_hdr s ∧ proto_hdr_len s' = proto_hdr_len s ∧
  reassembled_pkt s' = reassembled_pkt s ∧ frag_size s' = frag_size s ∧
  next_proto s' = next_proto s ∧ expire_timer s' = expire_timer s.

(** ** Arrays and packets *)

Lemma arr_write_holds a held r d :
  arr_holds a held r → (len d ≤ Z.of_nat (length r))%Z →
  ∃ a', arr_write a (len held) d = Some a' ∧ arr_holds a' (held ++ d) (drop (length d) r).
Proof.
  intros -> Hd. unfold arr_write, len in *.
  rw decide_True; [|rw length_app length_fmap; lia]. eexists. split; [done|]. unfold arr_holds.
  rw Nat2Z.id take_app_length'; [|by rw length_fmap]. rw fmap_app -assoc. do 2 f_equal.
  rw drop_app_ge; [|rw length_fmap; lia]. f_equal. rw length_fmap. lia.
Qed.

Lemma mapM_id_holds a (l : bytes) : arr_holds a l [] → mapM id a = Some l.
Proof. intros ->. rw app_nil_r. induction l as [|x l IH]; [done|]. simpl. by rw IH. Qed.

Lemma put16_spec p i v :
  (0 ≤ i)%Z → (i + 1 < len p)%Z → IP.bytes_ok p →
  ∃ p', put16 p i v = Some p' ∧ IP.bytes_ok p' ∧ length p' = length p ∧
    IP.get16 p' i = Some (uint16 v) ∧ ∀ j, j ≠ Z.to_nat i → j ≠ S (Z.to_nat i) → p' !! j = p !! j.
Proof.
  intros Hi Hl Hp. unfold put16, len in *.
  pose proof (wrap_u_bounds 16 v ltac:(lia)) as Hv. change (wrap_u 16 v) with (uint16 v) in Hv.
  change (2 ^ 16)%Z with 65536%Z in Hv.
  pose proof (Z.mod_pos_bound (uint16 v) 256 ltac:(lia)).
  assert (0 ≤ uint16 v / 256 < 256)%Z by (split; [apply Z.div_pos|apply Z.div_lt_upper_bound]; lia).
  rw IP.set8_in; [|lia]. simpl. rw IP.set8_in; [|rw length_insert; lia].
  eexists. split; [done|]. split; [by apply IP.bytes_ok_insert; [apply IP.bytes_ok_insert|]|]. rw !length_insert. split; [done|].
  split.
  - unfold IP.get16.
    assert (IP.get8 (<[Z.to_nat (i + 1):=(uint16 v mod 256)%Z]> (<[Z.to_nat i:=(uint16 v / 256)%Z]> p)) i =
      Some (uint16 v / 256)%Z) as ->.
    { apply IP.get8_lookup. split; [done|]. rw list_lookup_insert_ne; [|lia]. apply list_lookup_insert_eq. lia. }
    simpl. assert (∀ x q, Z.to_nat (i + 1) < length q → IP.get8 (<[Z.to_nat (i + 1):=x]> q) (i + 1) = Some x) as ->.
    { intros x q Hq. apply IP.get8_lookup. split; [lia|]. by apply list_lookup_insert_eq. }
    + simpl. f_equal. pose proof (Z.div_mod (uint16 v) 256). lia.
    + rw length_insert. lia.
  - intros j H1 H2. rw !list_lookup_insert_ne; [done|lia|lia].
Qed.

(** ** Runs of blocks *)

Lemma run_from_content e L hi :
  ordered e hi L →
  (∀ p, (e ≤ p < e + len (run_from e L))%Z → content L p = run_from e L !! Z.to_nat (p - e)) ∧
  content L (e + len (run_from e L)) = None.
Proof.
  revert e. induction L as [|c L IH]; intros e Ho; simpl.
  { split; [|done]. intros p Hp. unfold len in Hp. simpl in Hp. lia. }
  simpl in Ho. destruct Ho as (H1 & H2 & H3). case_decide as Hc; last first.
  { unfold len. simpl. rw Z.add_0_r. split; [lia|]. change (content (c :: L) e = None).
    apply (content_before c.1 hi); [by split_and!|lia]. }
  destruct (IH _ H3) as [IH1 IH2]. unfold chunk_end in *. rw Hc in IH1, IH2.
  assert (∀ b b', len (b ++ b') = len b + len b')%Z as Happ by (intros; unfold len; rw length_app; lia).
  rw Hc Happ Z.add_assoc. split.
  - intros p Hp. unfold byte_of, chunk_end. rw Hc. case_decide as Hin.
    + rw lookup_app_l; [|unfold len in *; lia].
      destruct (lookup_lt_is_Some_2 c.2 (Z.to_nat (p - e))) as [x ->]; [unfold len in *; lia|done].
    + rw (IH1 p); [|lia]. rw lookup_app_r; [|unfold len in *; lia]. f_equal. unfold len in *. lia.
  - rw byte_of_None; [done|]. unfold chunk_end. pose proof (len_nonneg (run_from (e + len c.2) L)). lia.
Qed.

Lemma view_drop h l i a :
  l !! i = Some a →
  drop i (view h l) = (seq (the_block h a), block (the_block h a)) :: drop (S i) (view h l).
Proof. intros Hi. by apply drop_S, view_lookup. Qed.

Lemma contiguous_end_spec fuel h l i a :
  linked h l → l !! i = Some a → length l - i ≤ fuel →
  ∃ j b, contiguous_end fuel h a = Some (the_block h b) ∧ l !! j = Some b ∧
    next (the_block h b) = l !! S j ∧
    upper (the_block h b) =
      (seq (the_block h a) + len (run_from (seq (the_block h a)) (drop i (view h l))))%Z.
Proof.
  intros Hl. revert i a. induction fuel as [|fuel IH]; intros i a Hi Hf;
    pose proof (lookup_lt_Some _ _ _ Hi); [lia|].
  simpl. destruct (linked_lookup _ _ _ _ Hl Hi) as (-> & _ & Hn & Hu). simpl. rw Hn (view_drop _ _ _ _ Hi) /=.
  assert (∀ b b', len (b ++ b') = len b + len b')%Z as Happ by (intros; unfold len; rw length_app; lia).
  rw (decide_True (P := seq _ = seq _)) // Happ.
  change (chunk_end (seq (the_block h a), block (the_block h a))) with
    (seq (the_block h a) + len (block (the_block h a)))%Z. rw -Hu.
  destruct (l !! S i) as [n|] eqn:Hni; last first.
  { exists i, a. split; [done|]. split; [done|]. rw drop_ge; [|unfold view; rw length_fmap; by apply lookup_ge_None].
    split; [congruence|]. unfold len at 2. simpl. lia. }
  destruct (linked_lookup _ _ _ _ Hl Hni) as (Hbn & _). rw Hbn /=.
  rw (view_drop _ _ _ _ Hni) /=. destruct (Z.eqb_spec (upper (the_block h a)) (seq (the_block h n))) as [He|He].
  - destruct (IH (S i) n Hni) as (j & b & Hrun & Hj & Hnb & Hub); [lia|]. exists j, b.
    split; [done|]. split; [done|]. split; [done|]. rw Hub (view_drop _ _ _ _ Hni) /=.
    rw (decide_True (P := seq _ = seq _)) // decide_True //. lia.
  - exists i, a. split; [done|]. split; [done|]. split; [congruence|].
    rw decide_False; [|congruence]. unfold len at 2. simpl. lia.
Qed.

(** The blocks without a gap are copied one after the other. *)
Lemma copy_blocks_spec fuel h l n off i a held r lo :
  linked h l → ordered lo max_seq (view h l) → length l - i ≤ fuel → (0 ≤ lo)%Z → (0 ≤ off)%Z →
  let e := (len held - off)%Z in
  (i = 0 → match view h l with c :: _ => c.1 = e | [] => True end) →
  (∀ p, 0 < i → before l i = Some p → upper (the_block h p) = e) →
  arr_holds a held r →
  let d := run_from e (drop i (view h l)) in
  (len d ≤ Z.of_nat (length r))%Z → (e + len d ≤ n)%Z →
  ∃ a', copy_blocks fuel h n off (l !! i) a = Some a' ∧ arr_holds a' (held ++ d) (drop (length d) r).
Proof.
  intros Hl Ho Hf Hlo Hoff e Hfirst Hbef Ha. revert i a held r Hf e Hfirst Hbef Ha.
  induction fuel as [|fuel IH]; intros i a held r Hf e Hfirst Hbef Ha d Hr Hn.
  { assert (l !! i = None) as -> by (apply lookup_ge_None; lia). exists a. split; [by destruct (l !! i)|].
    unfold d. rw drop_ge; [|unfold view; rw length_fmap; lia]. by rw /= app_nil_r. }
  destruct (l !! i) as [b|] eqn:Hi; simpl; last first.
  { apply lookup_ge_None in Hi. exists a. split; [done|].
    unfold d. rw drop_ge; [|unfold view; by rw length_fmap]. by rw /= app_nil_r. }
  destruct (linked_lookup _ _ _ _ Hl Hi) as (-> & Hp & Hnx & Hu). simpl. rw Hp.
  set (bd := the_block h b) in *.
  assert (∃ stop, match before l i with Some p => pd ← h !! p; Some (upper pd <? seq bd)%Z | None => Some false end =
    Some stop ∧ (stop = negb (bool_decide (seq bd = e)))) as (stop & -> & ->).
  { destruct i as [|i]; simpl in *.
    - eexists. split; [done|]. destruct l as [|b' l]; [done|]. injection Hi as ->. simpl in Hfirst.
      rw bool_decide_true; [done|]. by apply Hfirst.
    - destruct (l !! i) as [p|] eqn:Hpi; [|apply lookup_ge_None in Hpi; apply lookup_lt_Some in Hi; lia].
      destruct (linked_lookup _ _ _ _ Hl Hpi) as (-> & _). simpl. eexists. split; [done|].
      pose proof (Hbef p ltac:(lia) eq_refl) as Hup. rw Hup.
      pose proof (block_order _ _ _ _ _ _ _ Hl Ho Hpi Hi ltac:(lia)) as Hord. fold bd in Hord. rw Hup in Hord.
      case_bool_decide; simpl; [apply Z.ltb_ge|apply Z.ltb_lt]; lia. }
  simpl. revert Hr Hn. unfold d. rw (view_drop _ _ _ _ Hi) /=. fold bd. case_bool_decide as Hsq; simpl; last first.
  { intros _ _. exists a. split; [done|]. rw decide_False // app_nil_r. done. }
  rw decide_True //. unfold chunk_end. simpl. rw -Hu.
  assert (∀ b b', len (b ++ b') = len b + len b')%Z as Happ by (intros; unfold len; rw length_app; lia).
  rw Happ. set (d' := run_from (upper bd) (drop (S i) (view h l))). intros Hr Hn.
  pose proof (len_nonneg d'). pose proof (len_nonneg (block bd)).
  assert ((n <? upper bd)%Z = false) as -> by (apply Z.ltb_ge; lia).
  assert (take (Z.to_nat (Size bd)) (block bd) = block bd) as ->.
  { apply take_ge. unfold Size, len in *. lia. }
  destruct (arr_write_holds a held r (block bd) Ha) as (a1 & Hw & Ha1); [lia|].
  replace (off + seq bd)%Z with (len held) by lia. rw Hw /=.
  assert (len (held ++ block bd) - off = upper bd)%Z as He' by (rw Happ; lia).
  rw Hnx. destruct (IH (S i) a1 (held ++ block bd) (drop (length (block bd)) r)) as (a' & Hc & Ha'); [lia|done| |done|..].
  - intros p _ Hp'. simpl in Hp'. rw Hi in Hp'. injection Hp' as <-. by rw He'.
  - rw He'. fold d'. rw length_drop. unfold len in *. lia.
  - rw He'. fold d'. lia.
  - exists a'. split; [done|]. rw He' in Ha'. fold d' in Ha'. by rw assoc_L length_app -drop_drop.
Qed.

Lemma slice_all p n : len p = n → IP.slice p 0 n = Some p.
Proof.
  intros <-. unfold IP.slice, len. rw decide_True; [|lia]. by rw /= drop_0 Nat2Z.id firstn_all.
Qed.

Lemma run_from_data_ok s L :
  rep (base s) L → data_ok s L →
  let d := run_from 0 L in
  IP.bytes_ok d ∧ (IP.ip_v (proto_hdr s) = Some 6%Z → proto_hdr_len s ≤ 65535 → proto_hdr_len s + len d ≤ 65535)%Z.
Proof.
  intros (l & _ & _ & Ho) Hd d. destruct (run_from_content 0 L max_seq Ho) as [Hc _]. fold d in Hc. split.
  - apply Forall_lookup. intros i x Hx. pose proof (lookup_lt_Some _ _ _ Hx).
    apply (Hd (Z.of_nat i)). rw Hc; [|unfold len; lia]. by replace (Z.to_nat (Z.of_nat i - 0)) with i by lia.
  - intros Hv Hph. destruct (decide (d = [])) as [->|Hne]; [unfold len; simpl; lia|].
    pose proof (len_pos _ Hne). destruct (lookup_lt_is_Some_2 d (Z.to_nat (len d - 1))) as [x Hx]; [unfold len in *; lia|].
    destruct (Hd (len d - 1)%Z x) as [_ Hb]; [|specialize (Hb Hv); lia].
    rw Hc; [|lia]. by rw Z.sub_0_r.
Qed.

Lemma reassemble_spec s L :
  hdr_ok s → rep (base s) L → data_ok s L → frag_size s = len (run_from 0 L) → run_from 0 L ≠ [] →
  ∃ ip, reassemble s = Some (DeleteTimer (set_reassembled_pkt ip s)) ∧ assembled s (run_from 0 L) ip.
Proof.
  intros (Hb & Hlen & Hmax & Hv) Hrep Hdata Hfs Hne. pose proof (run_from_data_ok s L Hrep Hdata) as [Hdb Hd6].
  destruct Hrep as (l & Hwf & Hview & Ho). unfold reassemble. set (d := run_from 0 L) in *.
  pose proof (wf_linked _ _ Hwf) as Hl. pose proof (len_nonneg d). pose proof (len_nonneg (proto_hdr s)).
  assert (∀ b b', len (b ++ b') = len b + len b')%Z as Happ by (intros; unfold len; rw length_app; lia).
  rw (slice_all _ _ Hlen) /=. set (n := (proto_hdr_len s + frag_size s)%Z).
  destruct (arr_write_holds (arr_alloc (Z.to_nat n)) [] (replicate (Z.to_nat n) None) (proto_hdr s))
    as (a1 & Hw & Ha1); [done|rw length_replicate; unfold n; lia|].
  change (len []) with 0%Z in Hw. rw Hw /=. clear Hw. rw (wf_first _ _ Hwf) head_lookup.
  destruct (copy_blocks_spec (S (size (heap (base s)))) (heap (base s)) l n (proto_hdr_len s) 0 a1 (proto_hdr s)
    (drop (length (proto_hdr s)) (replicate (Z.to_nat n) None)) 0) as (a2 & Hc & Ha2);
    rw ?Hview ?Hlen ?Z.sub_diag ?drop_0; fold d; try done; try lia.
  { pose proof (linked_size _ _ Hl). lia. }
  { intros _. destruct L as [|c L]; [done|]. unfold d in Hne. simpl in Hne. by case_decide. }
  { rw length_drop length_replicate. unfold n, len in *. lia. }
  rw Hlen Z.sub_diag Hview drop_0 in Ha2. fold d in Ha2. simpl in Hc, Ha2. rw Hc /=. clear Hc.
  assert (drop (length d) (drop (length (proto_hdr s)) (replicate (Z.to_nat n) (@None Z))) = []) as Hnil.
  { apply drop_ge. rw length_drop length_replicate. unfold n, len in *. lia. }
  rw Hnil in Ha2. rw (mapM_id_holds _ _ Ha2) /=. set (pkt := proto_hdr s ++ d).
  assert (IP.bytes_ok pkt) as Hpb by (by apply Forall_app).
  assert (len pkt = n) as Hpl by (unfold pkt, n; rw Happ; lia).
  assert (IP.ip_v pkt = IP.ip_v (proto_hdr s)) as ->.
  { assert (IP.get8 pkt 0 = IP.get8 (proto_hdr s) 0) as Hg.
    { unfold IP.get8, pkt. case_decide; [|done]. apply lookup_app_l. unfold len in *. destruct Hv as [[_ ?]|[_ ?]]; lia. }
    unfold IP.ip_v. by rw Hg. }
  replace (frag_size s + proto_hdr_len s)%Z with (len d + proto_hdr_len s)%Z by lia.
  destruct Hv as [[Hv Hge]|[Hv Hge]]; rw Hv /=.
  - destruct (put16_spec pkt 2 (len d + proto_hdr_len s)) as (p' & Hput & _ & Hl' & Hg & Hsame);
      [lia|unfold n in *; lia|done|].
    rw Hput /=. eexists. split; [done|]. left. split; [done|]. split; [done|]. split; [|split].
    + simpl. apply list_eq. intros i. rw lookup_drop Hsame; [|lia|lia]. unfold pkt.
      rw lookup_app_r; [|unfold len in *; lia]. f_equal. unfold len in *. lia.
    + intros i H2 H3 Hi. simpl. rw Hsame; [|lia|lia]. unfold pkt. rw lookup_app_l; [done|unfold len in *; lia].
    + simpl. by rw Hg Z.add_comm.
  - specialize (Hd6 Hv Hmax). destruct (put16_spec pkt 4 (len d + proto_hdr_len s - 40)) as (p' & Hput & Hpb' & Hl' & _);
      [lia|unfold n in *; lia|done|].
    rw Hput /=. assert (len p' = n) as Hpl' by (unfold len in *; lia).
    destruct (IP.Init_spec p' n true (next_proto s)) as (p2 & c & Hinit & _ & _ & _); [done|unfold n; lia|unfold len in *; lia|].
    rw Hinit /=. eexists. split; [done|]. right. split; [done|]. exists p', p2, c. by rw Hpl'.
Qed.

#[local] Arguments contiguous_end : simpl never.

Lemma run_from_first L hi :
  ordered 0 hi L → L ≠ [] → run_from 0 L ≠ [] ↔ ∃ c L', L = c :: L' ∧ c.1 = 0%Z.
Proof.
  intros Ho Hne. destruct L as [|c L]; [done|]. simpl in *. destruct Ho as (_ & Hc & _). split.
  - case_decide; [|done]. by exists c, L.
  - intros (? & ? & [= <- <-] & H0). rw decide_True //. by destruct (c.2).
Qed.

Lemma proto_h_total s : hdr_ok s → is_Some (proto_h s).
Proof.
  intros (Hb & Hlen & Hmax & [[Hv Hge]|[Hv Hge]]); unfold proto_h, IP.IP_Hdr_new; rw Hv /=; [by eexists|].
  destruct (IP.Init_spec (proto_hdr s) (proto_hdr_len s) false 0) as (p & c & Hi & _); [done|lia|unfold len in *; lia|].
  rw Hi /=. by eexists.
Qed.

(** [reassemble] on a state that differs in the size and the log only. *)
Lemma reassemble_after s s1 L :
  frag_inv s L → base s1 = base s → proto_hdr s1 = proto_hdr s → proto_hdr_len s1 = proto_hdr_len s →
  next_proto s1 = next_proto s → frag_size s1 = len (run_from 0 L) → run_from 0 L ≠ [] →
  ∃ ip s', reassemble s1 = Some s' ∧ assembled s (run_from 0 L) ip ∧ reassembled_pkt s' = Some ip ∧
    frag_size s' = len (run_from 0 L) ∧ expire_timer s' = false ∧ base s' = base s ∧
    proto_hdr s' = proto_hdr s ∧ proto_hdr_len s' = proto_hdr_len s ∧ next_proto s' = next_proto s.
Proof.
  intros [Hh Hr Hd _ _] E1 E2 E3 E4 Hfs Hne.
  destruct (reassemble_spec s1 L) as (ip & Hrun & Has); try done.
  { unfold hdr_ok. by rw E2 E3. } { by rw E1. } { unfold data_ok. by rw E2 E3. }
  exists ip. eexists. split; [done|]. unfold assembled in *. rw E2 E3 E4 in Has. split; [done|].
  unfold DeleteTimer. simpl. destruct (expire_timer s1) eqn:He; simpl; by split_and!.
Qed.

Lemma BlockInserted_spec s L :
  frag_inv s L → L ≠ [] →
  let d := run_from 0 L in
  if decide (frag_size s ≠ 0 ∧ frag_size s ≤ len d)%Z then
    ∃ ip s', BlockInserted s = Some s' ∧ assembled s d ip ∧ reassembled_pkt s' = Some ip ∧
      frag_size s' = len d ∧ expire_timer s' = false ∧ base s' = base s ∧
      proto_hdr s' = proto_hdr s ∧ proto_hdr_len s' = proto_hdr_len s ∧ next_proto s' = next_proto s
  else BlockInserted s = Some s.
Proof.
  intros Hinv HL d. pose proof Hinv as [Hh Hr _ _ Hfs].
  pose proof Hr as (l & Hwf & Hview & Ho). pose proof (wf_linked _ _ Hwf) as Hl.
  pose proof (run_from_first L _ Ho HL) as Hfirst. fold d in Hfirst.
  unfold BlockInserted. rw (wf_first _ _ Hwf).
  destruct l as [|b0 l]; [by subst L|]. simpl.
  destruct (linked_lookup _ _ 0 b0 Hl eq_refl) as (-> & _). simpl.
  pose proof (view_drop (heap (base s)) (b0 :: l) 0 b0 eq_refl) as Hv0. rw drop_0 Hview in Hv0.
  assert (0 ≤ seq (the_block (heap (base s)) b0))%Z as Hs0.
  { rw Hv0 in Ho. simpl in Ho. lia. }
  destruct (Z.ltb_spec 0 (seq (the_block (heap (base s)) b0))) as [Hpos|Hzero]; simpl.
  { rw decide_False; [done|]. intros [H1 H2]. assert (d = []) as Hd.
    { unfold d. rw Hv0 /=. rw decide_False; [done|lia]. }
    rw Hd in H2. unfold len in H2. simpl in H2. lia. }
  destruct (Z.eqb_spec (frag_size s) 0) as [Hf0|Hf0]; [by rw decide_False; [|lia]|].
  assert (seq (the_block (heap (base s)) b0) = 0)%Z as Hseq by lia.
  assert (d ≠ []) as Hdne by (apply Hfirst; eauto).
  pose proof (linked_size _ _ Hl) as Hsize.
  destruct (contiguous_end_spec (S (size (heap (base s)))) (heap (base s)) (b0 :: l) 0 b0 Hl eq_refl)
    as (j & b & Hce & Hj & Hnb & Hub); [lia|].
  rw Hce /=. clear Hce. rw drop_0 Hview Hseq Z.add_0_l in Hub. fold d in Hub.
  assert (∃ lb, last_block (base s) = Some lb ∧ last (b0 :: l) = Some lb) as (lb & Hlb & Hlast).
  { rw (wf_last _ _ Hwf). destruct (last (b0 :: l)) eqn:E; [eauto|by apply last_None in E]. }
  rw Hlb /=. pose proof Hlast as Hll. rw last_lookup in Hll.
  destruct (linked_lookup _ _ _ _ Hl Hll) as (-> & _). simpl. rw Hnb.
  destruct (proto_h_total s Hh) as [ph ->].
  destruct ((b0 :: l) !! S j) as [nx|] eqn:Hnx; simpl.
  - rw Hub. destruct (Z.leb_spec (frag_size s) (len d)) as [Hle|Hgt]; simpl.
    + rw decide_True; [|lia]. by apply (reassemble_after s).
    + rw decide_False; [done|lia].
  - assert (b = lb) as ->.
    { apply lookup_ge_None in Hnx. pose proof (lookup_lt_Some _ _ _ Hj).
      assert (j = pred (length (b0 :: l))) as -> by (simpl in *; lia). congruence. }
    rw Hub. destruct (Z.ltb_spec (frag_size s) (len d)) as [Hlt|Hge]; simpl.
    + rw decide_True; [|lia]. by apply (reassemble_after s).
    + destruct (Z.ltb_spec (len d) (frag_size s)) as [Hlt|Hge']; simpl.
      * rw decide_False; [done|lia].
      * rw decide_True; [|lia]. apply (reassemble_after s); try done. fold d. lia.
Qed.

(** ** Adding a fragment *)

(** The fields of a fragment that [AddFragment] reads. *)
Record readable (s : FragReassembler) (ip : IP.IP_Hdr) (off tl hl : Z) (mf : bool) : Prop := {
  rd_off : IP.FragOffset ip = Some off;
  rd_tl : IP.TotalLen ip = Some tl;
  rd_hl : IP.HdrLen ip = Some hl;
  rd_mf : IP.MF ip = Some mf;
  rd_df : is_Some (IP.DF ip);
  rd_next : is_Some (IP.NextProto false ip);
  rd_same : is_Some (inconsistent ip s)
}.

(** The size of the packet after a fragment that ends at [upper]; 0 if unknown. *)
Definition size_after (old : Z) (mf : bool) (upper : Z) : Z :=
  if (old =? 0)%Z then (if mf then 0%Z else upper) else Z.max old upper.

Lemma update_size_spec mf tl upper s :
  (0 ≤ frag_size s)%Z → (0 ≤ upper)%Z →
  let s' := update_size mf tl upper s in
  frag_size s' = size_after (frag_size s) mf upper ∧ base s' = base s ∧ proto_hdr s' = proto_hdr s ∧
  proto_hdr_len s' = proto_hdr_len s ∧ next_proto s' = next_proto s ∧
  reassembled_pkt s' = reassembled_pkt s ∧ expire_timer s' = expire_timer s.
Proof.
  intros Hfs Hup. unfold update_size, weird_if, size_after. cbv zeta.
  destruct mf; simpl; repeat case_match; simpl in *; split_and!; try done; lia.
Qed.

#[global] Instance frag_laws : ReassemblerLaws FragReassembler.
Proof. split; [done|done|by intros []]. Qed.

Lemma frag_overlap s0 : overlap_reports frag_virtuals (λ s, hdr_ok s ∧ same_frame s0 s).
Proof.
  split; [done|]. intros b1 b2 n s Hn Hn2 [Hh Hsf]. simpl. unfold Overlap.
  destruct (proto_h_total s Hh) as [ph ->]. simpl. unfold memcmp_ne. rw decide_True; [|lia]. simpl.
  by eexists.
Qed.

(** C11. A fragment whose payload is there adds its bytes where none were held, and
    updates the known size of the packet.  As soon as every byte below that size
    is held, and not before, the packet is reassembled: the header of the first
    fragment followed by the bytes held without a gap from offset 0, and the timer
    is cancelled.  The length field of an IPv4 packet keeps only 16 bits of the
    size, also when the fragments add up to more. *)
Theorem AddFragment_reassembles (s : FragReassembler) (L : list chunk) (ip : IP.IP_Hdr) (pkt : bytes)
    (off tl hl : Z) (mf : bool)
    (Hinv : frag_inv s L) (Hrd : readable s ip off tl hl mf)
    (Hoff : (0 ≤ off ≤ 65528)%Z) (Hlen : (0 ≤ hl < tl)%Z) (Hcap : (tl ≤ len pkt)%Z) (Hmax : (tl ≤ 65575)%Z)
    (Hpkt : IP.bytes_ok pkt)
    (H6 : IP.ip_v (proto_hdr s) = Some 6%Z → (proto_hdr_len s + (off + tl - hl) ≤ 65535)%Z) :
  let payload := take (Z.to_nat (tl - hl)) (drop (Z.to_nat hl) pkt) in
  let size := size_after (frag_size s) mf (off + tl - hl) in
  ∃ s' L', AddFragment ip pkt s = Some s' ∧ frag_inv s' L' ∧
    (∀ p, content L' p = match content L p with Some x => Some x | None => byte_of (off, payload) p end) ∧
    let d := run_from 0 L' in
    if decide (size ≠ 0 ∧ size ≤ len d)%Z then
      ∃ ip', reassembled_pkt s' = Some ip' ∧ assembled s' d ip' ∧ expire_timer s' = false ∧
        (∀ p, (0 ≤ p < len d)%Z → content L' p = d !! Z.to_nat p) ∧ content L' (len d) = None
    else reassembled_pkt s' = reassembled_pkt s ∧ frag_size s' = size ∧ expire_timer s' = expire_timer s.
Proof.
  intros payload size. destruct Hrd as [Ho Ht Hh Hm [df Hdf] [np Hnp] [bad Hbad]].
  unfold AddFragment. rw Hbad /= Hdf /= Ho /= Ht /= Hh /=.
  set (s1 := weird_if df _ (weird_if bad _ s)).
  assert (∃ s2, (if (off =? 0)%Z then np0 ← IP.NextProto false ip; Some (set_next_proto np0 s1) else Some s1) = Some s2 ∧
    base s2 = base s ∧ proto_hdr s2 = proto_hdr s ∧ proto_hdr_len s2 = proto_hdr_len s ∧
    frag_size s2 = frag_size s ∧ reassembled_pkt s2 = reassembled_pkt s ∧ expire_timer s2 = expire_timer s)
    as (s2 & -> & E1 & E2 & E3 & E4 & E5 & E6).
  { rw Hnp. unfold s1, weird_if. destruct (off =? 0)%Z, df, bad; simpl; eexists; split; done. }
  simpl. rw Hm /=.
  assert (len payload = tl - hl)%Z as Hpl by (unfold payload; rw len_take len_drop; lia).
  destruct Hinv as [Hhdr Hrep Hdata Htrim Hfs].
  destruct (update_size_spec mf tl (off + tl - hl) s2) as (U1 & U2 & U3 & U4 & U5 & U6 & U7); [lia|lia|].
  set (s3 := update_size mf tl (off + tl - hl) s2) in *. rw E4 in U1. fold size in U1.
  assert (0 ≤ size)%Z as Hsz by (unfold size, size_after; repeat case_match; lia).
  assert (hdr_ok s3) as Hhdr3 by (unfold hdr_ok; rw U3 U4 E2 E3; exact Hhdr).
  pose proof (NewBlock_spec frag_virtuals _ (frag_overlap s3) s3 L off payload) as Hspec.
  change (core s3) with (base s3) in Hspec. rw U2 E1 Htrim in Hspec.
  fold payload. rw -Hpl. 
  rw decide_False in Hspec; [|intros [Hnil|?]; [rw Hnil in Hpl; unfold len in Hpl; simpl in Hpl; lia|lia]].
  destruct Hspec as (nb & s4 & (l1 & Hwf1 & Hv1 & Ho1 & Hnb & [Hsame HQ] & _) & Hrun);
    [done|done|unfold in_range, max_seq; lia|lia|unfold max_seq; lia|].
  rw Hrun. clear Hrun. simpl.
  replace (Z.to_nat (0 - off)) with 0 in * by lia. replace (Z.max off 0) with off in * by lia. rw drop_0 in Hv1, Ho1.
  set (L' := add_data L off payload) in *.
  destruct HQ as [Hhdr4 (F1 & F2 & F3 & F4 & F5 & F6)]; [by split|].
  assert (payload ≠ []) as Hpne by (intros Hn; rw Hn in Hpl; unfold len in Hpl; simpl in Hpl; lia).
  assert (∀ p, content L' p = match content L p with Some x => Some x | None => byte_of (off, payload) p end) as Hcont.
  { intros p. destruct Hrep as (l & _ & _ & Hol). apply (add_data_content 0 max_seq); done. }
  assert (frag_inv s4 L') as Hinv4.
  { split; [done|by exists l1| |destruct Hsame as [_ Hts]; simpl in Hts; congruence|congruence].
    intros p x. rw Hcont F1 F2 U3 U4 E2 E3. destruct (content L p) as [y|] eqn:Hy.
    - intros [= <-]. by apply Hdata.
    - intros Hx. pose proof (byte_of_range _ _ _ Hx) as Hr. unfold chunk_end in Hr. simpl in Hr.
      split; [|intros Hv; specialize (H6 Hv); lia].
      unfold byte_of in Hx. rw decide_True // in Hx.
      assert (IP.bytes_ok payload) as Hpo by (by apply Forall_take, Forall_drop).
      exact (proj1 (Forall_lookup _ _) Hpo _ _ Hx). }
  assert (L' ≠ []) as HL' by (rw -Hv1; destruct l1; [by apply not_elem_of_nil in Hnb|done]).
  pose proof (BlockInserted_spec s4 L' Hinv4 HL') as HBI.
  assert (frag_size s4 = size) as Hsz4 by congruence. rw Hsz4 in HBI. cbv zeta in HBI.
  destruct (decide (size ≠ 0 ∧ size ≤ len (run_from 0 L'))%Z) as [Hd|Hd].
  - destruct HBI as (ip' & s' & Hrun & Has & Hrp & Hfs' & Het & Hb & P1 & P2 & P3).
    exists s', L'. split; [done|]. split; [|split; [done|]].
    + destruct Hinv4 as [I1 I2 I3 I4 I5]. split; rw ?Hb; try done.
      * unfold hdr_ok. by rw P1 P2.
      * unfold data_ok. by rw P1 P2.
      * rw Hfs'. apply len_nonneg.
    + rw decide_True //. exists ip'. split; [done|]. split; [unfold assembled; by rw P1 P2 P3|].
      split; [done|]. destruct (run_from_content 0 L' max_seq Ho1) as [C1 C2]. split; [|done].
      intros p Hp. rw C1; [|lia]. by rw Z.sub_0_r.
  - exists s4, L'. split; [done|]. split; [done|]. split; [done|]. rw decide_False //. split; [congruence|].
    split; congruence.
Qed.

(** A fragment whose total length is smaller than its header length, but which
    ends above offset 0, is not rejected: the first such fragment makes the
    reassembler allocate and copy a block of negative size, which has no defined
    result. *)
Theorem AddFragment_negative_length (s : FragReassembler) (ip : IP.IP_Hdr) (pkt : bytes)
    (off tl hl : Z) (mf : bool)
    (Hrd : readable s ip off tl hl mf) (Hempty : blocks (base s) = None) (Htrim : trim_seq (base s) = 0%Z)
    (Hoff : (0 ≤ off ≤ 65528)%Z) (Hlen : (0 ≤ tl < hl)%Z) (Hpos : (0 < off + tl - hl)%Z) :
  AddFragment ip pkt s = None.
Proof.
  destruct Hrd as [Ho Ht Hh Hm [df Hdf] [np Hnp] [bad Hbad]].
  unfold AddFragment. rw Hbad /= Hdf /= Ho /= Ht /= Hh /= Hnp /=. rw Hm.
  assert (∃ s2, (if (off =? 0)%Z then Some (set_next_proto np (weird_if df "fragment_with_DF"
      (weird_if bad "fragment_protocol_inconsistency" s)))
    else Some (weird_if df "fragment_with_DF" (weird_if bad "fragment_protocol_inconsistency" s))) = Some s2 ∧
    base s2 = base s) as (s2 & -> & E).
  { unfold weird_if. destruct (off =? 0)%Z, df, bad; by eexists. }
  simpl. set (s3 := update_size mf tl (off + tl - hl) s2).
  assert (base s3 = base s) as E3.
  { rw -E. unfold s3, update_size, weird_if. destruct mf; simpl; repeat case_match; done. }
  unfold NewBlock. destruct (Z.eqb_spec (tl - hl) 0) as [?|_]; [lia|]. simpl.
  change (core s3) with (base s3). rw E3 Htrim Hempty.
  rw !seq_delta_small; [|lia..]. destruct (Z.leb_spec (off + (tl - hl) - 0) 0) as [?|_]; [lia|].
  destruct (Z.ltb_spec (off - 0) 0) as [?|_]; [lia|]. unfold new_block, DataBlock_new.
  rw decide_True; [done|]. left. lia.
Qed.

(** ** Witnesses *)

Definition sample_hdr : bytes :=
  [69; 0; 0; 28; 0; 1; 32; 0; 64; 17; 0; 0; 10; 0; 0; 1; 10; 0; 0; 2]%Z.

(** After the first fragment of a UDP packet, with 8 bytes of payload. *)
Definition frag_sample : FragReassembler :=
  mkFrag (mkR (Some 0) (Some 0) 0 0 {[0 := mkBlock None None 0 8 [1; 2; 3; 4; 5; 6; 7; 8]%Z]} 1)
    sample_hdr 20 None 0 17 true [].

(** The second and last fragment, with 3 bytes. *)
Definition frag_pkt : bytes :=
  [69; 0; 0; 23; 0; 1; 0; 1; 64; 17; 0; 0; 10; 0; 0; 1; 10; 0; 0; 2; 9; 10; 11]%Z.

Example frag_sample_new :
  match FragReassembler_new (double_of_Z 0) (IP.Hdr4 (sample_hdr ++ [1; 2; 3; 4; 5; 6; 7; 8]%Z))
    (sample_hdr ++ [1; 2; 3; 4; 5; 6; 7; 8]%Z) (double_of_Z 0) with
  | Some s => base s = base frag_sample ∧ proto_hdr s = sample_hdr ∧ log s = [Weird "excessively_small_fragment"]
  | None => False
  end.
Proof. vm_compute. split_and!; reflexivity. Qed.

Lemma frag_sample_inv : frag_inv frag_sample [(0, [1; 2; 3; 4; 5; 6; 7; 8])]%Z.
Proof.
  split; [| | |done|done].
  - split; [by apply (bool_decide_unpack _)|]. split; [done|]. split; [simpl; lia|]. left. split; [done|simpl; lia].
  - exists [0]. split; [split|]; simpl; try done.
    + split; [by apply (bool_decide_unpack _)|]. intros [|i] a Ha; simplify_eq/=. by eexists.
    + intros a d [<- _]%lookup_singleton_Some. lia.
  - intros p x Hx. split; [|done]. simpl in Hx. destruct (byte_of _ p) as [y|] eqn:Hy; [|done]. injection Hx as <-.
    unfold byte_of in Hy. case_decide; [|done]. simpl in Hy.
    assert (IP.bytes_ok [1; 2; 3; 4; 5; 6; 7; 8]%Z) as Hb by by apply (bool_decide_unpack _).
    exact (proj1 (Forall_lookup _ _) Hb _ _ Hy).
Qed.

Lemma AddFragment_reassembles_witness :
  ∃ s' ip', AddFragment (IP.Hdr4 frag_pkt) frag_pkt frag_sample = Some s' ∧ reassembled_pkt s' = Some ip' ∧
    IP.packet ip' = [69; 0; 0; 31; 0; 1; 32; 0; 64; 17; 0; 0; 10; 0; 0; 1; 10; 0; 0; 2;
                     1; 2; 3; 4; 5; 6; 7; 8; 9; 10; 11]%Z.
Proof.
  destruct (AddFragment_reassembles frag_sample _ (IP.Hdr4 frag_pkt) frag_pkt 8 23 20 false frag_sample_inv)
    as (s' & L' & Hrun & _ & _ & H).
  { split; reflexivity || by eexists. } { lia. } { lia. } { unfold len. simpl. lia. } { lia. }
  { by apply (bool_decide_unpack _). } { discriminate. }
  exists s'. assert (Some s' = AddFragment (IP.Hdr4 frag_pkt) frag_pkt frag_sample) as Hs by (symmetry; exact Hrun).
  clear H. vm_compute in Hs. injection Hs as ->. eexists. split; [exact Hrun|]. split; reflexivity.
Defined.

(** A first fragment at offset 24 that claims 12 bytes for itself and 20 for its
    header. *)
Definition short_pkt : bytes := [69; 0; 0; 12; 0; 1; 32; 3; 64; 17; 0; 0; 10; 0; 0; 1; 10; 0; 0; 2]%Z.

Lemma AddFragment_negative_length_witness :
  FragReassembler_new (double_of_Z 0) (IP.Hdr4 short_pkt) short_pkt (double_of_Z 0) = None ∧
  AddFragment (IP.Hdr4 short_pkt) short_pkt (mkFrag (Reassembler_new 0) sample_hdr 20 None 0 17 false []) = None.
Proof.
  split; [vm_compute; reflexivity|].
  apply (AddFragment_negative_length _ _ _ 24 12 20 true); [split; reflexivity || by eexists|reflexivity|reflexivity|lia|lia|lia].
Defined.

End F.
