(* ===== verification/NetUtil.v ===== *)
(** NetUtil: checksums, sequence numbers and addresses, net_util.cc / net_util.h.

    The host is little-endian: a 16-bit word of a packet is read with its first
    byte as the low one, and [htons] swaps. *)
From S2P Require Import Prelude IP.

Module NU.

Abbreviation bytes := (list Z) (only parsing).

Definition htons (x : Z) : Z := (uint16 x mod 256 * 256 + uint16 x / 256)%Z.

(** [while ( --b >= 0 ) sum += *sp++] *)
Fixpoint sum_words (n : nat) (p : bytes) (sum : Z) : option Z :=
  match n, p with
  | O, _ => Some sum
  | S n, a :: b :: p => sum_words n p (uint32 (sum + (a + 256 * b)))
  | S _, _ => None
  end.

(** [while ( sum > 0xffff ) sum = (sum & 0xffff) + (sum >> 16)] *)
Fixpoint fold_carries (fuel : nat) (sum : Z) : option Z :=
  match fuel with
  | O => None
  | S fuel => if (0xffff <? sum)%Z then fold_carries fuel (Z.land sum 0xffff + Z.shiftr sum 16) else Some sum
  end.

Definition ones_complement_checksum (p : bytes) (b sum : Z) : option Z :=
  s ← sum_words (Z.to_nat (Z.quot b 2)) p sum; fold_carries 3 s.

(** The checksum of an address: its 4 or 16 bytes. *)
Definition addr_checksum (a : bytes) (sum : Z) : option Z :=
  ones_complement_checksum a (Z.of_nat (length a)) sum.

(** The pad byte of an odd length: the last byte, as the first of its word. *)
Definition pad (p : bytes) (len sum : Z) : option Z :=
  if (Z.rem len 2 =? 1)%Z then x ← IP.get8 p (len - 1); Some (uint32 (sum + htons (Z.shiftl x 8)))
  else Some sum.

Definition icmp_checksum (icmpp : bytes) (len : Z) : option Z :=
  sum ← pad icmpp len 0; ones_complement_checksum icmpp len sum.

(** [htonl(len)] in memory. *)
Definition be32 (x : Z) : bytes :=
  let x := uint32 x in
  [x / 16777216; x / 65536 mod 256; x / 256 mod 256; x mod 256]%Z.

Definition IPPROTO_ICMPV6 : Z := 58.

Definition icmp6_checksum (icmpp : bytes) (ip : IP.IP_Hdr) (len : Z) : option Z :=
  sum ← pad icmpp len 0;
  src ← IP.SrcAddr ip; sum ← addr_checksum src sum;
  dst ← IP.DstAddr ip; sum ← addr_checksum dst sum;
  sum ← ones_complement_checksum (be32 len) 4 sum;
  (* [uint32 addl_pseudo = htons(IPPROTO_ICMPV6)] in memory *)
  sum ← ones_complement_checksum [0; IPPROTO_ICMPV6; 0; 0]%Z 4 sum;
  ones_complement_checksum icmpp len sum.

(** [CHECK_CLASS(addr, class)] *)
Definition CHECK_CLASS (addr class : Z) : bool := (Z.land addr class =? class)%Z.

Inductive addr_class := ClassA | ClassB | ClassC | ClassD | ClassE.

Definition addr_to_class (addr : Z) : addr_class :=
  if CHECK_CLASS addr 0xf0000000 then ClassE
  else if CHECK_CLASS addr 0xe0000000 then ClassD
  else if CHECK_CLASS addr 0xc0000000 then ClassC
  else if CHECK_CLASS addr 0x80000000 then ClassB
  else ClassA.

Definition extract_uint32 (data : bytes) : option Z :=
  a ← IP.get8 data 0; b ← IP.get8 data 1; c ← IP.get8 data 2; d ← IP.get8 data 3;
  Some (Z.lor (Z.lor (Z.lor (uint32 (Z.shiftl a 24)) (Z.shiftl b 16)) (Z.shiftl c 8)) d).

Definition seq_between (a b c : Z) : bool :=
  if (b <=? c)%Z then (b <=? a)%Z && (a <=? c)%Z else (b <=? a)%Z || (a <=? c)%Z.

(** [ntohll]: exchange the bytes of a 64-bit integer. *)
Definition ntohll (i : Z) : Z :=
  foldr (λ k acc, Z.lor acc (Z.shiftl (Z.land (Z.shiftr i (8 * k)) 255) (8 * (7 - k))))%Z 0%Z
    [0; 1; 2; 3; 4; 5; 6; 7]%Z.

(** ** Specification *)

(** The sum of the 16-bit words. *)
Fixpoint word_sum (p : bytes) : Z :=
  match p with
  | a :: b :: p => (a + 256 * b + word_sum p)%Z
  | _ => 0%Z
  end.

(** [p] with the word at byte offset [2 * i] replaced. *)
Definition set_word (p : bytes) (i : nat) (w : Z) : bytes :=
  <[2 * i := (w mod 256)%Z]> (<[2 * i + 1 := (w / 256)%Z]> p).

(** ** Sums *)

Lemma word_sum_bounds p : IP.bytes_ok p → (0 ≤ word_sum p ≤ 65535 * (Z.of_nat (length p) / 2))%Z.
Proof.
  revert p. fix IH 1. intros [|a [|b p]] Hp; [by split|by split|].
  apply Forall_cons in Hp as [Ha [Hb Hp]%Forall_cons]. pose proof (IH p Hp).
  change (word_sum (a :: b :: p)) with (a + 256 * b + word_sum p)%Z.
  replace (Z.of_nat (length (a :: b :: p))) with (1 * 2 + Z.of_nat (length p))%Z by (simpl; lia).
  rw Z.div_add_l; lia.
Qed.

Lemma sum_words_spec n p sum :
  IP.bytes_ok p → length p = 2 * n → (0 ≤ sum)%Z → (sum + word_sum p < 4294967296)%Z →
  sum_words n p sum = Some (sum + word_sum p)%Z.
Proof.
  revert p sum. induction n as [|n IH]; intros p sum Hp Hl Hs Hb.
  - destruct p; [|done]. simpl. f_equal. lia.
  - destruct p as [|a [|b p]]; [simpl in Hl; lia|simpl in Hl; lia|].
    apply Forall_cons in Hp as [Ha [Hb' Hp]%Forall_cons]. pose proof (word_sum_bounds p Hp) as Hw.
    change (word_sum (a :: b :: p)) with (a + 256 * b + word_sum p)%Z in *. simpl sum_words.
    rw uint32_small; [|lia]. rw IH //; [f_equal; lia|simpl in Hl; lia|lia|lia].
Qed.

Lemma fold_step sum :
  (0 ≤ sum)%Z →
  (Z.land sum 0xffff + Z.shiftr sum 16 = sum - 65535 * (sum / 65536))%Z.
Proof.
  intros Hs. change 0xffff%Z with (Z.ones 16). rw Z.land_ones // Z.shiftr_div_pow2 //.
  change (2 ^ 16)%Z with 65536%Z. change (Z.ones 16) with 65535%Z. pose proof (Z.div_mod sum 65536). lia.
Qed.

(** Three rounds fold every 32-bit sum. *)
Lemma fold_carries_spec sum :
  (0 ≤ sum < 4294967296)%Z →
  ∃ r, fold_carries 3 sum = Some r ∧ (0 ≤ r ≤ 65535)%Z ∧ (∃ k, r = sum - 65535 * k)%Z ∧ (r = 0 ↔ sum = 0)%Z.
Proof.
  intros Hs. cbn [fold_carries].
  destruct (Z.ltb_spec 0xffff sum) as [H1|H1]; [|exists sum; split_and!; try done; [lia|exists 0%Z; lia]].
  rw fold_step; [|lia]. set (q := (sum / 65536)%Z).
  assert (1 ≤ q ≤ 65535)%Z as Hq.
  { unfold q. split; [apply Z.div_le_lower_bound; lia|]. enough (sum / 65536 < 65536)%Z by lia. apply Z.div_lt_upper_bound; lia. }
  assert (65536 * q ≤ sum < 65536 * q + 65536)%Z as Hqs.
  { unfold q. pose proof (Z.div_mod sum 65536). pose proof (Z.mod_pos_bound sum 65536). lia. }
  destruct (Z.ltb_spec 0xffff (sum - 65535 * q)) as [H2|H2];
    [|exists (sum - 65535 * q)%Z; split_and!; [done|lia|lia|by exists q|lia]].
  rw fold_step; [|lia]. assert ((sum - 65535 * q) / 65536 = 1)%Z as ->.
  { symmetry. apply Z.div_unique with (sum - 65535 * q - 65536)%Z; lia. }
  destruct (Z.ltb_spec 0xffff (sum - 65535 * q - 65535 * 1)) as [H3|H3]; [lia|].
  exists (sum - 65535 * q - 65535 * 1)%Z. split_and!; [done|lia|lia|exists (q + 1)%Z; lia|lia].
Qed.

Lemma checksum_spec p b sum :
  IP.bytes_ok p → Z.of_nat (length p) = b → (Z.rem b 2 = 0)%Z → (0 ≤ sum)%Z → (sum + word_sum p < 4294967296)%Z →
  ∃ r, ones_complement_checksum p b sum = Some r ∧ (0 ≤ r ≤ 65535)%Z ∧
    (∃ k, r = sum + word_sum p - 65535 * k)%Z ∧ (r = 0 ↔ sum + word_sum p = 0)%Z.
Proof.
  intros Hp Hl Hr Hs Hb. unfold ones_complement_checksum.
  pose proof (Z.quot_rem b 2 ltac:(lia)) as Hq. rw Hr in Hq.
  rw sum_words_spec //; [|lia]. simpl. pose proof (word_sum_bounds p Hp). apply fold_carries_spec. lia.
Qed.

Lemma set_word_ok p i w : IP.bytes_ok p → (0 ≤ w < 65536)%Z → IP.bytes_ok (set_word p i w).
Proof.
  intros Hp Hw. unfold set_word.
  apply IP.bytes_ok_insert; [apply IP.bytes_ok_insert; [done|]|].
  - split; [apply Z.div_pos; lia|apply Z.div_lt_upper_bound; lia].
  - apply Z.mod_pos_bound. lia.
Qed.

Lemma set_word_sum p i w old :
  (2 * i + 1 < length p) → (0 ≤ w < 65536)%Z →
  p !! (2 * i) = Some (old mod 256)%Z → p !! (2 * i + 1) = Some (old / 256)%Z →
  word_sum (set_word p i w) = (word_sum p - old + w)%Z.
Proof.
  revert p. induction i as [|i IH]; intros p Hi Hw H1 H2.
  - destruct p as [|a [|b p]]; [simpl in Hi; lia|simpl in Hi; lia|]. simplify_eq/=.
    pose proof (Z.div_mod old 256). pose proof (Z.div_mod w 256). lia.
  - destruct p as [|a [|b p]]; [simpl in Hi; lia|simpl in Hi; lia|].
    assert (set_word (a :: b :: p) (S i) w = a :: b :: set_word p i w) as ->.
    { unfold set_word. replace (2 * S i) with (S (S (2 * i))) by lia. done. }
    replace (2 * S i) with (S (S (2 * i))) in H1, H2, Hi by lia. simpl in H1, H2, Hi.
    change (word_sum (a :: b :: set_word p i w)) with (a + 256 * b + word_sum (set_word p i w))%Z.
    change (word_sum (a :: b :: p)) with (a + 256 * b + word_sum p)%Z.
    rw IH //; [lia|simpl in *; lia].
Qed.

(** ** Properties *)

(** A packet whose checksum field holds the complement of the checksum taken
    with a zero field verifies ([0xffff]), and once it verifies, changing any one
    word to a different value is detected, except for exchanging the two
    representations of zero. *)
Theorem checksum_detects (p : bytes) (b sum : Z) (i : nat)
    (Hp : IP.bytes_ok p) (Hb : Z.of_nat (length p) = b) (Heven : Z.rem b 2 = 0%Z) (Hmax : (b ≤ 65536)%Z)
    (Hsum : (0 ≤ sum < 65536)%Z) (Hi : 2 * i + 1 < length p) :
  (p !! (2 * i) = Some 0%Z → p !! (2 * i + 1) = Some 0%Z →
    ∃ r, ones_complement_checksum p b sum = Some r ∧
      ones_complement_checksum (set_word p i (0xffff - r)) b sum = Some 0xffff%Z) ∧
  (ones_complement_checksum p b sum = Some 0xffff%Z →
    ∀ old w, (0 ≤ old < 65536)%Z → (0 ≤ w < 65536)%Z → p !! (2 * i) = Some (old mod 256)%Z →
      p !! (2 * i + 1) = Some (old / 256)%Z → w ≠ old → ¬ ((w = 0 ∨ w = 0xffff) ∧ (old = 0 ∨ old = 0xffff))%Z →
      ones_complement_checksum (set_word p i w) b sum ≠ Some 0xffff%Z).
Proof.
  pose proof (word_sum_bounds p Hp) as Hws. rw Hb in Hws.
  assert (b / 2 ≤ 32768)%Z by (apply Z.div_le_upper_bound; lia).
  assert (∀ w old, (0 ≤ w < 65536)%Z → (0 ≤ old)%Z → p !! (2 * i) = Some (old mod 256)%Z →
    p !! (2 * i + 1) = Some (old / 256)%Z →
    ∃ r, ones_complement_checksum (set_word p i w) b sum = Some r ∧ (0 ≤ r ≤ 65535)%Z ∧
      (∃ k, r = sum + (word_sum p - old + w) - 65535 * k)%Z ∧ (r = 0 ↔ sum + (word_sum p - old + w) = 0)%Z) as Hset.
  { intros w old Hw Ho H1 H2. rw -(set_word_sum p i w old) //.
    apply checksum_spec; [by apply set_word_ok|unfold set_word; by rw !length_insert|done|lia|].
    rw (set_word_sum p i w old) //. lia. }
  destruct (checksum_spec p b sum) as (r & Hr & Hrb & (k & Hk) & Hz); [done|done|done|lia|lia|].
  split.
  - intros H1 H2. exists r. split; [done|].
    destruct (Hset (0xffff - r)%Z 0%Z) as (r' & -> & Hrb' & (k' & Hk') & Hz'); [lia|lia|done|done|].
    f_equal. assert (r' = 0 ∨ r' = 65535)%Z as [->|]; [|lia|done].
    { assert (r' = 65535 * (k + 1 - k'))%Z by lia. lia. }
  - rw Hr. intros [= ->] old w Ho Hw H1 H2 Hne Hz0.
    destruct (Hset w old) as (r' & -> & Hrb' & (k' & Hk') & _); [lia|lia|done|done|]. intros [= ->].
    apply Hz0. assert (old - w = 65535 * (k' - k))%Z by lia. lia.
Qed.

(** For sequence numbers with [b] at most half the space before [c],
    [seq_between a b c] holds exactly if [a] is met on the way from [b] to [c]. *)
Theorem seq_between_spec (a b : Z) (k : Z)
    (Ha : (0 ≤ a < 4294967296)%Z) (Hb : (0 ≤ b < 4294967296)%Z) (Hk : (0 ≤ k < 2147483648)%Z) :
  seq_between a b (uint32 (b + k)) = true ↔ ∃ j, (0 ≤ j ≤ k)%Z ∧ a = uint32 (b + j).
Proof.
  assert (∀ j, (0 ≤ j < 4294967296)%Z → uint32 (b + j) = if decide (b + j < 4294967296)%Z then (b + j)%Z else (b + j - 4294967296)%Z) as Hu.
  { intros j Hj. unfold uint32, wrap_u. change (2 ^ 32)%Z with 4294967296%Z. case_decide.
    - apply Z.mod_small. lia.
    - symmetry. apply Z.mod_unique_pos with 1%Z; lia. }
  unfold seq_between. rw (Hu k); [|lia].
  assert (∀ c, (if (b <=? c)%Z then (b <=? a)%Z && (a <=? c)%Z else (b <=? a)%Z || (a <=? c)%Z) = true ↔
    (b ≤ c ∧ b ≤ a ≤ c ∨ c < b ∧ (b ≤ a ∨ a ≤ c))%Z) as Hbt.
  { intros c. destruct (Z.leb_spec b c); rw ?andb_true_iff ?orb_true_iff !Z.leb_le; lia. }
  rw Hbt. split.
  - intros Hc. exists (if decide (b ≤ a)%Z then a - b else a - b + 4294967296)%Z.
    destruct (decide (b ≤ a)%Z); (split; [revert Hc; case_decide; lia|rw Hu; [clear Hc; case_decide; lia|revert Hc; case_decide; lia]]).
  - intros (j & Hj & ->). rw Hu; [|lia]. repeat case_decide; lia.
Qed.

(** The top [n] bits of a 32-bit address are all set exactly from
    [2^32 - 2^(32-n)] on. *)
Lemma CHECK_CLASS_spec addr k n :
  (0 ≤ addr < 2 ^ (k + n))%Z → (0 ≤ k)%Z → (0 ≤ n)%Z →
  CHECK_CLASS addr (Z.shiftl (Z.ones n) k) = true ↔ (2 ^ (k + n) - 2 ^ k ≤ addr)%Z.
Proof.
  intros Ha Hk Hn. unfold CHECK_CLASS. rw Z.eqb_eq. rw Z.pow_add_r // in Ha |- *.
  pose proof (Z.pow_pos_nonneg 2 k ltac:(lia) Hk). pose proof (Z.pow_pos_nonneg 2 n ltac:(lia) Hn).
  assert (Z.land addr (Z.shiftl (Z.ones n) k) = Z.shiftl (addr / 2 ^ k) k) as ->.
  { transitivity (Z.shiftl (Z.land (Z.shiftr addr k) (Z.ones n)) k).
    - apply Z.bits_inj'. intros i Hi. rw Z.land_spec. destruct (Z.ltb_spec i k).
      + by rw !Z.shiftl_spec_low // andb_false_r.
      + rw !Z.shiftl_spec // Z.land_spec Z.shiftr_spec; [|lia]. by replace (i - k + k)%Z with i by lia.
    - rw Z.land_ones // Z.shiftr_div_pow2 // Z.mod_small; [done|].
      split; [apply Z.div_pos; lia|apply Z.div_lt_upper_bound; lia]. }
  rw !Z.shiftl_mul_pow2 // Z.ones_equiv.
  pose proof (Z.div_mod addr (2 ^ k) ltac:(lia)). pose proof (Z.mod_pos_bound addr (2 ^ k) ltac:(lia)).
  set (q := (addr / 2 ^ k)%Z) in *. assert (q ≤ 2 ^ n - 1)%Z by nia. split; [nia|].
  intros Hle. f_equal. assert (2 ^ n - 1 ≤ q)%Z by nia. lia.
Qed.

(** [addr_to_class] is the classful reading of the first octet: A below 128,
    then B, C, D (multicast) and E (reserved) from 128, 192, 224 and 240 on. *)
Theorem addr_to_class_ranges (addr : Z) (Ha : (0 ≤ addr < 4294967296)%Z) :
  addr_to_class addr =
    (let octet := addr / 16777216 in
     if octet <? 128 then ClassA else if octet <? 192 then ClassB else if octet <? 224 then ClassC
     else if octet <? 240 then ClassD else ClassE)%Z.
Proof.
  assert (∀ n, (0 ≤ n ≤ 4)%Z → CHECK_CLASS addr (Z.shiftl (Z.ones n) (32 - n)) =
    (256 - 2 ^ (8 - n) <=? addr / 16777216)%Z) as Hc.
  { intros n Hn. apply eq_true_iff_eq. rw CHECK_CLASS_spec; [|by replace (32 - n + n)%Z with 32%Z by lia|lia|lia].
    replace (32 - n + n)%Z with 32%Z by lia. rw Z.leb_le.
    replace (2 ^ (32 - n))%Z with (2 ^ (8 - n) * 16777216)%Z
      by (change 16777216%Z with (2 ^ 24)%Z; rw -Z.pow_add_r; [f_equal; lia|lia|lia]).
    change (2 ^ 32)%Z with (256 * 16777216)%Z. set (q := (2 ^ (8 - n))%Z). split; intros H.
    - apply Z.div_le_lower_bound; lia.
    - pose proof (Z.mul_div_le addr 16777216 ltac:(lia)). nia. }
  unfold addr_to_class.
  rw (Hc 4%Z ltac:(lia) : CHECK_CLASS addr 0xf0000000 = _) (Hc 3%Z ltac:(lia) : CHECK_CLASS addr 0xe0000000 = _)
    (Hc 2%Z ltac:(lia) : CHECK_CLASS addr 0xc0000000 = _) (Hc 1%Z ltac:(lia) : CHECK_CLASS addr 0x80000000 = _).
  cbv zeta. change (256 - 2 ^ (8 - 4))%Z with 240%Z. change (256 - 2 ^ (8 - 3))%Z with 224%Z.
  change (256 - 2 ^ (8 - 2))%Z with 192%Z. change (256 - 2 ^ (8 - 1))%Z with 128%Z.
  rw !(Z.leb_antisym). repeat case_match; simpl in *; try done; exfalso;
    repeat match goal with H : negb _ = _ |- _ => apply (f_equal negb) in H; rw negb_involutive /= in H end;
    repeat match goal with
    | H : (_ <? _)%Z = true |- _ => apply Z.ltb_lt in H
    | H : (_ <? _)%Z = false |- _ => apply Z.ltb_ge in H
    end; lia.
Qed.

(** Reading back what [htonl] lays out in memory gives the number. *)
Theorem extract_uint32_be32 (x : Z) (rest : bytes) (Hx : (0 ≤ x < 4294967296)%Z) :
  extract_uint32 (be32 x ++ rest) = Some x.
Proof.
  unfold extract_uint32, be32. rw (uint32_small x) //.
  assert (0 ≤ x / 16777216 < 256)%Z as Ha by (split; [apply Z.div_pos|apply Z.div_lt_upper_bound]; lia).
  pose proof (Z.mod_pos_bound (x / 65536) 256 ltac:(lia)) as Hb. pose proof (Z.mod_pos_bound (x / 256) 256 ltac:(lia)) as Hc.
  pose proof (Z.mod_pos_bound x 256 ltac:(lia)) as Hd.
  set (a := (x / 16777216)%Z) in *. set (b := ((x / 65536) mod 256)%Z) in *. set (c := ((x / 256) mod 256)%Z) in *.
  assert (x = ((a * 256 + b) * 256 + c) * 256 + x mod 256)%Z as Hsum.
  { unfold a, b, c. pose proof (Z.div_mod x 256 ltac:(lia)). pose proof (Z.div_mod (x / 256) 256 ltac:(lia)).
    pose proof (Z.div_mod (x / 65536) 256 ltac:(lia)).
    assert (x / 256 / 256 = x / 65536)%Z by (rw Z.div_div; [done|lia|lia]).
    assert (x / 65536 / 256 = x / 16777216)%Z by (rw Z.div_div; [done|lia|lia]). lia. }
  change (Some (Z.lor (Z.lor (Z.lor (uint32 (Z.shiftl a 24)) (Z.shiftl b 16)) (Z.shiftl c 8)) (x mod 256)) = Some x)%Z.
  f_equal. rw uint32_small; [|rw Z.shiftl_mul_pow2 //; lia].
  assert (∀ u v k, (0 ≤ k)%Z → Z.lor (Z.shiftl u (k + 8)) (Z.shiftl v k) = Z.shiftl (Z.lor (Z.shiftl u 8) v) k) as Hsh.
  { intros u v k Hk. rw Z.shiftl_lor Z.shiftl_shiftl; [|lia]. by rw (Z.add_comm 8). }
  rw (Hsh a b 16%Z) // (Hsh _ c 8%Z) //. rw !lor_shiftl_add //.
Qed.

(** ** Witnesses *)

(** An IPv4 header with a zero checksum field. *)
Definition cksum_sample : bytes :=
  [69; 0; 0; 28; 0; 1; 0; 0; 64; 17; 0; 0; 10; 0; 0; 1; 10; 0; 0; 2]%Z.

Lemma checksum_detects_witness :
  ∃ r, ones_complement_checksum cksum_sample 20 0 = Some r ∧
    ones_complement_checksum (set_word cksum_sample 5 (0xffff - r)) 20 0 = Some 0xffff%Z ∧
    ones_complement_checksum (set_word (set_word cksum_sample 5 (0xffff - r)) 4 0x1141) 20 0 ≠ Some 0xffff%Z.
Proof.
  destruct (checksum_detects cksum_sample 20 0 5) as [H1 _];
    [by apply (bool_decide_unpack _)|reflexivity|reflexivity|lia|lia|simpl; lia|].
  destruct (H1 eq_refl eq_refl) as (r & Hr & Hv). clear H1. exists r. split; [exact Hr|]. split; [exact Hv|].
  vm_compute in Hr. injection Hr as <-.
  apply (checksum_detects (set_word cksum_sample 5 (0xffff - 12697)) 20 0 4) with 0x1140%Z;
    [by apply (bool_decide_unpack _)|reflexivity|reflexivity|lia|lia|simpl; lia|exact Hv|lia|lia|reflexivity|reflexivity|lia|lia].
Defined.

Lemma seq_between_spec_witness : seq_between 3 4294967290 (uint32 (4294967290 + 20)) = true.
Proof. apply (seq_between_spec 3 4294967290 20); [lia|lia|lia|]. exists 9%Z. split; [lia|reflexivity]. Defined.

Lemma addr_to_class_ranges_witness : addr_to_class 0xc0a80001 = ClassC.
Proof. rw (addr_to_class_ranges 0xc0a80001); [reflexivity|lia]. Defined.

Lemma extract_uint32_be32_witness : extract_uint32 (be32 0xc0a80001 ++ [7]%Z) = Some 0xc0a80001%Z.
Proof. apply (extract_uint32_be32 0xc0a80001 [7]%Z). lia. Defined.

End NU.
