(* ===== verification/Endpoint.v ===== *)
(** Endpoint: one side of a TCP connection, TCP_Endpoint.cc / TCP_Endpoint.h, the
    statistics over the states of all connections (TCPStateStats of Stats.cc /
    Stats.h), and the history of a connection (Conn.h). *)
From S2P Require Import Prelude Double IP NetUtil.
From stdpp Require Import strings.
From Stdlib Require Import Ascii.

Module E.

(** ** States and their statistics *)

Inductive EndpointState :=
  | TCP_ENDPOINT_INACTIVE | TCP_ENDPOINT_SYN_SENT | TCP_ENDPOINT_SYN_ACK_SENT
  | TCP_ENDPOINT_PARTIAL | TCP_ENDPOINT_ESTABLISHED | TCP_ENDPOINT_CLOSED | TCP_ENDPOINT_RESET.

#[global] Instance EndpointState_eq_dec : EqDecision EndpointState.
Proof. solve_decision. Defined.

Definition all_states : list EndpointState :=
  [TCP_ENDPOINT_INACTIVE; TCP_ENDPOINT_SYN_SENT; TCP_ENDPOINT_SYN_ACK_SENT; TCP_ENDPOINT_PARTIAL;
   TCP_ENDPOINT_ESTABLISHED; TCP_ENDPOINT_CLOSED; TCP_ENDPOINT_RESET].

(** [state_cnt]: unsigned counters, by the states of originator and responder. *)
Definition TCPStateStats : Type := EndpointState → EndpointState → Z.

Definition TCPStateStats_new : TCPStateStats := λ _ _, 0%Z.

Definition bump (d : Z) (o r : EndpointState) (st : TCPStateStats) : TCPStateStats :=
  λ o' r', if decide (o' = o ∧ r' = r) then uint32 (st o' r' + d) else st o' r'.

Definition StateEntered (o r : EndpointState) (st : TCPStateStats) : TCPStateStats := bump 1 o r st.
Definition StateLeft (o r : EndpointState) (st : TCPStateStats) : TCPStateStats := bump (-1) o r st.
Definition ChangeState (o_prev o_now r_prev r_now : EndpointState) (st : TCPStateStats) : TCPStateStats :=
  bump 1 o_now r_now (bump (-1) o_prev r_prev st).
Definition FlipState (o r : EndpointState) (st : TCPStateStats) : TCPStateStats :=
  bump 1 r o (bump (-1) o r st).
Definition Cnt (s1 s2 : EndpointState) (st : TCPStateStats) : Z := st s1 s2.
Definition NumStatePartial (st : TCPStateStats) : Z :=
  foldl (λ sum i, uint32 (uint32 (sum + st TCP_ENDPOINT_PARTIAL i) + st i TCP_ENDPOINT_PARTIAL)) 0%Z all_states.

(** ** Endpoints *)

(** [has_contents] and [has_file] tell whether [contents_processor] and
    [contents_file] are set. *)
Record TCP_Endpoint := mkEndpoint {
  state : EndpointState;
  prev_state : EndpointState;
  has_contents : bool;
  has_file : bool;
  checksum_base : Z;
  start_time : double;
  last_time : double;
  window : Z;
  window_scale : Z;
  window_ack_seq : Z;
  window_seq : Z;
  contents_start_seq : Z;
  FIN_seq : Z;
  SYN_cnt : Z;
  FIN_cnt : Z;
  RST_cnt : Z;
  did_close : bool;
  is_orig : bool;
  hist_last_SYN : Z;
  hist_last_FIN : Z;
  hist_last_RST : Z;
  start_seq : Z;
  last_seq : Z;
  ack_seq : Z;
  last_seq_high : Z;
  ack_seq_high : Z
}.

Definition set_state (v : EndpointState) (e : TCP_Endpoint) : TCP_Endpoint :=
  mkEndpoint v (prev_state e) (has_contents e) (has_file e) (checksum_base e) (start_time e) 
    (last_time e) (window e) (window_scale e) (window_ack_seq e) (window_seq e) 
    (contents_start_seq e) (FIN_seq e) (SYN_cnt e) (FIN_cnt e) (RST_cnt e) (did_close e) 
    (is_orig e) (hist_last_SYN e) (hist_last_FIN e) (hist_last_RST e) (start_seq e) 
    (last_seq e) (ack_seq e) (last_seq_high e) (ack_seq_high e).
Definition set_prev_state (v : EndpointState) (e : TCP_Endpoint) : TCP_Endpoint :=
  mkEndpoint (state e) v (has_contents e) (has_file e) (checksum_base e) (start_time e) 
    (last_time e) (window e) (window_scale e) (window_ack_seq e) (window_seq e) 
    (contents_start_seq e) (FIN_seq e) (SYN_cnt e) (FIN_cnt e) (RST_cnt e) (did_close e) 
    (is_orig e) (hist_last_SYN e) (hist_last_FIN e) (hist_last_RST e) (start_seq e) 
    (last_seq e) (ack_seq e) (last_seq_high e) (ack_seq_high e).
Definition set_has_contents (v : bool) (e : TCP_Endpoint) : TCP_Endpoint :=
  mkEndpoint (state e) (prev_state e) v (has_file e) (checksum_base e) (start_time e) 
    (last_time e) (window e) (window_scale e) (window_ack_seq e) (window_seq e) 
    (contents_start_seq e) (FIN_seq e) (SYN_cnt e) (FIN_cnt e) (RST_cnt e) (did_close e) 
    (is_orig e) (hist_last_SYN e) (hist_last_FIN e) (hist_last_RST e) (start_seq e) 
    (last_seq e) (ack_seq e) (last_seq_high e) (ack_seq_high e).
Definition set_has_file (v : bool) (e : TCP_Endpoint) : TCP_Endpoint :=
  mkEndpoint (state e) (prev_state e) (has_contents e) v (checksum_base e) (start_time e) 
    (last_time e) (window e) (window_scale e) (window_ack_seq e) (window_seq e) 
    (contents_start_seq e) (FIN_seq e) (SYN_cnt e) (FIN_cnt e) (RST_cnt e) (did_close e) 
    (is_orig e) (hist_last_SYN e) (hist_last_FIN e) (hist_last_RST e) (start_seq e) 
    (last_seq e) (ack_seq e) (last_seq_high e) (ack_seq_high e).
Definition set_checksum_base (v : Z) (e : TCP_Endpoint) : TCP_Endpoint :=
  mkEndpoint (state e) (prev_state e) (has_contents e) (has_file e) v (start_time e) 
    (last_time e) (window e) (window_scale e) (window_ack_seq e) (window_seq e) 
    (contents_start_seq e) (FIN_seq e) (SYN_cnt e) (FIN_cnt e) (RST_cnt e) (did_close e) 
    (is_orig e) (hist_last_SYN e) (hist_last_FIN e) (hist_last_RST e) (start_seq e) 
    (last_seq e) (ack_seq e) (last_seq_high e) (ack_seq_high e).
Definition set_start_time (v : double) (e : TCP_Endpoint) : TCP_Endpoint :=
  mkEndpoint (state e) (prev_state e) (has_contents e) (has_file e) (checksum_base e) v 
    (last_time e) (window e) (window_scale e) (window_ack_seq e) (window_seq e) 
    (contents_start_seq e) (FIN_seq e) (SYN_cnt e) (FIN_cnt e) (RST_cnt e) (did_close e) 
    (is_orig e) (hist_last_SYN e) (hist_last_FIN e) (hist_last_RST e) (start_seq e) 
    (last_seq e) (ack_seq e) (last_seq_high e) (ack_seq_high e).
Definition set_last_time (v : double) (e : TCP_Endpoint) : TCP_Endpoint :=
  mkEndpoint (state e) (prev_state e) (has_contents e) (has_file e) (checksum_base e) 
    (start_time e) v (window e) (window_scale e) (window_ack_seq e) (window_seq e) 
    (contents_start_seq e) (FIN_seq e) (SYN_cnt e) (FIN_cnt e) (RST_cnt e) (did_close e) 
    (is_orig e) (hist_last_SYN e) (hist_last_FIN e) (hist_last_RST e) (start_seq e) 
    (last_seq e) (ack_seq e) (last_seq_high e) (ack_seq_high e).
Definition set_window (v : Z) (e : TCP_Endpoint) : TCP_Endpoint :=
  mkEndpoint (state e) (prev_state e) (has_contents e) (has_file e) (checksum_base e) 
    (start_time e) (last_time e) v (window_scale e) (window_ack_seq e) (window_seq e) 
    (contents_start_seq e) (FIN_seq e) (SYN_cnt e) (FIN_cnt e) (RST_cnt e) (did_close e) 
    (is_orig e) (hist_last_SYN e) (hist_last_FIN e) (hist_last_RST e) (start_seq e) 
    (last_seq e) (ack_seq e) (last_seq_high e) (ack_seq_high e).
Definition set_window_scale (v : Z) (e : TCP_Endpoint) : TCP_Endpoint :=
  mkEndpoint (state e) (prev_state e) (has_contents e) (has_file e) (checksum_base e) 
    (start_time e) (last_time e) (window e) v (window_ack_seq e) (window_seq e) 
    (contents_start_seq e) (FIN_seq e) (SYN_cnt e) (FIN_cnt e) (RST_cnt e) (did_close e) 
    (is_orig e) (hist_last_SYN e) (hist_last_FIN e) (hist_last_RST e) (start_seq e) 
    (last_seq e) (ack_seq e) (last_seq_high e) (ack_seq_high e).
Definition set_window_ack_seq (v : Z) (e : TCP_Endpoint) : TCP_Endpoint :=
  mkEndpoint (state e) (prev_state e) (has_contents e) (has_file e) (checksum_base e) 
    (start_time e) (last_time e) (window e) (window_scale e) v (window_seq e) 
    (contents_start_seq e) (FIN_seq e) (SYN_cnt e) (FIN_cnt e) (RST_cnt e) (did_close e) 
    (is_orig e) (hist_last_SYN e) (hist_last_FIN e) (hist_last_RST e) (start_seq e) 
    (last_seq e) (ack_seq e) (last_seq_high e) (ack_seq_high e).
Definition set_window_seq (v : Z) (e : TCP_Endpoint) : TCP_Endpoint :=
  mkEndpoint (state e) (prev_state e) (has_contents e) (has_file e) (checksum_base e) 
    (start_time e) (last_time e) (window e) (window_scale e) (window_ack_seq e) v 
    (contents_start_seq e) (FIN_seq e) (SYN_cnt e) (FIN_cnt e) (RST_cnt e) (did_close e) 
    (is_orig e) (hist_last_SYN e) (hist_last_FIN e) (hist_last_RST e) (start_seq e) 
    (last_seq e) (ack_seq e) (last_seq_high e) (ack_seq_high e).
Definition set_contents_start_seq (v : Z) (e : TCP_Endpoint) : TCP_Endpoint :=
  mkEndpoint (state e) (prev_state e) (has_contents e) (has_file e) (checksum_base e) 
    (start_time e) (last_time e) (window e) (window_scale e) (window_ack_seq e) (window_seq e) 
    v (FIN_seq e) (SYN_cnt e) (FIN_cnt e) (RST_cnt e) (did_close e) (is_orig e) 
    (hist_last_SYN e) (hist_last_FIN e) (hist_last_RST e) (start_seq e) (last_seq e) 
    (ack_seq e) (last_seq_high e) (ack_seq_high e).
Definition set_FIN_seq (v : Z) (e : TCP_Endpoint) : TCP_Endpoint :=
  mkEndpoint (state e) (prev_state e) (has_contents e) (has_file e) (checksum_base e) 
    (start_time e) (last_time e) (window e) (window_scale e) (window_ack_seq e) (window_seq e) 
    (contents_start_seq e) v (SYN_cnt e) (FIN_cnt e) (RST_cnt e) (did_close e) (is_orig e) 
    (hist_last_SYN e) (hist_last_FIN e) (hist_last_RST e) (start_seq e) (last_seq e) 
    (ack_seq e) (last_seq_high e) (ack_seq_high e).
Definition set_SYN_cnt (v : Z) (e : TCP_Endpoint) : TCP_Endpoint :=
  mkEndpoint (state e) (prev_state e) (has_contents e) (has_file e) (checksum_base e) 
    (start_time e) (last_time e) (window e) (window_scale e) (window_ack_seq e) (window_seq e) 
    (contents_start_seq e) (FIN_seq e) v (FIN_cnt e) (RST_cnt e) (did_close e) (is_orig e) 
    (hist_last_SYN e) (hist_last_FIN e) (hist_last_RST e) (start_seq e) (last_seq e) 
    (ack_seq e) (last_seq_high e) (ack_seq_high e).
Definition set_FIN_cnt (v : Z) (e : TCP_Endpoint) : TCP_Endpoint :=
  mkEndpoint (state e) (prev_state e) (has_contents e) (has_file e) (checksum_base e) 
    (start_time e) (last_time e) (window e) (window_scale e) (window_ack_seq e) (window_seq e) 
    (contents_start_seq e) (FIN_seq e) (SYN_cnt e) v (RST_cnt e) (did_close e) (is_orig e) 
    (hist_last_SYN e) (hist_last_FIN e) (hist_last_RST e) (start_seq e) (last_seq e) 
    (ack_seq e) (last_seq_high e) (ack_seq_high e).
Definition set_RST_cnt (v : Z) (e : TCP_Endpoint) : TCP_Endpoint :=
  mkEndpoint (state e) (prev_state e) (has_contents e) (has_file e) (checksum_base e) 
    (start_time e) (last_time e) (window e) (window_scale e) (window_ack_seq e) (window_seq e) 
    (contents_start_seq e) (FIN_seq e) (SYN_cnt e) (FIN_cnt e) v (did_close e) (is_orig e) 
    (hist_last_SYN e) (hist_last_FIN e) (hist_last_RST e) (start_seq e) (last_seq e) 
    (ack_seq e) (last_seq_high e) (ack_seq_high e).
Definition set_did_close (v : bool) (e : TCP_Endpoint) : TCP_Endpoint :=
  mkEndpoint (state e) (prev_state e) (has_contents e) (has_file e) (checksum_base e) 
    (start_time e) (last_time e) (window e) (window_scale e) (window_ack_seq e) (window_seq e) 
    (contents_start_seq e) (FIN_seq e) (SYN_cnt e) (FIN_cnt e) (RST_cnt e) v (is_orig e) 
    (hist_last_SYN e) (hist_last_FIN e) (hist_last_RST e) (start_seq e) (last_seq e) 
    (ack_seq e) (last_seq_high e) (ack_seq_high e).
Definition set_is_orig (v : bool) (e : TCP_Endpoint) : TCP_Endpoint :=
  mkEndpoint (state e) (prev_state e) (has_contents e) (has_file e) (checksum_base e) 
    (start_time e) (last_time e) (window e) (window_scale e) (window_ack_seq e) (window_seq e) 
    (contents_start_seq e) (FIN_seq e) (SYN_cnt e) (FIN_cnt e) (RST_cnt e) (did_close e) v 
    (hist_last_SYN e) (hist_last_FIN e) (hist_last_RST e) (start_seq e) (last_seq e) 
    (ack_seq e) (last_seq_high e) (ack_seq_high e).
Definition set_hist_last_SYN (v : Z) (e : TCP_Endpoint) : TCP_Endpoint :=
  mkEndpoint (state e) (prev_state e) (has_contents e) (has_file e) (checksum_base e) 
    (start_time e) (last_time e) (window e) (window_scale e) (window_ack_seq e) (window_seq e) 
    (contents_start_seq e) (FIN_seq e) (SYN_cnt e) (FIN_cnt e) (RST_cnt e) (did_close e) 
    (is_orig e) v (hist_last_FIN e) (hist_last_RST e) (start_seq e) (last_seq e) (ack_seq e) 
    (last_seq_high e) (ack_seq_high e).
Definition set_hist_last_FIN (v : Z) (e : TCP_Endpoint) : TCP_Endpoint :=
  mkEndpoint (state e) (prev_state e) (has_contents e) (has_file e) (checksum_base e) 
    (start_time e) (last_time e) (window e) (window_scale e) (window_ack_seq e) (window_seq e) 
    (contents_start_seq e) (FIN_seq e) (SYN_cnt e) (FIN_cnt e) (RST_cnt e) (did_close e) 
    (is_orig e) (hist_last_SYN e) v (hist_last_RST e) (start_seq e) (last_seq e) (ack_seq e) 
    (last_seq_high e) (ack_seq_high e).
Definition set_hist_last_RST (v : Z) (e : TCP_Endpoint) : TCP_Endpoint :=
  mkEndpoint (state e) (prev_state e) (has_contents e) (has_file e) (checksum_base e) 
    (start_time e) (last_time e) (window e) (window_scale e) (window_ack_seq e) (window_seq e) 
    (contents_start_seq e) (FIN_seq e) (SYN_cnt e) (FIN_cnt e) (RST_cnt e) (did_close e) 
    (is_orig e) (hist_last_SYN e) (hist_last_FIN e) v (start_seq e) (last_seq e) (ack_seq e) 
    (last_seq_high e) (ack_seq_high e).
Definition set_start_seq (v : Z) (e : TCP_Endpoint) : TCP_Endpoint :=
  mkEndpoint (state e) (prev_state e) (has_contents e) (has_file e) (checksum_base e) 
    (start_time e) (last_time e) (window e) (window_scale e) (window_ack_seq e) (window_seq e) 
    (contents_start_seq e) (FIN_seq e) (SYN_cnt e) (FIN_cnt e) (RST_cnt e) (did_close e) 
    (is_orig e) (hist_last_SYN e) (hist_last_FIN e) (hist_last_RST e) v (last_seq e) 
    (ack_seq e) (last_seq_high e) (ack_seq_high e).
Definition set_last_seq (v : Z) (e : TCP_Endpoint) : TCP_Endpoint :=
  mkEndpoint (state e) (prev_state e) (has_contents e) (has_file e) (checksum_base e) 
    (start_time e) (last_time e) (window e) (window_scale e) (window_ack_seq e) (window_seq e) 
    (contents_start_seq e) (FIN_seq e) (SYN_cnt e) (FIN_cnt e) (RST_cnt e) (did_close e) 
    (is_orig e) (hist_last_SYN e) (hist_last_FIN e) (hist_last_RST e) (start_seq e) v 
    (ack_seq e) (last_seq_high e) (ack_seq_high e).
Definition set_ack_seq (v : Z) (e : TCP_Endpoint) : TCP_Endpoint :=
  mkEndpoint (state e) (prev_state e) (has_contents e) (has_file e) (checksum_base e) 
    (start_time e) (last_time e) (window e) (window_scale e) (window_ack_seq e) (window_seq e) 
    (contents_start_seq e) (FIN_seq e) (SYN_cnt e) (FIN_cnt e) (RST_cnt e) (did_close e) 
    (is_orig e) (hist_last_SYN e) (hist_last_FIN e) (hist_last_RST e) (start_seq e) 
    (last_seq e) v (last_seq_high e) (ack_seq_high e).
Definition set_last_seq_high (v : Z) (e : TCP_Endpoint) : TCP_Endpoint :=
  mkEndpoint (state e) (prev_state e) (has_contents e) (has_file e) (checksum_base e) 
    (start_time e) (last_time e) (window e) (window_scale e) (window_ack_seq e) (window_seq e) 
    (contents_start_seq e) (FIN_seq e) (SYN_cnt e) (FIN_cnt e) (RST_cnt e) (did_close e) 
    (is_orig e) (hist_last_SYN e) (hist_last_FIN e) (hist_last_RST e) (start_seq e) 
    (last_seq e) (ack_seq e) v (ack_seq_high e).
Definition set_ack_seq_high (v : Z) (e : TCP_Endpoint) : TCP_Endpoint :=
  mkEndpoint (state e) (prev_state e) (has_contents e) (has_file e) (checksum_base e) 
    (start_time e) (last_time e) (window e) (window_scale e) (window_ack_seq e) (window_seq e) 
    (contents_start_seq e) (FIN_seq e) (SYN_cnt e) (FIN_cnt e) (RST_cnt e) (did_close e) 
    (is_orig e) (hist_last_SYN e) (hist_last_FIN e) (hist_last_RST e) (start_seq e) 
    (last_seq e) (ack_seq e) (last_seq_high e) v.

Definition IPPROTO_TCP : Z := 6.

(** The constructor; [src] and [dst] are the bytes of the two addresses. *)
Definition TCP_Endpoint_new (orig : bool) (src dst : list Z) : option TCP_Endpoint :=
  c ← NU.addr_checksum src 0; c ← NU.addr_checksum dst c;
  Some (mkEndpoint TCP_ENDPOINT_INACTIVE TCP_ENDPOINT_INACTIVE false false
    (uint32 (c + NU.htons IPPROTO_TCP)) (double_of_Z 0) (double_of_Z 0) 0 0 0 0 0 0 0 0 0 false orig
    0 0 0 0 0 0 0 0).

Definition IsActive (e : TCP_Endpoint) : bool :=
  negb (bool_decide (state e = TCP_ENDPOINT_INACTIVE)) && negb (did_close e).

Definition UpdateLastSeq (sq : Z) (e : TCP_Endpoint) : TCP_Endpoint :=
  let e := if (sq <? last_seq e)%Z then set_last_seq_high (uint32 (last_seq_high e + 1)) e else e in
  set_last_seq sq e.
Definition UpdateAckSeq (sq : Z) (e : TCP_Endpoint) : TCP_Endpoint :=
  let e := if (sq <? ack_seq e)%Z then set_ack_seq_high (uint32 (ack_seq_high e + 1)) e else e in
  set_ack_seq sq e.

Definition NoDataAcked (e : TCP_Endpoint) : bool :=
  (ack_seq e =? start_seq e)%Z || (ack_seq e =? uint32 (start_seq e + 1))%Z.

Definition HasDoneSomething (e : TCP_Endpoint) : bool := negb (deq (last_time e) (double_of_Z 0)).

(** [(uint64(high) << 32) | low] *)
Definition seq64 (high low : Z) : Z := Z.lor (Z.shiftl high 32) low.

Definition uint64 (x : Z) : Z := wrap_u 64 x.
Definition int64 (x : Z) : Z := wrap_s 64 x.

Definition Size (e : TCP_Endpoint) : Z :=
  let last_seq_64 := seq64 (last_seq_high e) (last_seq e) in
  let ack_seq_64 := seq64 (ack_seq_high e) (ack_seq e) in
  let size := if (ack_seq_64 <? last_seq_64)%Z then int64 (uint64 (last_seq_64 - start_seq e))
              else int64 (uint64 (ack_seq_64 - start_seq e)) in
  let size := if negb (size =? 0)%Z then int64 (size - 1) else size in
  if (0 <? FIN_cnt e)%Z && negb (size =? 0)%Z then int64 (size - 1) else size.

(** [tp] is the packet from the TCP header on; [th_off] its header length in
    words, and [len] the length of its data. *)
Definition ValidChecksum (tp : list Z) (th_off len : Z) (e : TCP_Endpoint) : option bool :=
  let tcp_len := (th_off * 4 + len)%Z in
  sum ← (if (Z.rem len 2 =? 1)%Z
         then x ← IP.IP.get8 tp (tcp_len - 1); Some (uint32 (checksum_base e + NU.htons (Z.shiftl x 8)))
         else Some (checksum_base e));
  let sum := uint32 (sum + NU.htons tcp_len) in
  sum ← NU.ones_complement_checksum tp tcp_len sum;
  Some (sum =? 0xffff)%Z.

Definition is_handshake (s : EndpointState) : bool :=
  bool_decide (s = TCP_ENDPOINT_INACTIVE) || bool_decide (s = TCP_ENDPOINT_SYN_SENT) ||
  bool_decide (s = TCP_ENDPOINT_SYN_ACK_SENT).

(** [SetState], given the state of the peer; the flag tells whether the
    inactivity timeout of the connection is set. *)
Definition SetState (new_state peer_state : EndpointState) (e : TCP_Endpoint) (st : TCPStateStats)
    : TCP_Endpoint * TCPStateStats * bool :=
  if decide (new_state = state e) then (e, st, false)
  else
    let timeout := negb (is_handshake new_state) && (is_handshake (state e) && is_handshake peer_state) in
    let e := set_state new_state (set_prev_state (state e) e) in
    let st := if is_orig e then ChangeState (prev_state e) (state e) peer_state peer_state st
              else ChangeState peer_state peer_state (prev_state e) (state e) st in
    (e, st, timeout).

(** ** The history of a connection *)

Record History := mkHistory { hist_seen : Z; history : string }.

(** The codes of the history are letters; a responder's are in lower case. *)
Definition tolower (c : ascii) : ascii :=
  let n := nat_of_ascii c in
  if decide (65 ≤ n ≤ 90) then ascii_of_nat (n + 32) else c.

Definition conn_AddHistory (code : ascii) (h : History) : History :=
  mkHistory (hist_seen h) (history h +:+ String code EmptyString).
Definition conn_CheckHistory (mask : Z) (code : ascii) (h : History) : bool * History :=
  if (Z.land (hist_seen h) mask =? 0)%Z
  then (false, conn_AddHistory code (mkHistory (Z.lor (hist_seen h) mask) (history h)))
  else (true, h).

Definition CheckHistory (mask : Z) (code : ascii) (e : TCP_Endpoint) (h : History) : bool * History :=
  if is_orig e then conn_CheckHistory mask code h
  else conn_CheckHistory (uint32 (Z.shiftl mask 16)) (tolower code) h.
Definition AddHistory (code : ascii) (e : TCP_Endpoint) (h : History) : History :=
  conn_AddHistory (if is_orig e then code else tolower code) h.

Definition HIST_SYN_PKT : Z := 0x1.
Definition HIST_FIN_PKT : Z := 0x2.
Definition HIST_RST_PKT : Z := 0x4.
Definition HIST_FIN_RST_PKT : Z := 0x8.
Definition HIST_DATA_PKT : Z := 0x10.
Definition HIST_ACK_PKT : Z := 0x20.
Definition HIST_MULTI_FLAG_PKT : Z := 0x40.
Definition HIST_CORRUPT_PKT : Z := 0x80.

(** ** Specification *)

(** [qs] are positions of a stream that never go back, nor advance by 4 GB at
    once: what a sequence number of 32 bits can follow. *)
Fixpoint advancing (q : Z) (qs : list Z) : Prop :=
  match qs with
  | [] => True
  | q' :: qs => (q ≤ q' < q + 4294967296)%Z ∧ (q' < 2 ^ 63)%Z ∧ advancing q' qs
  end.

(** The 64-bit position an endpoint has reached. *)
Definition last_pos (e : TCP_Endpoint) : Z := seq64 (last_seq_high e) (last_seq e).
Definition ack_pos (e : TCP_Endpoint) : Z := seq64 (ack_seq_high e) (ack_seq e).

Definition pos_ok (high low : Z) : Prop := (0 ≤ low < 4294967296 ∧ 0 ≤ high < 2147483648)%Z.

(** A call of [CheckHistory]: bit number, code, side. *)
Record call := mkCall { bit : Z; code : ascii; by_orig : bool }.
Definition call_key (c : call) : Z := if by_orig c then bit c else (bit c + 16)%Z.
Definition call_code (c : call) : ascii := if by_orig c then code c else tolower (code c).

(** The codes of the calls, each with the first of its kind only. *)
Fixpoint firsts (seen : list Z) (cs : list call) : list ascii :=
  match cs with
  | [] => []
  | c :: cs => if decide (call_key c ∈ seen) then firsts seen cs
               else call_code c :: firsts (call_key c :: seen) cs
  end.

Fixpoint string_of (l : list ascii) : string :=
  match l with [] => EmptyString | c :: l => String c (string_of l) end.

(** ** Sequence numbers *)

Lemma seq64_add high low : pos_ok high low → seq64 high low = (high * 4294967296 + low)%Z.
Proof. intros [? ?]. unfold seq64. by rw lor_shiftl_add. Qed.

Lemma seq64_next high low q :
  pos_ok high low → (seq64 high low ≤ q < seq64 high low + 4294967296)%Z → (q < 2 ^ 63)%Z →
  let high' := if (uint32 q <? low)%Z then uint32 (high + 1) else high in
  pos_ok high' (uint32 q) ∧ seq64 high' (uint32 q) = q.
Proof.
  intros Hp Hq Hmax high'. rw seq64_add // in Hq. destruct Hp as [Hlo Hhi].
  pose proof (wrap_u_bounds 32 q ltac:(lia)) as Hu. change (wrap_u 32 q) with (uint32 q) in Hu.
  change (2 ^ 32)%Z with 4294967296%Z in Hu. change (2 ^ 63)%Z with (2147483648 * 4294967296)%Z in Hmax.
  assert (q = 4294967296 * (q / 4294967296) + uint32 q)%Z as Hdm by (apply Z.div_mod; lia).
  set (k := (q / 4294967296)%Z) in *. assert (pos_ok high' (uint32 q) ∧ high' = k) as [Hok ->].
  { unfold high'. destruct (Z.ltb_spec (uint32 q) low).
    - assert (k = high + 1)%Z as Hk by lia. rw uint32_small; [|lia]. split; [split|]; lia.
    - assert (k = high) as Hk by lia. split; [split|]; lia. }
  split; [done|]. rw seq64_add //. lia.
Qed.

(** What [UpdateLastSeq] and [UpdateAckSeq] leave alone. *)
Definition same_last (e e' : TCP_Endpoint) : Prop :=
  last_seq_high e' = last_seq_high e ∧ last_seq e' = last_seq e.
Definition same_ack (e e' : TCP_Endpoint) : Prop :=
  ack_seq_high e' = ack_seq_high e ∧ ack_seq e' = ack_seq e.
Definition same_rest (e e' : TCP_Endpoint) : Prop :=
  start_seq e' = start_seq e ∧ FIN_cnt e' = FIN_cnt e.

Lemma fold_UpdateLastSeq e qs :
  pos_ok (last_seq_high e) (last_seq e) → advancing (last_pos e) qs →
  let e' := foldl (λ e q, UpdateLastSeq (uint32 q) e) e qs in
  last_pos e' = default (last_pos e) (last qs) ∧ pos_ok (last_seq_high e') (last_seq e') ∧
  (last_pos e ≤ last_pos e')%Z ∧ same_ack e e' ∧ same_rest e e'.
Proof.
  revert e. induction qs as [|q qs IH]; intros e Hok Hq; simpl; [by split_and!|].
  simpl in Hq. destruct Hq as (Hq1 & Hq2 & Hq3).
  destruct (seq64_next _ _ q Hok) as [Hok' Heq]; [done|done|].
  set (e1 := UpdateLastSeq (uint32 q) e).
  assert (last_pos e1 = q ∧ pos_ok (last_seq_high e1) (last_seq e1) ∧ same_ack e e1 ∧ same_rest e e1) as (E1 & E2 & [E3 E4] & [E5 E6]).
  { unfold e1, UpdateLastSeq, last_pos, same_ack, same_rest. destruct (uint32 q <? last_seq e)%Z; simpl; by split_and!. }
  destruct (IH e1) as (I1 & I2 & I3 & [I4 I5] & [I6 I7]); [done|by rw E1|].
  split; [rw I1 E1 last_cons; by destruct (last qs)|]. split; [done|]. split; [lia|].
  split; split; congruence.
Qed.

Lemma fold_UpdateAckSeq e qs :
  pos_ok (ack_seq_high e) (ack_seq e) → advancing (ack_pos e) qs →
  let e' := foldl (λ e q, UpdateAckSeq (uint32 q) e) e qs in
  ack_pos e' = default (ack_pos e) (last qs) ∧ pos_ok (ack_seq_high e') (ack_seq e') ∧
  (ack_pos e ≤ ack_pos e')%Z ∧ same_last e e' ∧ same_rest e e'.
Proof.
  revert e. induction qs as [|q qs IH]; intros e Hok Hq; simpl; [by split_and!|].
  simpl in Hq. destruct Hq as (Hq1 & Hq2 & Hq3).
  destruct (seq64_next _ _ q Hok) as [Hok' Heq]; [done|done|].
  set (e1 := UpdateAckSeq (uint32 q) e).
  assert (ack_pos e1 = q ∧ pos_ok (ack_seq_high e1) (ack_seq e1) ∧ same_last e e1 ∧ same_rest e e1) as (E1 & E2 & [E3 E4] & [E5 E6]).
  { unfold e1, UpdateAckSeq, ack_pos, same_last, same_rest. destruct (uint32 q <? ack_seq e)%Z; simpl; by split_and!. }
  destruct (IH e1) as (I1 & I2 & I3 & [I4 I5] & [I6 I7]); [done|by rw E1|].
  split; [rw I1 E1 last_cons; by destruct (last qs)|]. split; [done|]. split; [lia|].
  split; split; congruence.
Qed.

Lemma pos_bounds high low : pos_ok high low → (0 ≤ seq64 high low < 2 ^ 63)%Z.
Proof. intros Hp. rw seq64_add //. destruct Hp. lia. Qed.

Lemma Size_value e :
  pos_ok (last_seq_high e) (last_seq e) → pos_ok (ack_seq_high e) (ack_seq e) →
  (0 ≤ start_seq e)%Z → (start_seq e ≤ last_pos e)%Z → (start_seq e ≤ ack_pos e)%Z →
  Size e = Z.max 0 (Z.max (last_pos e) (ack_pos e) - start_seq e - (if (0 <? FIN_cnt e)%Z then 2 else 1))%Z.
Proof.
  intros Hl%pos_bounds Ha%pos_bounds H0 Hsl Hsa. fold (last_pos e) in Hl. fold (ack_pos e) in Ha.
  assert (∀ x, (0 ≤ x < 2 ^ 63)%Z → int64 x = x) as Hi by (intros; apply wrap_s_small; lia).
  assert (∀ x, (0 ≤ x < 2 ^ 63)%Z → int64 (uint64 x) = x) as Hi'.
  { intros x Hx. unfold uint64. rw (wrap_u_small 64); [by apply Hi|lia]. }
  unfold Size. fold (last_pos e) (ack_pos e). set (m := Z.max (last_pos e) (ack_pos e)).
  assert ((if (ack_pos e <? last_pos e)%Z then int64 (uint64 (last_pos e - start_seq e)) else int64 (uint64 (ack_pos e - start_seq e))) =
    (m - start_seq e)%Z) as ->.
  { unfold m. destruct (Z.ltb_spec (ack_pos e) (last_pos e)); rw Hi'; lia. }
  destruct (Z.eqb_spec (m - start_seq e) 0) as [->|Hne]; simpl.
  { rw andb_false_r. destruct (0 <? FIN_cnt e)%Z; lia. }
  rw Hi; [|lia]. destruct (0 <? FIN_cnt e)%Z; simpl; [|lia].
  destruct (Z.eqb_spec (m - start_seq e - 1) 0); simpl; [lia|]. rw Hi; lia.
Qed.

(** ** History *)

Lemma string_app_assoc (s1 s2 s3 : string) : (s1 +:+ s2) +:+ s3 = s1 +:+ (s2 +:+ s3).
Proof. induction s1 as [|c s1 IH]; [done|]. exact (f_equal (String c) IH). Qed.

Lemma string_app_nil (s : string) : s +:+ EmptyString = s.
Proof. induction s as [|c s IH]; [done|]. exact (f_equal (String c) IH). Qed.

(** [hist_seen] is the set of the bits in [seen]. *)
Definition seen_bits (v : Z) (seen : list Z) : Prop :=
  (0 ≤ v)%Z ∧ ∀ k, (0 ≤ k)%Z → Z.testbit v k = bool_decide (k ∈ seen).

Lemma land_pow2 v k : (0 ≤ k)%Z → (Z.land v (2 ^ k) =? 0)%Z = negb (Z.testbit v k).
Proof.
  intros Hk. destruct (Z.testbit v k) eqn:Hb; simpl.
  - apply Z.eqb_neq. intros H0. apply (f_equal (λ z, Z.testbit z k)) in H0.
    by rw Z.land_spec Hb Z.pow2_bits_true // Z.bits_0 in H0.
  - apply Z.eqb_eq. apply Z.bits_inj'. intros i Hi. rw Z.land_spec Z.bits_0 Z.pow2_bits_eqb //.
    destruct (Z.eqb_spec k i) as [->|]; [by rw Hb|by rw andb_false_r].
Qed.

Lemma CheckHistory_step c e h seen :
  is_orig e = by_orig c → (0 ≤ bit c < 16)%Z → seen_bits (hist_seen h) seen →
  let '(b, h') := CheckHistory (2 ^ bit c) (code c) e h in
  if decide (call_key c ∈ seen) then b = true ∧ h' = h
  else b = false ∧ history h' = history h +:+ String (call_code c) EmptyString ∧
    seen_bits (hist_seen h') (call_key c :: seen).
Proof.
  intros Ho Hb [Hv Hs]. unfold CheckHistory.
  assert ((if is_orig e then conn_CheckHistory (2 ^ bit c) (code c) h
    else conn_CheckHistory (uint32 (Z.shiftl (2 ^ bit c) 16)) (tolower (code c)) h) =
    conn_CheckHistory (2 ^ call_key c) (call_code c) h) as ->.
  { rw Ho. unfold call_key, call_code. destruct (by_orig c); [done|]. f_equal.
    rw Z.shiftl_mul_pow2 // -Z.pow_add_r; [|lia..]. apply uint32_small.
    split; [apply Z.pow_nonneg; lia|]. change 4294967296%Z with (2 ^ 32)%Z. apply Z.pow_lt_mono_r; lia. }
  assert (0 ≤ call_key c)%Z as Hk by (unfold call_key; destruct (by_orig c); lia).
  unfold conn_CheckHistory. rw land_pow2 // Hs //. case_bool_decide as Hin; simpl.
  - by rw decide_True.
  - rw decide_False //. split; [done|]. split; [done|]. split; [apply Z.lor_nonneg; split; [lia|apply Z.pow_nonneg; lia]|].
    intros k Hk'. simpl. rw Z.lor_spec Hs // Z.pow2_bits_eqb //. destruct (Z.eqb_spec (call_key c) k) as [->|Hne].
    + rw orb_true_r. symmetry. apply bool_decide_eq_true. by left.
    + rw orb_false_r. apply bool_decide_ext. rw elem_of_cons. split; [by right|by intros [?|?]].
Qed.

Definition run_call (h : History) (ec : TCP_Endpoint * call) : History :=
  (CheckHistory (2 ^ bit ec.2) (code ec.2) ec.1 h).2.

Lemma run_calls h seen ecs :
  Forall (λ ec, is_orig ec.1 = by_orig ec.2 ∧ (0 ≤ bit ec.2 < 16)%Z) ecs → seen_bits (hist_seen h) seen →
  history (foldl run_call h ecs) = history h +:+ string_of (firsts seen ecs.*2).
Proof.
  intros Hok. revert h seen. induction Hok as [|[e c] ecs [Ho Hb] Hok IH]; intros h seen Hs; simpl.
  { by rw string_app_nil. }
  pose proof (CheckHistory_step c e h seen Ho Hb Hs) as Hstep. unfold run_call at 2. simpl.
  destruct (CheckHistory _ _ e h) as [b h']. simpl. case_decide.
  - destruct Hstep as [_ ->]. by apply IH.
  - destruct Hstep as (_ & Hh & Hs'). rw (IH _ _ Hs') Hh. by rw string_app_assoc.
Qed.

(** ** Properties *)

(** C23. Following the 32-bit sequence numbers of a stream, an endpoint keeps the
    exact 64-bit position through any number of wrap-arounds, and [Size] is the
    number of bytes up to the further of the last sequence number and the last
    acknowledgment, without the octets of SYN and FIN. *)
Theorem Size_exact (e : TCP_Endpoint) (qs aks : list Z)
    (Hlast : pos_ok (last_seq_high e) (last_seq e)) (Hack : pos_ok (ack_seq_high e) (ack_seq e))
    (Hq : advancing (last_pos e) qs) (Ha : advancing (ack_pos e) aks)
    (Hstart : (0 ≤ start_seq e ≤ last_pos e)%Z) (Hstart' : (start_seq e ≤ ack_pos e)%Z) :
  let e' := foldl (λ e q, UpdateAckSeq (uint32 q) e) (foldl (λ e q, UpdateLastSeq (uint32 q) e) e qs) aks in
  let l := default (last_pos e) (last qs) in let a := default (ack_pos e) (last aks) in
  last_pos e' = l ∧ ack_pos e' = a ∧
  Size e' = Z.max 0 (Z.max l a - start_seq e - (if (0 <? FIN_cnt e)%Z then 2 else 1))%Z.
Proof.
  destruct (fold_UpdateLastSeq e qs Hlast Hq) as (L1 & L2 & L3 & [L4 L5] & [L6 L7]).
  set (e1 := foldl _ e qs) in *.
  assert (ack_pos e1 = ack_pos e) as Hae by (unfold ack_pos; by rw L4 L5).
  destruct (fold_UpdateAckSeq e1 aks) as (A1 & A2 & A3 & [A4 A5] & [A6 A7]); [by rw L4 L5|by rw Hae|].
  set (e2 := foldl _ e1 aks) in *. intros e' l a. subst e'.
  assert (last_pos e2 = l) as Hl by (unfold last_pos; rw A4 A5; exact L1).
  rw Hae in A1. split; [done|]. split; [done|]. rw Hae in A3.
  rw Size_value //; rw ?A4 ?A5 ?A6 ?L6 ?A7 ?L7 //; [|lia..].
  by rw Hl A1.
Qed.

(** The history of a connection is the list of the codes in the order of their
    first occurrence, per side: [CheckHistory] adds a code exactly the first time
    that side reports it. *)
Theorem history_first_occurrences (ecs : list (TCP_Endpoint * call))
    (Hok : Forall (λ ec, is_orig ec.1 = by_orig ec.2 ∧ (0 ≤ bit ec.2 < 16)%Z) ecs) :
  history (foldl (λ h ec, (CheckHistory (2 ^ bit ec.2) (code ec.2) ec.1 h).2) (mkHistory 0 EmptyString) ecs) =
  string_of (firsts [] ecs.*2).
Proof.
  apply (run_calls (mkHistory 0 EmptyString) [] ecs Hok). split; [done|]. intros k _. by rw Z.bits_0.
Qed.

(** [NumStatePartial] counts a connection twice when both sides are partial. *)
Theorem NumStatePartial_counts_twice (st : TCPStateStats) (s1 s2 : EndpointState)
    (Hone : st = StateEntered s1 s2 TCPStateStats_new) :
  NumStatePartial st = (if decide (s1 = TCP_ENDPOINT_PARTIAL ∧ s2 = TCP_ENDPOINT_PARTIAL) then 2
    else if decide (s1 = TCP_ENDPOINT_PARTIAL ∨ s2 = TCP_ENDPOINT_PARTIAL) then 1 else 0)%Z.
Proof. subst st. by destruct s1, s2. Qed.

(** ** Witnesses *)

Definition endpoint_sample : TCP_Endpoint :=
  mkEndpoint TCP_ENDPOINT_ESTABLISHED TCP_ENDPOINT_SYN_SENT true false 0 (double_of_Z 0) (double_of_Z 0)
    0 0 0 0 0 0 1 0 0 false true 0 0 0 4294967000 4294967001 4294967001 0 0.

Lemma Size_exact_witness :
  Size (UpdateLastSeq (uint32 4294970000) endpoint_sample) = 2999%Z.
Proof.
  destruct (Size_exact endpoint_sample [4294970000]%Z []) as (_ & _ & H); simpl; unfold pos_ok; simpl; try lia; try done.
Defined.

Definition syn_fin_calls : list (TCP_Endpoint * call) :=
  [(endpoint_sample, mkCall 0 "S" true); (set_is_orig false endpoint_sample, mkCall 0 "H" false);
   (endpoint_sample, mkCall 5 "A" true); (endpoint_sample, mkCall 0 "S" true);
   (set_is_orig false endpoint_sample, mkCall 1 "F" false)].

Lemma history_first_occurrences_witness :
  history (foldl (λ h ec, (CheckHistory (2 ^ bit ec.2) (code ec.2) ec.1 h).2) (mkHistory 0 EmptyString) syn_fin_calls) =
  "ShAf"%string.
Proof.
  rw (history_first_occurrences syn_fin_calls); [reflexivity|]. repeat constructor; simpl; lia.
Defined.

Lemma NumStatePartial_counts_twice_witness :
  NumStatePartial (StateEntered TCP_ENDPOINT_PARTIAL TCP_ENDPOINT_PARTIAL TCPStateStats_new) = 2%Z.
Proof.
  rw (NumStatePartial_counts_twice _ TCP_ENDPOINT_PARTIAL TCP_ENDPOINT_PARTIAL eq_refl). reflexivity.
Defined.

End E.
