(* ===== verification/TcpReassem.v ===== *)
(** TcpReassem: the reassembly of one direction of a TCP connection,
    TCP_Reassembler.cc / TCP_Reassembler.h.

    Sequence numbers are relative to the initial one, so the first octet of data
    has number 1.  What the reassembler tells the analyzers, the contents file and
    the signature engine is the list [out] of effects, in order.  The endpoints
    it consults and the options of the policy scripts are the environment of
    each call.  [ENABLE_SEQ_TO_SKIP] is not defined, as in the source. *)
From S2P Require Import Prelude Double Reassem Endpoint.
From stdpp Require Import strings.

Module TR.
Import R.

(** ** Data *)

Inductive Type_ := Direct | Forward.

Abbreviation file := nat (only parsing).

Inductive effect :=
  | NextStream (seq len : Z) (data : bytes)
  | ForwardStream (seq len : Z) (data : bytes)
  | NextUndelivered (seq len : Z)
  | ForwardUndelivered (seq len : Z)
  | ContentsEvent (seq : Z) (data : bytes)
  | ContentGapEvent (seq len : Z)
  | RexmitInconsistency (b1 b2 : bytes)
  | Match (data : bytes)
  | FileWrite (f : file) (data : bytes)
  | FileGap (f : file) (len : Z)
  | FileClose (f : file)
  | NoSuchFile
  | Weird (name : string)
  | AckAboveHole
  | GapReport (events bytes gaps gap_bytes : Z)
  | EndpointEOF.

Record TCP_Reassembler := mkTR {
  base : Reassembler;
  deliver_tcp_contents : bool;
  had_gap : bool;
  did_EOF : bool;
  skip_deliveries : bool;
  in_delivery : bool;
  record_contents_file : option file;
  type : Type_;
  is_orig : bool;
  out : list effect
}.

#[global] Instance tcp_reassembler : HasReassembler TCP_Reassembler := {|
  core := base;
  put r s := mkTR r (deliver_tcp_contents s) (had_gap s) (did_EOF s) (skip_deliveries s)
    (in_delivery s) (record_contents_file s) (type s) (is_orig s) (out s)
|}.

Definition emit (e : effect) (s : TCP_Reassembler) : TCP_Reassembler :=
  mkTR (base s) (deliver_tcp_contents s) (had_gap s) (did_EOF s) (skip_deliveries s)
    (in_delivery s) (record_contents_file s) (type s) (is_orig s) (out s ++ [e]).
Definition set_had_gap (v : bool) (s : TCP_Reassembler) : TCP_Reassembler :=
  mkTR (base s) (deliver_tcp_contents s) v (did_EOF s) (skip_deliveries s)
    (in_delivery s) (record_contents_file s) (type s) (is_orig s) (out s).
Definition set_did_EOF (v : bool) (s : TCP_Reassembler) : TCP_Reassembler :=
  mkTR (base s) (deliver_tcp_contents s) (had_gap s) v (skip_deliveries s)
    (in_delivery s) (record_contents_file s) (type s) (is_orig s) (out s).
Definition set_skip_deliveries (v : bool) (s : TCP_Reassembler) : TCP_Reassembler :=
  mkTR (base s) (deliver_tcp_contents s) (had_gap s) (did_EOF s) v
    (in_delivery s) (record_contents_file s) (type s) (is_orig s) (out s).
Definition set_in_delivery (v : bool) (s : TCP_Reassembler) : TCP_Reassembler :=
  mkTR (base s) (deliver_tcp_contents s) (had_gap s) (did_EOF s) (skip_deliveries s)
    v (record_contents_file s) (type s) (is_orig s) (out s).
Definition set_out (v : list effect) (s : TCP_Reassembler) : TCP_Reassembler :=
  mkTR (base s) (deliver_tcp_contents s) (had_gap s) (did_EOF s) (skip_deliveries s)
    (in_delivery s) (record_contents_file s) (type s) (is_orig s) v.
Definition set_record_contents_file (v : option file) (s : TCP_Reassembler) : TCP_Reassembler :=
  mkTR (base s) (deliver_tcp_contents s) (had_gap s) (did_EOF s) (skip_deliveries s)
    (in_delivery s) v (type s) (is_orig s) (out s).

(** The options: event handlers that are set, thresholds, and whether writes to
    the contents files succeed. *)
Record config := mkConfig {
  content_gap : bool;
  report_gaps_for_partial : bool;
  rule_matcher : bool;
  tcp_match_undelivered : bool;
  rexmit_inconsistency : bool;
  gap_report : bool;
  gap_report_freq : double;
  tcp_max_initial_window : Z;
  tcp_max_above_hole_without_any_acks : Z;
  tcp_excessive_data_without_further_acks : Z;
  write_ok : bool
}.

(** What a call can see: the two endpoints, whether the reassembler of the peer
    holds data, and the state of the connection. *)
Record env := mkEnv {
  endp : E.TCP_Endpoint;
  peer : E.TCP_Endpoint;
  peer_HasUndeliveredData : bool;
  IsPartial : bool;
  Skipping : bool;
  network_time : double
}.

(** The counters of all reassemblers. *)
Record GapStats := mkGapStats {
  tot_ack_events : Z; tot_ack_bytes : Z; tot_gap_events : Z; tot_gap_bytes : Z;
  last_gap_report : double;
  last_ack_events : Z; last_ack_bytes : Z; last_gap_events : Z; last_gap_bytes : Z
}.

Definition GapStats_new : GapStats := mkGapStats 0 0 0 0 (double_of_Z 0) 0 0 0 0.

(** The constructor: the contents are delivered to the scripts if the option for
    the side says so, or the port is listed. *)
Definition TCP_Reassembler_new (tcp_contents deliver_all_orig deliver_all_resp port_listed : bool)
    (t : Type_) (orig : bool) : TCP_Reassembler :=
  mkTR (Reassembler_new 1)
    (tcp_contents && ((orig && deliver_all_orig) || (negb orig && deliver_all_resp) || port_listed))
    false false false false None t orig [].

Section operations.
Variable cfg : config.

(** ** The contents file *)

Definition RecordBlock (d : DataBlock) (f : file) (s : TCP_Reassembler) : option TCP_Reassembler :=
  if write_ok cfg then Some (emit (FileWrite f (take (Z.to_nat (Size d)) (block d))) s)
  else None (* InternalError *).

Definition RecordGap (start_seq upper_seq : Z) (f : file) (s : TCP_Reassembler) : option TCP_Reassembler :=
  if write_ok cfg then Some (emit (FileGap f (seq_delta upper_seq start_seq)) s)
  else None (* InternalError *).

(** [while ( b && seq_delta(b->upper, start_seq) <= 0 ) b = b->next] *)
Fixpoint skip_to (fuel : nat) (h : gmap addr DataBlock) (b : option addr) (start_seq : Z)
    : option (option addr) :=
  match b, fuel with
  | None, _ => Some None
  | Some _, O => None
  | Some a, S fuel =>
    d ← h !! a;
    if (seq_delta (upper d) start_seq <=? 0)%Z then skip_to fuel h (next d) start_seq else Some (Some a)
  end.

(** The second loop of [RecordToSeq]; also returns [b] and [last_seq]. *)
Fixpoint record_loop (fuel : nat) (b : option addr) (last_seq stop_seq : Z) (f : file)
    (s : TCP_Reassembler) : option (option addr * Z * TCP_Reassembler) :=
  match b, fuel with
  | None, _ => Some (None, last_seq, s)
  | Some _, O => None
  | Some a, S fuel =>
    d ← heap (base s) !! a;
    if (seq_delta (upper d) stop_seq <=? 0)%Z then
      s ← (if (0 <? seq_delta (seq d) last_seq)%Z then RecordGap last_seq (seq d) f s else Some s);
      s ← RecordBlock d f s;
      record_loop fuel (next d) (upper d) stop_seq f s
    else Some (Some a, last_seq, s)
  end.

Definition RecordToSeq (start_seq stop_seq : Z) (f : file) (s : TCP_Reassembler) : option TCP_Reassembler :=
  let fuel := S (size (heap (base s))) in
  b ← skip_to fuel (heap (base s)) (blocks (base s)) start_seq;
  match b with
  | None => Some s
  | Some _ =>
    '(b, last_seq, s) ← record_loop fuel b start_seq stop_seq f s;
    match b with
    | Some _ => if (seq_delta last_seq stop_seq <? 0)%Z then RecordGap last_seq stop_seq f s else Some s
    | None => Some s
    end
  end.

Definition SetContentsFile (is_open : bool) (f : file) (s : TCP_Reassembler) : option TCP_Reassembler :=
  if negb is_open then Some (emit NoSuchFile s)
  else
    s ← match record_contents_file s, blocks (base s) with
        | None, Some b => d ← heap (base s) !! b; RecordToSeq (seq d) (last_reassem_seq (base s)) f s
        | _, _ => Some s
        end;
    Some (set_record_contents_file (Some f) s).

(** ** Delivery *)

Definition Deliver (sq ln : Z) (data : bytes) (s : TCP_Reassembler) : TCP_Reassembler :=
  emit (match type s with Direct => NextStream sq ln data | Forward => ForwardStream sq ln data end) s.

Definition DeliverBlock (sq ln : Z) (data : bytes) (s : TCP_Reassembler) : TCP_Reassembler :=
  let s := if deliver_tcp_contents s then emit (ContentsEvent sq data) s else s in
  if skip_deliveries s then s
  else set_in_delivery false (Deliver sq ln data (set_in_delivery true s)).

(** A block that starts at [last_reassem_seq] is new: deliver it. *)
Definition deliver_new (d : DataBlock) (s : TCP_Reassembler) : option TCP_Reassembler :=
  let ln := Size d in
  let sq := last_reassem_seq (base s) in
  let s := modify (λ r, set_last_reassem_seq r (int32 (sq + ln))) s in
  s ← match record_contents_file s with Some f => RecordBlock d f s | None => Some s end;
  Some (DeliverBlock sq ln (take (Z.to_nat ln) (block d)) s).

(** The loop of [BlockInserted]. *)
Fixpoint deliver_loop (fuel : nat) (b : option addr) (s : TCP_Reassembler) : option TCP_Reassembler :=
  match b, fuel with
  | None, _ => Some s
  | Some _, O => None
  | Some a, S fuel =>
    d ← heap (base s) !! a;
    if (seq_delta (seq d) (last_reassem_seq (base s)) <=? 0)%Z then
      s ← (if (seq d =? last_reassem_seq (base s))%Z then deliver_new d s else Some s);
      deliver_loop fuel (next d) s
    else Some s
  end.

(** [MatchUndelivered]: the loop matches the blocks that were delivered already. *)
Fixpoint match_loop (fuel : nat) (b : option addr) (s : TCP_Reassembler) : option TCP_Reassembler :=
  match b, fuel with
  | None, _ => Some s
  | Some _, O => None
  | Some a, S fuel =>
    d ← heap (base s) !! a;
    if (seq_delta (upper d) (last_reassem_seq (base s)) <=? 0)%Z
    then match_loop fuel (next d) (emit (Match (take (Z.to_nat (Size d)) (block d))) s)
    else Some s
  end.

Definition MatchUndelivered (up_to_seq : Z) (s : TCP_Reassembler) : option TCP_Reassembler :=
  match blocks (base s), rule_matcher cfg with
  | Some b, true =>
    lb ← last_block (base s); ld ← heap (base s) !! lb;
    let up_to_seq := if (up_to_seq =? -1)%Z then upper ld else up_to_seq in
    if (seq_delta up_to_seq (last_reassem_seq (base s)) <=? 0)%Z ||
       (seq_delta (upper ld) (last_reassem_seq (base s)) <=? 0)%Z then Some s
    else match_loop (S (size (heap (base s)))) (Some b) s
  | _, _ => Some s
  end.

Definition established (ev : env) : bool :=
  bool_decide (E.state (endp ev) = E.TCP_ENDPOINT_ESTABLISHED) &&
  bool_decide (E.state (peer ev) = E.TCP_ENDPOINT_ESTABLISHED).

Definition fin_or_rst (ev : env) : bool :=
  (0 <? E.FIN_cnt (endp ev))%Z || (0 <? E.RST_cnt (endp ev))%Z ||
  (0 <? E.FIN_cnt (peer ev))%Z || (0 <? E.RST_cnt (peer ev))%Z.

(** Report the gap to the scripts and the analyzer. *)
Definition report_gap (ev : env) (up_to_seq : Z) (s : TCP_Reassembler) : TCP_Reassembler :=
  let sq := last_reassem_seq (base s) in
  let ln := seq_delta up_to_seq sq in
  let s := if content_gap cfg && (report_gaps_for_partial cfg || established ev)
           then emit (ContentGapEvent sq ln) s else s in
  emit (match type s with Direct => NextUndelivered sq ln | Forward => ForwardUndelivered sq ln end) s.

Definition Undelivered (ev : env) (up_to_seq : Z) (s : TCP_Reassembler) : option TCP_Reassembler :=
  if (up_to_seq <=? 2)%Z && IsPartial ev && (0 <=? up_to_seq)%Z then Some s
  else if (seq_delta up_to_seq (last_reassem_seq (base s)) <=? 0)%Z then None (* InternalError *)
  else
    let s :=
      if (last_reassem_seq (base s) =? 1)%Z && fin_or_rst ev then set_skip_deliveries true s
      else set_had_gap true (if skip_deliveries s then s else report_gap ev up_to_seq s) in
    s ← match record_contents_file s with
        | Some f => RecordToSeq (last_reassem_seq (base s)) up_to_seq f s
        | None => Some s
        end;
    s ← (if tcp_match_undelivered cfg then MatchUndelivered up_to_seq s else Some s);
    Some (modify (λ r, set_last_reassem_seq r up_to_seq) s).

Definition Overlap (ev : env) (b1 b2 : bytes) (n : Z) (s : TCP_Reassembler) : option TCP_Reassembler :=
  if rexmit_inconsistency cfg then
    ne ← memcmp_ne b1 b2 n;
    Some (if (ne : bool) && ((1 <? n)%Z || E.HasDoneSomething (peer ev))
          then emit (RexmitInconsistency (take (Z.to_nat n) b1) (take (Z.to_nat n) b2)) s else s)
  else Some s.

(** [BlockInserted] and [TrimToSeq] call each other; [depth] bounds the nesting. *)
Fixpoint BlockInserted (depth : nat) (ev : env) (start_block : addr) (s : TCP_Reassembler)
    : option TCP_Reassembler :=
  match depth with
  | O => None
  | S depth =>
    d ← heap (base s) !! start_block;
    if (0 <? seq_delta (seq d) (last_reassem_seq (base s)))%Z ||
       (seq_delta (upper d) (last_reassem_seq (base s)) <=? 0)%Z then Some s
    else
      s ← deliver_loop (S (size (heap (base s)))) (Some start_block) s;
      let trim := TrimToSeq (mkVirtuals (BlockInserted depth ev) (Overlap ev) (Undelivered ev)) in
      if negb (E.has_contents (peer ev)) then
        '(_, s) ← trim (last_reassem_seq (base s)) s; Some s
      else if E.NoDataAcked (endp ev) && negb (tcp_max_initial_window cfg =? 0)%Z &&
              (tcp_max_initial_window cfg <? E.Size (endp ev))%Z then
        '(_, s) ← trim (last_reassem_seq (base s)) s; Some s
      else Some s
  end.

(** Two nested calls are enough (see [tcp_BlockInserted_spec]). *)
Definition tcp_virtuals (ev : env) : virtuals TCP_Reassembler :=
  mkVirtuals (BlockInserted 2 ev) (Overlap ev) (Undelivered ev).

(** ** The interface *)

Definition NumUndeliveredBytes (s : TCP_Reassembler) : option Z :=
  match last_block (base s) with
  | Some lb => ld ← heap (base s) !! lb; Some (int32 (upper ld - last_reassem_seq (base s)))
  | None => Some 0%Z
  end.

(** Give up on data above a hole. *)
Definition abandon (name : string) (s : TCP_Reassembler) : option TCP_Reassembler :=
  s ← ClearBlocks (emit (Weird name) s); Some (set_skip_deliveries true s).

Definition DataSent (ev : env) (sq ln : Z) (data : bytes) (replaying : bool) (s : TCP_Reassembler)
    : option (bool * TCP_Reassembler) :=
  let ack := seq_delta (E.ack_seq (endp ev)) (E.start_seq (endp ev)) in
  let upper_seq := int32 (sq + ln) in
  if skip_deliveries s then Some (false, s)
  else if (seq_delta sq ack <? 0)%Z && negb replaying && (seq_delta upper_seq ack <=? 0)%Z then Some (false, s)
  else
    let '(sq, ln, data) :=
      if (seq_delta sq ack <? 0)%Z && negb replaying then
        let amount_acked := seq_delta ack sq in
        (int32 (sq + amount_acked), ln - amount_acked, drop (Z.to_nat amount_acked) data)%Z
      else (sq, ln, data) in
    s ← NewBlock (tcp_virtuals ev) sq ln data s;
    n ← NumUndeliveredBytes s;
    s ← (if E.NoDataAcked (endp ev) && negb (tcp_max_above_hole_without_any_acks cfg =? 0)%Z &&
            (tcp_max_above_hole_without_any_acks cfg <? n)%Z
         then abandon "above_hole_data_without_any_acks" s else Some s);
    n ← NumUndeliveredBytes s;
    s ← (if negb (tcp_excessive_data_without_further_acks cfg =? 0)%Z &&
            (tcp_excessive_data_without_further_acks cfg <? n)%Z
         then abandon "excessive_data_without_further_acks" s else Some s);
    Some (true, s).

Definition DataSeq (s : TCP_Reassembler) : Z := LastReassemSeq s.
Definition HasUndeliveredData (s : TCP_Reassembler) : bool := HasBlocks s.
Definition HadGap (s : TCP_Reassembler) : bool := had_gap s.

Definition DataPending (ev : env) (s : TCP_Reassembler) : bool :=
  if skip_deliveries s then false
  else
    let delivered_seq := uint32 (E.start_seq (endp ev) + DataSeq s) in
    if negb (delivered_seq =? uint32 (E.last_seq (endp ev) - 1))%Z &&
       negb (delivered_seq =? E.last_seq (endp ev))%Z then true
    else negb (bool_decide (E.state (endp ev) = E.TCP_ENDPOINT_RESET)) && peer_HasUndeliveredData ev.

Definition CheckEOF (ev : env) (s : TCP_Reassembler) : TCP_Reassembler :=
  if negb (did_EOF s) &&
     ((0 <? E.FIN_cnt (endp ev))%Z || bool_decide (E.state (endp ev) = E.TCP_ENDPOINT_CLOSED) ||
      bool_decide (E.state (endp ev) = E.TCP_ENDPOINT_RESET)) &&
     negb (DataPending ev s)
  then emit EndpointEOF (set_did_EOF true s) else s.

(** The statistics on gaps, and the periodic report. *)
Definition count_gap (num_missing bytes_covered : Z) (g : GapStats) (s : TCP_Reassembler)
    : GapStats * TCP_Reassembler :=
  let g := mkGapStats (E.uint64 (tot_ack_events g + 1)) (E.uint64 (tot_ack_bytes g + bytes_covered))
    (tot_gap_events g) (tot_gap_bytes g) (last_gap_report g)
    (last_ack_events g) (last_ack_bytes g) (last_gap_events g) (last_gap_bytes g) in
  if (0 <? num_missing)%Z then
    (mkGapStats (tot_ack_events g) (tot_ack_bytes g) (E.uint64 (tot_gap_events g + 1))
       (E.uint64 (tot_gap_bytes g + num_missing)) (last_gap_report g)
       (last_ack_events g) (last_ack_bytes g) (last_gap_events g) (last_gap_bytes g),
     emit AckAboveHole s)
  else (g, s).

Definition periodic_report (ev : env) (g : GapStats) (s : TCP_Reassembler) : GapStats * TCP_Reassembler :=
  let dt := dsub (network_time ev) (last_gap_report g) in
  if gap_report cfg && dlt (double_of_Z 0) (gap_report_freq cfg) && dle (gap_report_freq cfg) dt then
    (mkGapStats (tot_ack_events g) (tot_ack_bytes g) (tot_gap_events g) (tot_gap_bytes g)
       (network_time ev) (tot_ack_events g) (tot_ack_bytes g) (tot_gap_events g) (tot_gap_bytes g),
     emit (GapReport (E.uint64 (tot_ack_events g - last_ack_events g)) (E.uint64 (tot_ack_bytes g - last_ack_bytes g))
             (E.uint64 (tot_gap_events g - last_gap_events g)) (E.uint64 (tot_gap_bytes g - last_gap_bytes g))) s)
  else (g, s).

Definition account (ev : env) (test_active : bool) (num_missing bytes_covered : Z) (g : GapStats)
    (s : TCP_Reassembler) : GapStats * TCP_Reassembler :=
  if test_active then let '(g, s) := count_gap num_missing bytes_covered g s in periodic_report ev g s
  else (g, s).

Definition AckReceived (ev : env) (sq : Z) (g : GapStats) (s : TCP_Reassembler)
    : option (GapStats * TCP_Reassembler) :=
  let sq := if (0 <? E.FIN_cnt (endp ev))%Z && (0 <=? seq_delta sq (E.FIN_seq (endp ev)))%Z
            then (E.FIN_seq (endp ev) - 1)%Z else sq in
  let bytes_covered := seq_delta sq (trim_seq (base s)) in
  if (bytes_covered <=? 0)%Z then Some (g, s)
  else
    let test_active := negb (skip_deliveries s) && negb (Skipping ev) &&
                       (report_gaps_for_partial cfg || established ev) in
    '(num_missing, s) ← TrimToSeq (tcp_virtuals ev) sq s;
    let '(g, s) := account ev test_active num_missing bytes_covered g s in
    Some (g, CheckEOF ev s).

Definition Done (s : TCP_Reassembler) : option TCP_Reassembler :=
  s ← MatchUndelivered (-1) s;
  match record_contents_file s with
  | None => Some s
  | Some f =>
    s ← match blocks (base s) with
        | Some _ =>
          lb ← last_block (base s); ld ← heap (base s) !! lb;
          if (seq_delta (last_reassem_seq (base s)) (upper ld) <? 0)%Z
          then RecordToSeq (last_reassem_seq (base s)) (upper ld) f s else Some s
        | None => Some s
        end;
    Some (emit (FileClose f) s)
  end.

(** The volume waiting on a hole, and the volume waiting on an ack. *)
Fixpoint size_loop (fuel : nat) (lrs : Z) (h : gmap addr DataBlock) (b : option addr) (hole ack : Z)
    : option (Z * Z) :=
  match b, fuel with
  | None, _ => Some (hole, ack)
  | Some _, O => None
  | Some a, S fuel =>
    d ← h !! a;
    if (seq_delta (seq d) lrs <=? 0)%Z then size_loop fuel lrs h (next d) hole (ack + Size d)
    else size_loop fuel lrs h (next d) (hole + Size d) ack
  end.

Definition SizeBufferedData (s : TCP_Reassembler) : option (Z * Z) :=
  size_loop (size (heap (base s))) (last_reassem_seq (base s)) (heap (base s)) (blocks (base s)) 0 0.

End operations.

(** ** Moving a reassembler to another process *)

(** The bit fields travel as one word. *)
Definition save_bits (s : TCP_Reassembler) : Z :=
  foldl Z.lor 0%Z [bit_of (deliver_tcp_contents s) 0; bit_of (had_gap s) 1; bit_of (did_EOF s) 2;
    bit_of (skip_deliveries s) 3].

(** What is archived: the contents file is not. *)
Record archive := mkArchive {
  ar_base : Reassembler; ar_bitfields : Z; ar_in_delivery : bool; ar_type : Type_; ar_is_orig : bool
}.

Definition serialize (s : TCP_Reassembler) : archive :=
  mkArchive (base s) (save_bits s) (in_delivery s) (type s) (is_orig s).

Definition unserialize (a : archive) : TCP_Reassembler :=
  mkTR (ar_base a) (bit_at (ar_bitfields a) 0) (bit_at (ar_bitfields a) 1) (bit_at (ar_bitfields a) 2)
    (bit_at (ar_bitfields a) 3) (ar_in_delivery a) None (ar_type a) (ar_is_orig a) [].

(** ** Specification *)

(** A piece of the stream an analyzer is given: position, length, and the data,
    or nothing for a gap. *)
Abbreviation piece := (Z * Z * option bytes)%type (only parsing).

Definition piece_of (e : effect) : option piece :=
  match e with
  | NextStream sq ln d | ForwardStream sq ln d => Some (sq, ln, Some d)
  | NextUndelivered sq ln | ForwardUndelivered sq ln => Some (sq, ln, None)
  | _ => None
  end.

Definition pieces (es : list effect) : list piece := omap piece_of es.

(** The pieces cover [[lo, hi)], in order, each position once. *)
Fixpoint tiles (lo : Z) (ps : list piece) (hi : Z) : Prop :=
  match ps with
  | [] => lo = hi
  | (sq, ln, d) :: ps =>
    sq = lo ∧ (0 < ln)%Z ∧ match d with Some d => len d = ln | None => True end ∧ tiles (lo + ln) ps hi
  end.

(** The calls of one direction, each with its environment. *)
Inductive op :=
  | Sent (ev : env) (sq : Z) (data : bytes)
  | Acked (ev : env) (sq : Z).

Definition step (cfg : config) (o : op) (gs : GapStats * TCP_Reassembler)
    : option (GapStats * TCP_Reassembler) :=
  match o with
  | Sent ev sq data => '(_, s) ← DataSent cfg ev sq (len data) data true gs.2; Some (gs.1, s)
  | Acked ev sq => AckReceived cfg ev sq gs.1 gs.2
  end.

Fixpoint run (cfg : config) (ops : list op) (gs : GapStats * TCP_Reassembler)
    : option (GapStats * TCP_Reassembler) :=
  match ops with
  | [] => Some gs
  | o :: ops => gs ← step cfg o gs; run cfg ops gs
  end.

(** The ack that [AckReceived] works with: not beyond a FIN. *)
Definition effective_ack (ev : env) (sq : Z) : Z :=
  if (0 <? E.FIN_cnt (endp ev))%Z && (0 <=? seq_delta sq (E.FIN_seq (endp ev)))%Z
  then (E.FIN_seq (endp ev) - 1)%Z else sq.

(** Relative sequence numbers fit into 31 bits. *)
Definition op_ok (o : op) : Prop :=
  match o with
  | Sent ev sq data => (0 ≤ sq)%Z ∧ (sq + len data ≤ max_seq)%Z
  | Acked ev sq => in_range (effective_ack ev sq)
  end.

(** The byte [x] was sent at position [p]. *)
Definition carries (p x : Z) (o : op) : Prop :=
  match o with Sent _ sq data => byte_of (sq, data) p = Some x | Acked _ _ => False end.

(** ** What a call changes *)

(** The parts of the state that matter for what the analyzers see. *)
Definition same_obs (s s' : TCP_Reassembler) : Prop :=
  skip_deliveries s' = skip_deliveries s ∧ pieces (out s') = pieces (out s).

Definition quiet (s s' : TCP_Reassembler) : Prop := base s' = base s ∧ same_obs s s'.

Lemma same_obs_trans s1 s2 s3 : same_obs s1 s2 → same_obs s2 s3 → same_obs s1 s3.
Proof. intros [] []. split; congruence. Qed.

Lemma quiet_trans s1 s2 s3 : quiet s1 s2 → quiet s2 s3 → quiet s1 s3.
Proof. intros [] []. split; [congruence|by eapply same_obs_trans]. Qed.

Lemma quiet_refl s : quiet s s.
Proof. done. Qed.

Lemma pieces_snoc es e : pieces (es ++ [e]) = pieces es ++ option_list (piece_of e).
Proof. unfold pieces. rw omap_app /=. by destruct (piece_of e). Qed.

Lemma quiet_emit e s : piece_of e = None → quiet s (emit e s).
Proof. intros He. split; [done|]. split; [done|]. simpl. by rw pieces_snoc He app_nil_r. Qed.

Lemma same_obs_put r s : same_obs s (put r s).
Proof. done. Qed.

#[export] Hint Resolve quiet_refl quiet_emit same_obs_put : ofm.

#[global] Instance tcp_laws : ReassemblerLaws TCP_Reassembler.
Proof. split; [done|done|by intros []]. Qed.

Section walks.
Variable cfg : config.
Hypothesis Hwrite : write_ok cfg = true.

Lemma RecordBlock_quiet d f s : ∃ s', RecordBlock cfg d f s = Some s' ∧ quiet s s'.
Proof. unfold RecordBlock. rw Hwrite. eauto with ofm. Qed.

Lemma RecordGap_quiet a b f s : ∃ s', RecordGap cfg a b f s = Some s' ∧ quiet s s'.
Proof. unfold RecordGap. rw Hwrite. eauto with ofm. Qed.

(** The block at index [i] of the list. *)
Lemma walk_lookup r l i a :
  wf r l → l !! i = Some a → ∃ d, heap r !! a = Some d ∧ next d = l !! S i ∧
    upper d = (seq d + len (block d))%Z ∧ view (heap r) l !! i = Some (seq d, block d).
Proof.
  intros Hwf Hi. destruct (wf_linked _ _ Hwf) as [_ Hl]. destruct (Hl i a Hi) as (d & Hd & _ & Hn & Hu).
  exists d. split; [done|]. split; [done|]. split; [done|].
  rw (view_lookup _ _ _ _ Hi). unfold the_block. by rw Hd.
Qed.

Lemma lookup_lt_fuel (l : list addr) i a fuel : l !! i = Some a → length l - i < S fuel → length l - S i < fuel.
Proof. intros ?%lookup_lt_Some. lia. Qed.

Lemma skip_to_total fuel r l i sq :
  wf r l → length l - i < fuel → ∃ j, skip_to fuel (heap r) (l !! i) sq = Some (l !! j).
Proof.
  intros Hwf. revert i. induction fuel as [|fuel IH]; intros i Hf; [lia|]. simpl.
  destruct (l !! i) as [a|] eqn:Hi; [|exists i; by rw Hi].
  destruct (walk_lookup _ _ _ _ Hwf Hi) as (d & Hd & Hn & _). rw Hd /= Hn.
  destruct (_ <=? 0)%Z; [|exists i; by rw Hi]. apply IH. by eapply lookup_lt_fuel.
Qed.

Lemma record_loop_quiet fuel s l i lsq stop f :
  wf (base s) l → length l - i < fuel →
  ∃ b q s', record_loop cfg fuel (l !! i) lsq stop f s = Some (b, q, s') ∧ quiet s s'.
Proof.
  revert i lsq s. induction fuel as [|fuel IH]; intros i lsq s Hwf Hf; [lia|]. simpl.
  destruct (l !! i) as [a|] eqn:Hi; [|eauto 6 with ofm].
  destruct (walk_lookup _ _ _ _ Hwf Hi) as (d & Hd & Hn & _). rw Hd /= Hn.
  destruct (_ <=? 0)%Z; [|eauto 6 with ofm].
  assert (∃ s1, (if (0 <? seq_delta (seq d) lsq)%Z then RecordGap cfg lsq (seq d) f s else Some s) = Some s1 ∧
    quiet s s1) as (s1 & -> & Hq1).
  { destruct (_ <? _)%Z; [apply RecordGap_quiet|eauto with ofm]. }
  simpl. destruct (RecordBlock_quiet d f s1) as (s2 & -> & Hq2). simpl.
  destruct (IH (S i) (upper d) s2) as (b & q & s3 & -> & Hq3).
  { destruct Hq1 as [Hb1 _], Hq2 as [Hb2 _]. by rw Hb2 Hb1. }
  { by eapply lookup_lt_fuel. }
  exists b, q, s3. split; [done|]. eapply quiet_trans; [done|]. by eapply quiet_trans.
Qed.

#[local] Arguments record_loop : simpl never.
#[local] Arguments skip_to : simpl never.

Lemma fuel_enough r l i : wf r l → length l - i < S (size (heap r)).
Proof. intros Hwf. pose proof (linked_size _ _ (wf_linked _ _ Hwf)). lia. Qed.

Lemma wf_blocks r l : wf r l → blocks r = l !! 0.
Proof. intros Hwf. rw (wf_first _ _ Hwf). by destruct l. Qed.

Lemma RecordToSeq_quiet a b f s l :
  wf (base s) l → ∃ s', RecordToSeq cfg a b f s = Some s' ∧ quiet s s'.
Proof.
  intros Hwf. unfold RecordToSeq. rw (wf_blocks _ _ Hwf).
  destruct (skip_to_total (S (size (heap (base s)))) _ _ 0 a Hwf (fuel_enough _ _ 0 Hwf)) as [j ->]. simpl.
  destruct (l !! j) as [x|] eqn:Hj; [|eauto with ofm]. rw -Hj.
  destruct (record_loop_quiet (S (size (heap (base s)))) s l j a b f Hwf (fuel_enough _ _ j Hwf)) as (y & q & s1 & -> & Hq).
  simpl. destruct y; [|eauto]. destruct (_ <? 0)%Z; [|eauto].
  destruct (RecordGap_quiet q b f s1) as (s2 & -> & Hq2). exists s2. split; [done|]. by eapply quiet_trans.
Qed.

Lemma match_loop_quiet fuel s l i :
  wf (base s) l → length l - i < fuel → ∃ s', match_loop fuel (l !! i) s = Some s' ∧ quiet s s'.
Proof.
  revert i s. induction fuel as [|fuel IH]; intros i s Hwf Hf; [lia|]. simpl.
  destruct (l !! i) as [a|] eqn:Hi; [|eauto with ofm].
  destruct (walk_lookup _ _ _ _ Hwf Hi) as (d & Hd & Hn & _). rw Hd /= Hn.
  destruct (_ <=? 0)%Z; [|eauto with ofm].
  destruct (IH (S i) (emit (Match (take (Z.to_nat (Size d)) (block d))) s)) as (s' & -> & Hq);
    [done|by eapply lookup_lt_fuel|].
  exists s'. split; [done|]. eapply quiet_trans; [|done]. auto with ofm.
Qed.

#[local] Arguments match_loop : simpl never.

Lemma MatchUndelivered_quiet sq s l :
  wf (base s) l → ∃ s', MatchUndelivered cfg sq s = Some s' ∧ quiet s s'.
Proof.
  intros Hwf. unfold MatchUndelivered. destruct (blocks (base s)) as [b|] eqn:Hb; [|eauto with ofm].
  destruct (rule_matcher cfg); [|eauto with ofm].
  rw (wf_blocks _ _ Hwf) in Hb.
  rw (wf_last _ _ Hwf). destruct (last l) as [lb|] eqn:Hlb; [|by apply last_None in Hlb as ->]. simpl.
  rw last_lookup in Hlb. destruct (walk_lookup _ _ _ _ Hwf Hlb) as (ld & -> & _). simpl.
  destruct (_ || _); [eauto with ofm|]. rw -Hb.
  destruct (match_loop_quiet (S (size (heap (base s)))) s l 0 Hwf (fuel_enough _ _ 0 Hwf)) as (s' & Hs & Hq).
  eauto.
Qed.

End walks.

(** ** Delivering *)

(** One delivery, of a block that starts at [last_reassem_seq]. *)
Definition deliver_one (s : TCP_Reassembler) (c : chunk) : TCP_Reassembler :=
  let s := modify (λ r, set_last_reassem_seq r (chunk_end c)) s in
  let s := match record_contents_file s with Some f => emit (FileWrite f c.2) s | None => s end in
  DeliverBlock c.1 (len c.2) c.2 s.

(** The chunks that can be delivered from [lrs] on, and where that ends. *)
Fixpoint deliverable (lrs : Z) (L : list chunk) : list chunk * Z :=
  match L with
  | [] => ([], lrs)
  | c :: L =>
    if decide (lrs < c.1)%Z then ([], lrs)
    else if decide (c.1 = lrs) then let '(ds, e) := deliverable (chunk_end c) L in (c :: ds, e)
    else deliverable lrs L
  end.

(** Consecutive chunks from [lo] to [hi]. *)
Fixpoint chain (lo : Z) (ds : list chunk) (hi : Z) : Prop :=
  match ds with
  | [] => lo = hi
  | c :: ds => c.1 = lo ∧ c.2 ≠ [] ∧ chain (chunk_end c) ds hi
  end.

Definition data_pieces (ds : list chunk) : list piece := (λ c, (c.1, len c.2, Some c.2)) <$> ds.

Lemma deliver_one_base s c : base (deliver_one s c) = set_last_reassem_seq (base s) (chunk_end c).
Proof.
  unfold deliver_one, DeliverBlock, Deliver. simpl.
  destruct (record_contents_file s); simpl; destruct (deliver_tcp_contents s), (skip_deliveries s); done.
Qed.

Lemma deliver_one_obs s c :
  skip_deliveries (deliver_one s c) = skip_deliveries s ∧
  pieces (out (deliver_one s c)) = pieces (out s) ++ (if skip_deliveries s then [] else data_pieces [c]).
Proof.
  unfold deliver_one, DeliverBlock, Deliver. simpl.
  destruct (record_contents_file s); simpl; destruct (deliver_tcp_contents s), (skip_deliveries s) eqn:Hs; simpl;
    rw ?Hs; (split; [done|]); rw ?pieces_snoc ?app_nil_r //=; by destruct (type s).
Qed.

Lemma deliver_fold s ds lo hi :
  chain lo ds hi → last_reassem_seq (base s) = lo →
  let s' := foldl deliver_one s ds in
  base s' = set_last_reassem_seq (base s) hi ∧ skip_deliveries s' = skip_deliveries s ∧
  pieces (out s') = pieces (out s) ++ (if skip_deliveries s then [] else data_pieces ds).
Proof.
  revert s lo. induction ds as [|c ds IH]; intros s lo Hc Hlo; simpl.
  { simpl in Hc. split; [|split; [done|]].
    - destruct s as [[]]. simpl in *. by subst.
    - destruct (skip_deliveries s); by rw app_nil_r. }
  destruct Hc as (_ & _ & Hc). destruct (deliver_one_obs s c) as [Hsk Hp].
  destruct (IH (deliver_one s c) _ Hc) as (IH1 & IH2 & IH3); [by rw deliver_one_base|].
  split; [by rw IH1 deliver_one_base|]. split; [by rw IH2|].
  rw IH3 Hp Hsk. destruct (skip_deliveries s); [by rw !app_nil_r|]. by rw -assoc.
Qed.

Lemma chain_le lo ds hi : chain lo ds hi → (lo ≤ hi)%Z.
Proof.
  revert lo. induction ds as [|c ds IH]; intros lo; simpl; [lia|].
  intros (<- & _ & Hc%IH). pose proof (len_nonneg c.2). unfold chunk_end in Hc. lia.
Qed.

Lemma chain_elem lo ds hi c : chain lo ds hi → c ∈ ds → (lo ≤ c.1 ∧ chunk_end c ≤ hi)%Z.
Proof.
  revert lo. induction ds as [|x ds IH]; intros lo; simpl; [by intros _ ?%elem_of_nil|].
  intros (<- & _ & Hc) [->|Hin]%elem_of_cons; [split; [lia|by eapply chain_le]|].
  pose proof (IH _ Hc Hin). pose proof (len_nonneg x.2). unfold chunk_end in *. lia.
Qed.

Lemma tiles_app lo ps mid ps' hi : tiles lo ps mid → tiles mid ps' hi → tiles lo (ps ++ ps') hi.
Proof.
  revert lo. induction ps as [|[[sq ln] d] ps IH]; intros lo; simpl; [by intros ->|].
  intros (? & ? & ? & ?) ?. split_and!; eauto.
Qed.

Lemma chain_tiles lo ds hi : chain lo ds hi → tiles lo (data_pieces ds) hi.
Proof.
  revert lo. induction ds as [|c ds IH]; intros lo; simpl; [done|].
  intros (<- & Hne & Hc). split; [done|]. split; [by apply len_pos|]. split; [done|]. by apply IH.
Qed.

Lemma deliverable_spec lrs lo L ds e :
  ordered lo max_seq L → (lrs ≤ max_seq)%Z → deliverable lrs L = (ds, e) →
  chain lrs ds e ∧ (e ≤ max_seq)%Z ∧ (∀ c, c ∈ ds → c ∈ L) ∧ (∀ c, c ∈ L → (e < chunk_end c)%Z → c.1 ≠ e).
Proof.
  revert lrs lo ds. induction L as [|c L IH]; intros lrs lo ds Ho Hm; simpl.
  { intros [= <- <-]. split; [done|]. split; [done|]. split; by intros ? ?%elem_of_nil. }
  destruct Ho as (H1 & H2 & H3). case_decide as Hlt.
  - intros [= <- <-]. split; [done|]. split; [done|]. split; [by intros ? ?%elem_of_nil|].
    intros c' [->|Hc']%elem_of_cons; [lia|]. destruct (ordered_elem _ _ _ _ H3 Hc') as [[? ?] ?].
    pose proof (len_nonneg c.2). unfold chunk_end in *. lia.
  - case_decide as Heq.
    + destruct (deliverable (chunk_end c) L) as [ds' e'] eqn:Hd. intros [= <- <-].
      destruct (IH _ _ _ H3 (ordered_le _ _ _ H3) Hd) as (C1 & C2 & C3 & C4).
      split; [done|]. split; [done|]. split.
      * intros c' [->|Hc']%elem_of_cons; [by left|right; auto].
      * intros c' [->|Hc']%elem_of_cons Hlt'; [|auto]. pose proof (chain_le _ _ _ C1). lia.
    + intros Hd. destruct (IH _ _ _ H3 Hm Hd) as (C1 & C2 & C3 & C4).
      split; [done|]. split; [done|]. split; [intros; right; auto|].
      intros c' [->|Hc']%elem_of_cons Hlt'; [|auto]. pose proof (chain_le _ _ _ C1). lia.
Qed.

Section blocks.
Variable cfg : config.
Hypothesis Hwrite : write_ok cfg = true.

(** The block at an index, with what the reassembler's invariant says of it. *)
Lemma block_at r l i a :
  wf r l → ordered 0 max_seq (view (heap r) l) → l !! i = Some a →
  ∃ d, heap r !! a = Some d ∧ next d = l !! S i ∧ in_range (seq d) ∧ in_range (upper d) ∧
    upper d = chunk_end (seq d, block d) ∧ Size d = len (block d) ∧ block d ≠ [] ∧
    take (Z.to_nat (Size d)) (block d) = block d ∧
    drop i (view (heap r) l) = (seq d, block d) :: drop (S i) (view (heap r) l).
Proof.
  intros Hwf Ho Hi. destruct (walk_lookup _ _ _ _ Hwf Hi) as (d & Hd & Hn & Hu & Hv).
  destruct (ordered_elem _ _ _ (seq d, block d) Ho) as [[R1 R2] Hne]; [by eapply list_elem_of_lookup_2|].
  exists d. simpl in *. assert (Size d = len (block d)) as Hsz by (unfold Size; lia).
  unfold in_range, chunk_end in *. simpl in *. pose proof (len_nonneg (block d)).
  split; [done|]. split; [done|]. split; [unfold max_seq in *; lia|]. split; [lia|]. split; [done|]. split; [done|]. split; [done|].
  split; [|by apply drop_S]. rw Hsz. apply take_ge. unfold len. lia.
Qed.

Lemma deliver_new_spec d s :
  Size d = len (block d) → take (Z.to_nat (Size d)) (block d) = block d → in_range (upper d) →
  upper d = chunk_end (seq d, block d) → seq d = last_reassem_seq (base s) →
  deliver_new cfg d s = Some (deliver_one s (seq d, block d)).
Proof.
  intros Hsz Htk Hr Hu Heq. unfold deliver_new. rw Htk Hsz -Heq.
  assert (int32 (seq d + len (block d)) = chunk_end (seq d, block d))%Z as ->.
  { unfold chunk_end in *. simpl in *. unfold in_range, max_seq in Hr. rw int32_small; lia. }
  unfold deliver_one, RecordBlock. rw Hwrite. simpl.
  destruct (record_contents_file s); [|done]. simpl. by rw Htk.
Qed.

Lemma deliver_loop_spec fuel s l i :
  wf (base s) l → ordered 0 max_seq (view (heap (base s)) l) → in_range (last_reassem_seq (base s)) →
  length l - i < fuel →
  deliver_loop cfg fuel (l !! i) s =
    Some (foldl deliver_one s (deliverable (last_reassem_seq (base s)) (drop i (view (heap (base s)) l))).1).
Proof.
  revert i s. induction fuel as [|fuel IH]; intros i s Hwf Ho Hr Hf; [lia|].
  destruct (l !! i) as [a|] eqn:Hi; last first.
  { rw drop_ge; [done|]. unfold view. rw length_fmap. by apply lookup_ge_None. }
  destruct (block_at _ _ _ _ Hwf Ho Hi) as (d & Hd & Hn & R1 & R2 & Hu & Hsz & Hne & Htk & ->).
  simpl. rw Hd. cbn [mbind option_bind].
  rw seq_delta_range //. set (lrs := last_reassem_seq (base s)) in *.
  destruct (Z.leb_spec (seq d - lrs) 0); [rw decide_False; [|lia]|by rw decide_True; [|lia]].
  destruct (Z.eqb_spec (seq d) lrs) as [Heq|Hneq].
  - rw decide_True //. rw deliver_new_spec //. cbn [mbind option_bind]. rw Hn.
    set (s' := deliver_one s (seq d, block d)).
    assert (base s' = set_last_reassem_seq (base s) (chunk_end (seq d, block d))) as Hb by apply deliver_one_base.
    rw IH; [|by rw Hb; destruct Hwf|by rw Hb|rw Hb /= -Hu //|by eapply lookup_lt_fuel].
    rw Hb /=. by destruct (deliverable _ _).
  - rw decide_False //. cbn [mbind option_bind]. rw Hn. by apply IH; [..|eapply lookup_lt_fuel].
Qed.

#[local] Arguments deliver_loop : simpl never.

(** What the first part of [Undelivered] does: skip, or report the gap. *)
Definition gap_noted (s : TCP_Reassembler) (up : Z) (s1 : TCP_Reassembler) : Prop :=
  let lrs := last_reassem_seq (base s) in
  base s1 = base s ∧ (skip_deliveries s = true → skip_deliveries s1 = true) ∧
  pieces (out s1) = pieces (out s) ++ (if skip_deliveries s1 then [] else [(lrs, up - lrs, None)%Z]).

Lemma report_gap_noted ev up s :
  in_range up → in_range (last_reassem_seq (base s)) →
  gap_noted s up (if (last_reassem_seq (base s) =? 1)%Z && fin_or_rst ev then set_skip_deliveries true s
    else set_had_gap true (if skip_deliveries s then s else report_gap cfg ev up s)).
Proof.
  intros Hup Hr. unfold gap_noted. destruct (_ && _); simpl; [by rw app_nil_r|].
  destruct (skip_deliveries s) eqn:Hsk; simpl; rw ?Hsk; [by rw app_nil_r|].
  unfold report_gap. rw seq_delta_range //.
  destruct (_ && _); simpl; rw !pieces_snoc /= ?Hsk ?app_nil_r; by destruct (type s).
Qed.

Lemma Undelivered_spec ev up s l :
  wf (base s) l → in_range up → in_range (last_reassem_seq (base s)) → (last_reassem_seq (base s) < up)%Z →
  ∃ s' x, Undelivered cfg ev up s = Some s' ∧ base s' = set_last_reassem_seq (base s) x ∧
    ((s' = s ∧ x = last_reassem_seq (base s) ∧ IsPartial ev = true ∧ (up ≤ 2)%Z) ∨
     (x = up ∧ (skip_deliveries s = true → skip_deliveries s' = true) ∧
      ((last_reassem_seq (base s) =? 1)%Z && fin_or_rst ev = false → skip_deliveries s' = skip_deliveries s) ∧
      pieces (out s') = pieces (out s) ++
        (if skip_deliveries s' then [] else [(last_reassem_seq (base s), up - last_reassem_seq (base s), None)%Z]))).
Proof.
  intros Hwf Hup Hr Hlt. unfold Undelivered. set (lrs := last_reassem_seq (base s)) in *.
  destruct ((up <=? 2)%Z && IsPartial ev && (0 <=? up)%Z) eqn:Hp.
  { exists s, lrs. split; [done|]. split; [by unfold lrs; destruct s as [[]]|]. left.
    apply andb_true_iff in Hp as [[H1 H2]%andb_true_iff _]. apply Z.leb_le in H1. by split_and!. }
  rw seq_delta_range //. destruct (Z.leb_spec (up - lrs) 0); [lia|].
  set (s1 := if (lrs =? 1)%Z && _ then _ else _).
  assert (gap_noted s up s1) as (Hb1 & Hs1 & Hp1) by by apply report_gap_noted.
  assert (∃ s2, match record_contents_file s1 with
      | Some f => RecordToSeq cfg (last_reassem_seq (base s1)) up f s1 | None => Some s1 end = Some s2 ∧ quiet s1 s2)
    as (s2 & -> & Hq2).
  { destruct (record_contents_file s1); [|eauto with ofm]. apply (RecordToSeq_quiet cfg Hwrite _ _ _ _ l). by rw Hb1. }
  cbn [mbind option_bind].
  assert (∃ s3, (if tcp_match_undelivered cfg then MatchUndelivered cfg up s2 else Some s2) = Some s3 ∧ quiet s2 s3)
    as (s3 & -> & Hq3).
  { destruct (tcp_match_undelivered cfg); [|eauto with ofm]. apply (MatchUndelivered_quiet cfg _ _ l).
    destruct Hq2 as [-> _]. by rw Hb1. }
  cbn [mbind option_bind]. destruct (quiet_trans _ _ _ Hq2 Hq3) as (Hb3 & Hk3 & Hp3).
  exists (modify (λ r, set_last_reassem_seq r up) s3), up. split; [done|].
  split; [unfold modify; simpl; by rw Hb3 Hb1|]. right. simpl. rw Hk3 Hp3.
  split; [done|]. split; [done|]. split; [|done]. intros Hc. unfold s1. rw Hc /=.
  destruct (skip_deliveries s) eqn:Hk; [done|]. rw -Hk. unfold report_gap. by destruct (content_gap cfg && _).
Qed.

Lemma Overlap_reports depth ev s0 :
  overlap_reports (mkVirtuals (BlockInserted cfg depth ev) (Overlap cfg ev) (Undelivered cfg ev)) (same_obs s0).
Proof.
  split; [done|]. intros b1 b2 n s Hn1 Hn2 Hs. simpl. unfold Overlap.
  destruct (rexmit_inconsistency cfg); [|by exists s].
  unfold memcmp_ne. rw decide_True; [|lia]. simpl. destruct (_ && _); [|by exists s].
  eexists. split; [done|]. split; [done|]. eapply same_obs_trans; [done|].
  by apply (quiet_emit (RexmitInconsistency _ _) s).
Qed.

Lemma trim_chunks_head sq L c L' : trim_chunks sq L = c :: L' → c ∈ L ∧ (sq < chunk_end c)%Z.
Proof.
  induction L as [|x L IH]; simpl; [done|]. case_decide.
  - intros [? ?]%IH. split; [by right|done].
  - intros [= -> ->]. split; [by left|lia].
Qed.

(** After delivering up to [e], no block that reaches above [e] starts there. *)
Lemma delivered_all L i c lrs ds e :
  ordered 0 max_seq L → L !! i = Some c → (c.1 ≤ lrs)%Z → (lrs ≤ max_seq)%Z →
  deliverable lrs (drop i L) = (ds, e) → ∀ c', c' ∈ L → (e < chunk_end c')%Z → c'.1 ≠ e.
Proof.
  intros Ho Hi Hc Hm Hd. rw -(take_drop i L) in Ho. apply ordered_app in Ho as (m & Ho1 & Ho2).
  destruct (deliverable_spec _ _ _ _ _ Ho2 Hm Hd) as (C1 & C2 & C3 & C4). pose proof (chain_le _ _ _ C1).
  intros c' Hc' Hlt. rw -(take_drop i L) in Hc'. apply elem_of_app in Hc' as [Hc'|Hc']; [|by apply C4].
  destruct (ordered_elem _ _ _ _ Ho1 Hc') as [[? Hend] _].
  rw (drop_S _ _ _ Hi) in Ho2. simpl in Ho2. destruct Ho2 as (? & _). lia.
Qed.

(** Trimming up to [last_reassem_seq]: neither [Undelivered] nor [BlockInserted]
    is called. *)
Lemma trim_delivered v s L e :
  rep (base s) L → in_range e → last_reassem_seq (base s) = e → in_range (trim_seq (base s)) →
  (∀ c, c ∈ L → (e < chunk_end c)%Z → c.1 ≠ e) →
  ∃ n s', TrimToSeq v e s = Some (n, s') ∧ rep (base s') (trim_chunks e L) ∧
    last_reassem_seq (base s') = e ∧ trim_seq (base s') = Z.max (trim_seq (base s)) e ∧ same_obs s s'.
Proof.
  intros Hrep He Hl Ht Hno.
  destruct (TrimToSeq_spec v s L e) as (s1 & s2 & Hu & (Hr2 & [Hs21 Hs22] & Hput) & Hrun);
    [intros Hlt; rw Hl in Hlt; lia|done|done|by rw Hl|].
  rw decide_False in Hu; [|simpl; lia]. subst s1.
  assert (match blocks (core s2), trim_chunks e L with
    | Some a, c :: _ => if (c.1 =? last_reassem_seq (core s2))%Z then v_BlockInserted v a s2 else Some s2
    | _, _ => Some s2 end = Some s2) as Hb.
  { destruct (blocks (core s2)); [|done]. destruct (trim_chunks e L) as [|c L'] eqn:Htc; [done|].
    destruct (trim_chunks_head _ _ _ _ Htc) as [Hc Hlt]. pose proof (Hno _ Hc Hlt).
    simpl in *. destruct (Z.eqb_spec c.1 (last_reassem_seq (base s2))); [congruence|done]. }
  rw Hb in Hrun. cbn [mbind option_bind] in Hrun. eexists _, _. split; [exact Hrun|].
  assert (same_obs s s2) as Hobs by (rw Hput; auto with ofm).
  simpl in Hs21, Hs22. simpl. rw Hs22 seq_delta_range //.
  destruct (Z.ltb_spec 0 (e - trim_seq (base s))); simpl.
  - split; [|split; [congruence|split; [lia|done]]].
    destruct Hr2 as (l & [] & ? & ?). exists l. by split; [split|].
  - split; [done|]. split; [congruence|]. split; [simpl in Hs22; lia|done].
Qed.

(** What [BlockInserted] does to a reassembler that holds [L], for the block at
    index [i]. *)
Definition block_inserted (L : list chunk) (i : nat) (s s' : TCP_Reassembler) : Prop :=
  let lrs := last_reassem_seq (base s) in
  let '(ds, e) := deliverable lrs (drop i L) in
  ∃ trims : bool, rep (base s') (if trims then trim_chunks e L else L) ∧ last_reassem_seq (base s') = e ∧
    trim_seq (base s') = (if trims then Z.max (trim_seq (base s)) e else trim_seq (base s)) ∧
    same_obs (foldl deliver_one s ds) s'.

Lemma tcp_BlockInserted_spec depth ev nb i s l c :
  wf (base s) l → ordered 0 max_seq (view (heap (base s)) l) → l !! i = Some nb →
  in_range (last_reassem_seq (base s)) → in_range (trim_seq (base s)) →
  view (heap (base s)) l !! i = Some c →
  ∃ s', BlockInserted cfg (S depth) ev nb s = Some s' ∧
    if decide (c.1 ≤ last_reassem_seq (base s) < chunk_end c)%Z
    then block_inserted (view (heap (base s)) l) i s s' else s' = s.
Proof.
  intros Hwf Ho Hi Hr Ht Hc. set (L := view (heap (base s)) l) in *.
  destruct (block_at _ _ _ _ Hwf Ho Hi) as (d & Hd & Hn & R1 & R2 & Hu & Hsz & Hne & Htk & Hdrop).
  assert (c = (seq d, block d)) as ->.
  { fold L in Hdrop. rw (drop_S _ _ _ Hc) in Hdrop. congruence. }
  destruct (decide _) as [[Hin1 Hin2]|Hout]; [|exists s; split; [|done]]; simpl in *;
    rw Hd; cbn [mbind option_bind]; rw !seq_delta_range //; rw -Hu in Hin2 || rw -Hu in Hout.
  all: destruct (Z.ltb_spec 0 (seq d - last_reassem_seq (base s))),
    (Z.leb_spec (upper d - last_reassem_seq (base s)) 0); simpl; try done; try lia.
  assert (deliver_loop cfg (S (size (heap (base s)))) (Some nb) s =
    Some (foldl deliver_one s (deliverable (last_reassem_seq (base s)) (drop i L)).1)) as ->.
  { rw -Hi. apply deliver_loop_spec; [done|done|done|]. by apply fuel_enough. }
  cbn [mbind option_bind]. unfold block_inserted.
  destruct (deliverable (last_reassem_seq (base s)) (drop i L)) as [ds e] eqn:Hde. simpl.
  pose proof (delivered_all L i (seq d, block d) _ ds e Ho Hc Hin1 (proj2 Hr) Hde) as Hno.
  pose proof Ho as Ho'. rw -(take_drop i L) in Ho'. apply ordered_app in Ho' as (m & _ & Ho2).
  destruct (deliverable_spec _ _ _ _ _ Ho2 (proj2 Hr) Hde) as (C1 & C2 & C3 & _).
  destruct (deliver_fold s ds _ _ C1 eq_refl) as (F1 & F2 & F3).
  set (s1 := foldl deliver_one s ds) in *. pose proof (chain_le _ _ _ C1) as Hle.
  assert (rep (base s1) L) as Hrep1.
  { rw F1. exists l. split; [by destruct Hwf|by split]. }
  destruct (trim_delivered (mkVirtuals (BlockInserted cfg depth ev) (Overlap cfg ev) (Undelivered cfg ev)) s1 L e)
    as (n & s2 & Hrun & T1 & T2 & T3 & T4); [done|unfold in_range in *; lia|by rw F1|by rw F1|done|].
  assert (last_reassem_seq (base s1) = e) as -> by by rw F1.
  rw Hrun. simpl.
  destruct (negb _); [exists s2; split; [done|]; exists true; rw F1 in T3; by split_and!|].
  destruct (_ && _); [exists s2; split; [done|]; exists true; rw F1 in T3; by split_and!|].
  exists s1. split; [done|]. exists false. rw F1. split; [by rw F1 in Hrep1|done].
Qed.

End blocks.

(** ** Soundness of the stream *)

(** What always holds: the pieces tile the stream up to [last_reassem_seq] (up to
    some point, once deliveries are skipped), and the data held and delivered was
    sent. *)
Record inv (sent : Z → Z → Prop) (s : TCP_Reassembler) (L : list chunk) : Prop := {
  iv_rep : rep (base s) L;
  iv_lrs : in_range (last_reassem_seq (base s));
  iv_trim : in_range (trim_seq (base s));
  iv_sent : ∀ p x, content L p = Some x → sent p x;
  iv_tiles : ∃ m, tiles 1 (pieces (out s)) m ∧ (m ≤ last_reassem_seq (base s))%Z ∧
    (skip_deliveries s = false → m = last_reassem_seq (base s));
  iv_data : ∀ sq ln d (i : nat) x, (sq, ln, Some d) ∈ pieces (out s) → d !! i = Some x → sent (sq + Z.of_nat i)%Z x
}.

Lemma content_chunk lo hi L c (i : nat) x :
  ordered lo hi L → c ∈ L → c.2 !! i = Some x → content L (c.1 + Z.of_nat i) = Some x.
Proof.
  revert lo. induction L as [|y L IH]; intros lo; simpl; [by intros _ ?%elem_of_nil|].
  intros (H1 & H2 & H3) Hc Hx. pose proof (lookup_lt_Some _ _ _ Hx) as Hlt.
  apply elem_of_cons in Hc as [->|Hc].
  - unfold byte_of, chunk_end, len. rw decide_True; [|lia].
    assert (Z.to_nat (y.1 + Z.of_nat i - y.1) = i) as -> by lia. by rw Hx.
  - destruct (ordered_elem _ _ _ _ H3 Hc) as [[? ?] ?]. rw byte_of_None; [by eapply IH|lia].
Qed.

Lemma inv_weaken (P Q : Z → Z → Prop) s L : (∀ p x, P p x → Q p x) → inv P s L → inv Q s L.
Proof. intros HPQ [R1 R2 R3 R4 R5 R6]. split; [done|done|done|eauto|done|eauto]. Qed.

Lemma elem_of_data_pieces ds sq ln d : (sq, ln, Some d) ∈ data_pieces ds → ∃ c, c ∈ ds ∧ c.1 = sq ∧ c.2 = d.
Proof. intros (c & [= -> -> ->] & Hc)%list_elem_of_fmap. by exists c. Qed.

Lemma trim_chunks_content lo hi L sq p x : ordered lo hi L → content (trim_chunks sq L) p = Some x → content L p = Some x.
Proof.
  revert lo. induction L as [|c L IH]; intros lo; simpl; [done|]. intros (H1 & H2 & H3).
  case_decide; [|done]. intros Hc. pose proof (IH _ H3 Hc) as Hc'. rw byte_of_None; [done|].
  intros [? ?]. by rw (content_before (chunk_end c) hi) // in Hc'.
Qed.

Section sound.
Variable cfg : config.
Hypothesis Hwrite : write_ok cfg = true.
Context (sent : Z → Z → Prop).

(** Delivering keeps the invariant. *)
Lemma block_inserted_inv L i c s s' :
  inv sent s L → L !! i = Some c → (c.1 ≤ last_reassem_seq (base s))%Z → block_inserted L i s s' → ∃ L', inv sent s' L'.
Proof.
  intros [Hrep Hr Ht Hsent (m & Ht1 & Ht2 & Ht3) Hdata] Hi Hc Hb. unfold block_inserted in Hb.
  destruct (deliverable _ _) as [ds e] eqn:Hde. destruct Hb as (trims & B1 & B2 & B3 & B4 & B5).
  destruct Hrep as (l & Hwf & Hv & Ho).
  pose proof Ho as Ho'. rw -(take_drop i L) in Ho'. apply ordered_app in Ho' as (lo & _ & Ho2).
  destruct (deliverable_spec _ _ _ _ _ Ho2 (proj2 Hr) Hde) as (C1 & C2 & C3 & _).
  destruct (deliver_fold s ds _ _ C1 eq_refl) as (F1 & F2 & F3). pose proof (chain_le _ _ _ C1).
  exists (if trims then trim_chunks e L else L). split; [done|unfold in_range in *; lia| | | |].
  - rw B3. destruct trims; unfold in_range in *; lia.
  - intros p x Hx. apply Hsent. destruct trims; [by eapply trim_chunks_content|done].
  - rw B4 B5 F2 F3 B2. destruct (skip_deliveries s) eqn:Hsk.
    + exists m. rw app_nil_r. split; [done|]. split; [lia|done].
    + exists e. split; [|split; [lia|done]]. eapply tiles_app; [exact Ht1|]. rw (Ht3 eq_refl). by apply chain_tiles.
  - rw B5 F3. intros sq ln d k x [Hin|Hin]%elem_of_app Hx; [by eapply Hdata|].
    destruct (skip_deliveries s); [by apply elem_of_nil in Hin|].
    apply elem_of_data_pieces in Hin as (c' & Hc' & <- & <-). apply Hsent.
    eapply content_chunk; [exact Ho| |done]. rw -(take_drop i L). apply elem_of_app. right. by apply C3.
Qed.

Lemma BlockInserted_inv depth ev nb s l :
  wf (base s) l → inv sent s (view (heap (base s)) l) → nb ∈ l →
  ∃ s' L', BlockInserted cfg (S depth) ev nb s = Some s' ∧ inv sent s' L'.
Proof.
  intros Hwf Hinv [i Hi]%list_elem_of_lookup_1. pose proof Hinv as [(l' & _ & Hv & Ho) Hr Ht _ _ _].
  destruct (block_at _ _ _ _ Hwf Ho Hi) as (d & Hd & _ & _ & _ & _ & _ & _ & _ & Hdrop).
  assert (view (heap (base s)) l !! i = Some (seq d, block d)) as Hc.
  { rw -(Nat.add_0_r i) -lookup_drop Hdrop. done. }
  destruct (tcp_BlockInserted_spec cfg Hwrite depth ev nb i s l _ Hwf Ho Hi Hr Ht Hc) as (s' & Hrun & Hres).
  destruct (decide _) as [[Hle _]|_]; [|subst; eauto].
  destruct (block_inserted_inv _ _ _ _ _ Hinv Hc Hle Hres) as [L' HL']. eauto.
Qed.

Lemma same_obs_inv s s' L L' :
  inv sent s L → same_obs s s' → rep (base s') L' → same_seqs (base s) (base s') →
  (∀ p x, content L' p = Some x → sent p x) → inv sent s' L'.
Proof.
  intros [Hrep Hr Ht Hsent Htiles Hdata] [O1 O2] Hrep' [S1 S2] Hsent'.
  split; [done|by rw S1|by rw S2|done|by rw O1 O2 S1|by rw O2].
Qed.

Lemma NewBlock_inv ev sq data s L :
  inv sent s L → (0 ≤ sq)%Z → (sq + len data ≤ max_seq)%Z →
  (∀ p x, byte_of (sq, data) p = Some x → sent p x) →
  ∃ s' L', NewBlock (tcp_virtuals cfg ev) sq (len data) data s = Some s' ∧ inv sent s' L'.
Proof.
  intros Hinv Hsq Hup Hnew. pose proof Hinv as [Hrep Hr Ht Hsent Htiles Hdata].
  pose proof (NewBlock_spec (tcp_virtuals cfg ev) (same_obs s) (Overlap_reports cfg 2 ev s) s L sq data
    ltac:(done) Hrep Ht Hsq Hup) as Hspec.
  destruct (decide _) as [|Hlt]; [by exists s, L|].
  destruct Hspec as (nb & s1 & (l1 & Hwf1 & Hv1 & Ho1 & Hnb & [Hs1 HQ1] & _) & ->).
  destruct (decide (data = [])) as [->|Hne]; [by destruct Hlt; left|].
  assert (trim_seq (base s) < sq + len data)%Z as Hlt' by (destruct (Z.leb_spec (sq + len data) (trim_seq (base s))); [destruct Hlt; by right|done]).
  apply (BlockInserted_inv 1 ev nb s1 l1); [done| |done].
  eapply (same_obs_inv s s1 L); [done|by apply HQ1|exists l1; by rw -Hv1 in Ho1|done|].
  rw Hv1. intros p x Hx. destruct Hrep as (l & _ & _ & Ho). rw (add_data_content 0 max_seq) // in Hx.
  - destruct (content L p) eqn:Hp; [injection Hx as ->; by apply Hsent|]. rw byte_of_cut in Hx; [|simpl; lia].
    case_decide; [by apply Hnew|done].
  - intros Hn. apply (f_equal len) in Hn. rw len_drop in Hn. pose proof (len_pos _ Hne).
    change (len []) with 0%Z in Hn. simpl in Hn. lia.
Qed.

Lemma NumUndeliveredBytes_total s L : rep (base s) L → is_Some (NumUndeliveredBytes s).
Proof.
  intros (l & Hwf & _ & _). unfold NumUndeliveredBytes. rw (wf_last _ _ Hwf).
  destruct (last l) as [lb|] eqn:Hl; [|done]. rw last_lookup in Hl.
  destruct (walk_lookup _ _ _ _ Hwf Hl) as (d & -> & _). done.
Qed.

Lemma abandon_inv name s L : inv sent s L → ∃ s', abandon name s = Some s' ∧ inv sent s' [].
Proof.
  intros Hinv. pose proof (iv_rep _ _ _ Hinv) as Hrep. unfold abandon.
  destruct (ClearBlocks_spec (emit (Weird name) s) L) as (s1 & -> & Hr1 & Hs1 & Hp1); [done|].
  exists (set_skip_deliveries true s1). split; [done|].
  destruct Hinv as [_ Hr Ht _ (m & M1 & M2 & M3) Hdata].
  assert (pieces (out s1) = pieces (out s)) as Ho by (rw Hp1 /= pieces_snoc /= app_nil_r //).
  destruct Hs1 as [S1 S2]. simpl in *. split; simpl; [done|by rw S1|by rw S2|done| |by rw Ho].
  exists m. rw Ho S1. by split_and!.
Qed.

Lemma abandon_if_inv (b : bool) name s L :
  inv sent s L → ∃ s' L', (if b then abandon name s else Some s) = Some s' ∧ inv sent s' L'.
Proof. intros Hinv. destruct b; [destruct (abandon_inv name s L Hinv) as (s' & ? & ?)|]; eauto. Qed.

Lemma DataSent_inv ev sq data s L :
  inv sent s L → (0 ≤ sq)%Z → (sq + len data ≤ max_seq)%Z →
  (∀ p x, byte_of (sq, data) p = Some x → sent p x) →
  ∃ b s' L', DataSent cfg ev sq (len data) data true s = Some (b, s') ∧ inv sent s' L'.
Proof.
  intros Hinv Hsq Hup Hnew. unfold DataSent. rw andb_false_r andb_false_l.
  destruct (skip_deliveries s); [by exists false, s, L|].
  destruct (NewBlock_inv ev sq data s L Hinv Hsq Hup Hnew) as (s1 & L1 & -> & H1). cbn [mbind option_bind].
  destruct (NumUndeliveredBytes_total s1 L1) as [n1 ->]; [apply H1|]. cbn [mbind option_bind].
  destruct (abandon_if_inv (E.NoDataAcked (endp ev) && negb (tcp_max_above_hole_without_any_acks cfg =? 0)%Z &&
    (tcp_max_above_hole_without_any_acks cfg <? n1)%Z) "above_hole_data_without_any_acks" s1 L1 H1) as (s2 & L2 & -> & H2).
  cbn [mbind option_bind]. destruct (NumUndeliveredBytes_total s2 L2) as [n2 ->]; [apply H2|]. cbn [mbind option_bind].
  destruct (abandon_if_inv (negb (tcp_excessive_data_without_further_acks cfg =? 0)%Z &&
    (tcp_excessive_data_without_further_acks cfg <? n2)%Z) "excessive_data_without_further_acks" s2 L2 H2) as (s3 & L3 & -> & H3).
  cbn [mbind option_bind]. eauto.
Qed.

(** ** Acks *)

Lemma Undelivered_inv ev sq s L :
  inv sent s L → in_range sq → (last_reassem_seq (base s) < sq)%Z →
  ∃ s1 x, Undelivered cfg ev sq s = Some s1 ∧ base s1 = set_last_reassem_seq (base s) x ∧ inv sent s1 L.
Proof.
  intros Hinv Hsq Hlt. pose proof Hinv as [(l & Hwf & Hv & Ho) Hr Ht Hsent (m & M1 & M2 & M3) Hdata].
  destruct (Undelivered_spec cfg Hwrite ev sq s l Hwf Hsq Hr Hlt) as (s1 & x & Hu & Hb & Hcase).
  exists s1, x. split; [done|]. split; [done|]. destruct Hcase as [(-> & _)|(-> & Hsk & _ & Hp)]; [done|].
  split.
  - exists l. rw Hb. split; [by destruct Hwf|done].
  - by rw Hb.
  - by rw Hb.
  - done.
  - rw Hp Hb /=. destruct (skip_deliveries s1) eqn:Hsk1.
    + exists m. rw app_nil_r. split; [done|]. split; [lia|done].
    + exists sq. split; [|split; [lia|done]]. eapply tiles_app; [done|].
      assert (m = last_reassem_seq (base s)) as -> by (apply M3; apply not_true_iff_false; intros Hs; by specialize (Hsk Hs)).
      simpl. split_and!; lia.
  - rw Hp. intros q ln d i y [Hin|Hin]%elem_of_app Hy; [by eapply Hdata|].
    destruct (skip_deliveries s1); [by apply elem_of_nil in Hin|by apply list_elem_of_singleton in Hin].
Qed.

Lemma TrimToSeq_inv ev sq s L :
  inv sent s L → in_range sq → ∃ n s' L', TrimToSeq (tcp_virtuals cfg ev) sq s = Some (n, s') ∧ inv sent s' L'.
Proof.
  intros Hinv Hsq. pose proof Hinv as [Hrep Hr Ht _ _ _].
  destruct (TrimToSeq_spec (tcp_virtuals cfg ev) s L sq) as (s1 & s2 & Hu & (Hr2 & Hs2 & Hput) & Hrun); [|done..|].
  { intros Hlt. destruct (Undelivered_inv ev sq s L Hinv Hsq Hlt) as (s1 & x & ? & ? & _). by exists s1, x. }
  assert (inv sent s1 L) as Hinv1.
  { case_decide as Hlt; [|by subst]. destruct (Undelivered_inv ev sq s L Hinv Hsq Hlt) as (s1' & x & Hu' & _ & H1).
    simpl in Hu. congruence. }
  assert (inv sent s2 (trim_chunks sq L)) as Hinv2.
  { eapply (same_obs_inv s1 s2 L); [done|by rw Hput|done|done|]. destruct Hrep as (l & _ & _ & Ho).
    intros p x Hx. eapply (iv_sent _ _ _ Hinv1). by eapply trim_chunks_content. }
  assert (∃ s3 L3, match blocks (core s2), trim_chunks sq L with
      | Some a, c :: _ => if (c.1 =? last_reassem_seq (core s2))%Z then v_BlockInserted (tcp_virtuals cfg ev) a s2 else Some s2
      | _, _ => Some s2 end = Some s3 ∧ inv sent s3 L3) as (s3 & L3 & Hs3 & Hinv3).
  { destruct (blocks (core s2)) as [a|] eqn:Hb; [|eauto]. destruct (trim_chunks sq L) as [|c L'] eqn:Htc; [eauto|].
    destruct (_ =? _)%Z; [|eauto]. destruct Hr2 as (l2 & Hwf2 & Hv2 & Ho2).
    apply (BlockInserted_inv 1 ev a s2 l2); [done|by rw Hv2|].
    rw (wf_first _ _ Hwf2) in Hb. destruct l2; [done|]. injection Hb as ->. by left. }
  rw Hs3 in Hrun. cbn [mbind option_bind] in Hrun. eexists _, _, L3. split; [exact Hrun|].
  destruct (0 <? _)%Z; [|done]. destruct Hinv3 as [(l & Hwf & ? & ?) ? ? ? ? ?].
  split; simpl; [|done..]. exists l. by split; [destruct Hwf|].
Qed.

Lemma quiet_inv s s' L : quiet s s' → inv sent s L → inv sent s' L.
Proof.
  intros [Hb Ho] Hinv. eapply (same_obs_inv s s' L); [done|done|rw Hb; apply Hinv|by rw Hb|apply Hinv].
Qed.

Lemma count_gap_quiet n b g s : quiet s (count_gap n b g s).2.
Proof. unfold count_gap. destruct (_ <? _)%Z; simpl; auto with ofm. Qed.

Lemma periodic_report_quiet ev g s : quiet s (periodic_report cfg ev g s).2.
Proof. unfold periodic_report. destruct (_ && _); simpl; auto with ofm. Qed.

Lemma account_quiet ev t n b g s : quiet s (account cfg ev t n b g s).2.
Proof.
  unfold account. destruct t; [|done]. pose proof (count_gap_quiet n b g s) as Hq.
  destruct (count_gap n b g s) as [g2 s2]. eapply quiet_trans; [exact Hq|apply periodic_report_quiet].
Qed.

Lemma CheckEOF_quiet ev s : quiet s (CheckEOF ev s).
Proof.
  unfold CheckEOF. destruct (_ && _); [|done]. eapply quiet_trans; [|by apply quiet_emit]. done.
Qed.

Lemma AckReceived_inv ev sq g s L :
  inv sent s L → in_range (effective_ack ev sq) →
  ∃ g' s' L', AckReceived cfg ev sq g s = Some (g', s') ∧ inv sent s' L'.
Proof.
  intros Hinv Hsq. unfold AckReceived. fold (effective_ack ev sq). set (q := effective_ack ev sq) in *.
  destruct (_ <=? 0)%Z; [by exists g, s, L|].
  destruct (TrimToSeq_inv ev q s L Hinv Hsq) as (n & s1 & L1 & -> & H1). cbn [mbind option_bind].
  destruct (account cfg ev _ n _ g s1) as [g2 s2] eqn:Hacc.
  exists g2, (CheckEOF ev s2), L1. split; [done|].
  assert (quiet s1 s2) as Hq by (rw (_ : s2 = (g2, s2).2) // -Hacc; apply account_quiet).
  eapply quiet_inv; [|done]. eapply quiet_trans; [exact Hq|apply CheckEOF_quiet].
Qed.

End sound.

(** ** Completeness of the stream *)

(** A position some call carried data for. *)
Definition received (ops : list op) (p : Z) : Prop :=
  ∃ ev sq data, Sent ev sq data ∈ ops ∧ (sq ≤ p < sq + len data)%Z.

(** [data] at [sq] is a part of the stream [str]; the first byte has number 1. *)
Definition part_of (str : bytes) (c : chunk) : Prop :=
  ∀ p x, byte_of c p = Some x → str !! Z.to_nat (p - 1) = Some x.

(** A run without loss: the data is that of one stream, in any order and with
    any overlap, and only data that was received is acknowledged. *)
Fixpoint lossless (str : bytes) (past ops : list op) : Prop :=
  match ops with
  | [] => True
  | o :: ops =>
    match o with
    | Sent ev sq data => (1 ≤ sq)%Z ∧ (sq + len data ≤ max_seq)%Z ∧ part_of str (sq, data)
    | Acked ev sq =>
      (1 ≤ effective_ack ev sq ≤ max_seq)%Z ∧ ∀ p, (1 ≤ p < effective_ack ev sq)%Z → received past p
    end ∧ lossless str (past ++ [o]) ops
  end.

(** The data that waits above the first hole, of the positions [R] received, does not
    exceed the thresholds at which a reassembler gives up; a threshold of zero is no
    threshold, and one of them counts only while the peer has acknowledged no data. *)
Definition tolerated (cfg : config) (ev : env) (R : Z → Prop) : Prop :=
  ∀ n p, (1 ≤ n)%Z → (∀ q, (1 ≤ q < n)%Z → R q) → ¬ R n → R p →
    (tcp_excessive_data_without_further_acks cfg = 0%Z ∨
      (p < n + tcp_excessive_data_without_further_acks cfg)%Z) ∧
    (E.NoDataAcked (endp ev) = false ∨ tcp_max_above_hole_without_any_acks cfg = 0%Z ∨
      (p < n + tcp_max_above_hole_without_any_acks cfg)%Z).

Fixpoint patient (cfg : config) (past ops : list op) : Prop :=
  match ops with
  | [] => True
  | o :: ops =>
    match o with
    | Sent ev _ _ => tolerated cfg ev (received (past ++ [o]))
    | Acked _ _ => True
    end ∧ patient cfg (past ++ [o]) ops
  end.

(** What holds in a run without loss, for the stream [str] and the positions [R]
    received so far; between the calls, also [maximal]. *)
Record cinv (str : bytes) (R : Z → Prop) (s : TCP_Reassembler) (L : list chunk) : Prop := {
  ci_rep : rep (base s) L;
  ci_seqs : (1 ≤ trim_seq (base s) ≤ last_reassem_seq (base s))%Z ∧ (last_reassem_seq (base s) ≤ max_seq)%Z;
  ci_aligned : ∀ c, c ∈ L → (chunk_end c ≤ last_reassem_seq (base s))%Z ∨ (last_reassem_seq (base s) ≤ c.1)%Z;
  ci_held : ∀ p, (trim_seq (base s) ≤ p < last_reassem_seq (base s))%Z → content L p ≠ None;
  ci_above : ∀ p, (last_reassem_seq (base s) ≤ p)%Z → content L p ≠ None ↔ R p;
  ci_below : ∀ p, (1 ≤ p < last_reassem_seq (base s))%Z → R p;
  ci_str : ∀ p x, content L p = Some x → str !! Z.to_nat (p - 1) = Some x;
  ci_skip : skip_deliveries s = false;
  ci_out : ∃ ds, pieces (out s) = data_pieces ds ∧ chain 1 ds (last_reassem_seq (base s)) ∧
    concat ds.*2 = take (Z.to_nat (last_reassem_seq (base s) - 1)) str
}.

(** Everything that can be delivered was. *)
Definition maximal (s : TCP_Reassembler) (L : list chunk) : Prop :=
  content L (last_reassem_seq (base s)) = None.

Lemma add_data_chunks lo hi L sq data c :
  ordered lo hi L → data ≠ [] → c ∈ add_data L sq data →
  c ∈ L ∨ (sq ≤ c.1)%Z ∧ ∀ p, (c.1 ≤ p < chunk_end c)%Z → content L p = None.
Proof.
  revert lo sq data. induction L as [|y L IH]; intros lo sq data Ho Hd; simpl.
  - destruct data; [done|]. intros ->%list_elem_of_singleton. right. by split.
  - pose proof Ho as (H1 & H2 & H3). rw decide_False //.
    assert (∀ sq' data', (chunk_end y ≤ sq')%Z → data' ≠ [] → c ∈ add_data L sq' data' →
      c ∈ y :: L ∨ (sq' ≤ c.1)%Z ∧ ∀ p, (c.1 ≤ p < chunk_end c)%Z → content (y :: L) p = None) as Hrec.
    { intros sq' data' Hsq' Hd' Hc. destruct (IH _ _ _ H3 Hd' Hc) as [|[E1 E2]]; [left; by right|].
      right. split; [done|]. intros p Hp. rw content_after; [by apply E2|lia]. }
    case_decide as Hend; [intros [->|Hc]%elem_of_cons; [left; by left|by apply (Hrec sq data)]|].
    case_decide as Hbef.
    { intros [->|Hc]%elem_of_cons; [|by left]. right. split; [simpl; lia|]. intros p Hp.
      apply (content_before y.1 hi (y :: L)); [by split_and!|unfold chunk_end in Hp; simpl in Hp; lia]. }
    intros [Hc|[->|Hc]%elem_of_cons]%elem_of_app; [|left; by left|].
    + case_decide; [|by apply elem_of_nil in Hc]. apply list_elem_of_singleton in Hc as ->. right. split; [simpl; lia|].
      intros p Hp. apply (content_before y.1 hi (y :: L)); [by split_and!|]. unfold chunk_end in Hp. simpl in Hp.
      rw len_take in Hp. lia.
    + destruct (decide (drop (Z.to_nat (chunk_end y - sq)) data = [])) as [Hn|Hn].
      { rw Hn add_data_nil in Hc. left. by right. }
      destruct (Hrec _ _ (Z.le_refl _) Hn Hc) as [|[E1 E2]]; [by left|]. right. split; [lia|done].
Qed.

Lemma aligned_none L q : (∀ c, c ∈ L → (chunk_end c ≤ q)%Z ∨ (q < c.1)%Z) → content L q = None.
Proof.
  induction L as [|c L IH]; intros Hal; simpl; [done|]. rw byte_of_None.
  - apply IH. intros. apply Hal. by right.
  - destruct (Hal c); [by left|lia|lia].
Qed.

(** From a block that starts at [lrs], everything up to the next hole. *)
Lemma deliverable_run lrs L ds e :
  ordered lrs max_seq L → deliverable lrs L = (ds, e) →
  ∃ rest, L = ds ++ rest ∧ chain lrs ds e ∧ ∀ c, c ∈ rest → (e < c.1)%Z.
Proof.
  revert lrs ds. induction L as [|c L IH]; intros lrs ds Ho; simpl.
  { intros [= <- <-]. exists []. split; [done|]. split; [done|]. by intros ? ?%elem_of_nil. }
  destruct Ho as (H1 & H2 & H3). case_decide as Hlt.
  - intros [= <- <-]. exists (c :: L). split; [done|]. split; [done|].
    intros c' [->|Hc']%elem_of_cons; [done|]. destruct (ordered_elem _ _ _ _ H3 Hc') as [[? ?] ?].
    pose proof (len_nonneg c.2). unfold chunk_end in *. lia.
  - rw decide_True; [|lia]. destruct (deliverable (chunk_end c) L) as [ds' e'] eqn:Hd. intros [= <- <-].
    destruct (IH _ _ H3 Hd) as (rest & -> & Hch & Hr). exists rest. split; [done|]. split; [|done]. by split_and!; [lia|..].
Qed.

Lemma trim_chunks_above lo hi L sq p : ordered lo hi L → (sq ≤ p)%Z → content (trim_chunks sq L) p = content L p.
Proof.
  revert lo. induction L as [|c L IH]; intros lo; simpl; [done|]. intros (H1 & H2 & H3) Hp.
  case_decide; [|done]. rw (IH _ H3 Hp) byte_of_None //. lia.
Qed.

Lemma trim_chunks_elem sq L c : c ∈ trim_chunks sq L → c ∈ L.
Proof.
  induction L as [|y L IH]; simpl; [done|]. case_decide; [|done]. intros Hc. right. by apply IH.
Qed.

Lemma part_take str c :
  (1 ≤ c.1)%Z → part_of str c →
  take (Z.to_nat (c.1 - 1)) str ++ c.2 = take (Z.to_nat (chunk_end c - 1)) str.
Proof.
  intros H1 Hpart.
  assert (Z.to_nat (chunk_end c - 1) = Z.to_nat (c.1 - 1) + length c.2) as -> by (unfold chunk_end, len; lia).
  rw -take_take_drop. f_equal. apply list_eq. intros i. destruct (decide (i < length c.2)) as [Hi|Hi].
  - rw lookup_take_lt // lookup_drop. destruct (lookup_lt_is_Some_2 _ _ Hi) as [x Hx]. rw Hx. symmetry.
    rw (_ : Z.to_nat (c.1 - 1) + i = Z.to_nat (c.1 + Z.of_nat i - 1)); [|lia]. apply Hpart.
    unfold byte_of, chunk_end, len. rw decide_True; [|lia]. by rw (_ : Z.to_nat (c.1 + Z.of_nat i - c.1) = i); [|lia].
  - rw lookup_take_ge; [|lia]. apply lookup_ge_None. lia.
Qed.

Lemma chain_concat str lo ds hi :
  (1 ≤ lo)%Z → chain lo ds hi → (∀ c, c ∈ ds → part_of str c) →
  take (Z.to_nat (lo - 1)) str ++ concat ds.*2 = take (Z.to_nat (hi - 1)) str.
Proof.
  revert lo. induction ds as [|c ds IH]; intros lo Hlo; simpl; [intros ->; by rw app_nil_r|].
  intros (<- & Hne & Hch) Hpart. rw assoc part_take; [|done|apply Hpart; by left].
  pose proof (len_nonneg c.2). apply IH; [unfold chunk_end; lia|done|]. intros c' Hc'. apply Hpart. by right.
Qed.

Lemma chain_app lo ds mid ds' hi : chain lo ds mid → chain mid ds' hi → chain lo (ds ++ ds') hi.
Proof.
  revert lo. induction ds as [|c ds IH]; intros lo; simpl; [by intros ->|].
  intros (? & ? & ?) ?. split_and!; eauto.
Qed.

Lemma chain_cover lo ds hi p : chain lo ds hi → (lo ≤ p < hi)%Z → ∃ c, c ∈ ds ∧ (c.1 ≤ p < chunk_end c)%Z.
Proof.
  revert lo. induction ds as [|c ds IH]; intros lo; simpl; [lia|]. intros (<- & _ & Hch) Hp.
  destruct (Z.ltb_spec p (chunk_end c)); [exists c; split; [by left|lia]|].
  destruct (IH _ Hch) as (c' & Hc' & ?); [lia|]. exists c'. split; [by right|done].
Qed.

Lemma byte_of_content lo hi L c p x : ordered lo hi L → c ∈ L → byte_of c p = Some x → content L p = Some x.
Proof.
  intros Ho Hc Hx. pose proof (byte_of_range _ _ _ Hx) as Hr. unfold byte_of in Hx. rw decide_True // in Hx.
  rw -(content_chunk _ _ _ _ _ _ Ho Hc Hx). f_equal. lia.
Qed.

Section complete.
Variable cfg : config.
Hypothesis Hwrite : write_ok cfg = true.
Hypothesis Hcfg :
  (0 ≤ tcp_max_above_hole_without_any_acks cfg)%Z ∧ (0 ≤ tcp_excessive_data_without_further_acks cfg)%Z.
Variable str : bytes.

(** In a maximal state no block starts at [last_reassem_seq]. *)
Lemma maximal_aligned R s L c :
  cinv str R s L → maximal s L → c ∈ L →
  (chunk_end c ≤ last_reassem_seq (base s))%Z ∨ (last_reassem_seq (base s) < c.1)%Z.
Proof.
  intros Hi Hm Hc. destruct (ci_aligned _ _ _ _ Hi c Hc) as [|Hle]; [by left|right].
  destruct (ci_rep _ _ _ _ Hi) as (l & _ & _ & Ho). destruct (ordered_elem _ _ _ _ Ho Hc) as [_ Hne].
  pose proof (len_pos _ Hne). destruct (decide (c.1 = last_reassem_seq (base s))) as [Heq|]; [|lia].
  exfalso. apply (content_in L c (last_reassem_seq (base s))); [done|unfold chunk_end; lia|done].
Qed.

Lemma deliver_cinv R i c s s' L :
  cinv str R s L → L !! i = Some c → c.1 = last_reassem_seq (base s) → block_inserted L i s s' →
  ∃ L', cinv str R s' L' ∧ maximal s' L'.
Proof.
  intros [Hrep [Hs1 Hs2] Hal Hheld Habove Hbelow Hstr Hsk (ds0 & P1 & P2 & P3)] Hi Hc Hb. unfold block_inserted in Hb.
  set (lrs := last_reassem_seq (base s)) in *.
  destruct (deliverable lrs (drop i L)) as [ds e] eqn:Hde. destruct Hb as (trims & B1 & B2 & B3 & B4 & B5).
  destruct Hrep as (l & Hwf & Hv & Ho). pose proof Ho as Ho'. rw -(take_drop i L) in Ho'.
  apply ordered_app in Ho' as (lo & Ho1 & Ho2).
  assert (ordered lrs max_seq (drop i L)) as Ho3 by (rw (drop_S _ _ _ Hi) in Ho2 |- *; simpl in *; split_and!; [lia|tauto..]).
  destruct (deliverable_run _ _ _ _ Ho3 Hde) as (rest & Hrest & Hch & Hnext).
  destruct (deliverable_spec _ _ _ _ _ Ho3 Hs2 Hde) as (_ & He & Hds & _). pose proof (chain_le _ _ _ Hch).
  destruct (deliver_fold s ds _ _ Hch eq_refl) as (F1 & F2 & F3). rw Hsk in F2, F3.
  assert (∀ c', c' ∈ L → (chunk_end c' ≤ e)%Z ∨ (e < c'.1)%Z) as Hal'.
  { intros c' Hc'. rw -(take_drop i L) Hrest in Hc'. apply elem_of_app in Hc' as [Hc'|[Hc'|Hc']%elem_of_app].
    - left. pose proof (ordered_elem _ _ _ _ Ho1 Hc'). rw (drop_S _ _ _ Hi) in Ho2. simpl in Ho2. lia.
    - left. by destruct (chain_elem _ _ _ _ Hch Hc').
    - right. by apply Hnext. }
  assert (∀ p, (lrs ≤ p < e)%Z → content L p ≠ None) as Hnew.
  { intros p Hp. destruct (chain_cover _ _ _ p Hch Hp) as (c' & Hc' & Hr).
    apply (content_in L c'); [rw -(take_drop i L); apply elem_of_app; right; by apply Hds|done]. }
  pose proof (aligned_none L e Hal') as Hmax.
  exists (if trims then trim_chunks e L else L). split; [split|].
  - done.
  - rw B2 B3. destruct trims; lia.
  - intros c' Hc'. rw B2. destruct (Hal' c') as [?|?]; [destruct trims; [by eapply trim_chunks_elem|done]|by left|right; lia].
  - intros p. rw B2 B3. destruct trims; intros Hp; [lia|]. destruct (Z.ltb_spec p lrs); [apply Hheld|apply Hnew]; lia.
  - intros p. rw B2. intros Hp. rw -Habove; [|lia]. destruct trims; [|done]. by rw (trim_chunks_above 0 max_seq).
  - intros p. rw B2. intros Hp. destruct (Z.ltb_spec p lrs); [apply Hbelow; lia|]. apply Habove; [lia|apply Hnew; lia].
  - intros p x Hx. apply Hstr. destruct trims; [by eapply trim_chunks_content|done].
  - by rw B4.
  - exists (ds0 ++ ds). rw B5 F3 P1 B2. split; [by rw /data_pieces fmap_app|]. split; [by eapply chain_app|].
    rw fmap_app concat_app P3. apply (chain_concat _ lrs); [lia|done|].
    intros c' Hc' p x Hx. apply Hstr. rw -(byte_of_content 0 max_seq L c' p x Ho) //.
    rw -(take_drop i L). apply elem_of_app. right. by apply Hds.
  - unfold maximal. rw B2. destruct trims; [by rw (trim_chunks_above 0 max_seq)|done].
Qed.

(** New data, before [BlockInserted]. *)
Lemma insert_cinv R s L s1 sq data nb :
  cinv str R s L → maximal s L → part_of str (sq, data) → (1 ≤ sq)%Z →
  (data ≠ [] ∧ trim_seq (base s) < sq + len data)%Z → same_obs s s1 →
  let sq' := Z.max sq (trim_seq (base s)) in let data' := drop (Z.to_nat (trim_seq (base s) - sq)) data in
  inserted (same_obs s) s L sq' data' nb s1 →
  cinv str (λ p, R p ∨ (sq ≤ p < sq + len data)%Z) s1 (add_data L sq' data').
Proof.
  intros Hinv Hm Hpart Hsq [Hne Hlt] [Hk Hp] sq' data' (l1 & Hwf1 & Hv1 & Ho1 & Hnb & [[S1 S2] _] & _).
  pose proof Hinv as [(l & Hwf & Hv & Ho) Hseqs Hal Hheld Habove Hbelow Hstr Hsk Hout].
  assert (data' ≠ []) as Hne'.
  { intros Hn. apply (f_equal len) in Hn. unfold data' in Hn. rw len_drop in Hn. pose proof (len_pos _ Hne).
    change (len []) with 0%Z in Hn. lia. }
  assert (∀ p, content (add_data L sq' data') p = match content L p with Some x => Some x
    | None => if decide (trim_seq (base s) ≤ p)%Z then byte_of (sq, data) p else None end) as Hcont.
  { intros p. rw (add_data_content 0 max_seq) //. unfold sq', data'. by rw byte_of_cut. }
  simpl in S1, S2. split; rw ?S1 ?S2.
  - by exists l1.
  - done.
  - intros c Hc. destruct (add_data_chunks _ _ _ _ _ _ Ho Hne' Hc) as [|[Hle Hnone]]; [auto|]. right.
    destruct (Z.leb_spec (last_reassem_seq (base s)) c.1); [done|]. exfalso.
    destruct (ordered_elem _ _ _ _ Ho1 Hc) as [_ Hcne]. pose proof (len_pos _ Hcne).
    apply (Hheld c.1); [lia|]. apply Hnone. unfold chunk_end. lia.
  - intros p Hp'. rw Hcont. destruct (content L p) eqn:Hc; [done|]. by apply Hheld in Hp'.
  - intros p Hp'. rw Hcont -(Habove p Hp'). destruct (content L p); [split; [by left|done]|].
    rw decide_True; [|lia]. split.
    + intros Hb. right. destruct (byte_of (sq, data) p) eqn:Hb'; [|done]. by apply byte_of_range in Hb'.
    + intros [?|Hr]; [done|]. destruct (byte_of_Some (sq, data) p) as [x ->]; [exact Hr|done].
  - intros p Hp'. left. by apply Hbelow.
  - intros p x. rw Hcont. destruct (content L p) eqn:Hc; [intros [= <-]; by apply Hstr|].
    case_decide; [apply Hpart|done].
  - by rw Hk.
  - by rw Hp.
Qed.

(** Where [BlockInserted] finds the new block. *)
Lemma NewBlock_cinv ev R s L sq data :
  cinv str R s L → maximal s L → (1 ≤ sq)%Z → (sq + len data ≤ max_seq)%Z → part_of str (sq, data) →
  ∃ s' L', NewBlock (tcp_virtuals cfg ev) sq (len data) data s = Some s' ∧
    cinv str (λ p, R p ∨ (sq ≤ p < sq + len data)%Z) s' L' ∧ maximal s' L'.
Proof.
  intros Hinv Hm Hsq Hup Hpart. pose proof Hinv as [Hrep [[Ht1 Ht2] Hl] Hal Hheld Habove Hbelow _ _ _].
  set (lrs := last_reassem_seq (base s)) in *.
  pose proof (NewBlock_spec (tcp_virtuals cfg ev) (same_obs s) (Overlap_reports cfg 2 ev s) s L sq data
    ltac:(done) Hrep ltac:(unfold in_range; simpl; lia) ltac:(lia) Hup) as Hspec.
  destruct (decide _) as [Hold|Hlt].
  { exists s, L. split; [done|]. split; [|done]. destruct Hinv. split; try done.
    - intros p Hp. rw ci_above0 //. split; [by left|]. intros [?|?]; [done|].
      destruct Hold as [->|Hold]; [unfold len in *; simpl in *; lia|]. simpl in Hold. lia.
    - intros p Hp. left. auto. }
  assert (data ≠ [] ∧ trim_seq (base s) < sq + len data)%Z as Hnew.
  { split; [intros ->; destruct Hlt; by left|].
    destruct (Z.leb_spec (sq + len data) (trim_seq (base s))); [destruct Hlt; by right|done]. }
  destruct Hspec as (nb & s1 & Hins & ->).
  pose proof Hins as (l1 & Hwf1 & Hv1 & Ho1 & [i Hi]%list_elem_of_lookup_1 & [[S1 S2] HQ1] & Hstart).
  pose proof (insert_cinv _ _ _ _ _ _ _ Hinv Hm Hpart Hsq Hnew (HQ1 ltac:(done)) Hins) as Hinv1.
  set (L1 := add_data L _ _) in *. simpl in S1, S2.
  destruct (block_at _ _ _ _ Hwf1 ltac:(by rw Hv1) Hi) as (d & Hd & _ & _ & _ & Hu & _ & Hdne & _ & Hdrop).
  assert (L1 !! i = Some (seq d, block d)) as Hc.
  { rw Hv1 in Hdrop. by rw -(Nat.add_0_r i) -lookup_drop Hdrop. }
  destruct (tcp_BlockInserted_spec cfg Hwrite 1 ev nb i s1 l1 (seq d, block d) Hwf1 ltac:(by rw Hv1) Hi) as (s' & Hrun & Hres).
  { rw S1. unfold in_range. lia. }
  { rw S2. unfold in_range. lia. }
  { by rw Hv1. }
  exists s'. simpl. simpl in Hrun. rw Hrun. rw S1 Hv1 in Hres.
  destruct (content L1 lrs) eqn:Hcl.
  - (* the hole at [lrs] is filled *)
    assert (seq d = lrs) as Hsd.
    { transitivity (seq (the_block (heap (base s1)) nb)); [unfold the_block; by rw Hd|].
      apply Hstart; [|exact Hm|intros p Hp; apply Hheld; simpl in Hp; lia].
      unfold L1 in Hcl. destruct Hrep as (l & _ & _ & Ho). rw (add_data_content 0 max_seq) // in Hcl.
      - rw Hm in Hcl. simpl in Hcl. apply byte_of_range in Hcl. unfold chunk_end in Hcl. simpl in Hcl. simpl. lia.
      - intros Hn. apply (f_equal len) in Hn. rw len_drop in Hn. destruct Hnew as [Hne ?]. pose proof (len_pos _ Hne).
        change (len []) with 0%Z in Hn. simpl in Hn. lia. }
    rw decide_True in Hres; [|rw Hsd; pose proof (len_pos _ Hdne); unfold chunk_end; simpl; lia].
    destruct (deliver_cinv _ _ _ _ _ _ Hinv1 Hc ltac:(simpl; by rw S1) Hres) as (L' & ? & ?). eauto.
  - (* it is not, and nothing is delivered *)
    rw decide_False in Hres.
    + subst s'. exists L1. split; [done|]. split; [done|]. by rw /maximal S1.
    + intros Hr. apply (content_in L1 (seq d, block d) lrs); [by eapply list_elem_of_lookup_2|done|done].
Qed.

(** The last block ends at the last position received above the hole. *)
Lemma NumUndeliveredBytes_tolerated ev R s L :
  cinv str R s L → maximal s L → tolerated cfg ev R →
  ∃ n, NumUndeliveredBytes s = Some n ∧
    E.NoDataAcked (endp ev) && negb (tcp_max_above_hole_without_any_acks cfg =? 0)%Z &&
      (tcp_max_above_hole_without_any_acks cfg <? n)%Z = false ∧
    negb (tcp_excessive_data_without_further_acks cfg =? 0)%Z &&
      (tcp_excessive_data_without_further_acks cfg <? n)%Z = false.
Proof.
  intros Hinv Hm Ht. destruct Hcfg as [C1 C2]. pose proof (ci_seqs _ _ _ _ Hinv) as [[Hs1 Hs2] Hs3]. unfold max_seq in Hs3.
  assert (∀ n, (n ≤ 0)%Z ∨ R (last_reassem_seq (base s) + n - 1)%Z →
    E.NoDataAcked (endp ev) && negb (tcp_max_above_hole_without_any_acks cfg =? 0)%Z &&
      (tcp_max_above_hole_without_any_acks cfg <? n)%Z = false ∧
    negb (tcp_excessive_data_without_further_acks cfg =? 0)%Z &&
      (tcp_excessive_data_without_further_acks cfg <? n)%Z = false) as Hlow.
  { intros n Hn. assert (¬ R (last_reassem_seq (base s))) as Hno.
    { rw -(ci_above _ _ _ _ Hinv); [|lia]. intros H. by apply H, Hm. }
    assert (∀ q, (1 ≤ q < last_reassem_seq (base s))%Z → R q) as Hbelow by apply Hinv.
    split; apply not_true_iff_false; rw !andb_true_iff !negb_true_iff Z.eqb_neq Z.ltb_lt.
    - intros [[Ha H0] Hlt]. destruct Hn as [|HR]; [lia|].
      destruct (Ht (last_reassem_seq (base s)) _ ltac:(lia) Hbelow Hno HR) as [_ [?|[?|?]]]; [congruence|lia|lia].
    - intros [H0 Hlt]. destruct Hn as [|HR]; [lia|].
      destruct (Ht (last_reassem_seq (base s)) _ ltac:(lia) Hbelow Hno HR) as [[?|?] _]; lia. }
  unfold NumUndeliveredBytes. destruct (ci_rep _ _ _ _ Hinv) as (l & Hwf & Hv & Ho). rw (wf_last _ _ Hwf).
  destruct (list.last l) as [lb|] eqn:Hl; [|exists 0%Z; split; [done|apply Hlow; by left]].
  rw last_lookup in Hl.
  destruct (block_at _ _ _ _ Hwf ltac:(by rw Hv) Hl) as (d & -> & _ & R1 & R2 & Hu & _ & Hne & _ & Hdrop).
  rw Hv in Hdrop. eexists. split; [done|]. apply Hlow. unfold in_range, max_seq in R2.
  rw int32_small; [|lia]. destruct (Z.leb_spec (upper d - last_reassem_seq (base s)) 0); [by left|right].
  rw -(ci_above _ _ _ _ Hinv); [|lia]. pose proof (len_pos _ Hne). unfold chunk_end in Hu. simpl in Hu.
  apply (content_in L (seq d, block d)).
  - apply (list_elem_of_lookup_2 _ (pred (length l))). by rw -(Nat.add_0_r (pred (length l))) -lookup_drop Hdrop.
  - unfold chunk_end. simpl. lia.
Qed.

Lemma DataSent_cinv ev R s L sq data :
  cinv str R s L → maximal s L → (1 ≤ sq)%Z → (sq + len data ≤ max_seq)%Z → part_of str (sq, data) →
  tolerated cfg ev (λ p, R p ∨ (sq ≤ p < sq + len data)%Z) →
  ∃ b s' L', DataSent cfg ev sq (len data) data true s = Some (b, s') ∧
    cinv str (λ p, R p ∨ (sq ≤ p < sq + len data)%Z) s' L' ∧ maximal s' L'.
Proof.
  intros Hinv Hm Hsq Hup Hpart Ht. unfold DataSent. rw andb_false_r andb_false_l (ci_skip _ _ _ _ Hinv).
  destruct (NewBlock_cinv ev R s L sq data Hinv Hm Hsq Hup Hpart) as (s1 & L1 & -> & H1 & H2). cbn [mbind option_bind].
  destruct (NumUndeliveredBytes_tolerated ev _ _ _ H1 H2 Ht) as (n & Hn & T1 & T2).
  rw Hn. cbn [mbind option_bind]. rw T1. cbn [mbind option_bind]. rw Hn. cbn [mbind option_bind]. rw T2.
  exists true, s1, L1. split; [done|by split].
Qed.

Lemma quiet_cinv R s s' L : quiet s s' → cinv str R s L → maximal s L → cinv str R s' L ∧ maximal s' L.
Proof.
  intros [Hb [Ho1 Ho2]] [] Hm. split; [split; rw ?Hb ?Ho1 ?Ho2; done|by rw /maximal Hb].
Qed.

(** Trimming data that was delivered. *)
Lemma TrimToSeq_cinv ev R s L sq :
  cinv str R s L → maximal s L → (trim_seq (base s) < sq ≤ last_reassem_seq (base s))%Z →
  ∃ n s' L', TrimToSeq (tcp_virtuals cfg ev) sq s = Some (n, s') ∧ cinv str R s' L' ∧ maximal s' L'.
Proof.
  intros Hinv Hm [Hsq1 Hsq2]. pose proof Hinv as [Hrep [[Ht1 Ht2] Hl] Hal Hheld Habove Hbelow Hstr Hsk Hout].
  destruct (TrimToSeq_spec (tcp_virtuals cfg ev) s L sq) as (s1 & s2 & Hu & (Hr2 & [S1 S2] & Hput) & Hrun);
    [intros Hlt; simpl in Hlt; lia|done|unfold in_range; lia|unfold in_range; simpl; lia|].
  rw decide_False in Hu; [|simpl; lia]. subst s1. simpl in S1, S2.
  assert (match blocks (core s2), trim_chunks sq L with
    | Some a, c :: _ => if (c.1 =? last_reassem_seq (core s2))%Z then v_BlockInserted (tcp_virtuals cfg ev) a s2 else Some s2
    | _, _ => Some s2 end = Some s2) as Hb.
  { destruct (blocks (core s2)); [|done]. destruct (trim_chunks sq L) as [|c L'] eqn:Htc; [done|].
    destruct (trim_chunks_head _ _ _ _ Htc) as [Hc Hlt]. simpl. rw S1.
    destruct (Z.eqb_spec c.1 (last_reassem_seq (base s))); [|done].
    destruct Hrep as (l & _ & _ & Ho). destruct (ordered_elem _ _ _ _ Ho Hc) as [_ Hne]. pose proof (len_pos _ Hne).
    destruct (maximal_aligned _ _ _ _ Hinv Hm Hc); unfold chunk_end in *; lia. }
  rw Hb in Hrun. cbn [mbind option_bind] in Hrun. simpl in Hrun.
  rw S2 seq_delta_range in Hrun; [|unfold in_range; lia..].
  destruct (Z.ltb_spec 0 (sq - trim_seq (base s))); [|lia].
  eexists _, _, (trim_chunks sq L). split; [exact Hrun|].
  assert (same_obs s s2) as [O1 O2] by (rw Hput; auto with ofm). destruct Hrep as (l & _ & _ & Ho).
  assert (∀ p, (sq ≤ p)%Z → content (trim_chunks sq L) p = content L p) as Hcont
    by (intros; by apply (trim_chunks_above 0 max_seq)).
  split; [split|]; simpl; rw ?S1 ?O1 ?O2; try done.
  - destruct Hr2 as (l2 & [] & ? & ?). exists l2. by split; [split|].
  - lia.
  - intros c Hc. apply Hal. by eapply trim_chunks_elem.
  - intros p Hp. rw Hcont; [apply Hheld; lia|lia].
  - intros p Hp. rw Hcont; [by apply Habove|lia].
  - intros p x Hx. apply Hstr. by eapply trim_chunks_content.
  - rw /maximal /= S1 Hcont; [done|lia].
Qed.

Lemma AckReceived_cinv ev R s L sq g :
  cinv str R s L → maximal s L → (1 ≤ effective_ack ev sq ≤ last_reassem_seq (base s))%Z →
  ∃ g' s' L', AckReceived cfg ev sq g s = Some (g', s') ∧ cinv str R s' L' ∧ maximal s' L'.
Proof.
  intros Hinv Hm Hsq. pose proof (ci_seqs _ _ _ _ Hinv) as [[Ht1 Ht2] Hl].
  unfold AckReceived. fold (effective_ack ev sq). set (q := effective_ack ev sq) in *.
  rw seq_delta_range; [|unfold in_range; lia..]. destruct (Z.leb_spec (q - trim_seq (base s)) 0); [by exists g, s, L|].
  destruct (TrimToSeq_cinv ev R s L q Hinv Hm) as (n & s1 & L1 & -> & H1 & H2); [lia|]. cbn [mbind option_bind].
  destruct (account cfg ev _ n _ g s1) as [g2 s2] eqn:Hacc.
  exists g2, (CheckEOF ev s2), L1. split; [done|].
  assert (quiet s1 s2) as Hq by (rw (_ : s2 = (g2, s2).2) // -Hacc; apply account_quiet).
  apply (quiet_cinv R s1); [|done|done]. eapply quiet_trans; [exact Hq|apply CheckEOF_quiet].
Qed.

End complete.

(** ** Runs *)

Section runs.
Variable cfg : config.
Hypothesis Hwrite : write_ok cfg = true.

Lemma run_inv sent ops g s L :
  Forall op_ok ops → (∀ o p x, o ∈ ops → carries p x o → sent p x) → inv sent s L →
  ∃ g' s' L', run cfg ops (g, s) = Some (g', s') ∧ inv sent s' L'.
Proof.
  intros Hok. revert g s L. induction Hok as [|o ops Ho Hok IH]; intros g s L Hcar Hinv; simpl; [eauto|].
  assert (∃ g1 s1 L1, step cfg o (g, s) = Some (g1, s1) ∧ inv sent s1 L1) as (g1 & s1 & L1 & -> & H1).
  { destruct o as [ev sq data|ev sq]; simpl.
    - destruct (DataSent_inv cfg Hwrite sent ev sq data s L) as (b & s1 & L1 & -> & H1); [done|apply Ho..| |].
      + intros p x Hx. by apply (Hcar (Sent ev sq data)); [left|].
      + simpl. eauto.
    - by apply (AckReceived_inv cfg Hwrite sent ev sq g s L). }
  cbn [mbind option_bind]. apply (IH _ _ L1); [|done]. intros o' p x Hin. apply Hcar. by right.
Qed.

Lemma new_inv sent tc o r p t b : inv sent (TCP_Reassembler_new tc o r p t b) [].
Proof.
  split; simpl; [|by vm_compute..|done| |by intros ? ? ? ? ? ?%elem_of_nil].
  - exists []. split; [split; [split; [constructor|done]|done|done|done]|done].
  - exists 1%Z. by split_and!.
Qed.

Hypothesis Hcfg :
  (0 ≤ tcp_max_above_hole_without_any_acks cfg)%Z ∧ (0 ≤ tcp_excessive_data_without_further_acks cfg)%Z.

Lemma received_snoc past o p :
  received (past ++ [o]) p ↔ received past p ∨
    match o with Sent _ sq data => (sq ≤ p < sq + len data)%Z | Acked _ _ => False end.
Proof.
  unfold received. split.
  - intros (ev & sq & data & [Hin|<-%list_elem_of_singleton]%elem_of_app & Hp); [left; eauto 6|by right].
  - intros [(ev & sq & data & Hin & Hp)|Hp].
    + exists ev, sq, data. split; [|done]. apply elem_of_app. by left.
    + destruct o as [ev sq data|]; [|done]. exists ev, sq, data. split; [|done]. apply elem_of_app. right. by left.
Qed.

Lemma cinv_ext str (R R' : Z → Prop) s L : (∀ p, R p ↔ R' p) → cinv str R s L → cinv str R' s L.
Proof.
  intros HR []. split; try done.
  - intros p Hp. by rw -HR ci_above0.
  - intros p Hp. rw -HR. auto.
Qed.

Lemma tolerated_ext ev (R R' : Z → Prop) : (∀ p, R p ↔ R' p) → tolerated cfg ev R → tolerated cfg ev R'.
Proof.
  intros HR Ht n p Hn Hb Hno Hp. apply Ht; [done| |by rw HR|by apply HR]. intros q Hq. by apply HR, Hb.
Qed.

(** Nobody waits too long for a stream that fits into the thresholds. *)
Lemma short_patient str past ops :
  lossless str past ops → (∀ p, received past p → (p ≤ len str)%Z) →
  (len str ≤ tcp_max_above_hole_without_any_acks cfg)%Z → (len str ≤ tcp_excessive_data_without_further_acks cfg)%Z →
  patient cfg past ops.
Proof.
  intros Hl Hp H1 H2. revert past Hl Hp. induction ops as [|o ops IH]; intros past Hl Hp; simpl; [done|].
  destruct Hl as [Ho Hl]. assert (∀ p, received (past ++ [o]) p → (p ≤ len str)%Z) as Hp'.
  { intros p [Hr|Hr]%received_snoc; [by apply Hp|]. destruct o as [ev sq data|]; [|done]. destruct Ho as (Hsq & _ & Hpart).
    destruct (byte_of_Some (sq, data) p) as [x Hx]; [exact Hr|].
    apply Hpart, lookup_lt_Some in Hx. unfold len. lia. }
  split; [|by apply IH]. destruct o as [ev sq data|]; [|done].
  intros n p Hn _ _ Hr%Hp'. split; [right; lia|right; right; lia].
Qed.

Lemma run_cinv str past ops g s L :
  lossless str past ops → patient cfg past ops → cinv str (received past) s L → maximal s L →
  ∃ g' s' L', run cfg ops (g, s) = Some (g', s') ∧ cinv str (received (past ++ ops)) s' L' ∧ maximal s' L'.
Proof.
  revert past g s L. induction ops as [|o ops IH]; intros past g s L Hl Hpa Hinv Hm; simpl; [rw app_nil_r; eauto 6|].
  destruct Hl as [Ho Hl], Hpa as [Ht Hpa].
  assert (∃ g1 s1 L1, step cfg o (g, s) = Some (g1, s1) ∧ cinv str (received (past ++ [o])) s1 L1 ∧ maximal s1 L1)
    as (g1 & s1 & L1 & -> & H1 & H2).
  { destruct o as [ev sq data|ev sq]; simpl.
    - destruct Ho as (Hsq & Hup & Hpart).
      destruct (DataSent_cinv cfg Hwrite Hcfg str ev (received past) s L sq data) as (b & s1 & L1 & -> & H1 & H2); [done..| |].
      { eapply tolerated_ext; [|exact Ht]. intros p. by rw received_snoc. }
      exists g, s1, L1. split; [done|]. split; [|done]. eapply cinv_ext; [|done]. intros p. by rw received_snoc.
    - destruct Ho as [Hq Hrec].
      destruct (AckReceived_cinv cfg str ev (received past) s L sq g) as (g1 & s1 & L1 & -> & H1 & H2); [done|done| |].
      + destruct (Z.leb_spec (effective_ack ev sq) (last_reassem_seq (base s))); [lia|]. exfalso.
        pose proof (ci_seqs _ _ _ _ Hinv). apply (ci_above _ _ _ _ Hinv (last_reassem_seq (base s))); [lia| |exact Hm].
        apply Hrec. lia.
      + exists g1, s1, L1. split; [done|]. split; [|done]. eapply cinv_ext; [|done]. intros p. rw received_snoc. tauto. }
  cbn [mbind option_bind]. destruct (IH (past ++ [o]) g1 s1 L1 Hl Hpa H1 H2) as (g' & s' & L' & -> & H3 & H4).
  rw -assoc in H3. eauto 6.
Qed.

Lemma new_cinv str tc o r p t b : cinv str (received []) (TCP_Reassembler_new tc o r p t b) [].
Proof.
  assert (∀ q, ¬ received [] q) as Hno by (intros q (? & ? & ? & ?%elem_of_nil & _); done).
  split; simpl; try done; try lia.
  - exists []. split; [split; [split; [constructor|done]|done|done|done]|done].
  - by intros c ?%elem_of_nil.
  - intros q _. split; [done|]. by intros ?%Hno.
  - by exists [].
Qed.

End runs.

(** ** Single calls *)

Section calls.
Variable cfg : config.
Hypothesis Hwrite : write_ok cfg = true.
Hypothesis Hpatient :
  tcp_max_above_hole_without_any_acks cfg = 0%Z ∧ tcp_excessive_data_without_further_acks cfg = 0%Z.

(** The first data, above a hole. *)
Lemma DataSent_above_hole ev s sq data :
  rep (base s) [] → in_range (last_reassem_seq (base s)) → in_range (trim_seq (base s)) →
  skip_deliveries s = false → (last_reassem_seq (base s) < sq)%Z → (trim_seq (base s) ≤ sq)%Z →
  data ≠ [] → (sq + len data ≤ max_seq)%Z →
  ∃ b s', DataSent cfg ev sq (len data) data true s = Some (b, s') ∧ rep (base s') [(sq, data)] ∧
    same_seqs (base s) (base s') ∧ same_obs s s'.
Proof.
  intros Hrep Hr Ht Hsk Hlt Htr Hne Hup. unfold DataSent. rw andb_false_r andb_false_l Hsk. pose proof (len_pos _ Hne).
  pose proof (NewBlock_spec (tcp_virtuals cfg ev) (same_obs s) (Overlap_reports cfg 2 ev s) s [] sq data
    ltac:(done) Hrep Ht ltac:(unfold in_range in *; lia) Hup) as Hspec.
  rw decide_False in Hspec; [|intros [?|?]; [done|simpl in *; lia]]. simpl in Hspec.
  rw Z.max_l // (_ : Z.to_nat (trim_seq (base s) - sq) = 0) /= in Hspec; [|lia].
  destruct Hspec as (nb & s1 & (l1 & Hwf1 & Hv1 & Ho1 & [i Hi]%list_elem_of_lookup_1 & [Hs1 HQ] & _) & ->).
  assert (match data with [] => [] | _ :: _ => [(sq, data)] end = [(sq, data)]) as Hadd by by destruct data.
  simpl in Hv1, Ho1, Hs1. rw Hadd in Hv1, Ho1.
  destruct Hs1 as [S1 S2]. assert (view (heap (base s1)) l1 !! i = Some (sq, data)) as Hc.
  { pose proof (view_lookup (heap (base s1)) _ _ _ Hi) as Hv. rw Hv1 in Hv |- *. destruct i as [|i]; [done|by destruct i]. }
  destruct (tcp_BlockInserted_spec cfg Hwrite 1 ev nb i s1 l1 (sq, data) Hwf1 ltac:(by rw Hv1) Hi) as (s' & Hrun & Hres);
    [by rw S1|by rw S2|exact Hc|].
  rw decide_False in Hres; [|simpl; rw S1; lia]. subst s'. simpl. simpl in Hrun. rw Hrun. simpl.
  assert (rep (base s1) [(sq, data)]) as Hrep1 by by exists l1.
  destruct (NumUndeliveredBytes_total s1 _ Hrep1) as [n ->]. simpl. destruct Hpatient as [-> ->].
  rw andb_false_r andb_false_l. cbn [mbind option_bind].
  destruct (NumUndeliveredBytes_total s1 _ Hrep1) as [n' ->]. cbn [mbind option_bind].
  exists true, s1. split; [done|]. split; [done|]. split; [by split|by apply HQ].
Qed.

(** An ack of data that was not delivered, when no block starts at the ack. *)
Lemma AckReceived_gap ev q s L g :
  rep (base s) L → in_range (last_reassem_seq (base s)) → in_range (trim_seq (base s)) → in_range (effective_ack ev q) →
  let k := effective_ack ev q in
  (last_reassem_seq (base s) < k)%Z → (trim_seq (base s) < k)%Z → skip_deliveries s = false →
  IsPartial ev = false → (last_reassem_seq (base s) =? 1)%Z && fin_or_rst ev = false → (∀ c, c ∈ L → c.1 ≠ k) →
  ∃ g' s', AckReceived cfg ev q g s = Some (g', s') ∧ rep (base s') (trim_chunks k L) ∧
    last_reassem_seq (base s') = k ∧ trim_seq (base s') = k ∧ skip_deliveries s' = false ∧
    pieces (out s') = pieces (out s) ++ [(last_reassem_seq (base s), k - last_reassem_seq (base s), None)%Z].
Proof.
  intros Hrep Hr Ht Hk k Hlt Htr Hsk Hpart Hfin Hno. pose proof Hrep as (l & Hwf & _ & _).
  unfold AckReceived. fold (effective_ack ev q). fold k. rw seq_delta_range //.
  destruct (Z.leb_spec (k - trim_seq (base s)) 0); [lia|].
  destruct (Undelivered_spec cfg Hwrite ev k s l Hwf Hk Hr Hlt) as (s1 & x & Hu & Hb & Hcase).
  destruct Hcase as [(_ & _ & Hp & _)|(-> & _ & Hsk1 & Hp)]; [congruence|]. rw Hsk in Hsk1. specialize (Hsk1 Hfin).
  destruct (TrimToSeq_spec (tcp_virtuals cfg ev) s L k) as (s1' & s2 & Hu' & (Hr2 & [S1 S2] & Hput) & Hrun);
    [by intros _; exists s1, k|done..|].
  rw decide_True // in Hu'. simpl in Hu'. rw Hu in Hu'. injection Hu' as <-. simpl in S1, S2. rw Hb /= in S1, S2.
  assert (match blocks (core s2), trim_chunks k L with
    | Some a, c :: _ => if (c.1 =? last_reassem_seq (core s2))%Z then v_BlockInserted (tcp_virtuals cfg ev) a s2 else Some s2
    | _, _ => Some s2 end = Some s2) as Hbi.
  { destruct (blocks (core s2)); [|done]. destruct (trim_chunks k L) as [|c L'] eqn:Htc; [done|]. simpl. rw S1.
    destruct (trim_chunks_head _ _ _ _ Htc) as [Hc _]. destruct (Z.eqb_spec c.1 k); [by apply Hno in Hc|done]. }
  rw Hbi in Hrun. cbn [mbind option_bind] in Hrun. rw Hrun. cbn [mbind option_bind].
  assert (same_obs s1 s2) as [O1 O2] by (rw Hput; auto with ofm).
  change (core s2) with (base s2). rw S2 seq_delta_range //. destruct (Z.ltb_spec 0 (k - trim_seq (base s))); [|lia].
  set (s3 := modify (λ r, set_trim_seq r k) s2). destruct (account cfg ev _ _ _ g s3) as [g2 s4] eqn:Hacc.
  assert (quiet s3 s4) as Hq by (rw (_ : s4 = (g2, s4).2) // -Hacc; apply account_quiet).
  destruct (quiet_trans _ _ _ Hq (CheckEOF_quiet ev s4)) as (Q1 & Q2 & Q3).
  exists g2, (CheckEOF ev s4). split; [done|]. rw Q1 Q2 Q3. unfold s3. simpl. rw S1 O1 O2 Hsk1 Hp Hsk1.
  split_and!; try done. destruct Hr2 as (l2 & [] & ? & ?). exists l2. by split; [split|].
Qed.

End calls.

(** The chunks [MatchUndelivered] looks at. *)
Fixpoint below (lrs : Z) (L : list chunk) : list chunk :=
  match L with
  | [] => []
  | c :: L => if decide (chunk_end c ≤ lrs)%Z then c :: below lrs L else []
  end.

Lemma match_loop_exact fuel s l i :
  wf (base s) l → ordered 0 max_seq (view (heap (base s)) l) → in_range (last_reassem_seq (base s)) →
  length l - i < fuel →
  ∃ s', match_loop fuel (l !! i) s = Some s' ∧
    out s' = out s ++ ((λ c, Match c.2) <$> below (last_reassem_seq (base s)) (drop i (view (heap (base s)) l))).
Proof.
  revert i s. induction fuel as [|fuel IH]; intros i s Hwf Ho Hr Hf; [lia|].
  destruct (l !! i) as [a|] eqn:Hi; last first.
  { exists s. split; [done|]. rw drop_ge; [by rw /= app_nil_r|]. unfold view. rw length_fmap. by apply lookup_ge_None. }
  destruct (block_at _ _ _ _ Hwf Ho Hi) as (d & Hd & Hn & R1 & R2 & Hu & Hsz & Hne & Htk & Hdrop).
  unfold match_loop; fold match_loop. rw Hd. cbn [mbind option_bind]. rw Hdrop. simpl below. rw seq_delta_range // -Hu.
  destruct (Z.leb_spec (upper d - last_reassem_seq (base s)) 0).
  - rw decide_True; [|lia]. rw Hn Htk. destruct (IH (S i) (emit (Match (block d)) s)) as (s' & -> & Ho');
      [done|done|done|by eapply lookup_lt_fuel|]. exists s'. split; [done|]. rw Ho' /=. by rw -assoc.
  - rw decide_False; [|lia]. exists s. split; [done|]. by rw /= app_nil_r.
Qed.

Lemma size_loop_spec fuel lrs r l i hole ack :
  wf r l → ordered 0 max_seq (view (heap r) l) → in_range lrs → length l - i ≤ fuel →
  size_loop fuel lrs (heap r) (l !! i) hole ack =
    Some (hole + bytes_held (filter (λ c, lrs < c.1)%Z (drop i (view (heap r) l))),
          ack + bytes_held (filter (λ c, ¬ lrs < c.1)%Z (drop i (view (heap r) l))))%Z.
Proof.
  intros Hwf Ho Hr. revert i hole ack. induction fuel as [|fuel IH]; intros i hole ack Hf;
    (destruct (l !! i) as [a|] eqn:Hi;
      [|rw drop_ge; [by rw /= !Z.add_0_r|unfold view; rw length_fmap; by apply lookup_ge_None]]).
  { apply lookup_lt_Some in Hi. lia. }
  destruct (block_at _ _ _ _ Hwf Ho Hi) as (d & Hd & Hn & R1 & R2 & Hu & Hsz & Hne & Htk & ->).
  simpl. rw Hd. cbn [mbind option_bind]. rw seq_delta_range // Hn !filter_cons. simpl.
  apply lookup_lt_Some in Hi.
  destruct (Z.leb_spec (seq d - lrs) 0); rw IH; [|lia| |lia].
  - rw decide_False; [|lia]. rw decide_True; [|lia]. simpl. do 2 f_equal. lia.
  - rw decide_True; [|lia]. rw decide_False; [|lia]. simpl. do 2 f_equal. lia.
Qed.

Lemma bytes_held_filter (P : chunk → Prop) `{!∀ c, Decision (P c)} L :
  (bytes_held (filter P L) + bytes_held (filter (λ c, ¬ P c) L))%Z = bytes_held L.
Proof.
  induction L as [|c L IH]; [done|]. rw !filter_cons. simpl. destruct (decide (P c)).
  - rw decide_False; [|tauto]. simpl. lia.
  - rw decide_True //. simpl. lia.
Qed.

(** ** Properties *)

(** C19. Whatever data and acks arrive, in any order and overlapping in any way, as
    long as the relative sequence numbers lie in [[0, 2^31)] and writes to a contents
    file succeed, the reassembler runs without an internal error or a stray access; what it hands to the analyzer covers the stream from
    its first byte up to [last_reassem_seq] in order, each position once, as data
    or as a gap (up to the point where deliveries are given up); and every byte it
    hands over was sent at that position. *)
Theorem stream_sound (cfg : config) (Hwrite : write_ok cfg = true) (ops : list op) (Hops : Forall op_ok ops)
    (g0 : GapStats) (contents all_orig all_resp listed : bool) (t : Type_) (orig : bool) :
  ∃ g s m, run cfg ops (g0, TCP_Reassembler_new contents all_orig all_resp listed t orig) = Some (g, s) ∧
    tiles 1 (pieces (out s)) m ∧ (m ≤ last_reassem_seq (base s))%Z ∧
    (skip_deliveries s = false → m = last_reassem_seq (base s)) ∧
    ∀ sq ln d (i : nat) x, (sq, ln, Some d) ∈ pieces (out s) → d !! i = Some x →
      Exists (carries (sq + Z.of_nat i) x) ops.
Proof.
  destruct (run_inv cfg Hwrite (λ p x, Exists (carries p x) ops) ops g0
    (TCP_Reassembler_new contents all_orig all_resp listed t orig) [] Hops) as (g & s & L & Hrun & Hinv).
  - intros o p x Hin Hc. apply Exists_exists. eauto.
  - apply new_inv.
  - destruct (iv_tiles _ _ _ Hinv) as (m & M1 & M2 & M3). exists g, s, m. split_and!; try done. apply Hinv.
Qed.

(** C8. The reassembler implements its specification: when the data is that of one
    stream, in any order and with any overlap, only received data is acknowledged,
    and the data waiting above the first hole never exceeds the thresholds at which
    the reassembler gives up ([patient]: [tcp_max_above_hole_without_any_acks] while
    the peer has acknowledged nothing, [tcp_excessive_data_without_further_acks]
    always; zero is no threshold), then at any time exactly the longest prefix of
    the stream that was received without a hole has been delivered, with no gap.
    Relative sequence numbers lie in [[1, 2^31)] and writes to a contents file
    succeed.  The thresholds may be the shipped ones, 4096 and 10 MB: a stream
    that fits into them satisfies the condition in any order ([short_patient]). *)
Theorem stream_complete (cfg : config) (Hwrite : write_ok cfg = true)
    (Hcfg : (0 ≤ tcp_max_above_hole_without_any_acks cfg)%Z ∧ (0 ≤ tcp_excessive_data_without_further_acks cfg)%Z)
    (str : bytes) (ops : list op) (Hops : lossless str [] ops) (Hpatient : patient cfg [] ops)
    (g0 : GapStats) (contents all_orig all_resp listed : bool) (t : Type_) (orig : bool) :
  ∃ g s ds n, run cfg ops (g0, TCP_Reassembler_new contents all_orig all_resp listed t orig) = Some (g, s) ∧
    (∀ p, (1 ≤ p < n)%Z → received ops p) ∧ ¬ received ops n ∧
    pieces (out s) = data_pieces ds ∧ chain 1 ds n ∧ concat ds.*2 = take (Z.to_nat (n - 1)) str.
Proof.
  destruct (run_cinv cfg Hwrite Hcfg str [] ops g0 (TCP_Reassembler_new contents all_orig all_resp listed t orig) [])
    as (g & s & L & Hrun & Hinv & Hm); [done|done|apply new_cinv|done|].
  destruct (ci_out _ _ _ _ Hinv) as (ds & P1 & P2 & P3). exists g, s, ds, (last_reassem_seq (base s)).
  split; [done|]. split; [apply Hinv|]. split; [|done].
  intros Hr. by apply (ci_above _ _ _ _ Hinv (last_reassem_seq (base s))) in Hr; [|lia].
Qed.

(** A reassembler that is moved to another process arrives unchanged, except
    that the contents file is forgotten. *)
Theorem serialize_roundtrip (s : TCP_Reassembler) :
  unserialize (serialize s) = mkTR (base s) (deliver_tcp_contents s) (had_gap s) (did_EOF s) (skip_deliveries s)
    (in_delivery s) None (type s) (is_orig s) [].
Proof.
  destruct s as [b d h e k i f t o es]. unfold unserialize, serialize. simpl.
  f_equal; destruct d, h, e, k; reflexivity.
Qed.

(** On a connection whose start was not seen, a first ack of 2 moves
    [trim_seq] but not [last_reassem_seq]: the data from 2 on, although it is
    complete, is then held back.  (The thresholds for giving up are switched off,
    which rules them out as the reason.) *)
Theorem partial_first_ack_stalls (cfg : config) (Hwrite : write_ok cfg = true)
    (Hpatient : tcp_max_above_hole_without_any_acks cfg = 0%Z ∧ tcp_excessive_data_without_further_acks cfg = 0%Z)
    (ev ev' : env) (Hpart : IsPartial ev = true) (Hack : effective_ack ev 2 = 2%Z)
    (data : bytes) (Hdata : data ≠ []) (Hup : (2 + len data ≤ max_seq)%Z)
    (g0 : GapStats) (contents all_orig all_resp listed : bool) (t : Type_) (orig : bool) :
  ∃ g s, run cfg [Acked ev 2; Sent ev' 2 data] (g0, TCP_Reassembler_new contents all_orig all_resp listed t orig)
      = Some (g, s) ∧
    pieces (out s) = [] ∧ rep (base s) [(2%Z, data)] ∧ last_reassem_seq (base s) = 1%Z ∧ trim_seq (base s) = 2%Z.
Proof.
  set (s0 := TCP_Reassembler_new contents all_orig all_resp listed t orig). simpl.
  unfold AckReceived. fold (effective_ack ev 2). rw Hack.
  change (trim_seq (base s0)) with 1%Z. change (seq_delta 2 1 <=? 0)%Z with false. cbv iota.
  set (s1 := modify (λ r, set_trim_seq r 2) (modify (λ r, set_last_block r None) s0)).
  assert (TrimToSeq (tcp_virtuals cfg ev) 2 s0 = Some (1%Z, s1)) as ->.
  { unfold TrimToSeq. simpl. unfold Undelivered. rw Hpart. reflexivity. }
  cbn [mbind option_bind]. destruct (account cfg ev _ 1 _ g0 s1) as [g2 s2] eqn:Hacc.
  assert (quiet s1 s2) as Hq by (rw (_ : s2 = (g2, s2).2) // -Hacc; apply account_quiet).
  destruct (quiet_trans _ _ _ Hq (CheckEOF_quiet ev s2)) as (Q1 & Q2 & Q3). cbn [mbind option_bind].
  destruct (DataSent_above_hole cfg Hwrite Hpatient ev' (CheckEOF ev s2) 2 data) as (b & s' & Hrun & Hrep' & [S1 S2] & [_ O2]);
    try (rw ?Q1 ?Q2; unfold in_range; simpl; done).
  { rw Q1. exists []. split; [split; [split; [constructor|done]|done|done|done]|done]. }
  simpl. rw Hrun. simpl. exists g2, s'. split; [done|]. rw O2 Q3 S1 S2 Q1. by split_and!.
Qed.

(** A block across the ack of a hole is lost: the rest of it, although it was
    received, is never delivered, and the next ack reports it as missing.  (The
    thresholds for giving up are switched off, which rules them out as the reason.) *)
Theorem straddling_block_lost (cfg : config) (Hwrite : write_ok cfg = true)
    (Hpatient : tcp_max_above_hole_without_any_acks cfg = 0%Z ∧ tcp_excessive_data_without_further_acks cfg = 0%Z)
    (ev ev1 ev2 : env) (a q : Z) (data : bytes)
    (Hev : IsPartial ev1 = false ∧ IsPartial ev2 = false ∧ fin_or_rst ev1 = false ∧
      effective_ack ev1 q = q ∧ effective_ack ev2 (a + len data) = (a + len data)%Z)
    (Hq : (1 < a < q)%Z ∧ (q < a + len data ≤ max_seq)%Z)
    (g0 : GapStats) (contents all_orig all_resp listed : bool) (t : Type_) (orig : bool) :
  ∃ g s, run cfg [Sent ev a data; Acked ev1 q; Acked ev2 (a + len data)]
      (g0, TCP_Reassembler_new contents all_orig all_resp listed t orig) = Some (g, s) ∧
    pieces (out s) = [(1, q - 1, None); (q, a + len data - q, None)]%Z ∧
    (∀ p, (q ≤ p < a + len data)%Z → received [Sent ev a data] p).
Proof.
  destruct Hev as (Hp1 & Hp2 & Hf1 & He1 & He2).
  set (s0 := TCP_Reassembler_new contents all_orig all_resp listed t orig). set (e := (a + len data)%Z) in *.
  assert (data ≠ []) as Hne by (intros ->; unfold e, len in *; simpl in *; lia).
  destruct (DataSent_above_hole cfg Hwrite Hpatient ev s0 a data) as (b & s1 & Hrun1 & Hrep1 & [S1 S2] & [O1 O2]);
    [|by vm_compute|by vm_compute|done|simpl; lia|simpl; lia|done|unfold e in *; lia|].
  { exists []. split; [split; [split; [constructor|done]|done|done|done]|done]. }
  simpl in S1, S2, O1, O2.
  destruct (AckReceived_gap cfg Hwrite ev1 q s1 [(a, data)] g0) as (g2 & s2 & Hrun2 & Hrep2 & L2 & T2 & K2 & P2);
    rw ?He1 ?S1 ?S2 ?Hf1 ?andb_false_r; try (unfold in_range; done || lia).
  { intros c ->%list_elem_of_singleton. simpl. lia. }
  rw He1 S1 O2 in L2, T2, P2. rw He1 /= decide_False in Hrep2; [|unfold chunk_end; simpl; fold e; lia].
  destruct (AckReceived_gap cfg Hwrite ev2 e s2 [(a, data)] g2) as (g3 & s3 & Hrun3 & _ & _ & _ & _ & P3);
    rw ?He2 ?L2 ?T2; try (unfold in_range; done || lia).
  { intros c ->%list_elem_of_singleton. simpl. lia. }
  exists g3, s3. split; [|split].
  - simpl. rw Hrun1. simpl. rw Hrun2. simpl. by rw Hrun3.
  - rw P3 P2 L2 He2. reflexivity.
  - intros p Hp. exists ev, a, data. split; [by left|]. fold e. lia.
Qed.

(** [MatchUndelivered] feeds the signature engine the blocks that have been
    delivered already, and none of the undelivered ones. *)
Theorem MatchUndelivered_matches_delivered (cfg : config) (Hrules : rule_matcher cfg = true)
    (s : TCP_Reassembler) (L : list chunk) (c : chunk) (up : Z) (Hrep : rep (base s) L)
    (Hup : in_range up) (Hlrs : (0 ≤ last_reassem_seq (base s) < up)%Z)
    (Hlast : last L = Some c ∧ (last_reassem_seq (base s) < chunk_end c)%Z) :
  ∃ s', MatchUndelivered cfg up s = Some s' ∧
    out s' = out s ++ ((λ d, Match d.2) <$> below (last_reassem_seq (base s)) L) ∧
    ∀ d, d ∈ below (last_reassem_seq (base s)) L → (chunk_end d ≤ last_reassem_seq (base s))%Z.
Proof.
  destruct Hrep as (l & Hwf & <- & Ho), Hlast as [Hl Hlt].
  assert (in_range (last_reassem_seq (base s))) as Hr by (unfold in_range in *; lia).
  unfold view in Hl. rw fmap_last in Hl. destruct (last l) as [lb|] eqn:Hlb; [|done]. injection Hl as Hc.
  pose proof Hlb as Hlb'. rw last_lookup in Hlb'.
  destruct (block_at _ _ _ _ Hwf Ho Hlb') as (d & Hd & _ & R1 & R2 & Hu & _).
  assert (upper d = chunk_end c) as Hu' by (rw Hu -Hc; unfold the_block; by rw Hd).
  assert (∃ b, blocks (base s) = Some b) as [b Hb].
  { rw (wf_first _ _ Hwf). destruct l; [done|eauto]. }
  destruct (match_loop_exact (S (size (heap (base s)))) s l 0 Hwf Ho Hr (fuel_enough _ _ 0 Hwf)) as (s' & Hrun & Hout).
  exists s'. split; [|split; [done|]].
  - unfold MatchUndelivered. rw Hb Hrules (wf_last _ _ Hwf) Hlb. cbn [mbind option_bind]. rw Hd. cbn [mbind option_bind].
    destruct (Z.eqb_spec up (-1)); [unfold in_range in Hup; lia|]. rw !seq_delta_range //.
    destruct (Z.leb_spec (up - last_reassem_seq (base s)) 0); [lia|].
    destruct (Z.leb_spec (upper d - last_reassem_seq (base s)) 0); [lia|]. simpl.
    rw (wf_blocks _ _ Hwf) in Hb. by rw -Hrun Hb.
  - clear. induction (view _ l) as [|y L IH]; simpl; [by intros d ?%elem_of_nil|].
    case_decide; [|by intros d ?%elem_of_nil]. by intros d [->|?]%elem_of_cons; [|apply IH].
Qed.

(** The volume above a hole and the volume awaiting an ack add up to the
    volume held. *)
Theorem SizeBufferedData_partition (s : TCP_Reassembler) (L : list chunk)
    (Hrep : rep (base s) L) (Hr : in_range (last_reassem_seq (base s))) :
  ∃ hole ack, SizeBufferedData s = Some (hole, ack) ∧
    hole = bytes_held (filter (λ c, last_reassem_seq (base s) < c.1)%Z L) ∧
    ack = bytes_held (filter (λ c, ¬ last_reassem_seq (base s) < c.1)%Z L) ∧
    TotalSize s = Some (hole + ack)%Z.
Proof.
  destruct Hrep as (l & Hwf & <- & Ho). eexists _, _. split; [|split; [done|split; [done|]]].
  - unfold SizeBufferedData. rw (wf_blocks _ _ Hwf) (size_loop_spec _ _ _ l 0) //.
    pose proof (linked_size _ _ (wf_linked _ _ Hwf)). lia.
  - rw bytes_held_filter. by apply TotalSize_spec; exists l.
Qed.

(** ** Witnesses *)

Definition sample_config : config :=
  mkConfig true true false false true false (double_of_Z 0) 0 0 0 true.
(** The thresholds as they are shipped. *)
Definition shipped_config : config :=
  mkConfig true true false false true false (double_of_Z 0) 0 4096 (10 * 1024 * 1024) true.
Definition sample_env (partial : bool) : env :=
  mkEnv E.endpoint_sample E.endpoint_sample false partial false (double_of_Z 0).
Definition sample_stats : GapStats := mkGapStats 0 0 0 0 (double_of_Z 0) 0 0 0 0.
Definition sample_new : TCP_Reassembler := TCP_Reassembler_new false false false false Direct true.

Definition sample_ops : list op :=
  [Sent (sample_env false) 3 [12; 13]%Z; Sent (sample_env false) 1 [10; 11; 12]%Z; Acked (sample_env false) 4].

Lemma stream_sound_witness :
  ∃ g s m, run sample_config sample_ops (sample_stats, sample_new) = Some (g, s) ∧ tiles 1 (pieces (out s)) m.
Proof.
  destruct (stream_sound sample_config eq_refl sample_ops) with
    (g0 := sample_stats) (contents := false) (all_orig := false) (all_resp := false) (listed := false)
    (t := Direct) (orig := true) as (g & s & m & Hrun & Ht & _).
  - apply Forall_cons; split; [split; by vm_compute|]. apply Forall_cons; split; [split; by vm_compute|].
    apply Forall_cons; split; [split; by vm_compute|done].
  - exists g, s, m. exact (conj Hrun Ht).
Defined.

Lemma sample_lossless : lossless [10; 11; 12; 13]%Z [] sample_ops.
Proof.
  assert (∀ c, (1 ≤ c.1)%Z → take (length c.2) (drop (Z.to_nat (c.1 - 1)) [10; 11; 12; 13]%Z) = c.2 →
    part_of [10; 11; 12; 13]%Z c) as Hpart.
  { intros c Hc Heq p x Hx. pose proof (byte_of_range _ _ _ Hx) as Hr. unfold byte_of in Hx. rw decide_True // in Hx.
    rw -Heq in Hx. unfold chunk_end, len in Hr. rw lookup_take_lt in Hx; [|lia]. rw lookup_drop in Hx.
    rw -Hx. f_equal. lia. }
  split; [split; [by vm_compute|split; [by vm_compute|by apply Hpart]]|].
  split; [split; [by vm_compute|split; [by vm_compute|by apply Hpart]]|].
  split; [split; [by vm_compute|]|done]. intros p Hp.
  exists (sample_env false), 1%Z, [10; 11; 12]%Z. split; [right; by left|].
  change (effective_ack (sample_env false) 4) with 4%Z in Hp. unfold len. simpl. lia.
Qed.

Lemma stream_complete_witness :
  ∃ g s ds n, run shipped_config sample_ops (sample_stats, sample_new) = Some (g, s) ∧
    pieces (out s) = data_pieces ds ∧ concat ds.*2 = take (Z.to_nat (n - 1)) [10; 11; 12; 13]%Z.
Proof.
  destruct (stream_complete shipped_config eq_refl) with (str := [10; 11; 12; 13]%Z) (ops := sample_ops)
    (g0 := sample_stats) (contents := false) (all_orig := false) (all_resp := false) (listed := false)
    (t := Direct) (orig := true) as (g & s & ds & n & Hrun & _ & _ & Hp & _ & Hc).
  - split; by vm_compute.
  - exact sample_lossless.
  - apply (short_patient shipped_config [10; 11; 12; 13]%Z); [exact sample_lossless| |by vm_compute..].
    by intros p (? & ? & ? & ?%elem_of_nil & _).
  - exists g, s, ds, n. exact (conj Hrun (conj Hp Hc)).
Defined.

Lemma partial_first_ack_stalls_witness :
  ∃ g s, run sample_config [Acked (sample_env true) 2; Sent (sample_env true) 2 [7; 8]%Z] (sample_stats, sample_new)
    = Some (g, s) ∧ pieces (out s) = [].
Proof.
  destruct (partial_first_ack_stalls sample_config eq_refl (conj eq_refl eq_refl) (sample_env true) (sample_env true)
    eq_refl eq_refl [7; 8]%Z) with (g0 := sample_stats) (contents := false) (all_orig := false) (all_resp := false)
    (listed := false) (t := Direct) (orig := true) as (g & s & Hrun & Hp & _);
    [done|by vm_compute|exists g, s; exact (conj Hrun Hp)].
Defined.

Lemma straddling_block_lost_witness :
  ∃ g s, run sample_config [Sent (sample_env false) 4 [1; 2; 3; 4]%Z; Acked (sample_env false) 6; Acked (sample_env false) 8]
    (sample_stats, sample_new) = Some (g, s) ∧ pieces (out s) = [(1, 5, None); (6, 2, None)]%Z.
Proof.
  destruct (straddling_block_lost sample_config eq_refl (conj eq_refl eq_refl) (sample_env false) (sample_env false)
    (sample_env false) 4 6 [1; 2; 3; 4]%Z) with (g0 := sample_stats) (contents := false) (all_orig := false)
    (all_resp := false) (listed := false) (t := Direct) (orig := true) as (g & s & Hrun & Hp & _);
    [by vm_compute|split; by vm_compute|exists g, s; exact (conj Hrun Hp)].
Defined.

Definition sample_delivered : TCP_Reassembler := put (set_last_reassem_seq gap_sample 6) sample_new.

Lemma sample_delivered_rep : rep (base sample_delivered) [(4, [10; 11]); (8, [14])]%Z.
Proof. destruct gap_sample_rep as (l & [] & Hv & Ho). exists l. by split; [split|]. Qed.

Lemma MatchUndelivered_matches_delivered_witness :
  ∃ s', MatchUndelivered (mkConfig true true true true true false (double_of_Z 0) 0 0 0 true) 9 sample_delivered
    = Some s' ∧ out s' = [Match [10; 11]%Z].
Proof.
  destruct (MatchUndelivered_matches_delivered (mkConfig true true true true true false (double_of_Z 0) 0 0 0 true)
    eq_refl sample_delivered _ (8, [14])%Z 9 sample_delivered_rep) as (s' & Hrun & Hout & _);
    [by vm_compute|by vm_compute|by split; vm_compute|]. exists s'. split; [exact Hrun|]. rw Hout. reflexivity.
Defined.

Lemma SizeBufferedData_partition_witness : SizeBufferedData sample_delivered = Some (1, 2)%Z.
Proof.
  destruct (SizeBufferedData_partition sample_delivered _ sample_delivered_rep) as (h & a & -> & -> & -> & _);
    [by vm_compute|reflexivity].
Defined.

End TR.
