(* ===== verification/ContentLine.v ===== *)
(** ContentLine: the analyzer that splits a stream into lines, ContentLine.cc.

    It is between the reassembled stream and the parsers of protocols with lines.
    What it forwards, and to whom, is the parameter [Env]: the receiver can call the
    functions of the analyzer meanwhile, so it is a function on both states.  The
    data of a call are its first [len] bytes; lengths stay below 2^30. *)
From S2P Require Import Prelude Flow Endpoint.
From stdpp Require Import strings.

Module CL.

Abbreviation bytes := (list Z) (only parsing).

(** ** State *)

(** The cells of [buf] beyond what was read into them are not written. *)
Record ContentLine := mkContentLine {
  buf : option (list (option Z));
  offset : Z;
  buf_len : Z;
  last_char : Z;
  seq : Z;
  seq_to_skip : Z;
  seq_delivered_in_lines : Z;
  skip_pending : Z;
  plain_delivery_length : Z;
  is_plain : bool;
  skip_deliveries : bool;
  flag_NULs : bool;
  CR_LF_as_EOL : Z;
  skip_partial : bool
}.

Definition set_buf (v : option (list (option Z))) (e : ContentLine) : ContentLine :=
  mkContentLine v (offset e) (buf_len e) (last_char e) (seq e) (seq_to_skip e) 
    (seq_delivered_in_lines e) (skip_pending e) (plain_delivery_length e) (is_plain e) 
    (skip_deliveries e) (flag_NULs e) (CR_LF_as_EOL e) (skip_partial e).
Definition set_offset (v : Z) (e : ContentLine) : ContentLine :=
  mkContentLine (buf e) v (buf_len e) (last_char e) (seq e) (seq_to_skip e) 
    (seq_delivered_in_lines e) (skip_pending e) (plain_delivery_length e) (is_plain e) 
    (skip_deliveries e) (flag_NULs e) (CR_LF_as_EOL e) (skip_partial e).
Definition set_buf_len (v : Z) (e : ContentLine) : ContentLine :=
  mkContentLine (buf e) (offset e) v (last_char e) (seq e) (seq_to_skip e) 
    (seq_delivered_in_lines e) (skip_pending e) (plain_delivery_length e) (is_plain e) 
    (skip_deliveries e) (flag_NULs e) (CR_LF_as_EOL e) (skip_partial e).
Definition set_last_char (v : Z) (e : ContentLine) : ContentLine :=
  mkContentLine (buf e) (offset e) (buf_len e) v (seq e) (seq_to_skip e) 
    (seq_delivered_in_lines e) (skip_pending e) (plain_delivery_length e) (is_plain e) 
    (skip_deliveries e) (flag_NULs e) (CR_LF_as_EOL e) (skip_partial e).
Definition set_seq (v : Z) (e : ContentLine) : ContentLine :=
  mkContentLine (buf e) (offset e) (buf_len e) (last_char e) v (seq_to_skip e) 
    (seq_delivered_in_lines e) (skip_pending e) (plain_delivery_length e) (is_plain e) 
    (skip_deliveries e) (flag_NULs e) (CR_LF_as_EOL e) (skip_partial e).
Definition set_seq_to_skip (v : Z) (e : ContentLine) : ContentLine :=
  mkContentLine (buf e) (offset e) (buf_len e) (last_char e) (seq e) v 
    (seq_delivered_in_lines e) (skip_pending e) (plain_delivery_length e) (is_plain e) 
    (skip_deliveries e) (flag_NULs e) (CR_LF_as_EOL e) (skip_partial e).
Definition set_seq_delivered_in_lines (v : Z) (e : ContentLine) : ContentLine :=
  mkContentLine (buf e) (offset e) (buf_len e) (last_char e) (seq e) (seq_to_skip e) v 
    (skip_pending e) (plain_delivery_length e) (is_plain e) (skip_deliveries e) (flag_NULs e) 
    (CR_LF_as_EOL e) (skip_partial e).
Definition set_skip_pending (v : Z) (e : ContentLine) : ContentLine :=
  mkContentLine (buf e) (offset e) (buf_len e) (last_char e) (seq e) (seq_to_skip e) 
    (seq_delivered_in_lines e) v (plain_delivery_length e) (is_plain e) (skip_deliveries e) 
    (flag_NULs e) (CR_LF_as_EOL e) (skip_partial e).
Definition set_plain_delivery_length (v : Z) (e : ContentLine) : ContentLine :=
  mkContentLine (buf e) (offset e) (buf_len e) (last_char e) (seq e) (seq_to_skip e) 
    (seq_delivered_in_lines e) (skip_pending e) v (is_plain e) (skip_deliveries e) 
    (flag_NULs e) (CR_LF_as_EOL e) (skip_partial e).
Definition set_is_plain (v : bool) (e : ContentLine) : ContentLine :=
  mkContentLine (buf e) (offset e) (buf_len e) (last_char e) (seq e) (seq_to_skip e) 
    (seq_delivered_in_lines e) (skip_pending e) (plain_delivery_length e) v 
    (skip_deliveries e) (flag_NULs e) (CR_LF_as_EOL e) (skip_partial e).
Definition set_skip_deliveries (v : bool) (e : ContentLine) : ContentLine :=
  mkContentLine (buf e) (offset e) (buf_len e) (last_char e) (seq e) (seq_to_skip e) 
    (seq_delivered_in_lines e) (skip_pending e) (plain_delivery_length e) (is_plain e) v 
    (flag_NULs e) (CR_LF_as_EOL e) (skip_partial e).
Definition set_flag_NULs (v : bool) (e : ContentLine) : ContentLine :=
  mkContentLine (buf e) (offset e) (buf_len e) (last_char e) (seq e) (seq_to_skip e) 
    (seq_delivered_in_lines e) (skip_pending e) (plain_delivery_length e) (is_plain e) 
    (skip_deliveries e) v (CR_LF_as_EOL e) (skip_partial e).
Definition set_CR_LF_as_EOL (v : Z) (e : ContentLine) : ContentLine :=
  mkContentLine (buf e) (offset e) (buf_len e) (last_char e) (seq e) (seq_to_skip e) 
    (seq_delivered_in_lines e) (skip_pending e) (plain_delivery_length e) (is_plain e) 
    (skip_deliveries e) (flag_NULs e) v (skip_partial e).
Definition set_skip_partial (v : bool) (e : ContentLine) : ContentLine :=
  mkContentLine (buf e) (offset e) (buf_len e) (last_char e) (seq e) (seq_to_skip e) 
    (seq_delivered_in_lines e) (skip_pending e) (plain_delivery_length e) (is_plain e) 
    (skip_deliveries e) (flag_NULs e) (CR_LF_as_EOL e) v.

(** What the analyzer calls: the next in the chain of analyzers, the flags of the
    connection ([FlagEvent] and, the first time, [Weird]), and what it looks at of the
    connection's TCP analyzer: whether there is a partial one, and for the endpoint
    whether it is partial and has at most two bytes ([None] without an analyzer). *)
Record Env (U : Type) := mkEnv {
  ForwardStream_to : bytes → ContentLine * U → option (ContentLine * U);
  ForwardUndelivered_to : Z → Z → ContentLine * U → option (ContentLine * U);
  flag_weird : string → U → U;
  tcp_partial : U → bool;
  keep_alive : U → option bool
}.
Arguments mkEnv {U}.
Arguments ForwardStream_to {U}.
Arguments ForwardUndelivered_to {U}.
Arguments flag_weird {U}.
Arguments tcp_partial {U}.
Arguments keep_alive {U}.

Definition CR : Z := 13.
Definition LF : Z := 10.
Definition CR_as_EOL : Z := 1.
Definition LF_as_EOL : Z := 2.

Definition int64 : Z → Z := E.int64.

(** ** Buffers *)

Definition InitBuffer (size : Z) (a : ContentLine) : ContentLine :=
  match buf a with
  | Some b =>
    if (size <=? buf_len a)%Z then a
    else
      let size := Z.max size 128 in
      set_buf_len size (set_buf (Some (take (Z.to_nat (offset a)) b ++ replicate (Z.to_nat size - Z.to_nat (offset a)) None)) a)
  | None =>
    let size := Z.max size 128 in
    set_buf_len size (set_buf (Some (arr_alloc (Z.to_nat size))) (set_last_char 0 (set_offset 0 a)))
  end.

Definition ContentLine_new : ContentLine :=
  InitBuffer 0 (mkContentLine None 0 0 0 0 0 0 0 0 false false false (Z.lor CR_as_EOL LF_as_EOL) false).

Definition SetIsNULSensitive : bool → ContentLine → ContentLine := set_flag_NULs.
Definition SetSkipPartial : bool → ContentLine → ContentLine := set_skip_partial.
Definition SetCRLFAsEOL (crlf : Z) : ContentLine → ContentLine := set_CR_LF_as_EOL (Z.land crlf 3).
Definition HasPartialLine (a : ContentLine) : bool := match buf a with Some _ => (0 <? offset a)%Z | None => false end.
Definition SetSkipDeliveries : bool → ContentLine → ContentLine := set_skip_deliveries.

Definition SetPlainDelivery (length : Z) (a : ContentLine) : option ContentLine :=
  if (length <? 0)%Z then None else Some (set_plain_delivery_length length a).

Definition SkipBytes (length : Z) (a : ContentLine) : ContentLine :=
  let a := set_skip_pending 0 a in set_seq_to_skip (int64 (seq_delivered_in_lines a + length)) a.

Definition SkipBytesAfterThisLine (length : Z) (a : ContentLine) : ContentLine :=
  if (last_char a =? CR)%Z then set_skip_pending length a else SkipBytes length a.

Definition IsSkippedContents (sq length : Z) (a : ContentLine) : bool := (int64 (sq + length) <=? seq_to_skip a)%Z.

Definition cr_ends (a : ContentLine) : bool := negb (Z.land (CR_LF_as_EOL a) CR_as_EOL =? 0)%Z.
Definition lf_ends (a : ContentLine) : bool := negb (Z.land (CR_LF_as_EOL a) LF_as_EOL =? 0)%Z.

(** ** Delivery *)

Section delivery.
Context {U : Type} (env : Env U).

Definition St : Type := ContentLine * U.
Definition self (f : ContentLine → ContentLine) : M St () := modify (λ s, (f s.1, s.2)).
Definition ForwardStream (data : bytes) : M St () := update (ForwardStream_to env data).
Definition ForwardUndelivered (sq len : Z) : M St () := update (ForwardUndelivered_to env sq len).
Definition Weird_once (name : string) : M St () := modify (λ s, (s.1, flag_weird env name s.2)).

(** [buf[offset++] = c] *)
Definition store (c : Z) : M St () :=
  update (λ s, b ← buf s.1; if decide (0 ≤ offset s.1)%Z then b ← arr_set b (Z.to_nat (offset s.1)) c;
    Some (set_offset (offset s.1 + 1) (set_buf (Some b) s.1), s.2) else None).

(** [EMIT_LINE], [n] bytes from the start of the data. *)
Definition emit_line (c n : Z) : M St Z :=
  update (λ s, b ← buf s.1; if decide (0 ≤ offset s.1)%Z then b ← arr_set b (Z.to_nat (offset s.1)) 0%Z;
    Some (set_buf (Some b) s.1, s.2) else None);;
  self (λ a, set_last_char c (set_seq_delivered_in_lines (int64 (seq a + n)) a));;
  s ← get;
  line ← lift (b ← buf s.1; mapM id (take (Z.to_nat (offset s.1)) b));
  ForwardStream line;;
  self (set_offset 0);;
  mret n.

Definition CheckNUL : M St () :=
  s ← get;
  match keep_alive env s.2 with
  | Some false => Weird_once "NUL_in_line";; self (set_flag_NULs false)
  | _ => mret ()
  end.

(** One byte that does not end a line. *)
Definition no_end (c : Z) : M St () :=
  l ← gets (λ s, last_char s.1);
  when (l =? CR)%Z (Weird_once "line_terminated_with_single_CR");;
  self (set_last_char c).

(** The loop over the bytes; [n] were looked at. *)
Fixpoint deliver_once (n : Z) (data : bytes) : M St Z :=
  match data with
  | [] => mret n
  | c :: rest =>
    self (λ a, if (buf_len a <=? offset a)%Z then InitBuffer (buf_len a * 2) a else a);;
    s ← get;
    let a := s.1 in
    let go_on (m : M St ()) := m;; no_end c;; deliver_once (n + 1) rest in
    if (c =? CR)%Z then
      match rest with
      | d :: _ =>
        if (d =? LF)%Z then self (set_last_char c);; emit_line d (n + 2)
        else if cr_ends a then emit_line c (n + 1) else go_on (store c)
      | [] => if cr_ends a then emit_line c (n + 1) else go_on (store c)
      end
    else if (c =? LF)%Z then
      if (last_char a =? CR)%Z then self (λ a, set_offset (offset a - 1) a);; emit_line c (n + 1)
      else if lf_ends a then emit_line c (n + 1)
      else go_on (Weird_once "line_terminated_with_single_LF";; store c)
    else if (c =? 0)%Z then go_on (if flag_NULs a then CheckNUL else store c)
    else go_on (store c)
  end.

Definition DoDeliverOnce (data : bytes) : M St Z := deliver_once 0 data.

(** The LF after a CR that ended a line. *)
Definition compress (data : bytes) : M St bytes :=
  a ← gets fst;
  match data with
  | c :: rest =>
    if cr_ends a && (last_char a =? CR)%Z && (c =? LF)%Z then
      self (λ a, set_seq_delivered_in_lines (int64 (seq_delivered_in_lines a + 1)) (set_seq (int64 (seq a + 1)) (set_last_char c a)));;
      mret rest
    else mret data
  | [] => mret data
  end.

(** Data that are not lines. *)
Definition deliver_plain (data : bytes) : M St bytes :=
  a ← gets fst;
  if (0 <? plain_delivery_length a)%Z then
    let d := Z.min (plain_delivery_length a) (Z.of_nat (length data)) in
    self (λ a, set_is_plain true (set_plain_delivery_length (plain_delivery_length a - d) (set_last_char 0 a)));;
    ForwardStream (take (Z.to_nat d) data);;
    self (set_is_plain false);;
    let data := drop (Z.to_nat d) data in
    match data with [] => stop | _ => mret data end
  else mret data.

(** Data that are skipped. *)
Definition skip (data : bytes) : M St bytes :=
  self (λ a, if (0 <? skip_pending a)%Z then SkipBytes (skip_pending a) a else a);;
  a ← gets fst;
  if (seq a <? seq_to_skip a)%Z then
    let n := Z.min (int64 (seq_to_skip a - seq a)) (Z.of_nat (length data)) in
    ForwardUndelivered (int32 (seq a)) n;;
    self (λ a, set_seq_delivered_in_lines (int64 (seq_delivered_in_lines a + n)) (set_seq (int64 (seq a + n)) a));;
    mret (drop (Z.to_nat n) data)
  else mret data.

Fixpoint deliver_loop (fuel : nat) (data : bytes) : M St () :=
  match fuel with
  | O => lift None
  | S fuel =>
    a ← gets fst;
    match data with
    | [] => mret ()
    | _ =>
      if skip_deliveries a then mret ()
      else
        data ← compress data;
        data ← deliver_plain data;
        data ← skip data;
        match data with
        | [] => mret ()
        | _ =>
          n ← DoDeliverOnce data;
          self (λ a, set_seq (int64 (seq a + n)) a);;
          deliver_loop fuel (drop (Z.to_nat n) data)
        end
    end
  end.

Definition DoDeliver (data : bytes) : M St () :=
  self (λ a, set_seq_delivered_in_lines (seq a) a);;
  deliver_loop (S (length data)) data.

(** Enough room for the new data. *)
Definition make_room (len : Z) (a : ContentLine) : ContentLine :=
  match buf a with
  | Some b =>
    if (buf_len a <=? len + offset a)%Z then
      let n := int32 (int32 (int32 (offset a + len) * 3) / 2 + 1) in
      set_buf (Some (b ++ replicate (Z.to_nat n - length b) None)) (set_buf_len n a)
    else a
  | None => a
  end.

Definition DeliverStream (data : bytes) : M St () :=
  s ← get;
  match data with
  | [] => mret ()
  | _ =>
    if skip_deliveries s.1 then mret ()
    else if skip_partial s.1 && tcp_partial env s.2 then mret ()
    else
      let len := Z.of_nat (length data) in
      self (make_room len);;
      call (DoDeliver data);;
      self (λ a, set_seq (int64 (seq a + len)) a)
  end.

Definition Undelivered (sq len : Z) : M St () := ForwardUndelivered sq len.

Definition EndpointEOF : M St () :=
  o ← gets (λ s, offset s.1);
  when (0 <? o)%Z (DeliverStream [LF]).

(** Deliveries one after the other. *)
Fixpoint deliver_all (chunks : list bytes) : M St () :=
  match chunks with [] => mret () | data :: chunks => call (DeliverStream data);; deliver_all chunks end.
End delivery.

(** ** Archives *)

Record Archive := mkArchive {
  ar_buf_len : Z;
  ar_buf : option (list (option Z));
  ar_offset : Z;
  ar_last_char : Z;
  ar_seqs : Z * Z * Z;
  ar_skip_pending : Z;
  ar_plain_delivery_length : Z;
  ar_is_plain : bool;
  ar_skip_deliveries : bool;
  ar_bitfields : Z
}.

(** The whole buffer is archived if there is one. *)
Definition save (a : ContentLine) : option Archive :=
  b ← (if (0 <? buf_len a)%Z then b ← buf a; if decide (Z.of_nat (length b) = buf_len a) then Some (Some b) else None else Some None);
  Some (mkArchive (buf_len a) b (offset a) (last_char a) (seq a, seq_to_skip a, seq_delivered_in_lines a) (skip_pending a)
    (plain_delivery_length a) (is_plain a) (skip_deliveries a)
    (Z.lor (Z.lor (bit_of (flag_NULs a) 0) (Z.shiftl (CR_LF_as_EOL a) 1)) (bit_of (skip_partial a) 3))).

Definition load (ar : Archive) : ContentLine :=
  let '(sq, to_skip, in_lines) := ar_seqs ar in
  mkContentLine (ar_buf ar) (ar_offset ar) (ar_buf_len ar) (ar_last_char ar) sq to_skip in_lines (ar_skip_pending ar)
    (ar_plain_delivery_length ar) (ar_is_plain ar) (ar_skip_deliveries ar) (bit_at (ar_bitfields ar) 0)
    (Z.land (Z.shiftr (ar_bitfields ar) 1) 3) (bit_at (ar_bitfields ar) 3).

(** ** Lines, byte by byte *)

(** What the line so far, [cur], and the last byte become; and the lines that end. *)
Definition step (cr lf : bool) (cur : bytes) (last c : Z) : list bytes * (bytes * Z) :=
  if cr && (last =? CR)%Z && (c =? LF)%Z then ([], (cur, LF))
  else if (c =? CR)%Z then if cr then ([cur], ([], CR)) else ([], (cur ++ [CR], CR))
  else if (c =? LF)%Z then
    if (last =? CR)%Z then ([removelast cur], ([], LF)) else if lf then ([cur], ([], LF)) else ([], (cur ++ [LF], LF))
  else ([], (cur ++ [c], c)).

Fixpoint scan (cr lf : bool) (cur : bytes) (last : Z) (data : bytes) : list bytes * (bytes * Z) :=
  match data with
  | [] => ([], (cur, last))
  | c :: data =>
    let r := step cr lf cur last c in let r' := scan cr lf r.2.1 r.2.2 data in (r.1 ++ r'.1, r'.2)
  end.

Lemma scan_app cr lf cur last l1 l2 :
  scan cr lf cur last (l1 ++ l2) =
  let r := scan cr lf cur last l1 in let r' := scan cr lf r.2.1 r.2.2 l2 in (r.1 ++ r'.1, r'.2).
Proof.
  revert cur last. induction l1 as [|c l1 IH]; intros cur last; [simpl; by destruct (scan cr lf cur last l2)|].
  cbn [app scan]. rw IH. cbn. by rw app_assoc.
Qed.

(** After a CR the line is empty, or ends in it. *)
Definition last_ok (cr : bool) (cur : bytes) (last : Z) : Prop := last = CR → if cr then cur = [] else ∃ l, cur = l ++ [CR].

Lemma step_last_ok cr lf cur last c : last_ok cr cur last → last_ok cr (step cr lf cur last c).2.1 (step cr lf cur last c).2.2.
Proof.
  intros Hok. unfold step, last_ok. destruct (cr && (last =? CR)%Z && (c =? LF)%Z); [done|].
  destruct (Z.eqb_spec c CR) as [->|Hc]; [destruct cr; simpl; eauto|].
  destruct (Z.eqb_spec c LF) as [->|Hc']; [|by intros ?]. destruct (last =? CR)%Z; [done|]. by destruct lf.
Qed.
Lemma scan_last_ok cr lf data : ∀ cur last, last_ok cr cur last → last_ok cr (scan cr lf cur last data).2.1 (scan cr lf cur last data).2.2.
Proof. induction data as [|c data IH]; intros cur last Hok; [done|]. apply IH. by apply step_last_ok. Qed.

(** ** The loops read as byte by byte *)

Section lines.
Context {U : Type} (env : Env U) (out : U → list bytes).

(** A receiver that only keeps the lines. *)
Record passive : Prop := {
  pa_forward : ∀ b a u, ∃ u', ForwardStream_to env b (a, u) = Some (a, u') ∧ out u' = out u ++ [b];
  pa_undelivered : ∀ sq n a u, ∃ u', ForwardUndelivered_to env sq n (a, u) = Some (a, u') ∧ out u' = out u;
  pa_weird : ∀ n u, out (flag_weird env n u) = out u
}.

(** An analyzer that splits lines, with a buffer of [B] bytes, [cur] of them used; [q]
    bounds its position. *)
Record splits (B md q : Z) (cur : bytes) (last : Z) (a : ContentLine) : Prop := {
  sp_room : (0 < B)%Z;
  sp_buf : ∃ b r, buf a = Some b ∧ arr_holds b cur r ∧ Z.of_nat (length b) = B;
  sp_offset : offset a = Z.of_nat (length cur);
  sp_len : buf_len a = B;
  sp_last : last_char a = last;
  sp_md : CR_LF_as_EOL a = md;
  sp_seq : (- 2 ^ 63 ≤ seq_to_skip a ≤ seq a ∧ seq a ≤ q < 2 ^ 63)%Z;
  sp_pending : skip_pending a = 0%Z;
  sp_plain : plain_delivery_length a = 0%Z;
  sp_deliveries : skip_deliveries a = false;
  sp_nuls : flag_NULs a = false;
  sp_partial : skip_partial a = false
}.

Definition crm (md : Z) : bool := negb (Z.land md CR_as_EOL =? 0)%Z.
Definition lfm (md : Z) : bool := negb (Z.land md LF_as_EOL =? 0)%Z.

Lemma splits_last B md q cur last c a : splits B md q cur last a → splits B md q cur c (set_last_char c a).
Proof. intros []. by split. Qed.

Lemma store_splits B md q cur last c a : splits B md q cur last a → (Z.of_nat (length cur) < B)%Z →
  ∃ a', (∀ u : U, store c (a, u) = Some ((a', u), Some ())) ∧ splits B md q (cur ++ [c]) last a' ∧ seq a' = seq a.
Proof.
  intros [HB0 (b & r & Hb & Hh & HB) Ho] Hlen. pose proof (arr_holds_length _ _ _ Hh) as Hr. destruct r as [|x r]; [simpl in *; lia|].
  destruct (arr_set_snoc b cur x r c Hh) as (b' & Hset & Hh').
  eexists. split; [|split].
  - intros u. unfold store, update. simpl. rw Hb. simpl. rw Ho decide_True; [|lia]. by rw Nat2Z.id Hset.
  - split; simpl; try done; [|rw length_app /=; lia]. exists b', r. split; [done|]. split; [done|].
    by rw (arr_set_length _ _ _ _ Hset).
  - done.
Qed.

Lemma mapM_written {A} (l : list A) : mapM id (Some <$> l) = Some l.
Proof. induction l as [|x l IH]; [done|]. simpl. by rw IH. Qed.

Lemma emit_splits B md q cur last c n a (u : U) : passive → splits B md q cur last a → (Z.of_nat (length cur) < B)%Z →
  ∃ a' u', emit_line env c n (a, u) = Some ((a', u'), Some n) ∧ splits B md q [] c a' ∧ out u' = out u ++ [cur] ∧ seq a' = seq a.
Proof.
  intros Hp [HB0 (b & r & Hb & Hh & HB) Ho] Hlen. pose proof (arr_holds_length _ _ _ Hh) as Hr. destruct r as [|x r]; [simpl in *; lia|].
  destruct (arr_set_snoc b cur x r 0%Z Hh) as (b' & Hset & Hh').
  unfold emit_line, update, mbind at 1, M_bind at 1. simpl. rw Hb. simpl. rw Ho decide_True; [|lia]. rw Nat2Z.id Hset. simpl.
  unfold self at 1. rw bind_modify. unfold get, mbind at 1, M_bind at 1. simpl. rw Ho Nat2Z.id.
  assert (mapM id (take (length cur) b') = Some cur) as ->.
  { unfold arr_holds in Hh'. rw Hh' fmap_app -app_assoc take_app_length' ?length_fmap //. apply mapM_written. }
  rw bind_lift. match goal with |- context [(?x, u)] => destruct (pa_forward Hp cur x u) as (u' & Hf & Hu) end.
  unfold ForwardStream, update, mbind at 1, M_bind at 1. rw Hf. eexists _, u'. split; [reflexivity|]. split; [|done].
  split; simpl; try done. exists b', ((Some <$> cur ++ [0%Z]) ++ r). split; [done|]. split; [done|]. by rw (arr_set_length _ _ _ _ Hset).
Qed.
Lemma scanned_length cr lf data : ∀ cur last, length (scan cr lf cur last data).2.1 ≤ length cur + length data.
Proof.
  assert (∀ cur last c, length (step cr lf cur last c).2.1 ≤ length cur + 1) as Hstep.
  { intros cur last c. unfold step. repeat case_match; simpl; rw ?length_app /=; lia. }
  induction data as [|c data IH]; intros cur last; simpl; [lia|]. etransitivity; [apply IH|].
  pose proof (Hstep cur last c). lia.
Qed.

(** What reading some bytes has done. *)
Definition scanned (B md q : Z) (cur : bytes) (last : Z) (data : bytes) (s s' : St (U := U)) : Prop :=
  let r := scan (crm md) (lfm md) cur last data in
  splits B md q r.2.1 r.2.2 s'.1 ∧ out s'.2 = out s.2 ++ r.1 ∧ seq s'.1 = seq s.1.

Lemma scanned_cons B md q cur last c data s s1 s' : step (crm md) (lfm md) cur last c = ([], (cur ++ [c], c)) →
  out s1.2 = out s.2 → seq s1.1 = seq s.1 → scanned B md q (cur ++ [c]) c data s1 s' → scanned B md q cur last (c :: data) s s'.
Proof. intros Hs Ho Hq (H1 & H2 & H3). unfold scanned. cbn [scan]. rw Hs. cbn. split; [done|]. by rw H2 H3 Ho. Qed.

(** A byte that is kept, and then the rest. *)
Lemma go_on_scanned B md q cur last c rest n m a u :
  passive →
  (∃ s1, m (a, u) = Some (s1, Some ()) ∧ splits B md q (cur ++ [c]) last s1.1 ∧ out s1.2 = out u ∧ seq s1.1 = seq a) →
  step (crm md) (lfm md) cur last c = ([], (cur ++ [c], c)) →
  (∀ a1 u1, splits B md q (cur ++ [c]) c a1 → ∃ k s', deliver_once env (n + 1) rest (a1, u1) = Some (s', Some (n + 1 + Z.of_nat k)%Z) ∧
     k ≤ length rest ∧ scanned B md q (cur ++ [c]) c (take k rest) (a1, u1) s') →
  ∃ k s', (m;; no_end env c;; deliver_once env (n + 1) rest) (a, u) = Some (s', Some (n + Z.of_nat k)%Z) ∧
    k ≤ S (length rest) ∧ 0 < k ∧ scanned B md q cur last (take k (c :: rest)) (a, u) s'.
Proof.
  intros Hp ([a1 u1] & Hm & Hs1 & Ho1 & Hq1) Hst IH. unfold mbind at 1, M_bind at 1. rw Hm. cbn [fst snd] in *.
  set (u2 := if (last =? CR)%Z then flag_weird env "line_terminated_with_single_CR" u1 else u1).
  assert (out u2 = out u) as Ho2 by (unfold u2; destruct (last =? CR)%Z; [by rw (pa_weird Hp)|done]).
  assert (no_end env c (a1, u1) = Some ((set_last_char c a1, u2), Some ())) as Hn.
  { unfold no_end. rw bind_gets. cbn [fst]. rw (sp_last _ _ _ _ _ _ Hs1). unfold u2. by destruct (last =? CR)%Z. }
  unfold mbind, M_bind. rw Hn. destruct (IH (set_last_char c a1) u2) as (k & s' & Hr & Hk & Hsc); [by eapply splits_last|].
  exists (S k), s'. rw Hr Nat2Z.inj_succ. split; [by replace (n + Z.succ (Z.of_nat k))%Z with (n + 1 + Z.of_nat k)%Z by lia|]. split; [lia|]. split; [lia|]. cbn [take].
  by apply (scanned_cons B md q cur last c _ (a, u) (set_last_char c a1, u2)).
Qed.

(** A byte that ends a line. *)
Lemma emit_scanned B md q cur last c rest n line last' a0 a u :
  passive → splits B md q line last' a0 → (Z.of_nat (length line) < B)%Z → seq a0 = seq a →
  step (crm md) (lfm md) cur last c = ([line], ([], c)) →
  ∃ k s', emit_line env c (n + 1) (a0, u) = Some (s', Some (n + Z.of_nat k)%Z) ∧ k ≤ S (length rest) ∧ 0 < k ∧
    scanned B md q cur last (take k (c :: rest)) (a, u) s'.
Proof.
  intros Hp Hs Hl Hq Hst. destruct (emit_splits B md q line last' c (n + 1)%Z a0 u Hp Hs Hl) as (a' & u' & Hr & Hs' & Ho & Hq').
  exists 1, (a', u'). split; [done|]. split; [lia|]. split; [lia|]. unfold scanned. cbn [take scan]. rw Hst. cbn. split; [done|].
  split; [done|]. by rw Hq' Hq.
Qed.

(** Both bytes of the end of a line. *)
Lemma emit_both_scanned B md q cur last rest n a u :
  passive → splits B md q cur last a → (Z.of_nat (length cur) < B)%Z → (crm md = true → last = CR → cur = []) →
  ∃ k s', emit_line env LF (n + 2) (set_last_char CR a, u) = Some (s', Some (n + Z.of_nat k)%Z) ∧ k ≤ S (S (length rest)) ∧ 0 < k ∧
    scanned B md q cur last (take k (CR :: LF :: rest)) (a, u) s'.
Proof.
  intros Hp Hs Hl Hcr. destruct (emit_splits B md q cur CR LF (n + 2)%Z (set_last_char CR a) u Hp (splits_last _ _ _ _ _ _ _ Hs) Hl)
    as (a' & u' & Hr & Hs' & Ho & Hq').
  exists 2, (a', u'). split; [done|]. split; [lia|]. split; [lia|]. unfold scanned. cbn [take scan]. unfold step.
  change (CR =? LF)%Z with false. change (LF =? LF)%Z with true. change (LF =? CR)%Z with false. change (CR =? CR)%Z with true.
  rw !andb_false_r. destruct (crm md); cbn; [by rw Ho Hq'|]. rw removelast_last. by rw Ho Hq'.
Qed.

(** [m] looks at some of [data], at one byte at least. *)
Definition reads (B md q : Z) (cur : bytes) (last : Z) (data : bytes) (n : Z) (a : ContentLine) (u : U) (m : M St Z) : Prop :=
  ∃ k s', m (a, u) = Some (s', Some (n + Z.of_nat k)%Z) ∧ k ≤ length data ∧ (data ≠ [] → 0 < k) ∧
    scanned B md q cur last (take k data) (a, u) s'.

Lemma reads_some B md q cur last c rest n a u m :
  (∃ k s', m (a, u) = Some (s', Some (n + Z.of_nat k)%Z) ∧ k ≤ S (length rest) ∧ 0 < k ∧ scanned B md q cur last (take k (c :: rest)) (a, u) s') →
  reads B md q cur last (c :: rest) n a u m.
Proof. intros (k & s' & ? & ? & ? & ?). by exists k, s'. Qed.

(** What [deliver_once] does with [data], from any state between two bytes. *)
Definition all_read (B md q : Z) (data : bytes) : Prop := ∀ n cur last a u,
  splits B md q cur last a → last_ok (crm md) cur last → (Z.of_nat (length cur + length data) < B)%Z →
  (crm md = true → last = CR → head data ≠ Some LF) → reads B md q cur last data n a u (deliver_once env n data).

Section byte.
Context (B md q : Z) (cur : bytes) (last : Z) (rest : bytes) (n : Z) (a : ContentLine) (u : U).
Context (Hp : passive) (IH : all_read B md q rest) (Hs : splits B md q cur last a) (Hok : last_ok (crm md) cur last).
Context (Hlen : (Z.of_nat (length cur + S (length rest)) < B)%Z).

Definition go_on (c : Z) (m : M St ()) : M St Z := m;; no_end env c;; deliver_once env (n + 1) rest.

(** A byte that is kept, with or without a complaint. *)
Lemma kept_reads c m : m = store c ∨ m = (Weird_once env "line_terminated_with_single_LF";; store c) →
  step (crm md) (lfm md) cur last c = ([], (cur ++ [c], c)) → reads B md q cur last (c :: rest) n a u (go_on c m).
Proof.
  intros Hm Hstep. destruct (store_splits B md q cur last c a Hs) as (a1 & Hst & Hs1 & Hq1); [lia|].
  apply reads_some, go_on_scanned; [done| |done|].
  - destruct Hm as [->| ->]; [rw Hst|unfold Weird_once; rw bind_modify /= Hst]; eexists; (split; [reflexivity|]); split; [done|  |done|]; split; try done.
    apply (pa_weird Hp).
  - intros a2 u2 Hs2. destruct (IH (n + 1)%Z (cur ++ [c]) c a2 u2 Hs2) as (k & s' & Hr & Hk & _ & Hsc); [| | |by exists k, s'].
    + pose proof (step_last_ok (crm md) (lfm md) cur last c Hok) as Hok'. by rw Hstep in Hok'.
    + rw length_app /=. lia.
    + intros Hcr ->. unfold step in Hstep. rw Hcr in Hstep. by rw andb_false_r in Hstep.
Qed.

(** A CR without a LF after it. *)
Lemma CR_reads : reads B md q cur last (CR :: rest) n a u (if crm md then emit_line env CR (n + 1) else go_on CR (store CR)).
Proof.
  assert (step (crm md) (lfm md) cur last CR = if crm md then ([cur], ([], CR)) else ([], (cur ++ [CR], CR))) as Hstep
    by (unfold step; by rw andb_false_r).
  pose proof (kept_reads CR (store CR)) as Hk. destruct (crm md) eqn:Hcrm; [|apply Hk; [by left|by rw ?Hcrm]].
  apply reads_some, (emit_scanned B md q cur last CR rest n cur last a a u); try done; [lia|]. by rw Hcrm.
Qed.

(** A LF; after a CR that was kept, both are the end of the line. *)
Lemma LF_reads : (crm md = true → last = CR → False) →
  reads B md q cur last (LF :: rest) n a u
    (if (last =? CR)%Z then self (λ a, set_offset (offset a - 1) a);; emit_line env LF (n + 1)
     else if lfm md then emit_line env LF (n + 1) else go_on LF (Weird_once env "line_terminated_with_single_LF";; store LF)).
Proof.
  intros Hlf. pose proof (kept_reads LF (Weird_once env "line_terminated_with_single_LF";; store LF)) as Hk.
  destruct (Z.eqb_spec last CR) as [Hlast|Hlast].
  - destruct (crm md) eqn:Hcrm; [by destruct (Hlf eq_refl Hlast)|]. destruct (Hok Hlast) as [l Hcur].
    pose proof (sp_offset _ _ _ _ _ _ Hs) as Ho. pose proof Hlen as Hlen'. rw Hcur length_app /= in Hlen' Ho. apply reads_some.
    unfold self at 1. rw bind_modify. cbn [fst snd].
    apply (emit_scanned B md q cur last LF rest n l last (set_offset (offset a - 1) a) a u); try done; [|lia|].
    + destruct Hs as [HB0 (b & r & Hb & Hh & HB)]. split; simpl; try done; [|lia].
      exists b, ([Some CR] ++ r). split; [done|]. split; [|done]. rw Hcur in Hh. by apply arr_holds_app in Hh.
    + unfold step. rw Hcrm Hcur Hlast. cbn. by rw removelast_last.
  - destruct (lfm md) eqn:Hlfm; [apply reads_some, (emit_scanned B md q cur last LF rest n cur last a a u); try done; [lia|]|apply Hk; [by right|]];
      unfold step; rw (proj2 (Z.eqb_neq last CR) Hlast) ?Hlfm andb_false_r; by destruct (crm md).
Qed.
End byte.

Lemma deliver_once_scanned B md q data : passive → all_read B md q data.
Proof.
  intros Hp. induction data as [|c rest IH]; intros n cur last a u Hs Hok Hlen Hlf.
  { exists 0, (a, u). split; [by rw /= Z.add_0_r|]. split; [done|]. split; [done|]. split; [done|]. by rw app_nil_r. }
  cbn [length] in Hlen. pose proof (sp_offset _ _ _ _ _ _ Hs) as Ho. pose proof (sp_len _ _ _ _ _ _ Hs) as Hl.
  pose proof (sp_last _ _ _ _ _ _ Hs) as Hla. pose proof (sp_md _ _ _ _ _ _ Hs) as Hmd.
  unfold reads. cbn [deliver_once]. unfold self at 1. rw bind_modify. cbn [fst snd]. rw (proj2 (Z.leb_gt (buf_len a) (offset a))); [|lia].
  unfold get at 1. unfold mbind at 1, M_bind at 1. cbn [fst]. cbv zeta.
  assert (cr_ends a = crm md) as -> by (unfold cr_ends, crm; by rw Hmd).
  assert (lf_ends a = lfm md) as -> by (unfold lf_ends, lfm; by rw Hmd). rw Hla (sp_nuls _ _ _ _ _ _ Hs).
  destruct (Z.eqb_spec c CR) as [->|Hc].
  { pose proof (CR_reads B md q cur last rest n a u Hp IH Hs Hok Hlen) as Hcr.
    destruct rest as [|d rest]; [exact Hcr|]. destruct (Z.eqb_spec d LF) as [->|Hd]; [|exact Hcr].
    apply reads_some. rw bind_modify. cbn [fst snd length]. apply (emit_both_scanned B md q cur last rest n a u Hp Hs); [lia|].
    intros Hcrm Hlast. specialize (Hok Hlast). by rw Hcrm in Hok. }
  destruct (Z.eqb_spec c LF) as [->|Hc'].
  { apply (LF_reads B md q cur last rest n a u Hp IH Hs Hok Hlen). intros Hcrm Hlast. by apply (Hlf Hcrm Hlast). }
  assert (step (crm md) (lfm md) cur last c = ([], (cur ++ [c], c))) as Hstep.
  { unfold step. by rw (proj2 (Z.eqb_neq c CR) Hc) (proj2 (Z.eqb_neq c LF) Hc') andb_false_r. }
  destruct (c =? 0)%Z; (apply (kept_reads B md q cur last rest n a u Hp IH Hs Hok Hlen); [by left|done]).
Qed.

Lemma splits_seq B md q cur last sq a : splits B md q cur last a → (seq_to_skip a ≤ sq ≤ q)%Z → splits B md q cur last (set_seq sq a).
Proof. intros [] Hsq. split; simpl; try done. lia. Qed.
Lemma splits_in_lines B md q cur last v a : splits B md q cur last a → splits B md q cur last (set_seq_delivered_in_lines v a).
Proof. intros []. by split. Qed.

Lemma int64_small x : (- 2 ^ 63 ≤ x < 2 ^ 63)%Z → int64 x = x.
Proof. intros Hx. unfold int64, E.int64. apply wrap_s_small; lia. Qed.

(** All the data of a call. *)
Definition read_all (B md q : Z) (cur : bytes) (last : Z) (data : bytes) (n : Z) (s s' : St (U := U)) : Prop :=
  let r := scan (crm md) (lfm md) cur last data in
  splits B md q r.2.1 r.2.2 s'.1 ∧ out s'.2 = out s.2 ++ r.1 ∧ seq s'.1 = (seq s.1 + n)%Z.

(** Nothing is plain or skipped. *)
Lemma nothing_else B md q cur last data a u : splits B md q cur last a →
  deliver_plain env data (a, u) = Some ((a, u), Some data) ∧ skip env data (a, u) = Some ((a, u), Some data).
Proof.
  intros Hs. unfold deliver_plain, skip, self. rw bind_modify !bind_gets. cbn [fst snd].
  rw (sp_plain _ _ _ _ _ _ Hs) (sp_pending _ _ _ _ _ _ Hs). cbn [Z.ltb Z.compare fst snd].
  rw (proj2 (Z.ltb_ge (seq a) (seq_to_skip a))); [done|]. apply (sp_seq _ _ _ _ _ _ Hs).
Qed.

Lemma compress_scanned B md q cur last c rest a u :
  splits B md q cur last a → last_ok (crm md) cur last → (seq a + 1 ≤ q)%Z →
  ∃ a1 cur1 last1 k, compress (U := U) (c :: rest) (a, u) = Some ((a1, u), Some (drop k (c :: rest))) ∧ k ≤ 1 ∧
    splits B md q cur1 last1 a1 ∧ last_ok (crm md) cur1 last1 ∧ seq a1 = (seq a + Z.of_nat k)%Z ∧ length cur1 = length cur ∧
    (crm md = true → last1 = CR → head (drop k (c :: rest)) ≠ Some LF) ∧
    scan (crm md) (lfm md) cur last (take k (c :: rest)) = ([], (cur1, last1)).
Proof.
  intros Hs Hok Hq. unfold compress. rw bind_gets. cbn [fst]. rw (sp_last _ _ _ _ _ _ Hs).
  assert (cr_ends a = crm md) as -> by (unfold cr_ends, crm; by rw (sp_md _ _ _ _ _ _ Hs)).
  destruct (crm md && (last =? CR)%Z && (c =? LF)%Z) eqn:Hc.
  - pose proof Hc as [_ ->%Z.eqb_eq]%andb_true_iff. unfold self. rw bind_modify. cbn [fst snd]. pose proof (sp_seq _ _ _ _ _ _ Hs) as Hsq.
    eexists _, cur, LF, 1. split; [reflexivity|]. split; [lia|]. cbn [set_last_char seq].
    split; [apply splits_in_lines, splits_seq; [by eapply splits_last|simpl; rw int64_small; lia]|]. split; [done|].
    split; [simpl; rw int64_small; lia|]. split; [done|]. split; [done|]. cbn [take scan]. unfold step. by rw Hc.
  - exists a, cur, last, 0. split; [done|]. split; [lia|]. split; [done|]. split; [done|].
    split; [lia|]. split; [done|]. split; [|done]. intros Hcr -> [= ->]. by rw Hcr in Hc.
Qed.

Lemma deliver_loop_read B md q : passive → ∀ fuel data cur last a u,
  splits B md q cur last a → last_ok (crm md) cur last → (Z.of_nat (length cur + length data) < B)%Z →
  (seq a + Z.of_nat (length data) ≤ q)%Z → length data < fuel →
  ∃ s', deliver_loop env fuel data (a, u) = Some (s', Some ()) ∧ read_all B md q cur last data (Z.of_nat (length data)) (a, u) s'.
Proof.
  intros Hp. induction fuel as [|fuel IH]; [lia|]. intros data cur last a u Hs Hok Hlen Hq Hfuel. cbn [deliver_loop]. rw bind_gets.
  destruct data as [|c rest]; [exists (a, u); split; [done|]; split; [done|]; cbn; by rw app_nil_r Z.add_0_r|].
  cbn [fst]. rw (sp_deliveries _ _ _ _ _ _ Hs).
  destruct (compress_scanned B md q cur last c rest a u Hs Hok) as (a1 & cur1 & last1 & k & Hr & Hk & Hs1 & Hok1 & Hq1 & Hl1 & Hlf & Hsc);
    [cbn [length] in Hq; lia|].
  unfold mbind at 1, M_bind at 1. rw Hr. destruct (nothing_else B md q cur1 last1 (drop k (c :: rest)) a1 u Hs1) as [Hpl Hsk].
  unfold mbind at 1, M_bind at 1. rw Hpl. unfold mbind at 1, M_bind at 1. rw Hsk.
  set (data := c :: rest) in *.
  assert (scan (crm md) (lfm md) cur last data = scan (crm md) (lfm md) cur1 last1 (drop k data)) as Hscan.
  { rw -{1}(take_drop k data) scan_app Hsc. cbn. by destruct (scan _ _ cur1 last1 _). }
  assert (1 ≤ length data) as H1 by (unfold data; simpl; lia). assert (length (take k data) = k) as Hkl by (rw length_take_le //; unfold data; simpl; lia).
  pose proof (sp_seq _ _ _ _ _ _ Hs) as Hsq. pose proof (sp_seq _ _ _ _ _ _ Hs1) as Hsq1.
  assert (length (drop k data) = length data - k) as Hdl by apply length_drop. unfold read_all. rw Hscan.
  destruct (drop k data) as [|d rest'] eqn:Hd.
  { exists (a1, u). split; [done|]. cbn. rw app_nil_r. split; [done|]. split; [done|]. rw Hq1. simpl in Hdl. lia. }
  rw -Hd in Hlf Hdl Hscan. rw -Hd. assert (drop k data ≠ []) as Hne by (by rw Hd). clear Hd.
  destruct (deliver_once_scanned B md q (drop k data) Hp 0%Z cur1 last1 a1 u Hs1 Hok1) as (n & [a2 u2] & Hr2 & Hn & H0 & Hs2 & Ho2 & Hq2); [lia|done|].
  specialize (H0 Hne). unfold DoDeliverOnce, mbind at 1, M_bind at 1. rw Hr2 Z.add_0_l. unfold self at 1. rw bind_modify. cbn [fst snd] in *.
  set (data1 := drop k data) in *. set (r := scan (crm md) (lfm md) cur1 last1 (take n data1)) in *.
  assert (length (take n data1) = n) as Hnl by (by rw length_take_le).
  pose proof (scanned_length (crm md) (lfm md) (take n data1) cur1 last1) as Hrl. pose proof (sp_seq _ _ _ _ _ _ Hs2) as Hsq2.
  assert (int64 (seq a2 + Z.of_nat n) = seq a2 + Z.of_nat n)%Z as Hi by (apply int64_small; lia).
  destruct (IH (drop n data1) r.2.1 r.2.2 (set_seq (int64 (seq a2 + Z.of_nat n)) a2) u2) as (s' & Hr3 & Hs3 & Ho3 & Hq3).
  - apply splits_seq; [done|]. rw Hi. lia.
  - by apply scan_last_ok.
  - rw length_drop. fold r in Hrl. lia.
  - simpl. rw Hi length_drop. lia.
  - rw length_drop. lia.
  - exists s'. rw Nat2Z.id. split; [done|]. rw -(take_drop n data1) scan_app. fold r. cbn. split; [done|]. split.
    + by rw Ho3 /= Ho2 app_assoc.
    + rw Hq3 /= Hi Hq2 Hq1 length_drop. change (S (length rest)) with (length data). lia.
Qed.

Lemma make_room_splits B md q cur last len a : splits B md q cur last a → (0 ≤ len)%Z → (3 * (Z.of_nat (length cur) + len) < 2 ^ 31)%Z →
  ∃ B', splits B' md q cur last (make_room len a) ∧ (Z.of_nat (length cur) + len < B')%Z ∧ seq (make_room len a) = seq a ∧
    ∀ t, make_room len (set_seq_to_skip t a) = set_seq_to_skip t (make_room len a).
Proof.
  intros Hs H0 Hlen. pose proof Hs as [HB0 (b & r & Hb & Hh & HB) Ho Hl]. unfold make_room. rw Hb. cbn [set_seq_to_skip buf buf_len offset]. rw Hb.
  destruct (Z.leb_spec (buf_len a) (len + offset a)) as [Hle|Hgt]; [|exists B; split; [done|]; split; [lia|done]].
  rw Ho. assert (int32 (int32 (int32 (Z.of_nat (length cur) + len) * 3) / 2 + 1) = (Z.of_nat (length cur) + len) * 3 / 2 + 1)%Z as ->
    by (rw (int32_small (Z.of_nat (length cur) + len)); [|lia]; rw (int32_small (_ * 3)); [|lia]; apply int32_small; Z.div_mod_to_equations; lia).
  set (n := ((Z.of_nat (length cur) + len) * 3 / 2 + 1)%Z).
  assert (Z.of_nat (length cur) + len < n)%Z as Hn by (unfold n; Z.div_mod_to_equations; lia).
  exists n. split; [|split; [lia|done]]. destruct Hs. split; simpl; try done; [lia|]. eexists _, (r ++ replicate (Z.to_nat n - length b) None).
  split; [reflexivity|]. unfold arr_holds in *. split; [by rw {1}Hh -app_assoc|]. rw length_app length_replicate. lia.
Qed.

Lemma DeliverStream_read B md q data cur last a u :
  passive → splits B md q cur last a → last_ok (crm md) cur last → (3 * Z.of_nat (length cur + length data) < 2 ^ 31)%Z →
  (seq a + 2 * Z.of_nat (length data) ≤ q)%Z →
  ∃ B' s', DeliverStream env data (a, u) = Some (s', Some ()) ∧ read_all B' md q cur last data (2 * Z.of_nat (length data)) (a, u) s'.
Proof.
  intros Hp Hs Hok Hlen Hq. unfold DeliverStream. unfold get at 1. unfold mbind at 1, M_bind at 1.
  destruct data as [|c rest]; [exists B, (a, u); split; [done|]; split; [done|]; cbn; by rw app_nil_r Z.add_0_r|].
  set (data := c :: rest) in *. cbn [fst snd]. rw (sp_deliveries _ _ _ _ _ _ Hs) (sp_partial _ _ _ _ _ _ Hs). cbn [andb]. cbv zeta.
  destruct (make_room_splits B md q cur last (Z.of_nat (length data)) a Hs) as (B' & Hs1 & Hlt & Hq1 & _); [lia|lia|].
  unfold self at 1. rw bind_modify. cbn [fst snd]. set (a1 := make_room (Z.of_nat (length data)) a) in *.
  destruct (deliver_loop_read B' md q Hp (S (length data)) data cur last (set_seq_delivered_in_lines (seq a1) a1) u)
    as ([a2 u2] & Hr & Hs2 & Ho2 & Hq2); [by apply splits_in_lines|done|lia|cbn [set_seq_delivered_in_lines seq]; lia|lia|].
  pose proof (sp_seq _ _ _ _ _ _ Hs) as Hsq. pose proof (sp_seq _ _ _ _ _ _ Hs2) as Hsq2. cbn [fst snd set_seq_delivered_in_lines seq] in *.
  eexists B', _. split.
  { unfold mbind at 1, M_bind at 1. unfold call, DoDeliver. unfold self at 1. rw bind_modify. cbn [fst snd]. rw Hr. reflexivity. }
  assert (int64 (seq a2 + Z.of_nat (length data)) = seq a + 2 * Z.of_nat (length data))%Z as Hi
    by (rw int64_small; rw Hq2 Hq1; lia).
  unfold read_all. cbn [fst snd]. rw Hi. split; [apply splits_seq; [done|lia]|]. by split.
Qed.

Lemma deliver_all_read md q chunks : passive → ∀ B cur last a u,
  splits B md q cur last a → last_ok (crm md) cur last → (3 * Z.of_nat (length cur + length (concat chunks)) < 2 ^ 31)%Z →
  (seq a + 2 * Z.of_nat (length (concat chunks)) ≤ q)%Z →
  ∃ B' s', deliver_all env chunks (a, u) = Some (s', Some ()) ∧
    read_all B' md q cur last (concat chunks) (2 * Z.of_nat (length (concat chunks))) (a, u) s'.
Proof.
  intros Hp. induction chunks as [|data chunks IH]; intros B cur last a u Hs Hok Hlen Hq.
  { exists B, (a, u). split; [done|]. split; [done|]. cbn. by rw app_nil_r Z.add_0_r. }
  cbn [concat] in *. rw length_app in Hlen Hq. rw length_app. cbn [deliver_all].
  destruct (DeliverStream_read B md q data cur last a u Hp Hs Hok) as (B1 & [a1 u1] & Hr1 & Hs1 & Ho1 & Hq1); [lia|lia|].
  cbn [fst snd] in *. set (r := scan (crm md) (lfm md) cur last data) in *.
  pose proof (scanned_length (crm md) (lfm md) data cur last) as Hrl. fold r in Hrl.
  destruct (IH B1 r.2.1 r.2.2 a1 u1 Hs1) as (B2 & s2 & Hr2 & Hs2 & Ho2 & Hq2); [by apply scan_last_ok|lia|lia|].
  exists B2, s2. split; [unfold call, mbind, M_bind; rw Hr1; exact Hr2|].
  unfold read_all. rw scan_app. fold r. cbn. split; [done|]. split; [by rw Ho2 /= Ho1 app_assoc|]. rw Hq2 /= Hq1. lia.
Qed.

(** A new analyzer splits lines. *)
Lemma new_splits md : (0 ≤ md < 4)%Z → splits 128 md (2 ^ 62) [] 0 (SetCRLFAsEOL md ContentLine_new).
Proof.
  intros Hmd. split; simpl; try done. - by exists (replicate 128 None), (replicate 128 None).
  - change 3%Z with (Z.ones 2). rw Z.land_ones // Z.mod_small //.
Qed.

(** ** Lines and their ends *)

Inductive eol := CR_end | LF_end | CRLF_end.
Definition ending (e : eol) : bytes := match e with CR_end => [CR] | LF_end => [LF] | CRLF_end => [CR; LF] end.
Definition ended (l : bytes * eol) : bytes := l.1 ++ ending l.2.

Definition plain_line (l : bytes) : Prop := Forall (λ c, c ≠ CR ∧ c ≠ LF) l.

(** An empty line that ends in LF, after one that ends in CR, is not seen. *)
Fixpoint separate (after_cr : bool) (ls : list (bytes * eol)) : Prop :=
  match ls with
  | [] => True
  | (l, e) :: ls => (after_cr = true → l = [] → e ≠ LF_end) ∧ separate (match e with CR_end => true | _ => false end) ls
  end.

Lemma last_cons_default (l : bytes) : ∀ c d, List.last (c :: l) d = List.last l c.
Proof. induction l as [|x l IH]; intros c d; [done|]. change (List.last (x :: l) d = List.last (x :: l) c). by rw !IH. Qed.

Lemma scan_plain cr lf l : ∀ cur last rest, plain_line l →
  scan cr lf cur last (l ++ rest) = scan cr lf (cur ++ l) (List.last l last) rest.
Proof.
  induction l as [|c l IH]; intros cur last rest Hl; [by rw app_nil_r|]. apply Forall_cons in Hl as [[Hc Hc'] Hl]. cbn [app scan].
  assert (step cr lf cur last c = ([], (cur ++ [c], c))) as ->
    by (unfold step; by rw (proj2 (Z.eqb_neq c CR) Hc) (proj2 (Z.eqb_neq c LF) Hc') andb_false_r).
  cbn [fst snd]. rw last_cons_default (IH (cur ++ [c]) c rest Hl) -app_assoc. by destruct (scan _ _ _ _ rest).
Qed.

Lemma scan_ended ls : ∀ last, (∀ l, l ∈ ls → plain_line l.1) → separate (last =? CR)%Z ls →
  (scan true true [] last (concat (ended <$> ls))).1 = ls.*1 ∧ (scan true true [] last (concat (ended <$> ls))).2.1 = [].
Proof.
  induction ls as [|[l e] ls IH]; intros last Hl Hs; [done|]. destruct Hs as [Hs Hsep]. cbn [fmap list_fmap concat ended fst snd].
  unfold ended at 1 3. cbn [fst snd]. rw -!app_assoc. assert (plain_line l) as Hl1 by (by apply (Hl (l, e)); left).
  rw (scan_plain true true l [] last _ Hl1) app_nil_l.
  assert (List.last l last = CR → l = [] ∧ last = CR) as Hla.
  { clear -Hl1. destruct l as [|c l _] using rev_ind; [done|]. rw List.last_last. apply Forall_app in Hl1 as [_ [[? _] _]%Forall_cons]. done. }
  set (rest := concat (ended <$> ls)) in *.
  assert ((scan true true l (List.last l last) (ending e ++ rest)) =
    (let r := scan true true [] (match e with CR_end => CR | _ => LF end) rest in (l :: r.1, r.2))) as ->.
  { assert (e = LF_end → (List.last l last =? CR)%Z = false) as Hlf.
    { intros ->. apply Z.eqb_neq. intros [-> ->]%Hla. by apply (Hs eq_refl eq_refl). }
    destruct e; cbn [ending app scan]; unfold step.
    - change (CR =? LF)%Z with false. change (CR =? CR)%Z with true. rw andb_false_r. cbn. by destruct (scan _ _ _ _ rest).
    - rw (Hlf eq_refl). change (LF =? LF)%Z with true. change (LF =? CR)%Z with false. cbn. by destruct (scan _ _ _ _ rest).
    - change (CR =? LF)%Z with false. change (CR =? CR)%Z with true. rw andb_false_r. cbn. by destruct (scan _ _ _ _ rest). }
  cbn. destruct (IH (match e with CR_end => CR | _ => LF end)) as [H1 H2]; [intros l' Hl'; apply Hl; by right|by destruct e|].
  split; [by rw H1|exact H2].
Qed.

(** The lines of a stream do not depend on how it is split into deliveries: a new
    analyzer, with any choice of what ends a line, forwards the lines that reading the
    whole stream byte by byte gives; it stays within its buffer and never fails. *)
Theorem lines_in_any_pieces md chunks u :
  passive → (0 ≤ md < 4)%Z → (3 * Z.of_nat (length (concat chunks)) < 2 ^ 31)%Z →
  ∃ s', deliver_all env chunks (SetCRLFAsEOL md ContentLine_new, u) = Some (s', Some ()) ∧
    out s'.2 = out u ++ (scan (crm md) (lfm md) [] 0 (concat chunks)).1 ∧
    offset s'.1 = Z.of_nat (length (scan (crm md) (lfm md) [] 0 (concat chunks)).2.1).
Proof.
  intros Hp Hmd Hlen. destruct (deliver_all_read md (2 ^ 62) chunks Hp 128 [] 0%Z _ u (new_splits md Hmd)) as (B & s' & Hr & Hs & Ho & _);
    [done|simpl; lia|simpl; lia|].
  exists s'. split; [exact Hr|]. split; [exact Ho|]. apply (sp_offset _ _ _ _ _ _ Hs).
Qed.

(** C29. Lines that end in CR, LF or both, each in its own way, are forwarded as they
    are, without their ends, however the stream is split: also between CR and LF.  The
    receiver is [passive]: it does not change the analyzer while it gets a line. *)
Theorem lines_delivered (ls : list (bytes * eol)) chunks u :
  passive → (∀ l, l ∈ ls → plain_line l.1) → separate false ls → concat chunks = concat (ended <$> ls) →
  (3 * Z.of_nat (length (concat chunks)) < 2 ^ 31)%Z →
  ∃ s', deliver_all env chunks (ContentLine_new, u) = Some (s', Some ()) ∧ out s'.2 = out u ++ ls.*1 ∧ HasPartialLine s'.1 = false.
Proof.
  intros Hp Hl Hsep Hc Hlen. change ContentLine_new with (SetCRLFAsEOL 3 ContentLine_new).
  destruct (deliver_all_read 3 (2 ^ 62) chunks Hp 128 [] 0%Z _ u (new_splits 3 ltac:(lia))) as (B & s' & Hr & Hs & Ho & _);
    [done|simpl; lia|simpl; lia|].
  exists s'. split; [exact Hr|]. cbn [snd] in Ho. rw Ho. pose proof (sp_offset _ _ _ _ _ _ Hs) as Hoff.
  destruct (scan_ended ls 0 Hl Hsep) as [H1 H2]. change (crm 3) with true in *. change (lfm 3) with true in *. rw Hc in Hoff |- *.
  split; [by rw H1|]. unfold HasPartialLine. rw Hoff H2. by destruct (buf s'.1).
Qed.

(** ** Skipping *)

Lemma DeliverStream_runs data a u : data ≠ [] → skip_deliveries a = false → skip_partial a = false →
  DeliverStream env data (a, u) = (self (make_room (Z.of_nat (length data)));; call (DoDeliver env data);;
    self (λ a, set_seq (int64 (seq a + Z.of_nat (length data))) a)) (a, u).
Proof. intros Hne Hd Hp. unfold DeliverStream, get, mbind at 1, M_bind at 1. destruct data; [done|]. cbn [fst snd]. by rw Hd Hp. Qed.

(** What the loop does with data that are skipped as a whole. *)
Lemma skipped_loop fuel data last a u u' :
  data ≠ [] → skip_deliveries a = false → last_char a = last → last ≠ CR → plain_delivery_length a = 0%Z → skip_pending a = 0%Z →
  (- 2 ^ 63 ≤ seq a)%Z → (seq a + Z.of_nat (length data) ≤ seq_to_skip a)%Z → (seq_to_skip a - seq a < 2 ^ 63)%Z →
  ForwardUndelivered_to env (int32 (seq a)) (Z.of_nat (length data)) (a, u) = Some (a, u') →
  deliver_loop env (S fuel) data (a, u) =
    Some ((set_seq_delivered_in_lines (int64 (seq_delivered_in_lines a + Z.of_nat (length data)))
      (set_seq (int64 (seq a + Z.of_nat (length data))) a), u'), Some ()).
Proof.
  intros Hne Hd Hl Hcr Hpl Hsp H0 Hsq Hlt Hu. destruct data as [|c rest]; [done|]. set (data := c :: rest) in *.
  assert (0 < Z.of_nat (length data))%Z as Hlen by (unfold data; simpl; lia).
  cbn [deliver_loop]. unfold data at 1. cbn beta iota. rw bind_gets. cbn [fst]. rw Hd.
  assert (compress (U := U) (c :: rest) (a, u) = Some ((a, u), Some data)) as Hc.
  { unfold compress. rw bind_gets. cbn [fst]. by rw Hl (proj2 (Z.eqb_neq last CR) Hcr) andb_false_r. }
  unfold mbind at 1, M_bind at 1. rw Hc. unfold deliver_plain, mbind at 1, M_bind at 1. rw bind_gets. cbn [fst]. rw Hpl.
  cbn [Z.ltb Z.compare]. unfold mret, M_ret, mbind at 1, M_bind at 1. unfold skip at 1. unfold self at 1. rw bind_modify bind_gets.
  cbn [fst snd]. rw Hsp. cbn [Z.ltb Z.compare fst snd]. rw (proj2 (Z.ltb_lt (seq a) (seq_to_skip a))); [|lia]. rw int64_small; [|lia].
  rw Z.min_r; [|lia]. unfold ForwardUndelivered, update, mbind at 1, M_bind at 1. rw Hu. cbn [fmap option_fmap option_map].
  unfold self at 1. rw bind_modify. unfold mret, M_ret. by rw Nat2Z.id drop_all.
Qed.

(** A delivery that is skipped as a whole advances the position twice. *)
Lemma skipped_delivery B md q last data a t u :
  passive → splits B md q [] last a → last ≠ CR → data ≠ [] → (3 * Z.of_nat (length data) < 2 ^ 31)%Z → (0 ≤ seq a)%Z →
  (seq a + 2 * Z.of_nat (length data) ≤ t ≤ q)%Z →
  ∃ B' a' u', DeliverStream env data (set_seq_to_skip t a, u) = Some ((set_seq_to_skip t a', u'), Some ()) ∧
    splits B' md q [] last a' ∧ out u' = out u ∧ seq a' = (seq a + 2 * Z.of_nat (length data))%Z.
Proof.
  intros Hp Hs Hla Hne Hlen H0 Ht. set (len := Z.of_nat (length data)) in *. pose proof (sp_seq _ _ _ _ _ _ Hs) as Hsq.
  destruct (make_room_splits B md q [] last len a Hs) as (B' & Hs1 & _ & Hq1 & Hroom); [lia|simpl; lia|]. set (a1 := make_room len a) in *.
  set (a2 := set_seq_delivered_in_lines (seq a1) (set_seq_to_skip t a1)).
  destruct (pa_undelivered Hp (int32 (seq a1)) len a2 u) as (u' & Hu & Ho).
  exists B', (set_seq (seq a + 2 * len) (set_seq_delivered_in_lines (seq a1 + len) a1)), u'.
  split; [|split; [apply splits_seq; [by apply splits_in_lines|cbn; pose proof (sp_seq _ _ _ _ _ _ Hs1); lia]|done]].
  rw DeliverStream_runs //; [|apply Hs|apply Hs]. unfold self at 1. rw bind_modify. cbn [fst snd]. fold len. rw Hroom.
  unfold DoDeliver, call, mbind at 1, M_bind at 1. unfold self at 1. rw bind_modify. cbn [fst snd set_seq_to_skip seq]. fold a2.
  rw (skipped_loop (length data) data last a2 u u') //; try apply Hs1; try (cbn; lia). cbn.
  unfold modify. fold len. assert (int64 (seq a1 + len) = seq a1 + len)%Z as -> by (rw int64_small; lia). cbn [fst snd].
  cbn [set_seq_delivered_in_lines set_seq seq]. assert (int64 (seq a1 + len + len) = seq a + 2 * len)%Z as -> by (rw int64_small; lia). done.
Qed.

Lemma skipped_deliveries md q last t chunks : passive → last ≠ CR → (t ≤ q)%Z → ∀ B a u,
  splits B md q [] last a → Forall (λ data, data ≠ []) chunks → (3 * Z.of_nat (length (concat chunks)) < 2 ^ 31)%Z → (0 ≤ seq a)%Z →
  (seq a + 2 * Z.of_nat (length (concat chunks)) ≤ t)%Z →
  ∃ B' a' u', (∀ more, deliver_all env (chunks ++ more) (set_seq_to_skip t a, u) = deliver_all env more (set_seq_to_skip t a', u')) ∧
    splits B' md q [] last a' ∧ out u' = out u ∧ seq a' = (seq a + 2 * Z.of_nat (length (concat chunks)))%Z.
Proof.
  intros Hp Hla Ht. induction chunks as [|data chunks IH]; intros B a u Hs Hne Hlen H0 Hsq; [exists B, a, u; split; [done|]; split; [done|]; cbn; by rw Z.add_0_r|].
  apply Forall_cons in Hne as [Hne1 Hne]. cbn [concat] in *. rw length_app in Hlen Hsq. rw length_app.
  destruct (skipped_delivery B md q last data a t u Hp Hs Hla Hne1) as (B1 & a1 & u1 & Hr1 & Hs1 & Ho1 & Hq1); [lia|lia|lia|].
  destruct (IH B1 a1 u1 Hs1 Hne) as (B2 & a2 & u2 & Hr2 & Hs2 & Ho2 & Hq2); [lia|lia|lia|].
  exists B2, a2, u2. split; [intros more; cbn [app deliver_all]; unfold call, mbind at 1, M_bind at 1; rw Hr1; apply Hr2|].
  split; [done|]. split; [by rw Ho2|]. lia.
Qed.

(** Bytes that are skipped count twice: after [SkipBytes] for twice as many bytes as
    the next deliveries have, only those are skipped, and what comes then is split into
    lines although half of the bytes to skip are still to come. *)
Theorem skip_ends_early B md last a u chunks line :
  passive → splits B md (2 ^ 62) [] last a → last ≠ CR → lfm md = true → plain_line line → (0 ≤ seq a < 2 ^ 61)%Z →
  seq_delivered_in_lines a = seq a → Forall (λ data, data ≠ []) chunks →
  (3 * (Z.of_nat (length (concat chunks)) + Z.of_nat (length line) + 1) < 2 ^ 31)%Z →
  ∃ s', deliver_all env (chunks ++ [line ++ [LF]]) (SkipBytes (2 * Z.of_nat (length (concat chunks))) a, u) = Some (s', Some ()) ∧
    out s'.2 = out u ++ [line].
Proof.
  intros Hp Hs Hla Hlf Hline H0 Hin Hne Hlen. set (n := Z.of_nat (length (concat chunks))) in *.
  assert (SkipBytes (2 * n) a = set_seq_to_skip (seq a + 2 * n) a) as ->.
  { unfold SkipBytes. cbn. rw Hin int64_small; [|lia]. pose proof (sp_pending _ _ _ _ _ _ Hs) as Hsp. destruct a. cbn in *. by rw Hsp. }
  destruct (skipped_deliveries md (2 ^ 62) last (seq a + 2 * n) chunks Hp Hla ltac:(lia) B a u Hs Hne) as (B' & a' & u' & Hr & Hs' & Ho & Hq);
    [lia|lia|lia|].
  destruct (DeliverStream_read B' md (2 ^ 62) (line ++ [LF]) [] last (set_seq_to_skip (seq a + 2 * n) a') u' Hp) as (B2 & s' & Hr' & _ & Ho' & _).
  - destruct Hs'. split; cbn; try done. lia.
  - by intros ?.
  - rw !length_app /=. lia.
  - cbn. rw Hq length_app /=. lia.
  - exists s'. rw Hr. cbn [deliver_all]. unfold call, mbind at 1, M_bind at 1. rw Hr'. split; [done|]. rw Ho' /= Ho. f_equal.
    rw (scan_plain (crm md) (lfm md) line [] last [LF] Hline). cbn [scan app fst]. unfold step.
    assert ((List.last line last =? CR)%Z = false) as ->.
    { apply Z.eqb_neq. clear -Hla Hline. destruct line as [|c l _] using rev_ind; [done|]. rw List.last_last.
      apply Forall_app in Hline as [_ [[? _] _]%Forall_cons]. done. }
    rw andb_false_r Hlf. change (LF =? CR)%Z with false. by change (LF =? LF)%Z with true.
Qed.

(** ** Archives *)

Lemma save_load B md q cur last a : splits B md q cur last a → (0 ≤ md < 4)%Z → load <$> save a = Some a.
Proof.
  intros Hs Hmd. pose proof (sp_room _ _ _ _ _ _ Hs) as HB. destruct (sp_buf _ _ _ _ _ _ Hs) as (b & r & Hb & _ & Hlen). unfold save.
  rw (sp_len _ _ _ _ _ _ Hs) (proj2 (Z.ltb_lt 0 B) HB) Hb. cbn [mbind option_bind]. rw decide_True //. cbn [mbind option_bind fmap option_fmap option_map].
  f_equal. unfold load. cbn. rw (sp_md _ _ _ _ _ _ Hs) (sp_nuls _ _ _ _ _ _ Hs) (sp_partial _ _ _ _ _ _ Hs).
  assert (md = 0 ∨ md = 1 ∨ md = 2 ∨ md = 3)%Z as Hm by lia. pose proof (sp_md _ _ _ _ _ _ Hs) as Hmd'.
  pose proof (sp_nuls _ _ _ _ _ _ Hs) as Hn. pose proof (sp_partial _ _ _ _ _ _ Hs) as Hpa. pose proof (sp_len _ _ _ _ _ _ Hs) as Hl.
  destruct a. cbn in *. subst. destruct Hm as [->|[->|[->| ->]]]; reflexivity.
Qed.

(** C36. Moving the state of a connection does not lose lines: if the analyzer is
    archived between two deliveries, also in the middle of a line or between CR and LF,
    and the restored one gets the rest of the stream, the lines are those of the whole
    stream. *)
Theorem moved_between_deliveries md before after u :
  passive → (0 ≤ md < 4)%Z → (3 * Z.of_nat (length (concat (before ++ after))) < 2 ^ 31)%Z →
  ∃ a1 u1 ar s', deliver_all env before (SetCRLFAsEOL md ContentLine_new, u) = Some ((a1, u1), Some ()) ∧ save a1 = Some ar ∧
    deliver_all env after (load ar, u1) = Some (s', Some ()) ∧
    out s'.2 = out u ++ (scan (crm md) (lfm md) [] 0 (concat (before ++ after))).1.
Proof.
  intros Hp Hmd Hlen. rw concat_app length_app in Hlen. rw concat_app scan_app.
  destruct (deliver_all_read md (2 ^ 62) before Hp 128 [] 0%Z _ u (new_splits md Hmd)) as (B & [a1 u1] & Hr1 & Hs1 & Ho1 & Hq1);
    [done|cbn [length]; lia|cbn; lia|]. cbn [fst snd] in *. set (r := scan (crm md) (lfm md) [] 0 (concat before)) in *.
  pose proof (sp_room _ _ _ _ _ _ Hs1) as HB.
  pose proof (save_load _ _ _ _ _ _ Hs1 Hmd) as Hsl. destruct (save a1) as [ar|] eqn:Hsv; [|done]. injection Hsl as Hsl.
  pose proof (scanned_length (crm md) (lfm md) (concat before) [] 0) as Hrl. fold r in Hrl. cbn [length] in Hrl.
  destruct (deliver_all_read md (2 ^ 62) after Hp B r.2.1 r.2.2 a1 u1 Hs1) as (B2 & s' & Hr2 & _ & Ho2 & _);
    [by apply scan_last_ok|lia|rw Hq1; cbn; lia|].
  exists a1, u1, ar, s'. split; [done|]. split; [done|]. rw Hsl. split; [exact Hr2|]. cbn. by rw Ho2 /= Ho1 app_assoc.
Qed.
End lines.

(** ** Concrete streams *)

(** A receiver that keeps the lines, in a connection without flags. *)
Definition keeping : Env (list bytes) :=
  mkEnv (λ b s, Some (s.1, s.2 ++ [b])) (λ _ _ s, Some s) (λ _ u, u) (λ _, false) (λ _, None).
Lemma keeping_passive : passive keeping id.
Proof. split; [by intros b a u; eexists|by intros sq n a u; eexists|done]. Qed.

(** "ab", CR | LF, "c", LF *)
Definition pieces : list bytes := [[97; 98; 13]; [10; 99; 10]]%Z.

Lemma lines_in_any_pieces_witness :
  ∃ s', deliver_all keeping pieces (SetCRLFAsEOL LF_as_EOL ContentLine_new, []) = Some (s', Some ()) ∧ s'.2 = [[97; 98]; [99]]%Z ∧ offset s'.1 = 0%Z.
Proof. destruct (lines_in_any_pieces keeping id LF_as_EOL pieces [] keeping_passive) as (s' & Hr & Ho & Hoff); [done|done|]. by exists s'. Defined.

Lemma lines_delivered_witness :
  ∃ s', deliver_all keeping pieces (ContentLine_new, []) = Some (s', Some ()) ∧ s'.2 = [[97; 98]; [99]]%Z.
Proof.
  destruct (lines_delivered keeping id [([97; 98], CRLF_end); ([99], LF_end)]%Z pieces [] keeping_passive) as (s' & Hr & Ho & _);
    [|done|done|done|by exists s'].
  intros l. rw !elem_of_cons elem_of_nil. intros [->|[->|[]]]; apply (bool_decide_unpack _); vm_compute; reflexivity.
Defined.

(** Six bytes are to be skipped, "abc" is, and "de" is a line. *)
Lemma skip_ends_early_witness :
  ∃ s', deliver_all keeping [[97; 98; 99]; [100; 101; 10]]%Z (SkipBytes 6 ContentLine_new, []) = Some (s', Some ()) ∧ s'.2 = [[100; 101]]%Z.
Proof.
  destruct (skip_ends_early keeping id 128 3 0 ContentLine_new [] [[97; 98; 99]]%Z [100; 101]%Z keeping_passive) as (s' & Hr & Ho);
    [exact (new_splits 3 ltac:(lia))|done|done|apply (bool_decide_unpack _); vm_compute; reflexivity|done|done|by repeat constructor|done|].
  by exists s'.
Defined.

Lemma moved_between_deliveries_witness :
  ∃ a1 u1 ar s', deliver_all keeping [[97; 98; 13]]%Z (SetCRLFAsEOL 3 ContentLine_new, []) = Some ((a1, u1), Some ()) ∧ save a1 = Some ar ∧
    deliver_all keeping [[10; 99; 10]]%Z (load ar, u1) = Some (s', Some ()) ∧ s'.2 = [[97; 98]; [99]]%Z.
Proof.
  destruct (moved_between_deliveries keeping id 3 [[97; 98; 13]]%Z [[10; 99; 10]]%Z [] keeping_passive) as (a1 & u1 & ar & s' & H1 & H2 & H3 & H4);
    [done|done|]. by exists a1, u1, ar, s'.
Defined.
End CL.
