(* ===== verification/Codec.v ===== *)
(** Codec: what libsdmbn sends and receives: the keys of flows (SDMBN.h), the
    encoding of binary data (SDMBNCore.c) and the messages (SDMBNJson.c).

    Values of JSON are those of json-c, a library: the class [JSON] has the
    functions that are called and [JSONLaws] what they are documented to do.  The
    functions on addresses of <arpa/inet.h> are the class [INET].  A text is a
    [string], without its final NUL. *)
From S2P Require Import Prelude IP NetUtil.
From Stdlib Require Import Ascii.
From stdpp Require Import strings pretty.

Module CD.

Abbreviation bytes := (list Z) (only parsing).

(** ** Keys *)

(** [PerflowKey]; the members of a key are numbers, or numbers that may never have
    been written. *)
Record Key (V : Type) := mkPerflowKey {
  nw_src : V; nw_src_mask : V; nw_dst : V; nw_dst_mask : V; tp_src : V; tp_dst : V;
  dl_type : V; nw_proto : V; wildcards : Z; tp_flip : V
}.
Arguments mkPerflowKey {V}.
Arguments nw_src {V}.
Arguments nw_src_mask {V}.
Arguments nw_dst {V}.
Arguments nw_dst_mask {V}.
Arguments tp_src {V}.
Arguments tp_dst {V}.
Arguments dl_type {V}.
Arguments nw_proto {V}.
Arguments wildcards {V}.
Arguments tp_flip {V}.

Abbreviation PerflowKey := (Key Z).
Abbreviation RawKey := (Key (option Z)).

Definition WILDCARD_DL_TYPE : Z := 0x01.
Definition WILDCARD_NW_SRC : Z := 0x02.
Definition WILDCARD_NW_DST : Z := 0x04.
Definition WILDCARD_NW_PROTO : Z := 0x08.
Definition WILDCARD_TP_SRC : Z := 0x10.
Definition WILDCARD_TP_DST : Z := 0x20.
Definition WILDCARD_NW_SRC_MASK : Z := 0x40.
Definition WILDCARD_NW_DST_MASK : Z := 0x80.
Definition WILDCARD_ALL : Z := 0xFF.

Definition wild {V} (key : Key V) (w : Z) : bool := negb (Z.land (wildcards key) w =? 0)%Z.
Definition without (w bit : Z) : Z := Z.land w (Z.lnot bit).

(** [0xFFFFFFFF << (32 - n)] of an [int]; a shift by 32 or more is undefined. *)
Definition mask_of (n : Z) : option Z :=
  let k := uint32 (32 - n) in if (k <? 32)%Z then Some (uint32 (Z.shiftl (-1) k)) else None.

(** A 32-bit word in memory, on a little-endian host. *)
Definition word_at (a : bytes) (i : nat) : Z :=
  match drop i a with
  | b0 :: b1 :: b2 :: b3 :: _ => b0 + 256 * b1 + 65536 * b2 + 16777216 * b3
  | _ => 0
  end%Z.

(** A key of which every member was written. *)
Definition written (k : PerflowKey) : RawKey :=
  mkPerflowKey (Some (nw_src k)) (Some (nw_src_mask k)) (Some (nw_dst k)) (Some (nw_dst_mask k)) (Some (tp_src k))
    (Some (tp_dst k)) (Some (dl_type k)) (Some (nw_proto k)) (wildcards k) (Some (tp_flip k)).

(** ** Binary data

    Each byte is sent as two letters, the low half first. *)

Definition ch (x : Z) : Ascii.ascii := Ascii.ascii_of_N (Z.to_N x).
Definition code (c : Ascii.ascii) : Z := Z.of_N (Ascii.N_of_ascii c).

Definition base64_encode_bits (data : Z) : Ascii.ascii :=
  if (data <? 26)%Z then ch (data + code "A")
  else if (data <? 52)%Z then ch (data - 26 + code "a")
  else if (data <? 62)%Z then ch (data - 52 + code "0")
  else if (data =? 62)%Z then "+"%char
  else if (data =? 63)%Z then "/"%char
  else ch 0.

Fixpoint encode_loop (blob : bytes) : string :=
  match blob with
  | [] => ""
  | x :: blob =>
    String (base64_encode_bits (Z.land x 0x0F)) (String (base64_encode_bits (Z.shiftr (Z.land x 0xF0) 4)) (encode_loop blob))
  end.

(** The result is NULL for a size below 1; the blob has to have [size] bytes, and
    [size*2+1] has to be an [int]. *)
Definition sdmbn_base64_encode (blob : bytes) (size : Z) : option (option string) :=
  if (size <? 1)%Z then Some None
  else if (Z.of_nat (length blob) <? size)%Z || (2 ^ 31 <=? size * 2 + 1)%Z then None
  else Some (Some (encode_loop (take (Z.to_nat size) blob))).

Definition base64_decode_bits (c : Ascii.ascii) : Z :=
  let data := code c in
  if (code "A" <=? data)%Z && (data <=? code "Z")%Z then (data - code "A")%Z
  else if (code "a" <=? data)%Z && (data <=? code "z")%Z then (data + 26 - code "a")%Z
  else if (code "0" <=? data)%Z && (data <=? code "9")%Z then (data + 52 - code "0")%Z
  else if (data =? code "+")%Z then 62%Z
  else if (data =? code "/")%Z then 63%Z
  else 0%Z.

(** The room for the result is [size/2] bytes: for a text of odd length the last
    write is behind it. *)
Fixpoint sdmbn_base64_decode (blob : string) : option bytes :=
  match blob with
  | EmptyString => Some []
  | String _ EmptyString => None
  | String c1 (String c2 blob) =>
    l ← sdmbn_base64_decode blob;
    Some (uint8 (Z.lor (Z.shiftl (base64_decode_bits c2) 4) (base64_decode_bits c1)) :: l)
  end.

(** ** JSON *)

Class JSON (json : Type) := {
  object_get : json → string → option json;
  get_int : json → Z;
  get_string : json → string;
  new_int : Z → json;
  new_string : string → json;
  new_object : json;
  object_add : json → string → json → json
}.

(** What json-c documents; numbers are of type [int]. *)
Class JSONLaws (json : Type) `{JSON json} := {
  get_new : ∀ k, object_get new_object k = None;
  get_add : ∀ o k v, object_get (object_add o k v) k = Some v;
  get_add_ne : ∀ o k k' v, k ≠ k' → object_get (object_add o k v) k' = object_get o k';
  get_int_new : ∀ n, (- 2 ^ 31 ≤ n < 2 ^ 31)%Z → get_int (new_int n) = n;
  get_string_new : ∀ s, get_string (new_string s) = s
}.

(** [inet_ntoa] and [inet_aton], of an address in the byte order of the network. *)
Class INET := { inet_ntoa : Z → string; inet_aton : string → option Z }.
Class INETLaws `{INET} := inet_aton_ntoa : ∀ a, (0 ≤ a < 2 ^ 32)%Z → inet_aton (inet_ntoa a) = Some a.

Section messages.
Context {json : Type} `{JSON json} `{INET}.

(** An object, by its members in the order in which they are added. *)
Definition object (l : list (string * json)) : json := foldl (λ o kv, object_add o kv.1 kv.2) new_object l.

(** A member of a key that is sent unless it is a wildcard; to send one that was
    never written is undefined. *)
Definition sent (skip : bool) (name : string) (f : Z → json) (v : option Z) : option (list (string * json)) :=
  if skip then Some [] else x ← v; Some [(name, f x)].

Definition json_compose_perflow_key (key : RawKey) : option json :=
  let num x := new_int (int32 x) in let port x := new_int (NU.htons x) in let addr x := new_string (inet_ntoa x) in
  l ← mapM id
    [sent (wild key WILDCARD_DL_TYPE) "dl_type" num (dl_type key);
     sent (wild key WILDCARD_NW_SRC) "nw_src" addr (nw_src key);
     sent (wild key WILDCARD_NW_SRC_MASK) "nw_src_mask" num (nw_src_mask key);
     sent (wild key WILDCARD_NW_DST) "nw_dst" addr (nw_dst key);
     sent (wild key WILDCARD_NW_DST_MASK) "nw_dst_mask" num (nw_dst_mask key);
     sent (wild key WILDCARD_NW_PROTO) "nw_proto" num (nw_proto key);
     sent (wild key WILDCARD_TP_SRC) "tp_src" port (tp_src key);
     sent (wild key WILDCARD_TP_DST) "tp_dst" port (tp_dst key);
     sent (wild key WILDCARD_TP_SRC && wild key WILDCARD_TP_DST) "tp_flip" num (tp_flip key)];
  Some (object (concat l)).

(** A member that is received, 0 if there is none. *)
Definition received (field : json) (name : string) (conv : json → Z) : Z := from_option conv 0%Z (object_get field name).
Definition absent (field : json) (name : string) (w : Z) : Z := match object_get field name with Some _ => 0%Z | None => w end.

Definition json_parse_perflow_key (field : json) : PerflowKey :=
  let num conv o := conv (get_int o) in let addr o := default 0%Z (inet_aton (get_string o)) in
  mkPerflowKey (received field "nw_src" addr) (received field "nw_src_mask" (num uint32))
    (received field "nw_dst" addr) (received field "nw_dst_mask" (num uint32))
    (received field "tp_src" (num NU.htons)) (received field "tp_dst" (num NU.htons))
    (received field "dl_type" (num uint16)) (received field "nw_proto" (num uint8))
    (foldl Z.lor 0%Z
       [absent field "dl_type" WILDCARD_DL_TYPE; absent field "nw_src" WILDCARD_NW_SRC;
        absent field "nw_src_mask" WILDCARD_NW_SRC_MASK; absent field "nw_dst" WILDCARD_NW_DST;
        absent field "nw_dst_mask" WILDCARD_NW_DST_MASK; absent field "nw_proto" WILDCARD_NW_PROTO;
        absent field "tp_src" WILDCARD_TP_SRC; absent field "tp_dst" WILDCARD_TP_DST])
    (received field "tp_flip" (num uint8)).

(** [json_object_new_string] of NULL is undefined. *)
Definition json_compose_base64_field (blob : bytes) (size : Z) : option json :=
  encoded ← sdmbn_base64_encode blob size; s ← encoded; Some (new_string s).

(** *** The messages *)

Definition json_compose_perflow_state (id : Z) (key : RawKey) (state : string) (hashkey seq : Z) : option json :=
  key_field ← json_compose_perflow_key key;
  Some (object [("id", new_int id); ("type", new_string "state-perflow"); ("key", key_field); ("hashkey", new_int hashkey);
    ("state", new_string state); ("seq", new_int seq)]).

Definition json_compose_multiflow_state (id : Z) (key : RawKey) (state : string) (hashkey seq : Z) : option json :=
  key_field ← json_compose_perflow_key key;
  Some (object [("id", new_int id); ("type", new_string "state-multiflow"); ("key", key_field); ("hashkey", new_int hashkey);
    ("state", new_string state); ("seq", new_int seq)]).

Definition json_compose_allflows_state (id : Z) (state : string) (seq : Z) : json :=
  object [("id", new_int id); ("type", new_string "state-allflows"); ("state", new_string state); ("seq", new_int seq)].
Definition json_compose_config_state (id : Z) (state : string) (seq : Z) : json :=
  object [("id", new_int id); ("type", new_string "state-config"); ("state", new_string state); ("seq", new_int seq)].

(** The acknowledgments with a count, and those with a hash. *)
Definition count_ack (type : string) (id count : Z) : json :=
  object [("id", new_int id); ("type", new_string type); ("count", new_int count)].
Definition hash_ack (type : string) (id hashkey : Z) : json :=
  object [("id", new_int id); ("type", new_string type); ("hashkey", new_int hashkey)].

Definition json_compose_delete_perflow_ack : Z → Z → json := count_ack "delete-perflow-ack".
Definition json_compose_delete_multiflow_ack : Z → Z → json := count_ack "delete-multiflow-ack".
Definition json_compose_get_perflow_ack : Z → Z → json := count_ack "get-perflow-ack".
Definition json_compose_put_perflow_ack : Z → Z → json := hash_ack "put-perflow-ack".
Definition json_compose_get_multiflow_ack : Z → Z → json := count_ack "get-multiflow-ack".
Definition json_compose_put_multiflow_ack : Z → Z → json := hash_ack "put-multiflow-ack".
Definition json_compose_get_allflows_ack : Z → Z → json := count_ack "get-allflows-ack".
Definition json_compose_put_allflows_ack : Z → Z → json := hash_ack "put-allflows-ack".
Definition json_compose_get_config_ack : Z → Z → json := count_ack "get-config-ack".
Definition json_compose_put_config_ack : Z → Z → json := hash_ack "put-config-ack".
Definition json_compose_events_ack (id : Z) : json := object [("id", new_int id); ("type", new_string "events-ack")].

Definition json_compose_error (id hashkey : Z) (reason : string) : json :=
  object [("id", new_int id); ("type", new_string "error"); ("hashkey", new_int hashkey); ("cause", new_string reason)].

(** [sizeof(struct pcap_pkthdr)]: two 64-bit numbers for the time, and the
    captured and the whole length. *)
Definition sizeof_pkthdr : Z := 24.
Definition caplen (hdr : bytes) : Z := word_at hdr 16.

Definition json_compose_reprocess_event (id hashkey : Z) (hdr pkt : bytes) : option json :=
  header ← json_compose_base64_field hdr sizeof_pkthdr;
  packet ← json_compose_base64_field pkt (int32 (caplen hdr));
  Some (object [("type", new_string "reprocess"); ("id", new_int id); ("hashkey", new_int hashkey); ("header", header);
    ("packet", packet)]).

End messages.

(** ** Binary data: properties *)

Definition letters (s : string) : Prop := Forall (λ c, (code "A" ≤ code c < code "A" + 16)%Z) (String.list_ascii_of_string s).
Definition encoded_byte (x : Z) : Ascii.ascii * Ascii.ascii :=
  (base64_encode_bits (Z.land x 0x0F), base64_encode_bits (Z.shiftr (Z.land x 0xF0) 4)).

(** One byte, for all of them. *)
Definition byte_check (x : Z) : bool :=
  let '(a, b) := encoded_byte x in
  let ok c := ((code "A" <=? code c) && (code c <? code "A" + 16))%Z in
  ((uint8 (Z.lor (Z.shiftl (base64_decode_bits b) 4) (base64_decode_bits a)) =? x)%Z && ok a && ok b).

(** A check of every byte. *)
Lemma every_byte (f : Z → bool) : forallb f (Z.of_nat <$> seq 0 256) = true → ∀ x, (0 ≤ x < 256)%Z → f x = true.
Proof.
  intros Hc x Hx. apply (proj1 (forallb_forall _ _) Hc), list_elem_of_In, list_elem_of_fmap.
  exists (Z.to_nat x). split; [lia|]. apply elem_of_seq. lia.
Qed.

Lemma byte_checked x : (0 ≤ x < 256)%Z →
  let '(a, b) := encoded_byte x in
  uint8 (Z.lor (Z.shiftl (base64_decode_bits b) 4) (base64_decode_bits a)) = x ∧
  (code "A" ≤ code a < code "A" + 16)%Z ∧ (code "A" ≤ code b < code "A" + 16)%Z.
Proof.
  intros Hx. pose proof (every_byte byte_check ltac:(vm_compute; reflexivity) x Hx) as Hb.
  revert Hb. unfold byte_check. destruct (encoded_byte x) as [a b]. rw !andb_true_iff.
  intros [[->%Z.eqb_eq [?%Z.leb_le ?%Z.ltb_lt]] [?%Z.leb_le ?%Z.ltb_lt]]. lia.
Qed.

Lemma decode_encode blob : Forall (λ x, 0 ≤ x < 256)%Z blob →
  sdmbn_base64_decode (encode_loop blob) = Some blob ∧ letters (encode_loop blob).
Proof.
  induction 1 as [|x l Hx _ [IH Hl]]; [split; [done|constructor]|]. pose proof (byte_checked x Hx) as Hb.
  unfold encoded_byte in Hb. destruct Hb as (Hv & Ha & Hb). simpl. rw IH /= Hv. split; [done|]. unfold letters. simpl. by constructor; [|constructor].
Qed.

Lemma decode_even s : is_Some (sdmbn_base64_decode s) ↔ Nat.Even (String.length s).
Proof.
  assert (∀ n s, String.length s ≤ n → is_Some (sdmbn_base64_decode s) ↔ Nat.Even (String.length s)) as Hn; [|by eapply Hn].
  clear s. induction n as [|n IH]; intros [|c1 [|c2 s]] Hle; simpl in *; try lia.
  - split; [by exists 0|by eexists].
  - split; [by exists 0|by eexists].
  - split; [by intros []|intros [k Hk]; lia].
  - specialize (IH s ltac:(lia)). split.
    + intros [x (l & Hl & _)%bind_Some]. destruct (proj1 IH) as [k Hk]; [by eexists|]. exists (S k). lia.
    + intros [k Hk]. destruct (proj2 IH) as [l ->]; [exists (k - 1); lia|]. by eexists.
Qed.

Lemma encode_whole blob : (0 < Z.of_nat (length blob) < 2 ^ 30)%Z →
  sdmbn_base64_encode blob (Z.of_nat (length blob)) = Some (Some (encode_loop blob)).
Proof.
  intros Hn. unfold sdmbn_base64_encode. destruct (Z.ltb_spec (Z.of_nat (length blob)) 1); [lia|].
  rw Z.ltb_irrefl /=. destruct (Z.leb_spec (2 ^ 31) (Z.of_nat (length blob) * 2 + 1)); [lia|].
  by rw Nat2Z.id firstn_all.
Qed.

(** Binary data survives: what is encoded consists of the letters A to P only,
    and decoding it gives the data back.  Only texts of even length can be
    decoded; for any other the last byte is written behind its buffer. *)
Theorem base64_roundtrip (blob : bytes) (Hb : Forall (λ x, 0 ≤ x < 256)%Z blob)
    (Hne : blob ≠ []) (Hlen : (Z.of_nat (length blob) < 2 ^ 30)%Z) :
  (∃ s, sdmbn_base64_encode blob (Z.of_nat (length blob)) = Some (Some s) ∧ letters s ∧ sdmbn_base64_decode s = Some blob) ∧
  ∀ s, is_Some (sdmbn_base64_decode s) ↔ Nat.Even (String.length s).
Proof.
  split; [|exact decode_even]. destruct (decode_encode blob Hb) as [Hd Hl]. exists (encode_loop blob). split; [|done].
  apply encode_whole. assert (length blob ≠ 0) by by destruct blob. lia.
Qed.

Lemma base64_roundtrip_witness :
  ∃ s, sdmbn_base64_encode [0; 255; 16]%Z 3 = Some (Some s) ∧ s = "AAPPAB" ∧ sdmbn_base64_decode s = Some [0; 255; 16]%Z.
Proof.
  destruct (base64_roundtrip [0; 255; 16]%Z) as [(s & Hs & _ & Hd) _]; [repeat constructor; lia|done|simpl; lia|].
  exists s. split_and!; [exact Hs| |exact Hd]. by injection Hs as <-.
Defined.

(** ** Keys: properties *)

Section keys.
Context {json : Type} `{HJ : JSON json} `{HJL : !JSONLaws json} `{HI : INET} `{HIL : !INETLaws}.

(** The last member of a name counts. *)
Lemma get_field k (l : list (string * json)) :
  object_get (object l) k = foldl (λ r kv, if (kv.1 =? k)%string then Some kv.2 else r) None l.
Proof.
  unfold object. rw -(get_new k). generalize new_object. induction l as [|[n v] l IH]; intros o; [done|].
  simpl. rw IH. f_equal. destruct (String.eqb_spec n k) as [->|Hn]; [apply get_add|by apply get_add_ne].
Qed.

(** Members that are sent or not, and what becomes of them. *)
Definition member : Type := bool * string * json.
Definition shown (m : member) : list (string * json) := let '(skip, n, v) := m in if skip then [] else [(n, v)].
Definition find_member (k : string) (r : option json) (m : member) : option json :=
  let '(skip, n, v) := m in if (n =? k)%string then if skip then r else Some v else r.

Lemma get_object k (l : list member) : object_get (object (concat (shown <$> l))) k = foldl (find_member k) None l.
Proof.
  rw get_field. generalize (@None json). induction l as [|[[skip n] v] l IH]; intros r; [done|].
  simpl. rw foldl_app IH. f_equal. destruct skip; simpl; [by destruct (n =? k)%string|done].
Qed.

Lemma sent_written skip name f x : sent skip name f (Some x) = Some (shown (skip, name, f x)).
Proof. by destruct skip. Qed.

Definition num (x : Z) : json := new_int (int32 x).
Definition port (x : Z) : json := new_int (NU.htons x).
Definition addr (x : Z) : json := new_string (inet_ntoa x).

Definition members (key : PerflowKey) : list member :=
  [(wild key WILDCARD_DL_TYPE, "dl_type", num (dl_type key)); (wild key WILDCARD_NW_SRC, "nw_src", addr (nw_src key));
   (wild key WILDCARD_NW_SRC_MASK, "nw_src_mask", num (nw_src_mask key)); (wild key WILDCARD_NW_DST, "nw_dst", addr (nw_dst key));
   (wild key WILDCARD_NW_DST_MASK, "nw_dst_mask", num (nw_dst_mask key)); (wild key WILDCARD_NW_PROTO, "nw_proto", num (nw_proto key));
   (wild key WILDCARD_TP_SRC, "tp_src", port (tp_src key)); (wild key WILDCARD_TP_DST, "tp_dst", port (tp_dst key));
   (wild key WILDCARD_TP_SRC && wild key WILDCARD_TP_DST, "tp_flip", num (tp_flip key))].

Lemma compose_members key : json_compose_perflow_key (written key) = Some (object (concat (shown <$> members key))).
Proof. unfold json_compose_perflow_key. cbn [mapM written dl_type nw_src nw_src_mask nw_dst nw_dst_mask nw_proto tp_src tp_dst tp_flip]. by rw !sent_written. Qed.

(** A key of which the members are in their ranges, and 0 where it is wild. *)
Record key_ok (k : PerflowKey) : Prop := {
  ok_nw_src : (0 ≤ nw_src k < 2 ^ 32)%Z;  ok_nw_src_mask : (0 ≤ nw_src_mask k < 2 ^ 32)%Z;
  ok_nw_dst : (0 ≤ nw_dst k < 2 ^ 32)%Z;  ok_nw_dst_mask : (0 ≤ nw_dst_mask k < 2 ^ 32)%Z;
  ok_tp_src : (0 ≤ tp_src k < 2 ^ 16)%Z;  ok_tp_dst : (0 ≤ tp_dst k < 2 ^ 16)%Z;
  ok_dl_type : (0 ≤ dl_type k < 2 ^ 16)%Z;  ok_nw_proto : (0 ≤ nw_proto k < 2 ^ 8)%Z;
  ok_wildcards : (0 ≤ wildcards k < 2 ^ 8)%Z;  ok_tp_flip : (0 ≤ tp_flip k < 2 ^ 8)%Z;
  ok_wild : Forall (λ '(w, v), wild k w = true → v = 0%Z)
    [(WILDCARD_DL_TYPE, dl_type k); (WILDCARD_NW_SRC, nw_src k); (WILDCARD_NW_SRC_MASK, nw_src_mask k);
     (WILDCARD_NW_DST, nw_dst k); (WILDCARD_NW_DST_MASK, nw_dst_mask k); (WILDCARD_NW_PROTO, nw_proto k);
     (WILDCARD_TP_SRC, tp_src k); (WILDCARD_TP_DST, tp_dst k)];
  ok_flip : wild k WILDCARD_TP_SRC = true → wild k WILDCARD_TP_DST = true → tp_flip k = 0%Z
}.

Lemma get_num w x : (w = 8 ∨ w = 16 ∨ w = 32)%Z → (0 ≤ x < 2 ^ w)%Z → wrap_u w (get_int (num x)) = x.
Proof.
  intros Hw Hx. unfold num. rw get_int_new; [|apply (wrap_s_bounds 32); lia]. unfold int32, wrap_s, wrap_u.
  destruct Hw as [->|[->| ->]]; rw ?Z.pow_0_r; Z.div_mod_to_equations; lia.
Qed.
Lemma get_port x : (0 ≤ x < 2 ^ 16)%Z → NU.htons (get_int (port x)) = x.
Proof.
  intros Hx. unfold port. assert (0 ≤ NU.htons x < 2 ^ 16)%Z by (unfold NU.htons, uint16, wrap_u; Z.div_mod_to_equations; lia).
  rw get_int_new; [|lia]. unfold NU.htons, uint16, wrap_u. Z.div_mod_to_equations. lia.
Qed.
Lemma get_addr x : (0 ≤ x < 2 ^ 32)%Z → default 0%Z (inet_aton (get_string (addr x))) = x.
Proof. intros Hx. unfold addr. by rw get_string_new inet_aton_ntoa. Qed.

(** The wildcards are put together from the members that are absent. *)
Definition put_together (w : Z) : Z :=
  foldl Z.lor 0%Z ((λ b, if negb (Z.land w b =? 0)%Z then b else 0%Z) <$>
    [WILDCARD_DL_TYPE; WILDCARD_NW_SRC; WILDCARD_NW_SRC_MASK; WILDCARD_NW_DST; WILDCARD_NW_DST_MASK; WILDCARD_NW_PROTO;
     WILDCARD_TP_SRC; WILDCARD_TP_DST]).
Lemma wildcards_from_bits w : (0 ≤ w < 2 ^ 8)%Z → put_together w = w.
Proof. intros Hw. apply Z.eqb_eq, (every_byte (λ w, put_together w =? w)%Z); [vm_compute; reflexivity|lia]. Qed.

Definition skip_or (skip : bool) (v : json) : option json := if skip then None else Some v.

Lemma get_member key (o := object (concat (shown <$> members key))) :
  object_get o "dl_type" = skip_or (wild key WILDCARD_DL_TYPE) (num (dl_type key)) ∧
  object_get o "nw_src" = skip_or (wild key WILDCARD_NW_SRC) (addr (nw_src key)) ∧
  object_get o "nw_src_mask" = skip_or (wild key WILDCARD_NW_SRC_MASK) (num (nw_src_mask key)) ∧
  object_get o "nw_dst" = skip_or (wild key WILDCARD_NW_DST) (addr (nw_dst key)) ∧
  object_get o "nw_dst_mask" = skip_or (wild key WILDCARD_NW_DST_MASK) (num (nw_dst_mask key)) ∧
  object_get o "nw_proto" = skip_or (wild key WILDCARD_NW_PROTO) (num (nw_proto key)) ∧
  object_get o "tp_src" = skip_or (wild key WILDCARD_TP_SRC) (port (tp_src key)) ∧
  object_get o "tp_dst" = skip_or (wild key WILDCARD_TP_DST) (port (tp_dst key)) ∧
  object_get o "tp_flip" = skip_or (wild key WILDCARD_TP_SRC && wild key WILDCARD_TP_DST) (num (tp_flip key)).
Proof. subst o. rw !get_object. split_and!; reflexivity. Qed.

(** A member is read as it was, if one that is not sent was 0. *)
Lemma received_skip o name skip v conv x :
  object_get o name = skip_or skip v → conv v = x → (skip = true → x = 0%Z) → received o name conv = x.
Proof. unfold received. intros -> Hv Hs. destruct skip; [by rw Hs|done]. Qed.
Lemma absent_skip o name skip v w : object_get o name = skip_or skip v → absent o name w = if skip then w else 0%Z.
Proof. unfold absent. intros ->. by destruct skip. Qed.

(** A key survives: what [json_parse_perflow_key] reads from the object that
    [json_compose_perflow_key] makes is the key, with the same wildcards; a member
    that is a wildcard is not sent, and [tp_flip] only with a port. *)
Theorem perflow_key_roundtrip (key : PerflowKey) : key_ok key →
  json_parse_perflow_key <$> json_compose_perflow_key (written key) = Some key.
Proof.
  intros [H1 H2 H3 H4 H5 H6 H7 H8 H9 H10 Hw Hf]. rw compose_members /=. f_equal.
  repeat (apply Forall_cons in Hw as [? Hw]). destruct (get_member key) as (G1 & G2 & G3 & G4 & G5 & G6 & G7 & G8 & G9).
  unfold json_parse_perflow_key. cbv zeta.
  rw (received_skip _ _ _ _ _ (nw_src key) G2) //; [|by apply get_addr].
  rw (received_skip _ _ _ _ _ (nw_src_mask key) G3) //; [|apply (get_num 32); lia].
  rw (received_skip _ _ _ _ _ (nw_dst key) G4) //; [|by apply get_addr].
  rw (received_skip _ _ _ _ _ (nw_dst_mask key) G5) //; [|apply (get_num 32); lia].
  rw (received_skip _ _ _ _ _ (tp_src key) G7) //; [|by apply get_port].
  rw (received_skip _ _ _ _ _ (tp_dst key) G8) //; [|by apply get_port].
  rw (received_skip _ _ _ _ _ (dl_type key) G1) //; [|apply (get_num 16); lia].
  rw (received_skip _ _ _ _ _ (nw_proto key) G6) //; [|apply (get_num 8); lia].
  rw (received_skip _ _ _ _ _ (tp_flip key) G9); [|apply (get_num 8); lia|by intros [? ?]%andb_true_iff; auto].
  rw (absent_skip _ _ _ _ _ G1) (absent_skip _ _ _ _ _ G2) (absent_skip _ _ _ _ _ G3) (absent_skip _ _ _ _ _ G4)
    (absent_skip _ _ _ _ _ G5) (absent_skip _ _ _ _ _ G6) (absent_skip _ _ _ _ _ G7) (absent_skip _ _ _ _ _ G8).
  pose proof (wildcards_from_bits (wildcards key) H9) as Hb. unfold put_together in Hb. cbn [fmap list_fmap] in Hb. unfold wild. rw Hb. by destruct key.
Qed.

End keys.

(** ** Concrete values *)

(** Values as trees; an object keeps the newest member of a name in front. *)
#[warnings="-register-all"] Inductive jval := JInt (n : Z) | JString (s : string) | JObject (l : list (string * jval)).

#[export] Instance json_values : JSON jval := {
  object_get o k := match o with JObject l => snd <$> List.find (λ kv, kv.1 =? k)%string l | _ => None end;
  get_int o := match o with JInt n => n | _ => 0%Z end;
  get_string o := match o with JString s => s | _ => "" end;
  new_int := JInt;
  new_string := JString;
  new_object := JObject [];
  object_add o k v := match o with JObject l => JObject ((k, v) :: l) | _ => JObject [(k, v)] end
}.
#[export] Instance json_values_laws : JSONLaws jval.
Proof.
  split; try done.
  - intros [n|s|l] k v; simpl; by rw String.eqb_refl.
  - intros [n|s|l] k k' v Hk; simpl; by rw (proj2 (String.eqb_neq k k')).
Qed.

(** Addresses as four decimal numbers. *)
Fixpoint split_dot (s : string) : list string :=
  match s with
  | EmptyString => [""]
  | String c s => if (c =? ".")%char then "" :: split_dot s else match split_dot s with x :: l => String c x :: l | [] => [] end
  end.
Definition dec (b : Z) : string := pretty b.
Definition undec (s : string) : option Z := List.find (λ b, dec b =? s)%string (Z.of_nat <$> seq 0 256).

#[export] Instance dotted : INET := {
  inet_ntoa a := dec (a mod 256) +:+ String "." (dec (a / 256 mod 256) +:+ String "." (dec (a / 65536 mod 256) +:+
    String "." (dec (a / 16777216))));
  inet_aton s :=
    match undec <$> split_dot s with
    | [Some a; Some b; Some c; Some d] => Some (a + 256 * b + 65536 * c + 16777216 * d)%Z
    | _ => None
    end
}.

Definition dec_one (b : Z) : bool := bool_decide (split_dot (dec b) = [dec b]).
Definition dec_undec (b : Z) : bool := bool_decide (undec (dec b) = Some b).

Lemma split_dec b r : (0 ≤ b < 256)%Z → split_dot (dec b +:+ String "." r) = dec b :: split_dot r ∧ split_dot (dec b) = [dec b].
Proof.
  intros Hb. assert (split_dot (dec b) = [dec b]) as Hs.
  { pose proof (every_byte dec_one ltac:(vm_compute; reflexivity) b Hb) as Hc.
    by apply bool_decide_eq_true in Hc. }
  split; [|done]. revert Hs. generalize (dec b). intros s. clear. induction s as [|c s IH]; [done|]. simpl.
  destruct (c =? ".")%char; [done|]. destruct (split_dot s) as [|x l]; [done|]. intros [= -> ->]. by rw IH.
Qed.
Lemma undec_dec b : (0 ≤ b < 256)%Z → undec (dec b) = Some b.
Proof.
  intros Hb. pose proof (every_byte dec_undec ltac:(vm_compute; reflexivity) b Hb) as Hc.
  by apply bool_decide_eq_true in Hc.
Qed.

#[export] Instance dotted_laws : INETLaws.
Proof.
  intros a Ha. simpl. assert (0 ≤ a / 16777216 < 256)%Z by (Z.div_mod_to_equations; lia).
  rw !(proj1 (split_dec _ _ _)) ?(proj2 (split_dec _ "" _)); try apply Z.mod_pos_bound; try lia. simpl.
  rw !undec_dec; try apply Z.mod_pos_bound; try lia. f_equal. Z.div_mod_to_equations. lia.
Qed.

(** Packets of TCP from 10.0.0.1 to port 80. *)
Definition some_key : PerflowKey :=
  (mkPerflowKey 16777226 0 0 0 0 20480 2048 6
    (foldl without WILDCARD_ALL [WILDCARD_DL_TYPE; WILDCARD_NW_SRC; WILDCARD_NW_PROTO; WILDCARD_TP_DST]) 1)%Z.

Lemma perflow_key_roundtrip_witness :
  inet_ntoa (nw_src some_key) = "10.0.0.1" ∧ json_parse_perflow_key <$> json_compose_perflow_key (written some_key) = Some some_key.
Proof.
  split; [vm_compute; reflexivity|]. apply perflow_key_roundtrip.
  split; simpl; try lia; try (vm_compute; by split); [repeat constructor; done|done].
Defined.

End CD.
