(* ===== verification/Conn.v ===== *)
(** Conn: the connections, Conn.cc / Conn.h, and the keys under which the
    sessions keep them (BuildConnIDHashKey of IPAddr.cc).

    The analyzer at the root of the tree of a connection is a type [A] with the
    operations of the class [Analyzer]; TcpLink has an instance.  What leaves
    the component (events, weird activity, removal from the sessions) is the list
    [log] of the [World], which also has the counters of all connections and the
    pending timers. *)
From S2P Require Import Prelude Double IP Endpoint TcpReassem.
From stdpp Require Import strings.

Module C.

Abbreviation bytes := (list Z) (only parsing).

(** ** Addresses and keys *)

Inductive TransportProto := TRANSPORT_UNKNOWN | TRANSPORT_TCP | TRANSPORT_UDP | TRANSPORT_ICMP.

#[global] Instance TransportProto_eq_dec : EqDecision TransportProto.
Proof. solve_decision. Defined.

Record ConnID := mkID {
  src_addr : bytes; dst_addr : bytes; src_port : Z; dst_port : Z; is_one_way : bool
}.

(** [memcmp] of two addresses, below zero; [operator<] of IPAddr. *)
Fixpoint addr_lt (a b : bytes) : bool :=
  match a, b with
  | x :: a, y :: b => (x <? y)%Z || ((x =? y)%Z && addr_lt a b)
  | _, _ => false
  end.

Definition addr_port_canon_lt (addr1 : bytes) (p1 : Z) (addr2 : bytes) (p2 : Z) : bool :=
  addr_lt addr1 addr2 || (bool_decide (addr1 = addr2) && (p1 <? p2)%Z).

Record ConnKey := mkKey { ip1 : bytes; ip2 : bytes; port1 : Z; port2 : Z }.

#[global] Instance ConnKey_eq_dec : EqDecision ConnKey.
Proof. solve_decision. Defined.

#[global] Instance ConnKey_countable : Countable ConnKey.
Proof.
  refine (inj_countable' (λ k, (ip1 k, ip2 k, port1 k, port2 k))
    (λ p, mkKey p.1.1.1 p.1.1.2 p.1.2 p.2) _). by intros [].
Defined.

(** The ports of the key have 16 bits, those of the identifier 32. *)
Definition BuildConnIDHashKey (id : ConnID) : ConnKey :=
  if is_one_way id || addr_port_canon_lt (src_addr id) (src_port id) (dst_addr id) (dst_port id)
  then mkKey (src_addr id) (dst_addr id) (uint16 (src_port id)) (uint16 (dst_port id))
  else mkKey (dst_addr id) (src_addr id) (uint16 (dst_port id)) (uint16 (src_port id)).

(** ** Connections *)

Inductive TimerFunc := DeleteTimer_f | InactivityTimer_f | StatusUpdateTimer_f | RemoveConnectionTimer_f.

(** A ConnectionTimer; [t_id] is its address. *)
Record Timer := mkTimer { t_id : nat; t_func : TimerFunc; t_time : double; t_do_expire : bool }.

(** The bit fields. *)
Record ConnFlags := mkFlags {
  installed_status_timer : bool;
  timers_canceled : bool;
  is_active : bool;
  skip : bool;
  weird : bool;
  finished : bool;
  record_packets : bool;
  record_contents : bool;
  persistent : bool;
  record_current_packet : bool;
  record_current_content : bool;
  saw_first_orig_packet : bool;
  saw_first_resp_packet : bool
}.

Definition set_installed_status_timer (v : bool) (f : ConnFlags) : ConnFlags :=
  mkFlags v (timers_canceled f) (is_active f) (skip f) (weird f) (finished f) (record_packets f)
    (record_contents f) (persistent f) (record_current_packet f) (record_current_content f)
    (saw_first_orig_packet f) (saw_first_resp_packet f).
Definition set_timers_canceled (v : bool) (f : ConnFlags) : ConnFlags :=
  mkFlags (installed_status_timer f) v (is_active f) (skip f) (weird f) (finished f)
    (record_packets f) (record_contents f) (persistent f) (record_current_packet f)
    (record_current_content f) (saw_first_orig_packet f) (saw_first_resp_packet f).
Definition set_weird (v : bool) (f : ConnFlags) : ConnFlags :=
  mkFlags (installed_status_timer f) (timers_canceled f) (is_active f) (skip f) v (finished f)
    (record_packets f) (record_contents f) (persistent f) (record_current_packet f)
    (record_current_content f) (saw_first_orig_packet f) (saw_first_resp_packet f).
Definition set_finished (v : bool) (f : ConnFlags) : ConnFlags :=
  mkFlags (installed_status_timer f) (timers_canceled f) (is_active f) (skip f) (weird f) v
    (record_packets f) (record_contents f) (persistent f) (record_current_packet f)
    (record_current_content f) (saw_first_orig_packet f) (saw_first_resp_packet f).
Definition set_record_current_packet (v : bool) (f : ConnFlags) : ConnFlags :=
  mkFlags (installed_status_timer f) (timers_canceled f) (is_active f) (skip f) (weird f)
    (finished f) (record_packets f) (record_contents f) (persistent f) v
    (record_current_content f) (saw_first_orig_packet f) (saw_first_resp_packet f).
Definition set_record_current_content (v : bool) (f : ConnFlags) : ConnFlags :=
  mkFlags (installed_status_timer f) (timers_canceled f) (is_active f) (skip f) (weird f)
    (finished f) (record_packets f) (record_contents f) (persistent f) (record_current_packet f)
    v (saw_first_orig_packet f) (saw_first_resp_packet f).
Definition set_saw_first_orig_packet (v : bool) (f : ConnFlags) : ConnFlags :=
  mkFlags (installed_status_timer f) (timers_canceled f) (is_active f) (skip f) (weird f)
    (finished f) (record_packets f) (record_contents f) (persistent f) (record_current_packet f)
    (record_current_content f) v (saw_first_resp_packet f).
Definition set_saw_first_resp_packet (v : bool) (f : ConnFlags) : ConnFlags :=
  mkFlags (installed_status_timer f) (timers_canceled f) (is_active f) (skip f) (weird f)
    (finished f) (record_packets f) (record_contents f) (persistent f) (record_current_packet f)
    (record_current_content f) (saw_first_orig_packet f) v.

(** [dirty], [dirty_backoff] and [getOpId] are not initialized by the
    constructors. *)
Record Connection (A : Type) := mkConn {
  key : option ConnKey;
  conn_timer_mgr : option nat;
  timers : list Timer;
  orig_addr : bytes;
  resp_addr : bytes;
  orig_port : Z;
  resp_port : Z;
  proto : TransportProto;
  orig_flow_label : Z;
  resp_flow_label : Z;
  start_time : double;
  last_time : double;
  inactivity_timeout : double;
  has_conn_val : bool;
  has_login_conn : bool;
  suppress_event : Z;
  flags : ConnFlags;
  hist : E.History;
  root_analyzer : option A;
  uid : Z;
  moved : bool;
  dirty : option bool;
  dirty_backoff : option Z;
  getOpId : option Z
}.

Arguments mkConn {A}.
Arguments key {A}.
Arguments conn_timer_mgr {A}.
Arguments timers {A}.
Arguments orig_addr {A}.
Arguments resp_addr {A}.
Arguments orig_port {A}.
Arguments resp_port {A}.
Arguments proto {A}.
Arguments orig_flow_label {A}.
Arguments resp_flow_label {A}.
Arguments start_time {A}.
Arguments last_time {A}.
Arguments inactivity_timeout {A}.
Arguments has_conn_val {A}.
Arguments has_login_conn {A}.
Arguments suppress_event {A}.
Arguments flags {A}.
Arguments hist {A}.
Arguments root_analyzer {A}.
Arguments uid {A}.
Arguments moved {A}.
Arguments dirty {A}.
Arguments dirty_backoff {A}.
Arguments getOpId {A}.

Definition set_key {A} (v : option ConnKey) (c : Connection A) : Connection A :=
  mkConn v (conn_timer_mgr c) (timers c) (orig_addr c) (resp_addr c) (orig_port c) (resp_port c)
    (proto c) (orig_flow_label c) (resp_flow_label c) (start_time c) (last_time c)
    (inactivity_timeout c) (has_conn_val c) (has_login_conn c) (suppress_event c) (flags c)
    (hist c) (root_analyzer c) (uid c) (moved c) (dirty c) (dirty_backoff c) (getOpId c).
Definition set_timers {A} (v : list Timer) (c : Connection A) : Connection A :=
  mkConn (key c) (conn_timer_mgr c) v (orig_addr c) (resp_addr c) (orig_port c) (resp_port c)
    (proto c) (orig_flow_label c) (resp_flow_label c) (start_time c) (last_time c)
    (inactivity_timeout c) (has_conn_val c) (has_login_conn c) (suppress_event c) (flags c)
    (hist c) (root_analyzer c) (uid c) (moved c) (dirty c) (dirty_backoff c) (getOpId c).
Definition set_proto {A} (v : TransportProto) (c : Connection A) : Connection A :=
  mkConn (key c) (conn_timer_mgr c) (timers c) (orig_addr c) (resp_addr c) (orig_port c)
    (resp_port c) v (orig_flow_label c) (resp_flow_label c) (start_time c) (last_time c)
    (inactivity_timeout c) (has_conn_val c) (has_login_conn c) (suppress_event c) (flags c)
    (hist c) (root_analyzer c) (uid c) (moved c) (dirty c) (dirty_backoff c) (getOpId c).
Definition set_orig_flow_label {A} (v : Z) (c : Connection A) : Connection A :=
  mkConn (key c) (conn_timer_mgr c) (timers c) (orig_addr c) (resp_addr c) (orig_port c)
    (resp_port c) (proto c) v (resp_flow_label c) (start_time c) (last_time c)
    (inactivity_timeout c) (has_conn_val c) (has_login_conn c) (suppress_event c) (flags c)
    (hist c) (root_analyzer c) (uid c) (moved c) (dirty c) (dirty_backoff c) (getOpId c).
Definition set_resp_flow_label {A} (v : Z) (c : Connection A) : Connection A :=
  mkConn (key c) (conn_timer_mgr c) (timers c) (orig_addr c) (resp_addr c) (orig_port c)
    (resp_port c) (proto c) (orig_flow_label c) v (start_time c) (last_time c)
    (inactivity_timeout c) (has_conn_val c) (has_login_conn c) (suppress_event c) (flags c)
    (hist c) (root_analyzer c) (uid c) (moved c) (dirty c) (dirty_backoff c) (getOpId c).
Definition set_last_time {A} (v : double) (c : Connection A) : Connection A :=
  mkConn (key c) (conn_timer_mgr c) (timers c) (orig_addr c) (resp_addr c) (orig_port c)
    (resp_port c) (proto c) (orig_flow_label c) (resp_flow_label c) (start_time c) v
    (inactivity_timeout c) (has_conn_val c) (has_login_conn c) (suppress_event c) (flags c)
    (hist c) (root_analyzer c) (uid c) (moved c) (dirty c) (dirty_backoff c) (getOpId c).
Definition set_inactivity_timeout {A} (v : double) (c : Connection A) : Connection A :=
  mkConn (key c) (conn_timer_mgr c) (timers c) (orig_addr c) (resp_addr c) (orig_port c)
    (resp_port c) (proto c) (orig_flow_label c) (resp_flow_label c) (start_time c) (last_time c)
    v (has_conn_val c) (has_login_conn c) (suppress_event c) (flags c) (hist c) (root_analyzer c)
    (uid c) (moved c) (dirty c) (dirty_backoff c) (getOpId c).
Definition set_suppress_event {A} (v : Z) (c : Connection A) : Connection A :=
  mkConn (key c) (conn_timer_mgr c) (timers c) (orig_addr c) (resp_addr c) (orig_port c)
    (resp_port c) (proto c) (orig_flow_label c) (resp_flow_label c) (start_time c) (last_time c)
    (inactivity_timeout c) (has_conn_val c) (has_login_conn c) v (flags c) (hist c)
    (root_analyzer c) (uid c) (moved c) (dirty c) (dirty_backoff c) (getOpId c).
Definition set_flags {A} (v : ConnFlags) (c : Connection A) : Connection A :=
  mkConn (key c) (conn_timer_mgr c) (timers c) (orig_addr c) (resp_addr c) (orig_port c)
    (resp_port c) (proto c) (orig_flow_label c) (resp_flow_label c) (start_time c) (last_time c)
    (inactivity_timeout c) (has_conn_val c) (has_login_conn c) (suppress_event c) v (hist c)
    (root_analyzer c) (uid c) (moved c) (dirty c) (dirty_backoff c) (getOpId c).
Definition set_hist {A} (v : E.History) (c : Connection A) : Connection A :=
  mkConn (key c) (conn_timer_mgr c) (timers c) (orig_addr c) (resp_addr c) (orig_port c)
    (resp_port c) (proto c) (orig_flow_label c) (resp_flow_label c) (start_time c) (last_time c)
    (inactivity_timeout c) (has_conn_val c) (has_login_conn c) (suppress_event c) (flags c) v
    (root_analyzer c) (uid c) (moved c) (dirty c) (dirty_backoff c) (getOpId c).
Definition set_root_analyzer {A} (v : option A) (c : Connection A) : Connection A :=
  mkConn (key c) (conn_timer_mgr c) (timers c) (orig_addr c) (resp_addr c) (orig_port c)
    (resp_port c) (proto c) (orig_flow_label c) (resp_flow_label c) (start_time c) (last_time c)
    (inactivity_timeout c) (has_conn_val c) (has_login_conn c) (suppress_event c) (flags c)
    (hist c) v (uid c) (moved c) (dirty c) (dirty_backoff c) (getOpId c).
Definition set_uid {A} (v : Z) (c : Connection A) : Connection A :=
  mkConn (key c) (conn_timer_mgr c) (timers c) (orig_addr c) (resp_addr c) (orig_port c)
    (resp_port c) (proto c) (orig_flow_label c) (resp_flow_label c) (start_time c) (last_time c)
    (inactivity_timeout c) (has_conn_val c) (has_login_conn c) (suppress_event c) (flags c)
    (hist c) (root_analyzer c) v (moved c) (dirty c) (dirty_backoff c) (getOpId c).
Definition set_moved {A} (v : bool) (c : Connection A) : Connection A :=
  mkConn (key c) (conn_timer_mgr c) (timers c) (orig_addr c) (resp_addr c) (orig_port c)
    (resp_port c) (proto c) (orig_flow_label c) (resp_flow_label c) (start_time c) (last_time c)
    (inactivity_timeout c) (has_conn_val c) (has_login_conn c) (suppress_event c) (flags c)
    (hist c) (root_analyzer c) (uid c) v (dirty c) (dirty_backoff c) (getOpId c).
Definition set_dirty {A} (v : option bool) (c : Connection A) : Connection A :=
  mkConn (key c) (conn_timer_mgr c) (timers c) (orig_addr c) (resp_addr c) (orig_port c)
    (resp_port c) (proto c) (orig_flow_label c) (resp_flow_label c) (start_time c) (last_time c)
    (inactivity_timeout c) (has_conn_val c) (has_login_conn c) (suppress_event c) (flags c)
    (hist c) (root_analyzer c) (uid c) (moved c) v (dirty_backoff c) (getOpId c).
Definition set_dirty_backoff {A} (v : option Z) (c : Connection A) : Connection A :=
  mkConn (key c) (conn_timer_mgr c) (timers c) (orig_addr c) (resp_addr c) (orig_port c)
    (resp_port c) (proto c) (orig_flow_label c) (resp_flow_label c) (start_time c) (last_time c)
    (inactivity_timeout c) (has_conn_val c) (has_login_conn c) (suppress_event c) (flags c)
    (hist c) (root_analyzer c) (uid c) (moved c) (dirty c) v (getOpId c).
Definition set_getOpId {A} (v : option Z) (c : Connection A) : Connection A :=
  mkConn (key c) (conn_timer_mgr c) (timers c) (orig_addr c) (resp_addr c) (orig_port c)
    (resp_port c) (proto c) (orig_flow_label c) (resp_flow_label c) (start_time c) (last_time c)
    (inactivity_timeout c) (has_conn_val c) (has_login_conn c) (suppress_event c) (flags c)
    (hist c) (root_analyzer c) (uid c) (moved c) (dirty c) (dirty_backoff c) v.

Inductive effect :=
  | Event (name : string)
  | Weird (name : string)
  | FlowLabelChanged (is_orig : bool) (before now : Z)
  | RemoveFromSessions.

#[global] Instance effect_eq_dec : EqDecision effect.
Proof. solve_decision. Defined.

Record World := mkWorld {
  total_connections : Z; current_connections : Z; external_connections : Z;
  killed_by_inactivity : Z;
  pending : list Timer; next_id : nat;
  network_time : double;
  log : list effect;
  gap_stats : TR.GapStats
}.

Definition emit (e : effect) (w : World) : World :=
  mkWorld (total_connections w) (current_connections w) (external_connections w) (killed_by_inactivity w)
    (pending w) (next_id w) (network_time w) (log w ++ [e]) (gap_stats w).
Definition set_pending (v : list Timer) (w : World) : World :=
  mkWorld (total_connections w) (current_connections w) (external_connections w) (killed_by_inactivity w)
    v (next_id w) (network_time w) (log w) (gap_stats w).
Definition count_killed (w : World) : World :=
  mkWorld (total_connections w) (current_connections w) (external_connections w)
    (uint32 (killed_by_inactivity w + 1)) (pending w) (next_id w) (network_time w) (log w) (gap_stats w).
Definition count_connections (total current external : Z) (w : World) : World :=
  mkWorld (uint32 (total_connections w + total)) (uint32 (current_connections w + current))
    (uint32 (external_connections w + external)) (killed_by_inactivity w)
    (pending w) (next_id w) (network_time w) (log w) (gap_stats w).

Definition set_next_id (v : nat) (w : World) : World :=
  mkWorld (total_connections w) (current_connections w) (external_connections w) (killed_by_inactivity w)
    (pending w) v (network_time w) (log w) (gap_stats w).
Definition set_gap_stats (v : TR.GapStats) (w : World) : World :=
  mkWorld (total_connections w) (current_connections w) (external_connections w) (killed_by_inactivity w)
    (pending w) (next_id w) (network_time w) (log w) v.

(** The options of the policy script. *)
Record config := mkConfig {
  connection_status_update : bool;
  connection_status_update_interval : double;
  connection_flow_label_changed : bool
}.

(** What the connection needs of the analyzer at the root of its tree. *)
Class Analyzer (A : Type) := {
  an_IsReuse : double → bytes → A → bool;
  an_IsFinished : A → bool;
  (* [None] is an internal error *)
  an_Done : A → World → option (A * World);
  an_FlipRoles : A → E.TCPStateStats → A * E.TCPStateStats;
  an_Moved : A → A;
  (* a packet, from the transport header on, with its length and captured
     length; the analyzer works on the connection it belongs to *)
  an_NextPacket : double → bool → IP.IP_Hdr → bytes → Z → Z →
    Connection A * World * E.TCPStateStats → option (Connection A * World * E.TCPStateStats);
  (* a timer of the analyzer, by its address, at a time, or when the process ends *)
  an_fire : nat → double → bool → Connection A * World → option (Connection A * World);
  (* what is left of it after archiving and restoring *)
  an_restore : A → A;
  (* the states of its endpoints, if it is a TCP analyzer *)
  an_states : A → option (E.EndpointState * E.EndpointState)
}.

Section operations.
Context {A : Type} `{Analyzer A}.
Variable cfg : config.

Abbreviation state := (Connection A * World)%type (only parsing).

(** Change a bit field. *)
Definition with_flags (f : ConnFlags → ConnFlags) (c : Connection A) : Connection A := set_flags (f (flags c)) c.

(** ** Timers *)

Definition AddTimer (f : TimerFunc) (t : double) (do_expire : bool) (s : state) : state :=
  let '(c, w) := s in
  if timers_canceled (flags c) then s
  else match key c with
  | None => s
  | Some _ =>
    let tm := mkTimer (next_id w) f t do_expire in
    (set_timers (timers c ++ [tm]) c,
     mkWorld (total_connections w) (current_connections w) (external_connections w) (killed_by_inactivity w)
       (pending w ++ [tm]) (S (next_id w)) (network_time w) (log w) (gap_stats w))
  end.

(** [timers.remove(t)] removes the pointer, if it is there. *)
Definition RemoveTimer (tm : Timer) (c : Connection A) : Connection A :=
  set_timers (filter (λ x, t_id x ≠ t_id tm) (timers c)) c.

(** Cancelling a timer deletes it, which calls [RemoveTimer]. *)
Definition CancelTimers (s : state) : state :=
  let '(c, w) := s in
  let w := set_pending (filter (λ x, t_id x ∉ t_id <$> timers c) (pending w)) w in
  let c := with_flags (set_timers_canceled true) (foldl (λ c tm, RemoveTimer tm c) c (timers c)) in
  (set_timers [] c, w).

Definition emit_event (e : effect) (s : state) : state := (s.1, emit e s.2).

(** ** The constructors and the destructor *)

(** [rp] and [rc] are the initial values of two fields that are not initialized. *)
Definition Connection_new (k : ConnKey) (t : double) (id : ConnID) (flow : Z) (tag : option nat)
    (rp rc : bool) (w : World) : state :=
  let c := mkConn (Some k) tag [] (src_addr id) (dst_addr id) (src_port id) (dst_port id) TRANSPORT_UNKNOWN flow 0
    t t (double_of_Z 0) false false 0
    (mkFlags false false true false false false true true false rp rc true false)
    (E.mkHistory 0 EmptyString) None 0 false None None None in
  let w := count_connections 1 1 0 w in
  match tag with
  | None => (c, w)
  | Some _ => AddTimer RemoveConnectionTimer_f (double_of_Z 100000000000000000000) true (c, count_connections 0 0 1 w)
  end.

(** The destructor; [None] is its internal error.  [conn_timer_mgr] is tested
    after it was deleted, but not reset. *)
Definition Connection_delete (s : state) : option World :=
  if negb (finished (flags s.1)) && negb (moved s.1) then None
  else
    let '(c, w) := CancelTimers s in
    Some (count_connections 0 (-1) (match conn_timer_mgr c with Some _ => -1 | None => 0 end) w).

Definition Done (s : state) : option state :=
  let c := with_flags (set_finished true) s.1 in
  match root_analyzer c with
  | Some a =>
    if an_IsFinished a then Some (c, s.2)
    else '(a, w) ← an_Done a s.2; Some (set_root_analyzer (Some a) c, w)
  | None => Some (c, s.2)
  end.

(** ** The timer functions *)

Definition IsActive (c : Connection A) : bool := is_active (flags c).

Definition DeleteTimer (s : state) : state :=
  let s := if IsActive s.1 then emit_event (Event "connection_timeout") s else s in
  emit_event RemoveFromSessions s.

Definition InactivityTimer (t : double) (s : state) : state :=
  let c := s.1 in
  if deq (inactivity_timeout c) (double_of_Z 0) then s
  else if dle (dadd (last_time c) (inactivity_timeout c)) t then
    let s := emit_event RemoveFromSessions (emit_event (Event "connection_timeout") s) in
    (s.1, count_killed s.2)
  else AddTimer InactivityTimer_f (dadd (last_time c) (inactivity_timeout c)) false s.

Definition StatusUpdateTimer (s : state) : state :=
  let s := emit_event (Event "connection_status_update") s in
  AddTimer StatusUpdateTimer_f (dadd (network_time s.2) (connection_status_update_interval cfg)) false s.

Definition RemoveConnectionTimer (s : state) : state :=
  emit_event RemoveFromSessions (emit_event (Event "connection_state_remove") s).

Definition run_timer (f : TimerFunc) (t : double) (s : state) : state :=
  match f with
  | DeleteTimer_f => DeleteTimer s
  | InactivityTimer_f => InactivityTimer t s
  | StatusUpdateTimer_f => StatusUpdateTimer s
  | RemoveConnectionTimer_f => RemoveConnectionTimer s
  end.

Definition Dispatch (tm : Timer) (t : double) (is_expire : bool) (s : state) : state :=
  if is_expire && negb (t_do_expire tm) then s
  else run_timer (t_func tm) t (RemoveTimer tm s.1, s.2).

(** The timer manager takes a timer from its queue, dispatches it and deletes it. *)
Definition fire (tm : Timer) (t : double) (is_expire : bool) (s : state) : state :=
  let s := (s.1, set_pending (filter (λ x, t_id x ≠ t_id tm) (pending s.2)) s.2) in
  let s := Dispatch tm t is_expire s in
  (RemoveTimer tm s.1, s.2).

Definition SetLifetime (lifetime : double) (s : state) : state :=
  AddTimer DeleteTimer_f (dadd (network_time s.2) lifetime) false s.

Definition SetInactivityTimeout (timeout : double) (s : state) : state :=
  let s := if deq timeout (double_of_Z 0) then s
           else AddTimer InactivityTimer_f (dadd (last_time s.1) timeout) false s in
  (set_inactivity_timeout timeout s.1, s.2).

Definition EnableStatusUpdateTimer (s : state) : state :=
  if connection_status_update cfg && negb (deq (connection_status_update_interval cfg) (double_of_Z 0)) then
    let s := AddTimer StatusUpdateTimer_f (dadd (network_time s.2) (connection_status_update_interval cfg)) false s in
    (with_flags (set_installed_status_timer true) s.1, s.2)
  else s.

(** ** Packets *)

Definition Skipping (c : Connection A) : bool := skip (flags c).

(** The result also has the statistics and what is to be recorded. *)
Definition NextPacket (t : double) (is_orig : bool) (ip : IP.IP_Hdr) (data : bytes) (len caplen : Z)
    (record_packet record_content : bool) (c : Connection A) (w : World) (st : E.TCPStateStats)
    : option (Connection A * World * E.TCPStateStats * (bool * bool)) :=
  if Skipping c then Some (c, w, st, (record_packet, record_content))
  else match root_analyzer c with
  | Some _ =>
    let c := with_flags (λ f, set_record_current_content record_content (set_record_current_packet record_packet f)) c in
    '(c, w, st) ← an_NextPacket t is_orig ip data len caplen (c, w, st);
    Some (c, w, st, (record_current_packet (flags c), record_current_content (flags c)))
  | None => Some (set_last_time t c, w, st, (record_packet, record_content))
  end.

Definition IsReuse (t : double) (pkt : bytes) (c : Connection A) : bool :=
  match root_analyzer c with Some a => an_IsReuse t pkt a | None => false end.

Definition CheckFlowLabel (is_orig : bool) (flow_label : Z) (s : state) : state :=
  let '(c, w) := s in
  let my_flow_label := if is_orig then orig_flow_label c else resp_flow_label c in
  let s :=
    if negb (my_flow_label =? flow_label)%Z then
      let saw := if is_orig then saw_first_orig_packet (flags c) else saw_first_resp_packet (flags c) in
      let w := if connection_flow_label_changed cfg && saw
               then emit (FlowLabelChanged is_orig my_flow_label flow_label) w else w in
      ((if is_orig then set_orig_flow_label flow_label c else set_resp_flow_label flow_label c), w)
    else (c, w) in
  (with_flags (if is_orig then set_saw_first_orig_packet true else set_saw_first_resp_packet true) s.1, s.2).

Definition conn_Weird (name : string) (s : state) : state :=
  emit_event (Weird name) (with_flags (set_weird true) s.1, s.2).

(** [FlagEvent] suppresses all but the first of each of [NUM_EVENTS_TO_FLAG] kinds. *)
Definition NUM_EVENTS_TO_FLAG : Z := 3.
Definition FlagEvent (e : Z) (c : Connection A) : bool * Connection A :=
  if (0 <=? e)%Z && (e <? NUM_EVENTS_TO_FLAG)%Z then
    if negb (Z.land (suppress_event c) (Z.shiftl 1 e) =? 0)%Z then (false, c)
    else (true, set_suppress_event (Z.lor (suppress_event c) (Z.shiftl 1 e)) c)
  else (true, c).

Definition FlipRoles (c : Connection A) (st : E.TCPStateStats) : Connection A * E.TCPStateStats :=
  let tmp_addr := resp_addr c in
  let f := flags c in
  let fl a := mkConn (key c) (conn_timer_mgr c) (timers c) (resp_addr c) tmp_addr (resp_port c) (orig_port c)
    (proto c) (resp_flow_label c) (orig_flow_label c) (start_time c) (last_time c) (inactivity_timeout c)
    false (has_login_conn c) (suppress_event c)
    (set_saw_first_orig_packet (saw_first_resp_packet f) (set_saw_first_resp_packet (saw_first_orig_packet f) f))
    (hist c) a (uid c) (moved c) (dirty c) (dirty_backoff c) (getOpId c) in
  match root_analyzer c with
  | Some a => let '(a, st) := an_FlipRoles a st in (fl (Some a), st)
  | None => (fl None, st)
  end.

(** ** Moving *)

Definition Moved (c : Connection A) : Connection A :=
  let c := set_moved true c in
  match root_analyzer c with Some a => set_root_analyzer (Some (an_Moved a)) c | None => c end.
Definition HasMoved (c : Connection A) : bool := moved c.
Definition setGetOpId (opId : Z) (c : Connection A) : Connection A := set_getOpId (Some opId) c.

(** The bit fields travel as one word. *)
Definition save_bits (f : ConnFlags) : Z :=
  foldl Z.lor 0%Z
    [bit_of (installed_status_timer f) 0; bit_of (timers_canceled f) 1; bit_of (is_active f) 2;
     bit_of (skip f) 3; bit_of (weird f) 4; bit_of (finished f) 5; bit_of (record_packets f) 6;
     bit_of (record_contents f) 7; bit_of (persistent f) 8; bit_of (record_current_packet f) 9;
     bit_of (record_current_content f) 10; bit_of (saw_first_orig_packet f) 11; bit_of (saw_first_resp_packet f) 12].
Definition load_bits (w : Z) : ConnFlags :=
  mkFlags (bit_at w 0) (bit_at w 1) (bit_at w 2) (bit_at w 3) (bit_at w 4) (bit_at w 5) (bit_at w 6)
    (bit_at w 7) (bit_at w 8) (bit_at w 9) (bit_at w 10) (bit_at w 11) (bit_at w 12).

(** What [serialize] writes and reads, in order. *)
Record archive := mkArchive {
  ar_key : option ConnKey;
  ar_orig_addr : bytes; ar_resp_addr : bytes; ar_orig_port : Z; ar_resp_port : Z;
  ar_proto : TransportProto; ar_orig_flow_label : Z; ar_resp_flow_label : Z;
  ar_start_time : double; ar_last_time : double; ar_inactivity_timeout : double;
  ar_has_login_conn : bool; ar_suppress_event : Z; ar_bitfields : Z;
  ar_hist : E.History; ar_root_analyzer : option A; ar_uid : Z
}.

Definition serialize (c : Connection A) : archive :=
  mkArchive (key c) (orig_addr c) (resp_addr c) (orig_port c) (resp_port c) (proto c)
    (orig_flow_label c) (resp_flow_label c) (start_time c) (last_time c) (inactivity_timeout c)
    (has_login_conn c) (suppress_event c) (save_bits (flags c)) (hist c) (root_analyzer c) (uid c).

(** The default constructor, and then the archive: the timer manager, the
    timers and [conn_val] are not in it.  No counter is touched.  The constructor
    leaves [conn_val], the tag of the manager and the marks [dirty], [dirty_backoff]
    and [getOpId] uninitialized; here they are absent. *)
Definition unserialize (a : archive) : Connection A :=
  mkConn (ar_key a) None [] (ar_orig_addr a) (ar_resp_addr a) (ar_orig_port a) (ar_resp_port a)
    (ar_proto a) (ar_orig_flow_label a) (ar_resp_flow_label a) (ar_start_time a) (ar_last_time a)
    (ar_inactivity_timeout a) false (ar_has_login_conn a) (ar_suppress_event a) (load_bits (ar_bitfields a))
    (ar_hist a) (an_restore <$> ar_root_analyzer a) (ar_uid a) false None None None.

End operations.
Arguments archive A : clear implicits.

(** The letter that stands for the function of a timer in an archive. *)
Definition timer_type (f : TimerFunc) : string :=
  match f with
  | DeleteTimer_f => "D" | InactivityTimer_f => "I" | StatusUpdateTimer_f => "S" | RemoveConnectionTimer_f => "R"
  end.
Definition timer_of_type (c : string) : option TimerFunc :=
  if decide (c = "D"%string) then Some DeleteTimer_f
  else if decide (c = "I"%string) then Some InactivityTimer_f
  else if decide (c = "S"%string) then Some StatusUpdateTimer_f
  else if decide (c = "R"%string) then Some RemoveConnectionTimer_f
  else None.

(** ** The key *)

Lemma addr_lt_irrefl a : addr_lt a a = false.
Proof. elim: a => [|x a IH] //=. by rw Z.ltb_irrefl IH andb_false_r. Qed.

Lemma addr_lt_total a b : length a = length b → a ≠ b → addr_lt a b = negb (addr_lt b a).
Proof.
  elim: a b => [|x a IH] [|y b] //= [Hl] Hne.
  case: (Z.lt_trichotomy x y) => [Hlt|[He|Hgt]].
  - have -> : (x <? y)%Z = true by lia. have -> : (y <? x)%Z = false by lia.
    by have -> : (y =? x)%Z = false by lia.
  - subst y. rw Z.ltb_irrefl Z.eqb_refl /=. apply IH => // Hab. by subst.
  - have -> : (x <? y)%Z = false by lia. have -> : (y <? x)%Z = true by lia.
    by have -> : (x =? y)%Z = false by lia.
Qed.

Lemma canon_total a1 p1 a2 p2 :
  length a1 = length a2 → (a1, p1) ≠ (a2, p2) →
  addr_port_canon_lt a1 p1 a2 p2 = negb (addr_port_canon_lt a2 p2 a1 p1).
Proof.
  move=> Hl Hne. rw /addr_port_canon_lt.
  case: (decide (a1 = a2)) => [He|Ha].
  - subst a2. rw addr_lt_irrefl (bool_decide_eq_true_2 (a1 = a1)) //=.
    have : p1 ≠ p2 by congruence. lia.
  - rw (bool_decide_eq_false_2 (a1 = a2)) // (bool_decide_eq_false_2 (a2 = a1)) //=.
    by rw !orb_false_r addr_lt_total.
Qed.

(** The identifier seen from the other side. *)
Definition reverse (id : ConnID) : ConnID :=
  mkID (dst_addr id) (src_addr id) (dst_port id) (src_port id) (is_one_way id).

Definition id_ok (id : ConnID) : Prop :=
  length (src_addr id) = length (dst_addr id) ∧
  (0 <= src_port id < 2 ^ 16)%Z ∧ (0 <= dst_port id < 2 ^ 16)%Z ∧ is_one_way id = false.

Lemma BuildConnIDHashKey_reverse id : id_ok id → BuildConnIDHashKey (reverse id) = BuildConnIDHashKey id.
Proof.
  move=> [Hl [Hs [Hd Hw]]]. rw /BuildConnIDHashKey /= Hw /=.
  case: (decide ((src_addr id, src_port id) = (dst_addr id, dst_port id))) => [[Ha Hp]|Hne].
  - by rw Ha Hp; case: addr_port_canon_lt.
  - rw (canon_total (src_addr id)) //. by case: addr_port_canon_lt.
Qed.

(** Up to the direction, the key has the whole identifier. *)
Lemma BuildConnIDHashKey_cases id :
  id_ok id →
  ∃ i, (i = id ∨ i = reverse id) ∧
    BuildConnIDHashKey id = mkKey (src_addr i) (dst_addr i) (src_port i) (dst_port i).
Proof.
  move=> [Hl [Hs [Hd Hw]]]. rw /BuildConnIDHashKey Hw /=.
  rw !uint16_small //. case: addr_port_canon_lt; eauto.
Qed.

(** C18. Two connections, of which the order of the addresses does not matter,
    have the same key exactly if one is the other or the other seen from its
    responder. *)
Theorem BuildConnIDHashKey_canonical id id' (Hok : id_ok id) (Hok' : id_ok id') :
  BuildConnIDHashKey id = BuildConnIDHashKey id' ↔ id' = id ∨ id' = reverse id.
Proof.
  split; last by case=> ->; rw ?BuildConnIDHashKey_reverse.
  have [i [Hi ->]] := BuildConnIDHashKey_cases _ Hok.
  have [j [Hj ->]] := BuildConnIDHashKey_cases _ Hok'.
  move: Hok Hok' Hi Hj => [_ [_ [_ Hw]]] [_ [_ [_ Hw']]].
  destruct id, id'; simpl in *; subst.
  by case=> ->; case=> -> [*]; simplify_eq/=; auto.
Qed.

Lemma BuildConnIDHashKey_canonical_witness :
  let id := mkID [10;0;0;1]%Z [10;0;0;2]%Z 40000 80 false in
  BuildConnIDHashKey id = BuildConnIDHashKey (reverse id).
Proof.
  apply (BuildConnIDHashKey_canonical (mkID [10;0;0;1]%Z [10;0;0;2]%Z 40000 80 false)).
  - repeat split; simpl; lia.
  - repeat split; simpl; lia.
  - by right.
Defined.

(** ** Moving a connection *)

Lemma load_save_bits f : load_bits (save_bits f) = f.
Proof. destruct f. rw /load_bits /save_bits /=. f_equal; read_bits. Qed.

(** What a connection is after it was archived and restored in another
    process: everything but the timers and their manager, the value for scripts
    and the marks of the move itself; the analyzer loses what [an_restore] says. *)
Theorem conn_serialize_roundtrip {A} `{Analyzer A} (c : Connection A) :
  unserialize (serialize c) =
  mkConn (key c) None [] (orig_addr c) (resp_addr c) (orig_port c) (resp_port c) (proto c)
    (orig_flow_label c) (resp_flow_label c) (start_time c) (last_time c) (inactivity_timeout c)
    false (has_login_conn c) (suppress_event c) (flags c) (hist c) (an_restore <$> root_analyzer c) (uid c)
    false None None None.
Proof. destruct c. by rw /unserialize /serialize /= load_save_bits. Qed.

(** ** Timers *)

(** What the theorems below need of the connection's own operations. *)
Inductive conn_op :=
  | OpSetLifetime (lifetime : double)
  | OpSetInactivityTimeout (timeout : double)
  | OpEnableStatusUpdateTimer
  | OpCancelTimers
  | OpFire (n : nat) (t : double) (is_expire : bool).

Section timers.
Context {A : Type} `{Analyzer A}.
Variable cfg : config.
Implicit Types (c : Connection A) (w : World) (s : Connection A * World).

(** [OpFire n] fires the [n]-th timer of the connection. *)
Definition conn_step (o : conn_op) s : Connection A * World :=
  match o with
  | OpSetLifetime d => SetLifetime d s
  | OpSetInactivityTimeout d => SetInactivityTimeout d s
  | OpEnableStatusUpdateTimer => EnableStatusUpdateTimer cfg s
  | OpCancelTimers => CancelTimers s
  | OpFire n t e => match timers s.1 !! n with Some tm => fire cfg tm t e s | None => s end
  end.

(** The manager has the timers of the connection and [others]. *)
Definition timers_ok (others : list Timer) s : Prop :=
  pending s.2 ≡ₚ timers s.1 ++ others ∧
  NoDup (t_id <$> pending s.2) ∧
  (∀ tm, tm ∈ pending s.2 → t_id tm < next_id s.2) ∧
  (timers_canceled (flags s.1) = true → timers s.1 = []).

Lemma AddTimer_ok others f t e s : timers_ok others s → timers_ok others (AddTimer f t e s).
Proof.
  case: s => c w [/= Hp [Hnd [Hid Hc]]]. rw /AddTimer.
  case Et: (timers_canceled (flags c)) => //. case: (key c) => // k.
  split_and! => /=.
  - rw Hp. by rw -!app_assoc (Permutation_app_comm others).
  - rw fmap_app /=. apply NoDup_app; split_and! => //; last by apply NoDup_singleton.
    move=> i /list_elem_of_fmap [tm [-> /Hid Hlt]] /list_elem_of_singleton. lia.
  - move=> tm /elem_of_app [/Hid|/list_elem_of_singleton -> /=]; lia.
  - by rw Et.
Qed.


(** A timer that was taken from the manager does not come back. *)
Definition gone (i : nat) s : Prop := (i ∉ t_id <$> pending s.2) ∧ i < next_id s.2.

Lemma AddTimer_gone i f t e s : gone i s → gone i (AddTimer f t e s).
Proof.
  case: s => c w [/= Hi Hlt]. rw /AddTimer.
  case: (timers_canceled _) => //. case: (key c) => // k. split => /=; last by lia.
  rw fmap_app elem_of_app /= list_elem_of_singleton. by move=> [|?]; [|lia].
Qed.

(** Whatever only looks at these parts is the same. *)
Lemma timers_ok_ext others s s' :
  timers s'.1 = timers s.1 → timers_canceled (flags s'.1) = timers_canceled (flags s.1) →
  pending s'.2 = pending s.2 → next_id s'.2 = next_id s.2 →
  timers_ok others s → timers_ok others s'.
Proof. rw /timers_ok. by move=> -> -> -> ->. Qed.

Lemma filter_others (P : Timer → Prop) `{∀ x, Decision (P x)} (l : list Timer) :
  (∀ tm, tm ∈ l → P tm) → filter P l = l.
Proof.
  elim: l => //= x l IH Hp. rw filter_cons_True; last by apply Hp; left.
  rw IH // => tm Ht. apply Hp. by right.
Qed.

Lemma filter_none (P : Timer → Prop) `{∀ x, Decision (P x)} (l : list Timer) :
  (∀ tm, tm ∈ l → ¬ P tm) → filter P l = [].
Proof.
  elim: l => //= x l IH Hp. rw filter_cons_False; last by apply Hp; left.
  apply IH => tm Ht. apply Hp. by right.
Qed.

(** The ids of the timers of the connection and of the others are distinct. *)
Lemma timers_ok_distinct others s x y :
  timers_ok others s → x ∈ timers s.1 → y ∈ others → t_id x ≠ t_id y.
Proof.
  move=> [Hp [Hnd _]] Hx Hy Hxy. rw Hp fmap_app in Hnd.
  move: Hnd => /NoDup_app [_ [Hd _]]. apply (Hd (t_id x)).
  - by apply list_elem_of_fmap_2.
  - rw Hxy. by apply list_elem_of_fmap_2.
Qed.

(** Taking timers away keeps the rest. *)
Lemma filter_ok others s (P : Timer → Prop) `{∀ x, Decision (P x)} c' :
  timers_ok others s → (∀ tm, tm ∈ others → P tm) →
  timers c' = filter P (timers s.1) →
  (timers_canceled (flags c') = true → timers c' = []) →
  timers_ok others (c', set_pending (filter P (pending s.2)) s.2).
Proof.
  move=> [Hp [Hnd [Hid Hc]]] Ho Ht Hc'. split_and! => //=.
  - by rw Ht Hp filter_app (filter_others P others).
  - apply (sublist_NoDup _ (t_id <$> pending s.2)) => //.
    by apply fmap_sublist, sublist_filter.
  - move=> tm /list_elem_of_filter [_ /Hid]. done.
Qed.

Lemma set_timers_twice u v c : set_timers v (set_timers u c) = set_timers v c.
Proof. done. Qed.

Lemma foldl_RemoveTimer l c :
  foldl (λ c tm, RemoveTimer tm c) c l = set_timers (filter (λ x, t_id x ∉ t_id <$> l) (timers c)) c.
Proof.
  elim: l c => [|y l IH] c /=.
  - rw (filter_others (λ x, t_id x ∉ [])); first by case: c. move=> tm _. by apply not_elem_of_nil.
  - rw IH /RemoveTimer set_timers_twice /=. f_equal. rw list_filter_filter. apply list_filter_iff => x.
    rw not_elem_of_cons. tauto.
Qed.

Lemma CancelTimers_ok others s :
  timers_ok others s →
  timers_ok others (CancelTimers s) ∧ timers_canceled (flags (CancelTimers s).1) = true ∧
  pending (CancelTimers s).2 ≡ₚ others.
Proof.
  move=> Hok. have Hd := timers_ok_distinct _ _ _ _ Hok. move: Hok Hd. case: s => c w Hok /= Hd.
  have Ho tm : tm ∈ others → t_id tm ∉ t_id <$> timers c.
  { move=> Ht /list_elem_of_fmap [x [He Hx]]. by apply (Hd x tm). }
  have Hn : filter (λ x, t_id x ∉ t_id <$> timers c) (timers c) = [].
  { apply filter_none => tm Ht Hx. apply Hx. by apply list_elem_of_fmap_2. }
  rw /CancelTimers. cbn [fst snd].
  have Hc' : timers_ok others (set_timers [] (with_flags (set_timers_canceled true)
    (foldl (λ c tm, RemoveTimer tm c) c (timers c))),
    set_pending (filter (λ x, t_id x ∉ t_id <$> timers c) (pending w)) w).
  { by apply (filter_ok others (c, w)) => //=. }
  split_and! => //=. by destruct Hc' as [Hp _].
Qed.


(** The functions of the timers only add timers. *)
Lemma run_timer_keeps (P : Connection A * World → Prop) f t s :
  (∀ f t e s, P s → P (AddTimer f t e s)) →
  (∀ e s, P s → P (emit_event e s)) → (∀ s, P s → P (s.1, count_killed s.2)) →
  P s → P (run_timer cfg f t s).
Proof.
  move=> Hadd Hemit Hkill HP. case: f => /=.
  - rw /DeleteTimer. case: (IsActive _); auto.
  - rw /InactivityTimer. destruct (deq _ _); first done. destruct (dle _ _); auto.
  - rw /StatusUpdateTimer; auto.
  - rw /RemoveConnectionTimer; auto.
Qed.

Lemma run_timer_ok others f t s : timers_ok others s → timers_ok others (run_timer cfg f t s).
Proof. apply run_timer_keeps => //. move=> *. by apply AddTimer_ok. Qed.

Lemma run_timer_gone i f t s : gone i s → gone i (run_timer cfg f t s).
Proof. apply run_timer_keeps => //. move=> *. by apply AddTimer_gone. Qed.

(** Removing a timer that is not pending changes nothing. *)
Lemma RemoveTimer_gone others tm s :
  timers_ok others s → gone (t_id tm) s → timers_ok others (RemoveTimer tm s.1, s.2).
Proof.
  move=> Hok [Hg _]. apply (timers_ok_ext _ s) => //=. apply filter_others => x Hx He.
  apply Hg. rw -He. apply list_elem_of_fmap_2. move: Hok => [Hp _]. rw Hp. apply elem_of_app. by left.
Qed.

Lemma fire_ok others tm t e s :
  timers_ok others s → tm ∈ timers s.1 → timers_ok others (fire cfg tm t e s).
Proof.
  move=> Hok Ht. rw /fire. set w := set_pending _ s.2.
  have Hrem : timers_ok others (RemoveTimer tm s.1, w).
  { apply (filter_ok others s (λ x, t_id x ≠ t_id tm)) => //=.
    - move=> y Hy Hxy. by apply (timers_ok_distinct _ _ _ _ Hok Ht Hy).
    - move: Hok => [_ [_ [_ Hc]]] /Hc Hn. by rw Hn in Ht; apply elem_of_nil in Ht. }
  have Hg : gone (t_id tm) (RemoveTimer tm s.1, w).
  { split => /=.
    - move=> /list_elem_of_fmap [x [He /list_elem_of_filter [Hne _]]]. by apply Hne.
    - move: Hok => [Hp [_ [Hid _]]]. apply Hid. rw Hp. apply elem_of_app. by left. }
  rw /Dispatch /=. case: (e && negb (t_do_expire tm)); first by exact Hrem.
  apply (RemoveTimer_gone others); by [apply run_timer_ok|apply run_timer_gone].
Qed.

Lemma conn_step_ok others o s : timers_ok others s → timers_ok others (conn_step o s).
Proof.
  move=> Hok. case: o => [d|d| | |n t e] /=.
  - by apply AddTimer_ok.
  - rw /SetInactivityTimeout. apply: (timers_ok_ext _ (if deq d (double_of_Z 0) then s else _)) => //.
    case: (deq _ _) => //. by apply AddTimer_ok.
  - rw /EnableStatusUpdateTimer. case: (_ && _) => //.
    apply: (timers_ok_ext _ (AddTimer _ _ _ s)) => //. by apply AddTimer_ok.
  - by apply CancelTimers_ok.
  - case En: (timers s.1 !! n) => [tm|] //. apply fire_ok => //. by eapply list_elem_of_lookup_2.
Qed.

(** Once the timers are canceled, they stay so. *)
Lemma conn_step_canceled o s :
  timers_canceled (flags s.1) = true → timers_canceled (flags (conn_step o s).1) = true.
Proof.
  have Hadd f t e s' : timers_canceled (flags s'.1) = true → timers_canceled (flags (AddTimer f t e s').1) = true.
  { case: s' => c w /= Hc. by rw /AddTimer Hc. }
  move=> Hc. case: o => [d|d| | |n t e] /=.
  - by apply Hadd.
  - rw /SetInactivityTimeout /=. case: (deq _ _) => //=. by apply Hadd.
  - rw /EnableStatusUpdateTimer. case: (_ && _) => //=. by apply (Hadd _ _ _ s).
  - by case: s Hc.
  - case: (timers s.1 !! n) => [tm|] //=. rw /Dispatch /=. case: (_ && _) => //=.
    by apply run_timer_keeps.
Qed.


Definition run_ops (ops : list conn_op) s : Connection A * World := foldl (λ s o, conn_step o s) s ops.

Lemma run_ops_ok others ops s : timers_ok others s → timers_ok others (run_ops ops s).
Proof. elim: ops s => //= o ops IH s Hok. by apply IH, conn_step_ok. Qed.

Lemma run_ops_canceled ops s :
  timers_canceled (flags s.1) = true → timers_canceled (flags (run_ops ops s).1) = true.
Proof. elim: ops s => //= o ops IH s Hc. by apply IH, conn_step_canceled. Qed.

Lemma run_ops_after_cancel ops s :
  OpCancelTimers ∈ ops → timers_canceled (flags (run_ops ops s).1) = true.
Proof.
  elim: ops s => [|o ops IH] s; first by move/elem_of_nil.
  move/elem_of_cons => [<-|Hin] /=; last by apply IH.
  apply run_ops_canceled. by case: s.
Qed.

Lemma Connection_new_ok k t id flow tag rp rc w :
  NoDup (t_id <$> pending w) → (∀ tm, tm ∈ pending w → t_id tm < next_id w) →
  timers_ok (pending w) (Connection_new k t id flow tag rp rc w).
Proof.
  move=> Hnd Hid. rw /Connection_new. case: tag => [n|] //. apply AddTimer_ok. by split_and!.
Qed.

(** C15. Whatever happens to a connection and whichever of its timers fire, the
    timer manager has exactly the timers on its list besides those of other
    connections, with no timer twice; and once its timers were canceled there
    are none, and none is ever added. *)
Theorem conn_timers_owned k t id flow tag rp rc w ops
    (Hnd : NoDup (t_id <$> pending w)) (Hid : ∀ tm, tm ∈ pending w → t_id tm < next_id w) :
  let s := run_ops ops (Connection_new k t id flow tag rp rc w) in
  pending s.2 ≡ₚ timers s.1 ++ pending w ∧ NoDup (t_id <$> pending s.2) ∧
  (OpCancelTimers ∈ ops → timers s.1 = [] ∧ pending s.2 ≡ₚ pending w).
Proof.
  move=> s. have [Hp [Hn [_ Hc]]] : timers_ok (pending w) s by apply run_ops_ok, Connection_new_ok.
  split_and! => // Hin. have Ht : timers s.1 = [] by apply Hc, run_ops_after_cancel.
  by rw Ht in Hp.
Qed.

End timers.

(** ** Concrete inputs *)

(** An analyzer that does nothing. *)
#[global] Instance unit_analyzer : Analyzer unit := {
  an_IsReuse _ _ _ := false; an_IsFinished _ := true; an_Done a w := Some (a, w); an_FlipRoles a st := (a, st);
  an_Moved a := a; an_NextPacket _ _ _ _ _ _ s := Some s; an_fire _ _ _ s := Some s; an_restore a := a; an_states _ := None
}.

Definition no_config : config := mkConfig false (double_of_Z 0) false.
Definition no_world : World := mkWorld 0 0 0 0 [] 0 (double_of_Z 0) [] TR.GapStats_new.
Definition some_id : ConnID := mkID [10;0;0;1]%Z [10;0;0;2]%Z 40000 80 false.

Lemma conn_timers_owned_witness :
  let s := run_ops (A := unit) no_config
    [OpSetInactivityTimeout (double_of_Z 60); OpFire 1 (double_of_Z 10) false; OpSetLifetime (double_of_Z 5); OpCancelTimers]
    (Connection_new (BuildConnIDHashKey some_id) (double_of_Z 0) some_id 0 (Some 0) false false
      (mkWorld 0 0 0 0 [mkTimer 7 DeleteTimer_f (double_of_Z 1) false] 8 (double_of_Z 0) [] TR.GapStats_new)) in
  timers s.1 = [] ∧ pending s.2 ≡ₚ [mkTimer 7 DeleteTimer_f (double_of_Z 1) false].
Proof.
  apply (conn_timers_owned (A := unit) no_config (BuildConnIDHashKey some_id) (double_of_Z 0) some_id 0 (Some 0) false false
      (mkWorld 0 0 0 0 [mkTimer 7 DeleteTimer_f (double_of_Z 1) false] 8 (double_of_Z 0) [] TR.GapStats_new)
    [OpSetInactivityTimeout (double_of_Z 60); OpFire 1 (double_of_Z 10) false; OpSetLifetime (double_of_Z 5); OpCancelTimers]).
  - apply NoDup_singleton.
  - move=> tm /list_elem_of_singleton -> /=. lia.
  - do 3 right. left.
Defined.

(** ** Flipping and destroying *)

(** The identifier a packet from the originator has. *)
Definition conn_id {A} (c : Connection A) : ConnID :=
  mkID (orig_addr c) (resp_addr c) (orig_port c) (resp_port c) false.

(** [FlipRoles] gives both sides the address of the responder: unless the
    addresses were equal, the flipped connection is not found any more under
    its own identifier, whose key is not the one it is stored under. *)
Theorem FlipRoles_loses_key {A} `{Analyzer A} (c : Connection A) (st : E.TCPStateStats)
    (Hok : id_ok (conn_id c)) (Hne : orig_addr c ≠ resp_addr c)
    (Hkey : key c = Some (BuildConnIDHashKey (conn_id c))) :
  let c' := (FlipRoles c st).1 in
  orig_addr c' = resp_addr c ∧ resp_addr c' = resp_addr c ∧
  key c' = key c ∧ key c' ≠ Some (BuildConnIDHashKey (conn_id c')).
Proof.
  move=> c'. have [Ho [Hr Hk]] : orig_addr c' = resp_addr c ∧ resp_addr c' = resp_addr c ∧ key c' = key c.
  { rw /c' /FlipRoles. case: (root_analyzer c) => // a. by case: (an_FlipRoles a st). }
  split_and! => //. rw Hk Hkey. move=> [Heq].
  have [i [Hi Hki]] := BuildConnIDHashKey_cases _ Hok. move: Heq. rw Hki.
  rw /BuildConnIDHashKey /= Ho Hr. move=> Heq. apply Hne.
  by destruct Hi as [-> | ->]; move: Heq => /=; case: addr_port_canon_lt => -[].
Qed.

Lemma FlipRoles_loses_key_witness :
  let c := (Connection_new (A := unit) (BuildConnIDHashKey some_id) (double_of_Z 0) some_id 0 None false false no_world).1 in
  key (FlipRoles c E.TCPStateStats_new).1 = key c ∧
  key (FlipRoles c E.TCPStateStats_new).1 ≠ Some (BuildConnIDHashKey (conn_id (FlipRoles c E.TCPStateStats_new).1)).
Proof.
  apply (FlipRoles_loses_key
    (Connection_new (A := unit) (BuildConnIDHashKey some_id) (double_of_Z 0) some_id 0 None false false no_world).1
    E.TCPStateStats_new).
  - repeat split; simpl; lia.
  - done.
  - done.
Defined.

(** A connection that was restored from an archive was never counted, but
    its destruction is: in a process that has only such connections the number
    of current connections wraps to its maximum. *)
Theorem restored_connection_underflow {A} `{Analyzer A} (a : archive A) w
    (Hfin : bit_at (ar_bitfields a) 5 = true) (Hcur : current_connections w = 0%Z) :
  ∃ w', Connection_delete (unserialize a, w) = Some w' ∧ current_connections w' = (2 ^ 32 - 1)%Z ∧
    external_connections w' = uint32 (external_connections w).
Proof.
  rw /Connection_delete /unserialize /= Hfin /=. eexists. split; first by reflexivity.
  by rw /count_connections /= Hcur !Z.add_0_r.
Qed.

Lemma restored_connection_underflow_witness :
  let c := with_flags (set_finished true)
    (Connection_new (A := unit) (BuildConnIDHashKey some_id) (double_of_Z 0) some_id 0 None false false no_world).1 in
  Done (c, no_world) = Some (c, no_world) ∧
  ∃ w', Connection_delete (unserialize (serialize c), no_world) = Some w' ∧ current_connections w' = (2 ^ 32 - 1)%Z ∧
    external_connections w' = uint32 0.
Proof.
  split; [reflexivity|].
  apply (restored_connection_underflow
    (serialize (with_flags (set_finished true)
       (Connection_new (A := unit) (BuildConnIDHashKey some_id) (double_of_Z 0) some_id 0 None false false no_world).1))
    no_world); reflexivity.
Defined.

End C.
