(* ===== verification/Udp.v ===== *)
(** Udp: the analyzer of the UDP protocol, UDP.cc, at the root of a connection.

    A member function is a computation over the analyzer, its connection and the
    counters and log of all connections.  What goes to the script and to the children
    is the list [out]. *)
From S2P Require Import Prelude Double Flow IP NetUtil Endpoint Conn.
From stdpp Require Import strings pretty.
From Stdlib Require Import Ascii.

Module UD.

Abbreviation bytes := (list Z) (only parsing).

(** ** Data *)

Inductive effect :=
  | PacketContents (data : bytes)
  | Contents (is_orig : bool) (data : bytes)
  | ForwardPacket (len : Z) (data : bytes) (is_orig : bool) (seq caplen : Z)
  | Done_c
  | FlipRoles_c
  | Moved_c.

(** [skip], [finished] and [moved] are members of Analyzer; the lengths are [-1] as
    long as there was no packet. *)
Record UDP_Analyzer := mkUDP {
  skip : bool;
  finished : bool;
  moved : bool;
  request_len : Z;
  reply_len : Z;
  out : list effect
}.

Definition set_finished (v : bool) (a : UDP_Analyzer) : UDP_Analyzer := mkUDP (skip a) v (moved a) (request_len a) (reply_len a) (out a).
Definition set_moved (v : bool) (a : UDP_Analyzer) : UDP_Analyzer := mkUDP (skip a) (finished a) v (request_len a) (reply_len a) (out a).
Definition set_request_len (v : Z) (a : UDP_Analyzer) : UDP_Analyzer := mkUDP (skip a) (finished a) (moved a) v (reply_len a) (out a).
Definition set_reply_len (v : Z) (a : UDP_Analyzer) : UDP_Analyzer := mkUDP (skip a) (finished a) (moved a) (request_len a) v (out a).
Definition set_out (v : list effect) (a : UDP_Analyzer) : UDP_Analyzer := mkUDP (skip a) (finished a) (moved a) (request_len a) (reply_len a) v.

Definition sizeof_udphdr : Z := 8.
Definition HIST_ORIG_DATA_PKT : Z := 0x1.
Definition HIST_RESP_DATA_PKT : Z := 0x2.
Definition HIST_ORIG_CORRUPT_PKT : Z := 0x4.
Definition HIST_RESP_CORRUPT_PKT : Z := 0x8.
Definition IPPROTO_UDP : Z := 17.

(** The options of the script; [content_port is_orig port] is the lookup in
    [udp_content_delivery_ports_orig] or [_resp]. *)
Record config := mkConfig {
  udp_inactivity_timeout : double;
  ignore_checksums : bool;
  packet_contents : bool;
  udp_contents : bool;
  udp_content_deliver_all_orig : bool;
  udp_content_deliver_all_resp : bool;
  content_port : bool → Z → bool;
  conn_cfg : C.config
}.

Section operations.
Variable cfg : config.

Record State := mkState { udp : UDP_Analyzer; conn : C.Connection (); world : C.World }.

Definition with_udp (f : UDP_Analyzer → UDP_Analyzer) : M State () := modify (λ s, mkState (f (udp s)) (conn s) (world s)).
Definition on_conn (f : C.Connection () * C.World → C.Connection () * C.World) : M State () :=
  modify (λ s, let '(c, w) := f (conn s, world s) in mkState (udp s) c w).
Definition emit (e : effect) : M State () := with_udp (λ a, set_out (out a ++ [e]) a).
Definition Weird (name : string) : M State () := on_conn (C.conn_Weird name).
Definition Event (name : string) : M State () := on_conn (C.emit_event (C.Event name)).
Definition CheckHistory (mask : Z) (code : Ascii.ascii) : M State () :=
  on_conn (λ s, (C.set_hist (E.conn_CheckHistory mask code (C.hist s.1)).2 s.1, s.2)).

(** The connection of a new analyzer gets the timers of its protocol. *)
Definition UDP_Analyzer_new (c : C.Connection ()) (w : C.World) : State :=
  let '(c, w) := C.EnableStatusUpdateTimer (conn_cfg cfg) (c, w) in
  let '(c, w) := C.SetInactivityTimeout (udp_inactivity_timeout cfg) (c, w) in
  mkState (mkUDP false false false (-1) (-1) []) c w.

Definition uh_dport (up : bytes) : option Z := IP.get16 up 2.
Definition uh_ulen (up : bytes) : option Z := IP.get16 up 4.
Definition uh_sum (up : bytes) : option Z := IP.get16 up 6.

Definition ValidateChecksum (ip : IP.IP_Hdr) (up : bytes) (len : Z) : option bool :=
  sum ← (if (Z.rem len 2 =? 1)%Z then x ← IP.get8 up (len - 1); Some (NU.htons (Z.shiftl x 8)) else Some 0%Z);
  src ← IP.SrcAddr ip; sum ← NU.addr_checksum src sum;
  dst ← IP.DstAddr ip; sum ← NU.addr_checksum dst sum;
  let sum := uint32 (sum + NU.htons IPPROTO_UDP) in
  let sum := uint32 (sum + NU.htons (uint16 len)) in
  sum ← NU.ones_complement_checksum up len sum;
  Some (sum =? 0xffff)%Z.

(** Whether the checksum of a packet is wrong; in IPv4, 0 stands for none. *)
Definition bad_checksum (ip : IP.IP_Hdr) (up : bytes) (len caplen : Z) : option bool :=
  chksum ← uh_sum up;
  if negb (ignore_checksums cfg) && (len <=? caplen)%Z then
    if IP.IP4_Hdr ip && (chksum =? 0)%Z then Some false else negb <$> ValidateChecksum ip up len
  else Some false.

(** [PacketContents] raises the event if there is something. *)
Definition raise_contents (up : bytes) (len caplen : Z) : M State () :=
  let n := int32 (Z.min len caplen - sizeof_udphdr) in
  when (packet_contents cfg && (0 <? n)%Z) (d ← lift (IP.slice up sizeof_udphdr n); emit (PacketContents d)).

(** The data of the packet for the script, for some ports. *)
Definition deliver_contents (up : bytes) (len : Z) (is_orig : bool) : M State () :=
  when (udp_contents cfg)
    (port ← lift (uh_dport up);
     when ((if is_orig then udp_content_deliver_all_orig cfg else udp_content_deliver_all_resp cfg) || content_port cfg is_orig port)
       (d ← lift (IP.slice up sizeof_udphdr len); emit (Contents is_orig d))).

(** What is counted for the direction of a packet. *)
Definition count (is_orig : bool) (ulen : Z) : M State () :=
  if is_orig then
    CheckHistory HIST_ORIG_DATA_PKT "D"%char;;
    with_udp (λ a, set_request_len (if (request_len a <? 0)%Z then ulen else E.int64 (request_len a + ulen)) a);;
    Event "udp_request"
  else
    CheckHistory HIST_RESP_DATA_PKT "d"%char;;
    with_udp (λ a, set_reply_len (if (reply_len a <? 0)%Z then ulen else E.int64 (reply_len a + ulen)) a);;
    Event "udp_reply".

Definition mismatch (ulen len : Z) : string :=
  "UDP_datagram_length_mismatch(" +:+ pretty ulen +:+ "!=" +:+ pretty len +:+ ")".

(** [up] is the packet from the header on, as captured. *)
Definition DeliverPacket (t : double) (len : Z) (up : bytes) (is_orig : bool) (sq : Z) (ip : IP.IP_Hdr) (caplen : Z) : M State () :=
  raise_contents up len caplen;;
  bad ← lift (bad_checksum ip up len caplen);
  if (bad : bool) then
    Weird "bad_UDP_checksum";;
    if is_orig then CheckHistory HIST_ORIG_CORRUPT_PKT "C"%char else CheckHistory HIST_RESP_CORRUPT_PKT "c"%char
  else
    ulen ← lift (uh_ulen up);
    when (negb (ulen =? len)%Z) (Weird (mismatch ulen len));;
    let len := (len - sizeof_udphdr)%Z in
    let ulen := (ulen - sizeof_udphdr)%Z in
    let caplen := (caplen - sizeof_udphdr)%Z in
    on_conn (λ s, (C.set_last_time t s.1, s.2));;
    deliver_contents up len is_orig;;
    count is_orig ulen;;
    when (len <=? caplen)%Z (emit (ForwardPacket len (drop 8 up) is_orig sq caplen)).

(** [Analyzer::NextPacket] of the root. *)
Definition NextPacket (t : double) (is_orig : bool) (ip : IP.IP_Hdr) (up : bytes) (len caplen : Z) : M State () :=
  a ← gets udp;
  if skip a then stop else DeliverPacket t len up is_orig (-1) ip caplen.

(** What a script is told about an endpoint: its size, and whether it is active. *)
Definition UpdateEndpointVal (is_orig : bool) (a : UDP_Analyzer) : Z * bool :=
  let size := if is_orig then request_len a else reply_len a in
  if (size <? 0)%Z then (0%Z, false) else (size, true).

Definition Done (a : UDP_Analyzer) : option UDP_Analyzer :=
  if moved a then Some a
  else if finished a then None
  else Some (set_finished true (set_out (out a ++ [Done_c]) a)).

Definition IsReuse (t : double) (pkt : bytes) : bool := false.
Definition Moved (a : UDP_Analyzer) : UDP_Analyzer := set_out (out a ++ [Moved_c]) (set_moved true a).
Definition FlipRoles (a : UDP_Analyzer) : UDP_Analyzer := set_out (out a ++ [FlipRoles_c]) a.

(** What is archived. *)
Record archive := mkArchive { ar_skip : bool; ar_finished : bool; ar_request_len : Z; ar_reply_len : Z }.
Definition serialize (a : UDP_Analyzer) : archive := mkArchive (skip a) (finished a) (request_len a) (reply_len a).
Definition unserialize (r : archive) : UDP_Analyzer := mkUDP (ar_skip r) (ar_finished r) false (ar_request_len r) (ar_reply_len r) [].


(** ** Packets of a connection *)

(** A packet as it comes from the sessions: direction, header, data as captured,
    and lengths. *)
Record datagram := mkDatagram { d_time : double; d_orig : bool; d_ip : IP.IP_Hdr; d_up : bytes; d_len : Z; d_caplen : Z }.

Definition deliver_one (d : datagram) : M State () := call (NextPacket (d_time d) (d_orig d) (d_ip d) (d_up d) (d_len d) (d_caplen d)).
Fixpoint deliver_all (l : list datagram) : M State () :=
  match l with [] => mret () | d :: l => deliver_one d;; deliver_all l end.

Definition corrupt (d : datagram) : option bool := bad_checksum (d_ip d) (d_up d) (d_len d) (d_caplen d).
(** The payload, as the header has it. *)
Definition payload (d : datagram) : Z := (default 0 (uh_ulen (d_up d)) - sizeof_udphdr)%Z.

(** What is read is captured, and the checksum can be computed. *)
Record readable (d : datagram) : Prop := {
  rd_capture : (sizeof_udphdr ≤ d_caplen d ≤ Z.of_nat (length (d_up d)))%Z;
  rd_len : (sizeof_udphdr ≤ d_len d < 2 ^ 16)%Z;
  rd_bytes : IP.bytes_ok (d_up d);
  rd_sum : is_Some (corrupt d);
  rd_contents : udp_contents cfg = false ∨ (d_len d ≤ Z.of_nat (length (d_up d)))%Z
}.

(** The size that is known of an endpoint, after a packet. *)
Definition add_size (size n : Z) : Z := if (size <? 0)%Z then n else (size + n)%Z.
Definition counted (o : bool) (d : datagram) : bool := bool_decide (d_orig d = o) && bool_decide (corrupt d = Some false).
Definition size_after (o : bool) (size : Z) (l : list datagram) : Z := foldl (λ z d, if counted o d then add_size z (payload d) else z) size l.
Definition size_of (o : bool) (a : UDP_Analyzer) : Z := if o then request_len a else reply_len a.

Lemma get16_some p i : IP.bytes_ok p → (0 ≤ i)%Z → (i + 1 < Z.of_nat (length p))%Z → ∃ x, IP.get16 p i = Some x ∧ (0 ≤ x < 65536)%Z.
Proof.
  intros Hp H0 Hi. destruct (IP.get8_in p i) as [a Ha]; [lia|]. destruct (IP.get8_in p (i + 1)) as [b Hb]; [lia|].
  assert (IP.get16 p i = Some (a * 256 + b)%Z) as Hg by (unfold IP.get16; by rw Ha /= Hb). eexists. split; [exact Hg|]. by eapply IP.get16_bounds.
Qed.
Lemma slice_some p i n : (0 ≤ i)%Z → (0 ≤ n)%Z → (i + n ≤ Z.of_nat (length p))%Z → is_Some (IP.slice p i n).
Proof. intros. unfold IP.slice. rw decide_True; [|lia]. done. Qed.

(** What stays the same of the analyzer but for its sizes. *)
Definition same_size (s s' : State) : Prop := skip (udp s') = skip (udp s) ∧ ∀ o, size_of o (udp s') = size_of o (udp s).

Lemma raise_contents_ok d s : readable d → ∃ s', raise_contents (d_up d) (d_len d) (d_caplen d) s = Some (s', Some ()) ∧ same_size s s' ∧
  conn s' = conn s ∧ world s' = world s.
Proof.
  intros [Hc Hl Hb _ _]. unfold sizeof_udphdr in *. unfold raise_contents. destruct (packet_contents cfg && _) eqn:He; [|by exists s].
  apply andb_true_iff in He as [_ Hn%Z.ltb_lt]. rw int32_small in Hn |- *; [|unfold sizeof_udphdr; lia..]. unfold sizeof_udphdr in *.
  destruct (slice_some (d_up d) 8 (Z.min (d_len d) (d_caplen d) - 8)) as [x Hx]; [lia..|]. cbn [when]. rw Hx bind_lift. eexists. split; [reflexivity|]. by repeat split.
Qed.

(** A packet with a wrong checksum counts for nothing. *)
Lemma deliver_corrupt d s : readable d → corrupt d = Some true → skip (udp s) = false → ∃ s', deliver_one d s = Some (s', Some ()) ∧ same_size s s' ∧
  C.last_time (conn s') = C.last_time (conn s) ∧ C.weird (C.flags (conn s')) = true.
Proof.
  intros Hd Hc Hs. destruct (raise_contents_ok d s Hd) as (s1 & Hr & Hz & Hcn & Hw). unfold deliver_one, call, NextPacket. rw bind_gets Hs.
  unfold DeliverPacket. unfold mbind at 1, M_bind at 1. rw Hr. unfold corrupt in Hc. rw Hc bind_lift.
  unfold Weird, CheckHistory, on_conn. rw bind_modify. destruct (d_orig d); unfold modify; (eexists; split; [reflexivity|]);
    (split; [destruct Hz; by split|]); cbn; by rw Hcn.
Qed.

Lemma deliver_contents_ok d s : readable d → ∃ s', deliver_contents (d_up d) (d_len d - sizeof_udphdr) (d_orig d) s = Some (s', Some ()) ∧ same_size s s'.
Proof.
  intros [Hc Hl Hb _ Hco]. unfold sizeof_udphdr in *. unfold deliver_contents. destruct (udp_contents cfg) eqn:Hu; [|by exists s].
  destruct Hco as [?|Hco]; [done|]. destruct (get16_some (d_up d) 2 Hb) as (port & Hp & _); [lia..|]. cbn [when]. unfold uh_dport. rw Hp bind_lift.
  destruct (_ || _); [|by exists s]. cbn [when]. destruct (slice_some (d_up d) 8 (d_len d - 8)) as [x Hx]; [lia..|]. unfold sizeof_udphdr. rw Hx bind_lift.
  eexists. split; [reflexivity|]. by repeat split.
Qed.

Lemma count_counts o n s : (0 ≤ size_of o (udp s) + Z.abs n < 2 ^ 63 ∨ size_of o (udp s) < 0)%Z → ∃ s', count o n s = Some (s', Some ()) ∧
  skip (udp s') = skip (udp s) ∧ ∀ o', size_of o' (udp s') = if bool_decide (o = o') then add_size (size_of o' (udp s)) n else size_of o' (udp s).
Proof.
  intros Hlim. unfold count, CheckHistory, on_conn, with_udp, Event.
  assert (∀ z, (0 ≤ z + Z.abs n < 2 ^ 63 ∨ z < 0)%Z → (if (z <? 0)%Z then n else E.int64 (z + n)) = add_size z n) as Hadd.
  { intros z Hz. unfold add_size. destruct (Z.ltb_spec z 0); [done|]. unfold E.int64, wrap_s. rw Z.mod_small; lia. }
  destruct o; rw !bind_modify; unfold modify; (eexists; split; [reflexivity|]); (split; [done|]); intros []; cbn; try done; by apply Hadd.
Qed.

Lemma deliver_counts d s : readable d → corrupt d = Some false → skip (udp s) = false →
  (0 ≤ size_of (d_orig d) (udp s) + Z.abs (payload d) < 2 ^ 63 ∨ size_of (d_orig d) (udp s) < 0)%Z →
  ∃ s', deliver_one d s = Some (s', Some ()) ∧ skip (udp s') = false ∧
    ∀ o, size_of o (udp s') = if counted o d then add_size (size_of o (udp s)) (payload d) else size_of o (udp s).
Proof.
  intros Hd Hc Hs Hlim. destruct (raise_contents_ok d s Hd) as (s1 & Hr & [Hk1 Hz1] & _). unfold deliver_one, call, NextPacket. rw bind_gets Hs.
  unfold DeliverPacket. unfold mbind at 1, M_bind at 1. rw Hr. pose proof Hc as Hc'. unfold corrupt in Hc'. rw Hc' bind_lift.
  pose proof (rd_capture _ Hd) as Hcap. unfold sizeof_udphdr in Hcap.
  destruct (get16_some (d_up d) 4 (rd_bytes _ Hd)) as (ulen & Hu & _); [lia..|]. unfold uh_ulen at 1. rw Hu bind_lift.
  set (s2 := if (ulen =? d_len d)%Z then s1 else default s1 (fst <$> Weird (mismatch ulen (d_len d)) s1)).
  assert (when (negb (ulen =? d_len d)%Z) (Weird (mismatch ulen (d_len d))) s1 = Some (s2, Some ())) as Hw by (unfold s2; by destruct (ulen =? d_len d)%Z).
  assert (same_size s1 s2) as [Hk2 Hz2] by (unfold s2; destruct (ulen =? d_len d)%Z; by repeat split).
  unfold mbind at 1, M_bind at 1. rw Hw. set (s3 := mkState (udp s2) (C.set_last_time (d_time d) (conn s2)) (world s2)).
  assert (same_size s2 s3) as [Hk3 Hz3] by by repeat split. unfold mbind at 1, M_bind at 1.
  change (on_conn (λ s, (C.set_last_time (d_time d) s.1, s.2)) s2) with (Some (s3, Some ())).
  destruct (deliver_contents_ok d s3 Hd) as (s4 & Hr4 & [Hk4 Hz4]). unfold mbind at 1, M_bind at 1. rw Hr4.
  assert (payload d = ulen - sizeof_udphdr)%Z as Hpay by (unfold payload, uh_ulen; by rw Hu).
  assert (∀ o, size_of o (udp s4) = size_of o (udp s)) as Hz by (intros o; by rw Hz4 Hz3 Hz2 Hz1).
  destruct (count_counts (d_orig d) (ulen - sizeof_udphdr) s4) as (s5 & Hr5 & Hk5 & Hz5); [by rw Hz -Hpay|].
  unfold mbind at 1, M_bind at 1. rw Hr5.
  assert (∃ s6, when (d_len d - sizeof_udphdr <=? d_caplen d - sizeof_udphdr)%Z
    (emit (ForwardPacket (d_len d - sizeof_udphdr) (drop 8 (d_up d)) (d_orig d) (-1) (d_caplen d - sizeof_udphdr))) s5 = Some (s6, Some ()) ∧ same_size s5 s6)
    as (s6 & Hr6 & [Hk6 Hz6]).
  { destruct (_ <=? _)%Z; [|by exists s5]. eexists. split; [reflexivity|]. by repeat split. }
  exists s6. rw Hr6. split; [done|]. split; [by rw Hk6 Hk5 Hk4 Hk3 Hk2 Hk1|]. intros o. rw Hz6 Hz5 Hz -Hpay. unfold counted.
  by rw Hc (bool_decide_eq_true_2 (Some false = Some false)) // andb_true_r.
Qed.

(** ** Sizes *)

Lemma payload_bounds d : readable d → (- 8 ≤ payload d < 65536)%Z.
Proof.
  intros Hd. pose proof (rd_capture _ Hd) as Hc. unfold sizeof_udphdr in Hc.
  destruct (get16_some (d_up d) 4 (rd_bytes _ Hd)) as (u & Hu & Hb); [lia..|]. unfold payload, uh_ulen, sizeof_udphdr. rw Hu /=. lia.
Qed.

(** All packets, from sizes that are small enough. *)
Lemma deliver_all_sizes l : ∀ s, Forall readable l → skip (udp s) = false → (∀ o, - 8 ≤ size_of o (udp s) < 2 ^ 62 - 65536 * Z.of_nat (length l))%Z →
  (∀ o, Forall (λ d, counted o d = true → 0 ≤ payload d)%Z l) →
  ∃ s', deliver_all l s = Some (s', Some ()) ∧ ∀ o, size_of o (udp s') = size_after o (size_of o (udp s)) l.
Proof.
  induction l as [|d l IH]; intros s Hr Hs Hz Hp; [by exists s|]. apply Forall_cons in Hr as [Hd Hr]. cbn [length] in Hz.
  pose proof (payload_bounds d Hd) as Hb.
  assert (∃ s1, deliver_one d s = Some (s1, Some ()) ∧ skip (udp s1) = false ∧
    ∀ o, size_of o (udp s1) = if counted o d then add_size (size_of o (udp s)) (payload d) else size_of o (udp s)) as (s1 & Hr1 & Hk1 & Hz1).
  { destruct (rd_sum _ Hd) as [[] Hc].
    - destruct (deliver_corrupt d s Hd Hc Hs) as (s1 & Hr1 & [Hk Hz1] & _). exists s1. split; [done|]. split; [congruence|]. intros o. rw Hz1. unfold counted.
      by rw Hc (bool_decide_eq_false_2 (Some true = Some false)) // andb_false_r.
    - apply deliver_counts; try done. pose proof (Hz (d_orig d)) as Hzo. destruct (Z.ltb_spec (size_of (d_orig d) (udp s)) 0); [by right|left; lia]. }
  destruct (IH s1 Hr Hk1) as (s' & Hr' & Hz').
  - intros o. rw Hz1. pose proof (Hz o) as Hzo. pose proof (Hp o) as Hpo. apply Forall_cons in Hpo as [Hpo _]. destruct (counted o d); [|lia].
    specialize (Hpo eq_refl). unfold add_size. destruct (Z.ltb_spec (size_of o (udp s)) 0); lia.
  - intros o. pose proof (Hp o) as Hpo. by apply Forall_cons in Hpo as [_ ?].
  - exists s'. split; [cbn [deliver_all]; unfold mbind, M_bind; by rw Hr1|]. intros o. rw Hz' Hz1. cbn [size_after foldl]. done.
Qed.

Definition total (o : bool) (l : list datagram) : Z := foldr (λ d n, payload d + n)%Z 0%Z (filter (λ d, counted o d = true) l).

Lemma size_after_total o l : Forall (λ d, counted o d = true → 0 ≤ payload d)%Z l → ∀ z, (0 ≤ z)%Z → size_after o z l = (z + total o l)%Z.
Proof.
  unfold size_after, total. induction 1 as [|d l Hd _ IH]; intros z Hz; cbn [foldl]; [simpl; lia|].
  destruct (counted o d) eqn:Hc; [rw filter_cons_True //|rw filter_cons_False ?Hc //; by apply IH]. cbn [foldr]. specialize (Hd eq_refl).
  unfold add_size. rw (proj2 (Z.ltb_ge z 0)) //. rw IH; lia.
Qed.
Lemma size_after_new o l : Forall (λ d, counted o d = true → 0 ≤ payload d)%Z l →
  size_after o (-1) l = if decide (filter (λ d, counted o d = true) l = []) then (-1)%Z else total o l.
Proof.
  induction 1 as [|d l Hd Hl IH]; [done|]. unfold total. destruct (counted o d) eqn:Hc.
  - rw filter_cons_True //. cbn [size_after foldl decide list_eq_nil_dec foldr]. rw Hc. unfold add_size. cbn [Z.ltb Z.compare]. fold (total o l).
    apply (size_after_total o l Hl). by apply Hd.
  - rw filter_cons_False ?Hc //. cbn [size_after foldl]. rw Hc. exact IH.
Qed.
Lemma total_pos o l : Forall (λ d, counted o d = true → 0 ≤ payload d)%Z l → (0 ≤ total o l)%Z.
Proof.
  unfold total. induction 1 as [|d l Hd _ IH]; [done|]. destruct (counted o d) eqn:Hc; [rw filter_cons_True //|by rw filter_cons_False ?Hc].
  simpl. specialize (Hd eq_refl). lia.
Qed.

(** C40. The script is told the exact sizes: after any packets, each with a header that
    counts itself in its length, the size of an endpoint is the sum of the payloads of
    its packets whose checksum is not wrong, and it is active if there was one. *)
Theorem udp_sizes_exact l c w : Forall readable l → Forall (λ d, 0 ≤ payload d)%Z l → (65536 * Z.of_nat (length l) < 2 ^ 61)%Z →
  ∃ s', deliver_all l (UDP_Analyzer_new c w) = Some (s', Some ()) ∧
    ∀ o, UpdateEndpointVal o (udp s') = (total o l, negb (bool_decide (filter (λ d, counted o d = true) l = []))).
Proof.
  intros Hr Hp Hlen. assert (udp (UDP_Analyzer_new c w) = mkUDP false false false (-1) (-1) []) as Hnew.
  { unfold UDP_Analyzer_new. by destruct (C.EnableStatusUpdateTimer _ _), (C.SetInactivityTimeout _ _). }
  assert (∀ o, Forall (λ d, counted o d = true → 0 ≤ payload d)%Z l) as Hp' by (intros o; eapply Forall_impl; [exact Hp|auto]).
  destruct (deliver_all_sizes l (UDP_Analyzer_new c w) Hr) as (s' & Hd & Hz); [by rw Hnew|rw Hnew; intros []; cbn; lia|done|].
  exists s'. split; [exact Hd|]. intros o. unfold UpdateEndpointVal. fold (size_of o (udp s')). rw Hz Hnew.
  assert (size_of o (mkUDP false false false (-1) (-1) []) = -1)%Z as -> by by destruct o.
  rw size_after_new //. case_decide as Hf; [unfold total; by rw Hf bool_decide_eq_true_2|].
  rw (proj2 (Z.ltb_ge (total o l) 0)); [|by apply total_pos]. by rw bool_decide_eq_false_2.
Qed.

(** The data of a packet that was not captured as a whole are read beyond its end,
    if they go to the script. *)
Theorem contents_beyond_capture d s : udp_contents cfg = true →
  (if d_orig d then udp_content_deliver_all_orig cfg else udp_content_deliver_all_resp cfg) = true →
  IP.bytes_ok (d_up d) → (sizeof_udphdr ≤ d_caplen d)%Z → d_caplen d = Z.of_nat (length (d_up d)) → (d_caplen d < d_len d < 2 ^ 16)%Z →
  skip (udp s) = false → deliver_one d s = None.
Proof.
  intros Hu Hall Hb H8 Hc Hl Hs. unfold sizeof_udphdr in *. unfold deliver_one, call, NextPacket. rw bind_gets Hs. unfold DeliverPacket.
  assert (∃ s1, raise_contents (d_up d) (d_len d) (d_caplen d) s = Some (s1, Some ())) as [s1 Hr].
  { unfold raise_contents, sizeof_udphdr. rw int32_small; [|lia]. destruct (packet_contents cfg && _) eqn:He; [|by exists s].
    destruct (slice_some (d_up d) 8 (Z.min (d_len d) (d_caplen d) - 8)) as [x Hx]; [apply andb_true_iff in He as [_ ?%Z.ltb_lt]; lia..|].
    cbn [when]. rw Hx bind_lift. by eexists. }
  unfold mbind at 1, M_bind at 1. rw Hr.
  destruct (get16_some (d_up d) 6 Hb) as (sm & Hsm & _); [lia..|]. destruct (get16_some (d_up d) 4 Hb) as (ulen & Hul & _); [lia..|].
  destruct (get16_some (d_up d) 2 Hb) as (port & Hpt & _); [lia..|].
  assert (bad_checksum (d_ip d) (d_up d) (d_len d) (d_caplen d) = Some false) as ->.
  { unfold bad_checksum, uh_sum. rw Hsm /=. by rw (proj2 (Z.leb_gt (d_len d) (d_caplen d))) ?andb_false_r; [|lia]. }
  rw bind_lift. unfold uh_ulen. rw Hul bind_lift.
  assert (∃ s2, when (negb (ulen =? d_len d)%Z) (Weird (mismatch ulen (d_len d))) s1 = Some (s2, Some ())) as [s2 Hw] by (destruct (ulen =? d_len d)%Z; by eexists).
  unfold mbind at 1, M_bind at 1. rw Hw. unfold on_conn at 1. rw bind_modify. unfold deliver_contents, uh_dport. rw Hu Hpt. cbn [when].
  unfold mbind at 1, M_bind at 1. rw bind_lift Hall. cbn [orb when]. unfold sizeof_udphdr, IP.slice. by rw decide_False; [|lia].
Qed.
End operations.

(** ** A concrete connection *)

(** A script that wants the contents of all packets of originators. *)
Definition some_config : config :=
  mkConfig (double_of_Z 60) false true true true false (λ _ _, false) C.no_config.
Definition some_conn : C.Connection () * C.World :=
  C.Connection_new (C.BuildConnIDHashKey C.some_id) (double_of_Z 0) C.some_id 0 None false false C.no_world.

(** Two bytes of payload, without a checksum. *)
Definition some_datagram (o : bool) (len : Z) : datagram :=
  mkDatagram (double_of_Z 1) o (IP.Hdr4 []) [0; 53; 0; 53; 0; 10; 0; 0; 1; 2]%Z len 10.

Lemma some_bytes : IP.bytes_ok [0; 53; 0; 53; 0; 10; 0; 0; 1; 2]%Z.
Proof. repeat (apply Forall_cons; split; [lia|]). by apply Forall_nil. Qed.
Lemma some_readable o : readable some_config (some_datagram o 10).
Proof. split; cbn; unfold sizeof_udphdr; [lia|lia|exact some_bytes|by eexists|by right; cbn; lia]. Qed.

Lemma udp_sizes_exact_witness : ∃ s',
  deliver_all some_config [some_datagram true 10; some_datagram true 10] (UDP_Analyzer_new some_config some_conn.1 some_conn.2) = Some (s', Some ()) ∧
  UpdateEndpointVal true (udp s') = (4%Z, true) ∧ UpdateEndpointVal false (udp s') = (0%Z, false).
Proof.
  destruct (udp_sizes_exact some_config [some_datagram true 10; some_datagram true 10] some_conn.1 some_conn.2) as (s' & Hr & Hs).
  - repeat (apply Forall_cons; split; [apply some_readable|]). by apply Forall_nil.
  - repeat (apply Forall_cons; split; [by vm_compute|]). by apply Forall_nil.
  - cbn. lia.
  - exists s'. split; [exact Hr|]. split; apply Hs.
Defined.

Lemma contents_beyond_capture_witness :
  deliver_one some_config (some_datagram true 20) (UDP_Analyzer_new some_config some_conn.1 some_conn.2) = None.
Proof.
  exact (contents_beyond_capture some_config (some_datagram true 20) (UDP_Analyzer_new some_config some_conn.1 some_conn.2) eq_refl eq_refl some_bytes
    ltac:(cbn; unfold sizeof_udphdr; lia) eq_refl ltac:(cbn; lia) eq_refl).
Defined.
End UD.
