(* ===== verification/Sessions.v ===== *)
(** Sessions: the tables of connections and fragments and the path of a packet
    through them, Sessions.cc / Sessions.h (and the counterparts of ICMP types,
    ICMP.cc).

    A table is a map by key; Dict has the theorem that the dictionary of the
    code is one.  A connection in a table is referenced by the table and its
    timers alone, so [Unref] after it was taken out destroys it.  The trees of
    analyzers, packet filters and the discarder are interfaces. *)
From S2P Require Import Prelude Double Flow IP NetUtil Endpoint Reassem Frag TcpReassem Conn.
From stdpp Require Import strings pretty.

Module NS.

Abbreviation bytes := (list Z) (only parsing).

(** ** State *)

(** The key of a fragmented packet: the addresses and the ID. *)
Record FragKey := mkFragKey { fk_src : bytes; fk_dst : bytes; fk_id : Z }.

#[global] Instance FragKey_eq_dec : EqDecision FragKey.
Proof. solve_decision. Defined.

#[global] Instance FragKey_countable : Countable FragKey.
Proof.
  refine (inj_countable' (λ k, (fk_src k, fk_dst k, fk_id k)) (λ p, mkFragKey p.1.1 p.1.2 p.2) _). by intros [].
Defined.

Abbreviation ConnTable A := (gmap C.ConnKey (C.Connection A)) (only parsing).

(** What leaves the component. *)
Inductive effect :=
  | Weird (name : string)
  | Event (name : string)
  | PacketReceived (type : string)
  | FlowCreated
  | FlowDestroyed
  | AddTunnelTimer (t : double) (tunnel_idx : bytes * bytes)
  | AddExpireTimer (t : double) (tag : nat)
  | DumpPacket (whole : bool)
  | ToARP
  | ExpireTimers (tag : nat).

(** [ip_tunnels] has the time of the last activity; [timer_mgrs] the tags of the
    timer managers besides the global one. *)
Record NetSessions (A : Type) := mkNS {
  tcp_conns : ConnTable A;
  udp_conns : ConnTable A;
  icmp_conns : ConnTable A;
  fragments : gmap FragKey F.FragReassembler;
  ip_tunnels : gmap (bytes * bytes) double;
  timer_mgrs : gset nat;
  tcp_stats : E.TCPStateStats;
  num_packets_processed : Z;
  drop_counter : Z;
  dump_this_packet : bool;
  world : C.World;
  log : list effect
}.

Arguments mkNS {A}.
Arguments tcp_conns {A}.
Arguments udp_conns {A}.
Arguments icmp_conns {A}.
Arguments fragments {A}.
Arguments ip_tunnels {A}.
Arguments timer_mgrs {A}.
Arguments tcp_stats {A}.
Arguments num_packets_processed {A}.
Arguments drop_counter {A}.
Arguments dump_this_packet {A}.
Arguments world {A}.
Arguments log {A}.

Definition set_tcp_conns {A : Type} (v : ConnTable A) (s : NetSessions A) : NetSessions A :=
  mkNS v (udp_conns s) (icmp_conns s) (fragments s) (ip_tunnels s) (timer_mgrs s) (tcp_stats s)
    (num_packets_processed s) (drop_counter s) (dump_this_packet s) (world s) (log s).
Definition set_udp_conns {A : Type} (v : ConnTable A) (s : NetSessions A) : NetSessions A :=
  mkNS (tcp_conns s) v (icmp_conns s) (fragments s) (ip_tunnels s) (timer_mgrs s) (tcp_stats s)
    (num_packets_processed s) (drop_counter s) (dump_this_packet s) (world s) (log s).
Definition set_icmp_conns {A : Type} (v : ConnTable A) (s : NetSessions A) : NetSessions A :=
  mkNS (tcp_conns s) (udp_conns s) v (fragments s) (ip_tunnels s) (timer_mgrs s) (tcp_stats s)
    (num_packets_processed s) (drop_counter s) (dump_this_packet s) (world s) (log s).
Definition set_fragments {A : Type} (v : gmap FragKey F.FragReassembler) (s : NetSessions A) : NetSessions A :=
  mkNS (tcp_conns s) (udp_conns s) (icmp_conns s) v (ip_tunnels s) (timer_mgrs s) (tcp_stats s)
    (num_packets_processed s) (drop_counter s) (dump_this_packet s) (world s) (log s).
Definition set_ip_tunnels {A : Type} (v : gmap (bytes * bytes) double) (s : NetSessions A) : NetSessions A :=
  mkNS (tcp_conns s) (udp_conns s) (icmp_conns s) (fragments s) v (timer_mgrs s) (tcp_stats s)
    (num_packets_processed s) (drop_counter s) (dump_this_packet s) (world s) (log s).
Definition set_timer_mgrs {A : Type} (v : gset nat) (s : NetSessions A) : NetSessions A :=
  mkNS (tcp_conns s) (udp_conns s) (icmp_conns s) (fragments s) (ip_tunnels s) v (tcp_stats s)
    (num_packets_processed s) (drop_counter s) (dump_this_packet s) (world s) (log s).
Definition set_tcp_stats {A : Type} (v : E.TCPStateStats) (s : NetSessions A) : NetSessions A :=
  mkNS (tcp_conns s) (udp_conns s) (icmp_conns s) (fragments s) (ip_tunnels s) (timer_mgrs s) v
    (num_packets_processed s) (drop_counter s) (dump_this_packet s) (world s) (log s).
Definition set_num_packets_processed {A : Type} (v : Z) (s : NetSessions A) : NetSessions A :=
  mkNS (tcp_conns s) (udp_conns s) (icmp_conns s) (fragments s) (ip_tunnels s) (timer_mgrs s)
    (tcp_stats s) v (drop_counter s) (dump_this_packet s) (world s) (log s).
Definition set_drop_counter {A : Type} (v : Z) (s : NetSessions A) : NetSessions A :=
  mkNS (tcp_conns s) (udp_conns s) (icmp_conns s) (fragments s) (ip_tunnels s) (timer_mgrs s)
    (tcp_stats s) (num_packets_processed s) v (dump_this_packet s) (world s) (log s).
Definition set_dump_this_packet {A : Type} (v : bool) (s : NetSessions A) : NetSessions A :=
  mkNS (tcp_conns s) (udp_conns s) (icmp_conns s) (fragments s) (ip_tunnels s) (timer_mgrs s)
    (tcp_stats s) (num_packets_processed s) (drop_counter s) v (world s) (log s).
Definition set_world {A : Type} (v : C.World) (s : NetSessions A) : NetSessions A :=
  mkNS (tcp_conns s) (udp_conns s) (icmp_conns s) (fragments s) (ip_tunnels s) (timer_mgrs s)
    (tcp_stats s) (num_packets_processed s) (drop_counter s) (dump_this_packet s) v (log s).
Definition set_log {A : Type} (v : list effect) (s : NetSessions A) : NetSessions A :=
  mkNS (tcp_conns s) (udp_conns s) (icmp_conns s) (fragments s) (ip_tunnels s) (timer_mgrs s)
    (tcp_stats s) (num_packets_processed s) (drop_counter s) (dump_this_packet s) (world s) v.

Definition emit {A} (e : effect) (s : NetSessions A) : NetSessions A := set_log (log s ++ [e]) s.

Definition no_stats : E.TCPStateStats := E.TCPStateStats_new.
Definition NetSessions_new {A} : NetSessions A :=
  mkNS ∅ ∅ ∅ ∅ ∅ ∅ no_stats 0 0 false (C.mkWorld 0 0 0 0 [] 0 (double_of_Z 0) [] TR.GapStats_new) [].

(** The table of a protocol. *)
Definition table {A} (p : C.TransportProto) (s : NetSessions A) : ConnTable A :=
  match p with
  | C.TRANSPORT_TCP => tcp_conns s
  | C.TRANSPORT_UDP => udp_conns s
  | C.TRANSPORT_ICMP => icmp_conns s
  | C.TRANSPORT_UNKNOWN => ∅
  end.
Definition set_table {A} (p : C.TransportProto) (v : ConnTable A) (s : NetSessions A) : NetSessions A :=
  match p with
  | C.TRANSPORT_TCP => set_tcp_conns v s
  | C.TRANSPORT_UDP => set_udp_conns v s
  | C.TRANSPORT_ICMP => set_icmp_conns v s
  | C.TRANSPORT_UNKNOWN => s
  end.

(** The options of the policy script, and whether its events have handlers.
    [port_cache] has the likely server ports with the bits of their protocol;
    [uninit] are the values of the fields of a connection that are not
    initialized. *)
Record config := mkConfig {
  conn_cfg : C.config;
  partial_connection_ok : bool;
  tcp_SYN_ack_ok : bool;
  port_cache : list Z;
  ignore_checksums : bool;
  enable_ip : bool;
  max_depth : Z;
  frag_timeout : double;
  ip_tunnel_timeout : double;
  timer_mgr_inactivity_timeout : double;
  record_all_packets : bool;
  connection_state_remove : bool;
  new_connection : bool;
  new_packet : bool;
  ipv6_ext_headers : bool;
  esp_packet : bool;
  packet_filter : option (IP.IP_Hdr → Z → Z → bool);
  discarder : option (IP.IP_Hdr → Z → Z → bool);
  has_arp_analyzer : bool;
  uninit : bool * bool
}.

(** [DPM::BuildInitialAnalyzerTree] *)
Class TreeBuilder (A : Type) := {
  build_tree : C.TransportProto → bytes → C.Connection A * C.World → E.TCPStateStats →
    option (C.Connection A * C.World * E.TCPStateStats)
}.

(** The stack of tunnels around a packet. *)
Record EncapsulationStack := mkEncap { Depth : Z; LastType_TEREDO : bool }.

(** ** Protocols *)

Definition IPPROTO_ICMP : Z := 1.
Definition IPPROTO_IPV4 : Z := 4.
Definition IPPROTO_TCP : Z := 6.
Definition IPPROTO_UDP : Z := 17.
Definition IPPROTO_ICMPV6 : Z := 58.
Definition ICMP_MINLEN : Z := 8.
Definition TH_SYN : Z := 0x02.
Definition TH_ACK : Z := 0x10.

(** The result also tells whether the message has a counterpart at all. *)
Definition ICMP4_counterpart (icmp_type icmp_code : Z) : Z * bool :=
  if (icmp_type =? 8)%Z then (0%Z, false)
  else if (icmp_type =? 0)%Z then (8%Z, false)
  else if (icmp_type =? 13)%Z then (14%Z, false)
  else if (icmp_type =? 14)%Z then (13%Z, false)
  else if (icmp_type =? 15)%Z then (16%Z, false)
  else if (icmp_type =? 16)%Z then (15%Z, false)
  else if (icmp_type =? 10)%Z then (9%Z, false)
  else if (icmp_type =? 17)%Z then (18%Z, false)
  else if (icmp_type =? 18)%Z then (17%Z, false)
  else (icmp_code, true).

Definition ICMP6_counterpart (icmp_type icmp_code : Z) : Z * bool :=
  if (icmp_type =? 128)%Z then (129%Z, false)
  else if (icmp_type =? 129)%Z then (128%Z, false)
  else if (icmp_type =? 133)%Z then (134%Z, false)
  else if (icmp_type =? 134)%Z then (133%Z, false)
  else if (icmp_type =? 135)%Z then (136%Z, false)
  else if (icmp_type =? 136)%Z then (135%Z, false)
  else if (icmp_type =? 130)%Z then (131%Z, false)
  else if (icmp_type =? 131)%Z then (130%Z, false)
  else if (icmp_type =? 139)%Z then (140%Z, false)
  else if (icmp_type =? 140)%Z then (139%Z, false)
  else if (icmp_type =? 144)%Z then (145%Z, false)
  else if (icmp_type =? 145)%Z then (144%Z, false)
  else (icmp_code, true).

(** An IPv4 address is kept as a mapped IPv6 address. *)
Definition v4_mapped_prefix : bytes := [0; 0; 0; 0; 0; 0; 0; 0; 0; 0; 0xff; 0xff]%Z.
Definition IPAddr (ip4 : bool) (a : bytes) : bytes := if ip4 then v4_mapped_prefix ++ a else a.
Definition ip_SrcAddr (ip : IP.IP_Hdr) : option bytes := IPAddr (IP.IP4_Hdr ip) <$> IP.SrcAddr ip.
Definition ip_DstAddr (ip : IP.IP_Hdr) : option bytes := IPAddr (IP.IP4_Hdr ip) <$> IP.DstAddr ip.

(** The identifier of the connection a packet with transport header [data]
    belongs to, ports in network order, and its table. *)
Definition packet_id (proto : Z) (src dst data : bytes) : option (C.ConnID * C.TransportProto) :=
  if (proto =? IPPROTO_TCP)%Z || (proto =? IPPROTO_UDP)%Z then
    sport ← IP.get16 data 0; dport ← IP.get16 data 2;
    Some (C.mkID src dst (NU.htons sport) (NU.htons dport) false,
          if (proto =? IPPROTO_TCP)%Z then C.TRANSPORT_TCP else C.TRANSPORT_UDP)
  else
    icmp_type ← IP.get8 data 0; icmp_code ← IP.get8 data 1;
    let '(port, is_one_way) :=
      if (proto =? IPPROTO_ICMP)%Z then ICMP4_counterpart icmp_type icmp_code
      else ICMP6_counterpart icmp_type icmp_code in
    Some (C.mkID src dst (NU.htons icmp_type) (NU.htons port) is_one_way, C.TRANSPORT_ICMP).

(** The result is the name of the weird activity. *)
Definition CheckHeaderTrunc (proto len caplen : Z) : option string :=
  let min_hdr_len :=
    (if proto =? IPPROTO_TCP then 20
     else if proto =? IPPROTO_UDP then 8
     else if proto =? IPPROTO_IPV4 then 20
     else if proto =? IP.IPPROTO_IPV6 then 40
     else if proto =? IP.IPPROTO_NONE then 0
     else ICMP_MINLEN)%Z in
  if (len <? min_hdr_len)%Z then Some "truncated_header"
  else if (caplen <? min_hdr_len)%Z then Some "internally_truncated_header"
  else None.

(** [caplen] is an [int]; [None] is an internal error, and the header is there if
    it was made. *)
Definition ParseIPPacket (caplen : Z) (pkt : bytes) (proto : Z) : option (Z * option IP.IP_Hdr) :=
  inner ← (if (proto =? IP.IPPROTO_IPV6)%Z then
             if (caplen <? 40)%Z then Some None
             else '(p, c) ← IP.Init false pkt caplen false 0; Some (Some (IP.Hdr6 p c))
           else if (proto =? IPPROTO_IPV4)%Z then
             if (caplen <? 20)%Z then Some None else Some (Some (IP.Hdr4 pkt))
           else None);
  match inner with
  | None => Some ((-1)%Z, None)
  | Some inner =>
    total ← IP.TotalLen inner;
    Some ((if negb (uint32 caplen =? total)%Z then if (uint32 caplen <? total)%Z then -1 else 1 else 0)%Z, Some inner)
  end.

Section operations.
Context {A : Type} `{C.Analyzer A} `{TreeBuilder A}.
Variable cfg : config.

Abbreviation state := (NetSessions A) (only parsing).
Abbreviation conn := (C.Connection A) (only parsing).

Definition weird {X} (name : string) : M state X := modify (emit (Weird name));; stop.
Definition event (name : string) : M state () := modify (emit (Event name)).

(** ** Timer managers *)

Inductive TimerMgr := Global | Local (tag : nat).

#[global] Instance TimerMgr_eq_dec : EqDecision TimerMgr.
Proof. solve_decision. Defined.

(** [now] is the time of the global manager. *)
Definition LookupTimerMgr (tag : option nat) (create : bool) (now : double) (s : state) : option TimerMgr * state :=
  match tag with
  | None => (Some Global, s)
  | Some g =>
    if decide (g ∈ timer_mgrs s) then (Some (Local g), s)
    else if create then
      (Some (Local g), emit (AddExpireTimer (dadd now (timer_mgr_inactivity_timeout cfg)) g)
        (set_timer_mgrs ({[g]} ∪ timer_mgrs s) s))
    else (None, s)
  end.

(** [Connection::GetTimerMgr] *)
Definition GetTimerMgr (c : conn) (s : state) : TimerMgr :=
  match C.conn_timer_mgr c with
  | None => Global
  | Some g => default Global (LookupTimerMgr (Some g) false (double_of_Z 0) s).1
  end.

(** [TimerMgrExpireTimer::Dispatch] *)
Definition dispatch_expire_timer (g : nat) (last_advance now : double) (is_expire : bool) (s : state) : state :=
  if dlt (dadd last_advance (timer_mgr_inactivity_timeout cfg)) now then
    set_timer_mgrs (timer_mgrs s ∖ {[g]}) (emit (ExpireTimers g) s)
  else if is_expire then s
  else emit (AddExpireTimer (dadd last_advance (timer_mgr_inactivity_timeout cfg)) g) s.

(** [IPTunnelTimer::Dispatch] *)
Definition dispatch_tunnel_timer (idx : bytes * bytes) (t : double) (is_expire : bool) (s : state) : state :=
  match ip_tunnels s !! idx with
  | None => s
  | Some last_active =>
    let inactive_time := if dlt last_active t then dsub t last_active else double_of_Z 0 in
    if dle (ip_tunnel_timeout cfg) inactive_time then set_ip_tunnels (delete idx (ip_tunnels s)) s
    else if is_expire then s
    else emit (AddTunnelTimer (dadd t (ip_tunnel_timeout cfg)) idx) s
  end.

(** [tag] is that of the packet; below 0 the packet is ignored, 0 asks for a new
    connection. *)
Definition CheckConnectionTag (tag : option nat) (c : conn) (s : state) : Z :=
  match tag with
  | Some g =>
    match GetTimerMgr c s with
    | Global => 0
    | Local g' => if decide (g ∈ timer_mgrs s ∧ g' ≠ g) then (-1) else 1
    end
  | None => match GetTimerMgr c s with Global => 1 | Local _ => (-1) end
  end%Z.

(** ** The tables *)

(** What leaves the statistics with a connection. *)
Definition left_stats (c : conn) (st : E.TCPStateStats) : E.TCPStateStats :=
  if C.HasMoved c then st
  else match C.proto c, C.root_analyzer c ≫= C.an_states with
  | C.TRANSPORT_TCP, Some (o, r) => E.StateLeft o r st
  | _, _ => st
  end.

(** [RemoveEntry] of a connection, then [Unref]. *)
Definition remove_entry (k : C.ConnKey) (c : conn) (s : state) : option state :=
  if decide (C.proto c = C.TRANSPORT_UNKNOWN) then None
  else match table (C.proto c) s !! k, C.HasMoved c with
  | None, false => None
  | _, _ =>
    w ← C.Connection_delete (c, world s);
    Some (emit FlowDestroyed (set_world w (set_table (C.proto c) (delete k (table (C.proto c) s)) s)))
  end.

Definition Remove (c : conn) (s : state) : option state :=
  match C.key c with
  | None => Some s
  | Some k =>
    let '(c, w) := C.CancelTimers (c, world s) in
    let s := set_tcp_stats (left_stats c (tcp_stats s)) s in
    '(c, w) ← (if C.HasMoved c then Some (c, w) else C.Done (c, w));
    let s := set_world w s in
    let s := if negb (C.HasMoved c) && connection_state_remove cfg then emit (Event "connection_state_remove") s else s in
    remove_entry k (C.set_key None c) s
  end.

(** A connection that is already in the table under the key is replaced, and
    destroyed. *)
Definition Insert (c : conn) (s : state) : option state :=
  k ← C.key c;
  if decide (C.proto c = C.TRANSPORT_UNKNOWN) then None
  else
    let old := table (C.proto c) s !! k in
    let s := set_table (C.proto c) (<[k := c]> (table (C.proto c) s)) s in
    match old with
    | None => Some s
    | Some old =>
      let '(old, w) := C.CancelTimers (old, world s) in
      w ← C.Connection_delete (C.set_key None old, w);
      Some (set_world w s)
    end.

(** The connection [id] belongs to, in the table of a protocol. *)
Definition FindConnection (p : C.TransportProto) (orig resp : bytes) (orig_p resp_p : Z) (s : state) : option conn :=
  table p s !! C.BuildConnIDHashKey (C.mkID orig resp (NU.htons orig_p) (NU.htons resp_p) false).

(** One table of [Drain]. *)
Definition drain_table (p : C.TransportProto) (s : state) : option state :=
  foldl (λ s '(k, c),
      s ← s; '(c, w) ← C.Done (c, world s);
      Some (emit (Event "connection_state_remove") (set_world w (set_table p (<[k := c]> (table p s)) s))))
    (Some s) (map_to_list (table p s)).

(** The timer managers expire, but stay in the map. *)
Definition Drain (s : state) : option state :=
  s ← drain_table C.TRANSPORT_TCP s; s ← drain_table C.TRANSPORT_UDP s; s ← drain_table C.TRANSPORT_ICMP s;
  Some (foldl (λ s g, emit (ExpireTimers g) s) s (elements (timer_mgrs s))).

Definition num_conns (p : C.TransportProto) (s : state) : nat := size (table p s).

(** ** New connections *)

(** [port] in host order. *)
Definition IsLikelyServerPort (port : Z) (proto : C.TransportProto) : bool :=
  let port := match proto with
              | C.TRANSPORT_TCP => Z.lor port 0x10000
              | C.TRANSPORT_UDP => Z.lor port 0x20000
              | C.TRANSPORT_ICMP => Z.lor port 0x30000
              | C.TRANSPORT_UNKNOWN => port
              end in
  bool_decide (port ∈ port_cache cfg).

Definition has_flag (flags bit : Z) : bool := negb (Z.land flags bit =? 0)%Z.

(** Whether to take the connection, and [flip_roles]. *)
Definition WantConnection (src_port dst_port : Z) (p : C.TransportProto) (tcp_flags : Z) : bool * bool :=
  match p with
  | C.TRANSPORT_TCP =>
    if negb (has_flag tcp_flags TH_SYN) || has_flag tcp_flags TH_ACK then
      if negb (partial_connection_ok cfg) then (false, false)
      else if has_flag tcp_flags TH_SYN && negb (tcp_SYN_ack_ok cfg) then (false, false)
      else if IsLikelyServerPort src_port C.TRANSPORT_TCP then
        if IsLikelyServerPort dst_port C.TRANSPORT_TCP
        then (true, negb (has_flag tcp_flags TH_SYN) && (src_port <? dst_port)%Z)
        else (true, true)
      else (true, false)
    else (true, false)
  | C.TRANSPORT_UDP =>
    (true, IsLikelyServerPort src_port C.TRANSPORT_UDP && negb (IsLikelyServerPort dst_port C.TRANSPORT_UDP))
  | _ => (true, false)
  end.

Definition transport_of (proto : Z) : option C.TransportProto :=
  if (proto =? IPPROTO_ICMP)%Z then Some C.TRANSPORT_ICMP
  else if (proto =? IPPROTO_TCP)%Z then Some C.TRANSPORT_TCP
  else if (proto =? IPPROTO_UDP)%Z then Some C.TRANSPORT_UDP
  else if (proto =? IPPROTO_ICMPV6)%Z then Some C.TRANSPORT_ICMP
  else None.

(** The flipped identifier is [C.reverse id]. *)
Definition NewConn (k : C.ConnKey) (t : double) (id : C.ConnID) (data : bytes) (proto flow_label : Z)
    (tag : option nat) : M state (option conn) :=
  tproto ← lift (transport_of proto);
  flags ← (if decide (tproto = C.TRANSPORT_TCP) then lift (IP.get8 data 13) else mret 0%Z);
  let '(want, flip) := WantConnection (NU.htons (C.src_port id)) (NU.htons (C.dst_port id)) tproto flags in
  if negb want then mret None
  else
    let id := if (flip : bool) then C.reverse id else id in
    s ← get;
    let '(c, w) := C.Connection_new k t id flow_label tag (uninit cfg).1 (uninit cfg).2 (world s) in
    '(c, w, st) ← lift (build_tree tproto data (C.set_proto tproto c, w) (tcp_stats s));
    modify (λ s, set_tcp_stats st (set_world w s));;
    when (new_connection cfg)
      (event "new_connection";;
       when (bool_decide (is_Some (C.conn_timer_mgr c))) (event "connection_external"));;
    mret (Some c).


(** ** Fragments *)

Definition RemoveFrag (f : option FragKey) : M state () :=
  update (λ s, match f with
    | None => Some s
    | Some k =>
      match fragments s !! k with
      | None => None
      | Some _ => Some (set_fragments (delete k (fragments s)) s)
      end
    end).

Definition NextFragment (t : double) (ip : IP.IP_Hdr) : M state (FragKey * F.FragReassembler) :=
  src ← lift (ip_SrcAddr ip); dst ← lift (ip_DstAddr ip); frag_id ← lift (IP.ID ip);
  let k := mkFragKey src dst frag_id in
  known ← gets (λ s, fragments s !! k);
  f ← lift (match known with
            | None => F.FragReassembler_new (frag_timeout cfg) ip (IP.packet ip) t
            | Some f => F.AddFragment ip (IP.packet ip) f
            end);
  modify (λ s, set_fragments (<[k := f]> (fragments s)) s);;
  mret (k, f).

(** The timer of a fragment reassembler. *)
Definition ExpireFragment (k : FragKey) : M state () :=
  f ← gets (λ s, fragments s !! k); f ← lift f;
  f ← lift (F.Expire f);
  modify (λ s, set_fragments (<[k := f]> (fragments s)) s);;
  RemoveFrag (Some k).

(** ** Packets *)

(** The first part of [DoNextPacket]: the lengths of the packet, of what was
    captured and of the header. *)
Definition check_packet (hdr_len hdr_caplen hdr_size : Z) (ip : IP.IP_Hdr) : M state (Z * Z * Z) :=
  let caplen := uint32 (hdr_caplen - hdr_size) in
  len ← lift (IP.TotalLen ip);
  if (hdr_len <? uint32 (len + hdr_size))%Z then weird "truncated_IP"
  else if match packet_filter cfg with Some f => f ip len caplen | None => false end then stop
  else
    ip_hdr_len ← lift (IP.HdrLen ip);
    bad ← (if ignore_checksums cfg || negb (IP.IP4_Hdr ip) then mret false
           else c ← lift (NU.ones_complement_checksum (IP.packet ip) ip_hdr_len 0); mret (negb (c =? 0xffff)%Z));
    if (bad : bool) then weird "bad_IP_checksum"
    else if match discarder cfg with Some f => f ip len caplen | None => false end then stop
    else mret (len, caplen, ip_hdr_len).

(** The second part: the packet to go on with, without its IP header, and the
    fragment reassembler it came from. *)
Definition whole_packet (t : double) (ip : IP.IP_Hdr) (len caplen ip_hdr_len : Z)
    : M state (IP.IP_Hdr * Z * Z * option FragKey) :=
  frag ← lift (IP.IsFragment ip);
  '(ip, len, caplen, ip_hdr_len, f) ←
    (if negb (frag : bool) then mret (ip, len, caplen, ip_hdr_len, None)
     else
       modify (set_dump_this_packet true);;
       if (caplen <? len)%Z then
         modify (emit (Weird "incompletely_captured_fragment"));;
         off ← lift (IP.FragOffset ip);
         if negb (off =? 0)%Z then stop else mret (ip, len, caplen, ip_hdr_len, None)
       else
         '(k, f) ← NextFragment t ip;
         match F.ReassembledPkt f with
         | None => stop
         | Some ih =>
           len ← lift (IP.TotalLen ih); ip_hdr_len ← lift (IP.HdrLen ih);
           mret (ih, len, len, ip_hdr_len, Some k)
         end);
  mret (ip, uint32 (len - ip_hdr_len), uint32 (caplen - ip_hdr_len), f).

(** A packet in a tunnel of IP in IP: the inner packet. *)
Definition inner_packet (proto : Z) (ip : IP.IP_Hdr) (data : bytes) (caplen : Z)
    (encapsulation : option EncapsulationStack) (f : option FragKey) : M state IP.IP_Hdr :=
  if negb (enable_ip cfg) then modify (emit (Weird "IP_tunnel"));; RemoveFrag f;; stop
  else if match encapsulation with Some e => (max_depth cfg <=? Depth e)%Z | None => false end then
    modify (emit (Weird "exceeded_tunnel_max_depth"));; RemoveFrag f;; stop
  else
    '(result, inner) ← lift (ParseIPPacket (int32 caplen) data proto);
    modify (if (result <? 0)%Z then emit (Weird "truncated_inner_IP")
            else if (0 <? result)%Z then emit (Weird "inner_IP_payload_length_mismatch") else id);;
    if negb (result =? 0)%Z then RemoveFrag f;; stop
    else
      inner ← lift inner;
      src ← lift (ip_SrcAddr ip); dst ← lift (ip_DstAddr ip);
      let idx := if C.addr_lt src dst then (src, dst) else (dst, src) in
      modify (λ s, let now := C.network_time (world s) in
        let s' := set_ip_tunnels (<[idx := now]> (ip_tunnels s)) s in
        match ip_tunnels s !! idx with
        | None => emit (AddTunnelTimer (dadd now (ip_tunnel_timeout cfg)) idx) s'
        | Some _ => s'
        end);;
      mret inner.

(** The kind of traffic reported to the controller; ports in network order. *)
Definition pkttype (id : C.ConnID) : string :=
  let any p := (NU.htons (C.src_port id) =? p)%Z || (NU.htons (C.dst_port id) =? p)%Z in
  if any 80%Z then "HTTP" else if any 443%Z then "TLS" else "UNKNOWN".

(** Make a connection and put it into its table. *)
Definition add_connection (k : C.ConnKey) (p : C.TransportProto) (t : double) (id : C.ConnID) (data : bytes)
    (proto flow_label : Z) (tag : option nat) (f : option FragKey) : M state () :=
  c ← NewConn k t id data proto flow_label tag;
  match c with
  | Some c => modify (λ s, set_table p (<[k := c]> (table p s)) s)
  | None => RemoveFrag f;; stop
  end.

(** Look up the connection of a packet, or make one. *)
Definition find_or_create (k : C.ConnKey) (p : C.TransportProto) (t : double) (id : C.ConnID) (data : bytes)
    (proto flow_label : Z) (tag : option nat) (f : option FragKey) : M state () :=
  known ← gets (λ s, table p s !! k);
  match known with
  | None =>
    modify (emit FlowCreated);;
    add_connection k p t id data proto flow_label tag f
  | Some c =>
    when (C.HasMoved c) (modify (λ s, set_drop_counter (int32 (drop_counter s + 1)) s));;
    consistent ← gets (CheckConnectionTag tag c);
    if (consistent <? 0)%Z then RemoveFrag f;; stop
    else if (consistent =? 0)%Z || C.IsReuse t data c then
      when (negb (consistent =? 0)%Z) (event "connection_reused");;
      update (Remove c);;
      add_connection k p t id data proto flow_label tag f
    else mret ()
  end.

Definition is_orig (id : C.ConnID) (c : conn) : bool :=
  bool_decide (C.src_addr id = C.orig_addr c) && (C.src_port id =? C.orig_port c)%Z.

(** The last part of [DoNextPacket]; for the connection of a moved state it
    returns before the fragment reassembler is removed. *)
Definition deliver (k : C.ConnKey) (p : C.TransportProto) (t : double) (id : C.ConnID) (ip : IP.IP_Hdr)
    (data : bytes) (len caplen : Z) (f : option FragKey) : M state () :=
  c ← gets (λ s, table p s !! k); c ← lift c;
  let orig := is_orig id c in
  if C.HasMoved c then stop
  else
    flow_label ← lift (IP.FlowLabel ip);
    w ← gets world;
    let '(c, w) := C.CheckFlowLabel (conn_cfg cfg) orig flow_label (c, w) in
    when (ipv6_ext_headers cfg && (1 <? IP.NumHeaders ip)%Z) (event "ipv6_ext_headers");;
    when (new_packet cfg) (event "new_packet");;
    st ← gets tcp_stats;
    '(c, w, st, (record_packet, record_content)) ← lift (C.NextPacket t orig ip data len caplen true true c w st);
    modify (λ s, set_tcp_stats st (set_world w (set_table p (<[k := c]> (table p s)) s)));;
    match f with
    | Some _ => RemoveFrag f
    | None =>
      when record_packet
        (if (record_content : bool) then modify (set_dump_this_packet true) else modify (emit (DumpPacket false)))
    end.

(** A packet of a transport protocol. *)
Definition connection_packet (t : double) (proto : Z) (ip : IP.IP_Hdr) (data : bytes) (len caplen : Z)
    (tag : option nat) (f : option FragKey) : M state () :=
  src ← lift (ip_SrcAddr ip); dst ← lift (ip_DstAddr ip);
  '(id, p) ← lift (packet_id proto src dst data);
  modify (emit (PacketReceived (pkttype id)));;
  let k := C.BuildConnIDHashKey id in
  flow_label ← lift (IP.FlowLabel ip);
  find_or_create k p t id data proto flow_label tag f;;
  deliver k p t id ip data len caplen f.

(** [DoNextPacket]; [inner_call] is its call of itself, through
    [DoNextInnerPacket], for the packet in a tunnel. *)
Definition packet_body (inner_call : Z → IP.IP_Hdr → EncapsulationStack → M state ())
    (t : double) (hdr_len hdr_caplen hdr_size : Z) (ip : IP.IP_Hdr)
    (tag : option nat) (encapsulation : option EncapsulationStack) : M state () :=
  '(len, caplen, ip_hdr_len) ← check_packet hdr_len hdr_caplen hdr_size ip;
  '(ip, len, caplen, f) ← whole_packet t ip len caplen ip_hdr_len;
  last_header ← lift (IP.LastHeader ip);
  if (last_header =? IP.IPPROTO_ESP)%Z then
    modify (set_dump_this_packet true);;
    when (esp_packet cfg) (event "esp_packet");;
    RemoveFrag f;; stop
  else
    proto ← lift (IP.NextProto false ip);
    match CheckHeaderTrunc proto len caplen with
    | Some name => modify (emit (Weird name));; RemoveFrag f;; stop
    | None =>
      payload ← lift (IP.Payload ip);
      let data := drop (Z.to_nat payload) (IP.packet ip) in
      if bool_decide (is_Some (transport_of proto)) then connection_packet t proto ip data len caplen tag f
      else if (proto =? IPPROTO_IPV4)%Z || (proto =? IP.IPPROTO_IPV6)%Z then
        inner ← inner_packet proto ip data caplen encapsulation f;
        n ← lift (IP.TotalLen inner);
        let outer := mkEncap (match encapsulation with Some e => Depth e | None => 0 end + 1) false in
        call (inner_call n inner outer);;
        RemoveFrag f;; stop
      else if (proto =? IP.IPPROTO_NONE)%Z then
        when (negb match encapsulation with Some e => LastType_TEREDO e | None => false end)
          (modify (emit (Weird "ipv6_no_next")));;
        RemoveFrag f;; stop
      else
        modify (emit (Weird ("unknown_protocol_" +:+ pretty proto)));; RemoveFrag f;; stop
    end.

(** [fuel] bounds the nesting of tunnels. *)
Fixpoint DoNextPacket (fuel : nat) (t : double) (hdr_len hdr_caplen hdr_size : Z) (ip : IP.IP_Hdr)
    (tag : option nat) (encapsulation : option EncapsulationStack) : M state () :=
  match fuel with
  | O => lift None
  | S fuel =>
    packet_body (λ n inner outer, DoNextPacket fuel t n n 0 inner tag (Some outer))
      t hdr_len hdr_caplen hdr_size ip tag encapsulation
  end.

(** [ARP_Analyzer::IsARP]: the type of the Ethernet frame. *)
Definition IsARP (frame : bytes) (hdr_size : Z) : option bool :=
  x ← IP.get16 frame (hdr_size - 2); Some ((x =? 0x0806)%Z || (x =? 0x8035)%Z).

(** Enough for the deepest tunnel that is followed. *)
Definition nesting : nat := S (S (Z.to_nat (max_depth cfg))).

(** [frame] is what was captured; the IP header begins at [hdr_size].  [pkt_elem]
    is the header if the packet sorter has it already. *)
Definition NextPacket (t : double) (hdr_len : Z) (frame : bytes) (hdr_size : Z) (tag : option nat)
    (pkt_elem : option IP.IP_Hdr) : M state () :=
  modify (λ s, set_dump_this_packet false (set_num_packets_processed (num_packets_processed s + 1)%Z s));;
  when (record_all_packets cfg) (modify (emit (DumpPacket true)));;
  let hdr_caplen := Z.of_nat (length frame) in
  let next ip := call (DoNextPacket nesting t hdr_len hdr_caplen hdr_size ip tag None) in
  match pkt_elem with
  | Some ip => next ip
  | None =>
    let caplen := uint32 (hdr_caplen - hdr_size) in
    if (caplen <? 20)%Z then weird "truncated_IP"
    else
      let p := drop (Z.to_nat hdr_size) frame in
      v ← lift (IP.ip_v p);
      if (v =? 4)%Z then next (IP.Hdr4 p)
      else if (v =? 6)%Z then
        if (caplen <? 40)%Z then weird "truncated_IP"
        else '(p, chain) ← lift (IP.Init false p caplen false 0); next (IP.Hdr6 p chain)
      else
        arp ← lift (IsARP frame hdr_size);
        if (arp : bool) then when (has_arp_analyzer cfg) (modify (emit ToARP))
        else weird "unknown_packet_type"
  end;;
  dump ← gets dump_this_packet;
  when (dump && negb (record_all_packets cfg)) (modify (emit (DumpPacket true))).

(** After a timer function: it may have asked for the removal of the connection. *)
Definition store_fired (p : C.TransportProto) (k : C.ConnKey) (w : C.World) (c : conn) (w' : C.World) : M state () :=
  modify (λ s, set_world w' (set_table p (<[k := c]> (table p s)) s));;
  when (bool_decide (C.RemoveFromSessions ∈ drop (length (C.log w)) (C.log w'))) (update (Remove c)).

(** A timer of a connection fires. *)
Definition fire_conn_timer (p : C.TransportProto) (k : C.ConnKey) (tm : C.Timer) (t : double) (is_expire : bool)
    : M state () :=
  c ← gets (λ s, table p s !! k); c ← lift c;
  w ← gets world;
  let '(c, w') := C.fire (conn_cfg cfg) tm t is_expire (c, w) in
  store_fired p k w c w'.

(** A timer of its analyzer. *)
Definition fire_analyzer_timer (p : C.TransportProto) (k : C.ConnKey) (id : nat) (t : double) (is_expire : bool)
    : M state () :=
  c ← gets (λ s, table p s !! k); c ← lift c;
  w ← gets world;
  '(c, w') ← lift (C.an_fire id t is_expire (c, w));
  store_fired p k w c w'.

End operations.

(** ** Tunnels end *)

#[local] Arguments DoNextPacket : simpl never.

Section packets.
Context {A : Type} `{C.Analyzer A} `{TreeBuilder A}.
Variable cfg : config.
Implicit Types (s : NetSessions A) (c : C.Connection A).

(** A tunnel is only entered above the depth limit. *)
Lemma inner_packet_depth proto ip data caplen e f s s' inner :
  inner_packet (A := A) cfg proto ip data caplen (Some e) f s = Some (s', Some inner) → (Depth e < max_depth cfg)%Z.
Proof.
  rw /inner_packet. case: (negb (enable_ip cfg)).
  - rw /mbind /M_bind /=. by case: (RemoveFrag _ _) => [[s1 [x|]]|].
  - case: (Z.leb_spec (max_depth cfg) (Depth e)) => // Hle.
    rw /mbind /M_bind /=. by case: (RemoveFrag _ _) => [[s1 [x|]]|].
Qed.

(** How much deeper a packet can go. *)
Definition room (e : option EncapsulationStack) : nat :=
  match e with None => S (Z.to_nat (max_depth cfg)) | Some e => Z.to_nat (max_depth cfg - Depth e) end.

(** Only the packets that are entered matter. *)
Lemma packet_body_ext g g' t l cl hs ip tag e s :
  (∀ n inner outer s, match e with Some e => Depth e < max_depth cfg | None => True end →
     Depth outer = match e with Some e => Depth e | None => 0 end + 1 →
     g n inner outer s = g' n inner outer s)%Z →
  packet_body (A := A) cfg g t l cl hs ip tag e s = packet_body cfg g' t l cl hs ip tag e s.
Proof.
  move=> Hg. rw /packet_body.
  apply bind_ext => -[[len caplen] hl] s1 _. apply bind_ext => -[[[ip' len'] caplen'] f] s2 _.
  apply bind_ext => lh s3 _. case: (lh =? _)%Z => //. apply bind_ext => proto s4 _.
  case: CheckHeaderTrunc => // . apply bind_ext => payload s5 _.
  case: (bool_decide _) => //. case: (_ || _) => //. apply bind_ext => inner s6 Hin. apply bind_ext => n s7 _.
  rw /call /mbind /M_bind Hg //. case: e Hin {Hg} => // e. by apply inner_packet_depth.
Qed.

Lemma DoNextPacket_fuel n m t l cl hs ip tag e s :
  (match e with Some e => 0 < Depth e | None => True end)%Z → room e < n → room e < m →
  DoNextPacket (A := A) cfg n t l cl hs ip tag e s = DoNextPacket cfg m t l cl hs ip tag e s.
Proof.
  elim: n m t l cl hs ip e s => [|n IH] [|m] t l cl hs ip e s Hpos Hn Hm; try lia.
  apply packet_body_ext => k inner outer s' Hd Ho.
  apply IH; destruct e as [e|]; rw /room in Hn Hm *; lia.
Qed.

(** C20. Packets in tunnels nest without bound, but their processing ends: more
    fuel than [nesting] never changes the result, whatever the packet. *)
Theorem DoNextPacket_terminates (fuel : nat) t l cl hs ip tag s (Hfuel : nesting cfg ≤ fuel) :
  DoNextPacket (A := A) cfg fuel t l cl hs ip tag None s = DoNextPacket cfg (nesting cfg) t l cl hs ip tag None s.
Proof. apply DoNextPacket_fuel; rw /room /nesting in Hfuel *; lia. Qed.


Lemma CheckConnectionTag_ext tag c s s' :
  timer_mgrs s' = timer_mgrs s → CheckConnectionTag cfg tag c s' = CheckConnectionTag cfg tag c s.
Proof.
  move=> Hs. rw /CheckConnectionTag /GetTimerMgr /LookupTimerMgr Hs.
  case: (C.conn_timer_mgr c) => [g|] //. by case: (decide (g ∈ timer_mgrs s)).
Qed.

(** C21. Once the state of a connection has moved, its packets only count as
    dropped: the connections, their statistics and timers stay as they are.  So do
    the fragment reassemblers, even if the packet was reassembled from fragments:
    its reassembler, whose timer is gone, stays in the table forever. *)
Theorem moved_connection_frozen t proto ip src dst data id p c fl len caplen tag f s
    (Hsrc : ip_SrcAddr ip = Some src) (Hdst : ip_DstAddr ip = Some dst) (Hfl : IP.FlowLabel ip = Some fl)
    (Hid : packet_id proto src dst data = Some (id, p))
    (Hc : table p s !! C.BuildConnIDHashKey id = Some c) (Hmoved : C.HasMoved c = true)
    (Htag : CheckConnectionTag cfg tag c s = 1%Z) (Hreuse : C.IsReuse t data c = false) :
  connection_packet (A := A) cfg t proto ip data len caplen tag f s =
    Some (set_drop_counter (int32 (drop_counter s + 1)) (emit (PacketReceived (pkttype id)) s), None).
Proof.
  set s1 := emit _ s.
  have Hc1 : table p s1 !! C.BuildConnIDHashKey id = Some c by destruct p.
  have Ht1 : CheckConnectionTag cfg tag c (set_drop_counter (int32 (drop_counter s + 1)) s1) = 1%Z
    by rw (CheckConnectionTag_ext _ _ s).
  rw /connection_packet /mbind /M_bind /lift Hsrc Hdst /= Hid /= Hfl /= -/s1.
  rw /find_or_create /mbind /M_bind /gets Hc1 Hmoved /= Ht1 Hreuse /= /deliver /mbind /M_bind /gets.
  have -> : table p (set_drop_counter (int32 (drop_counter s + 1)) s1) !! C.BuildConnIDHashKey id = Some c
    by destruct p.
  by rw /= Hmoved.
Qed.
End packets.

(** ** The statistics of TCP states *)

(** What a run of the component consists of. *)
Inductive input :=
  | Packet (t : double) (hdr_len : Z) (frame : bytes) (hdr_size : Z) (tag : option nat) (pkt_elem : option IP.IP_Hdr)
  | ConnTimer (p : C.TransportProto) (k : C.ConnKey) (tm : C.Timer) (t : double) (is_expire : bool)
  | AnalyzerTimer (p : C.TransportProto) (k : C.ConnKey) (id : nat) (t : double) (is_expire : bool)
  | FragTimer (k : FragKey)
  | TunnelTimer (idx : bytes * bytes) (t : double) (is_expire : bool)
  | ManagerTimer (g : nat) (last_advance now : double) (is_expire : bool).

Definition handle {A} `{C.Analyzer A} `{TreeBuilder A} (cfg : config) (i : input) : M (NetSessions A) () :=
  match i with
  | Packet t l frame hs tag ip => call (NextPacket cfg t l frame hs tag ip)
  | ConnTimer p k tm t e => fire_conn_timer cfg p k tm t e
  | AnalyzerTimer p k id t e => fire_analyzer_timer cfg p k id t e
  | FragTimer k => ExpireFragment k
  | TunnelTimer idx t e => modify (dispatch_tunnel_timer cfg idx t e)
  | ManagerTimer g la now e => modify (dispatch_expire_timer cfg g la now e)
  end.

(** The states of a TCP connection, and what it counts for. *)
Definition conn_states {A} `{C.Analyzer A} (c : C.Connection A) : option (E.EndpointState * E.EndpointState) :=
  match C.proto c with C.TRANSPORT_TCP => C.root_analyzer c ≫= C.an_states | _ => None end.
Definition counts (o r : E.EndpointState) (x : option (E.EndpointState * E.EndpointState)) : Z :=
  if decide (x = Some (o, r)) then 1%Z else 0%Z.

(** The parts of a connection its table and the statistics depend on. *)
Definition same_conn {A} (c c' : C.Connection A) : Prop :=
  C.key c' = C.key c ∧ C.proto c' = C.proto c ∧ C.moved c' = C.moved c ∧ C.root_analyzer c' = C.root_analyzer c.

(** What the statistics rely on: analyzers keep them when a state changes, when
    the tree is built, and leave the rest of the connection alone.  [law_ok] is what
    an analyzer needs of its connection and keeps. *)
Class StatisticsLaws (A : Type) `{C.Analyzer A} `{TreeBuilder A} := {
  law_ok : C.Connection A → Prop;
  law_ok_ext c c' : C.proto c' = C.proto c → C.root_analyzer c' = C.root_analyzer c → law_ok c → law_ok c';
  law_NextPacket t orig ip data len caplen c w st c' w' st' :
    law_ok c → C.an_NextPacket t orig ip data len caplen (c, w, st) = Some (c', w', st') →
    law_ok c' ∧ C.key c' = C.key c ∧ C.proto c' = C.proto c ∧ C.moved c' = C.moved c ∧
    ∀ o r, uint32 (E.Cnt o r st') = uint32 (E.Cnt o r st - counts o r (conn_states c) + counts o r (conn_states c'));
  law_fire id t e c w c' w' :
    law_ok c → C.an_fire id t e (c, w) = Some (c', w') →
    law_ok c' ∧ C.key c' = C.key c ∧ C.proto c' = C.proto c ∧ C.moved c' = C.moved c ∧ conn_states c' = conn_states c;
  law_Done a w a' w' : C.an_Done a w = Some (a', w') → C.an_states a' = C.an_states a;
  law_build p data c w st c' w' st' :
    C.root_analyzer c = None → C.proto c = p → build_tree p data (c, w) st = Some (c', w', st') →
    law_ok c' ∧ C.key c' = C.key c ∧ C.proto c' = C.proto c ∧ C.moved c' = C.moved c ∧
    ∀ o r, uint32 (E.Cnt o r st') = uint32 (E.Cnt o r st + counts o r (conn_states c'))
}.

(** Sum over a table. *)
Definition msum {K} `{Countable K} {X} (f : X → Z) (m : gmap K X) : Z := map_fold (λ _ x acc, f x + acc)%Z 0%Z m.

Lemma msum_insert {K} `{Countable K} {X} (f : X → Z) (m : gmap K X) k x :
  m !! k = None → msum f (<[k := x]> m) = (f x + msum f m)%Z.
Proof. move=> Hk. rw /msum map_fold_insert_L //. move=> *. lia. Qed.

Lemma msum_delete {K} `{Countable K} {X} (f : X → Z) (m : gmap K X) k x :
  m !! k = Some x → msum f (delete k m) = (msum f m - f x)%Z.
Proof.
  move=> Hk. rw -{2}(insert_delete_id m k x) // msum_insert; [lia|by apply lookup_delete_eq].
Qed.

Lemma msum_update {K} `{Countable K} {X} (f : X → Z) (m : gmap K X) k x y :
  m !! k = Some x → msum f (<[k := y]> m) = (msum f m - f x + f y)%Z.
Proof.
  move=> Hk. rw -insert_delete_eq msum_insert; [|by apply lookup_delete_eq].
  rw (msum_delete f m k x) //. lia.
Qed.

Section statistics.
Context {A : Type} `{StatisticsLaws A}.
Variable cfg : config.
Implicit Types (s : NetSessions A) (c : C.Connection A).

Definition total (o r : E.EndpointState) (m : ConnTable A) : Z := msum (λ c, counts o r (conn_states c)) m.

(** No state has moved, every connection is in its table, under its key, and the
    statistics are the numbers of connections. *)
Record stats_inv s : Prop := {
  si_table p k c : table p s !! k = Some c → C.proto c = p ∧ C.key c = Some k ∧ C.moved c = false ∧ law_ok c;
  si_cnt o r : uint32 (E.Cnt o r (tcp_stats s)) = uint32 (total o r (tcp_conns s))
}.

(** Whatever keeps the tables and statistics keeps the invariant. *)
Lemma stats_inv_ext s s' :
  tcp_conns s' = tcp_conns s → udp_conns s' = udp_conns s → icmp_conns s' = icmp_conns s →
  tcp_stats s' = tcp_stats s → stats_inv s → stats_inv s'.
Proof.
  move=> Ht Hu Hi Hst [Htab Hcnt]. split.
  - move=> p k c. rw (_ : table p s' = table p s); [by apply Htab|by destruct p; rw /= ?Ht ?Hu ?Hi].
  - move=> o r. by rw Hst Ht.
Qed.

Lemma table_set_table p q v s :
  p ≠ C.TRANSPORT_UNKNOWN → table q (set_table p v s) = if decide (q = p) then v else table q s.
Proof. by destruct p, q. Qed.

Lemma uint32_cong a b z : uint32 a = uint32 b → uint32 (a + z) = uint32 (b + z).
Proof. rw /uint32 /wrap_u => Hab. by rw (Z.add_mod a) // Hab -Z.add_mod. Qed.

Lemma uint32_cong2 a b x y : uint32 a = uint32 b → uint32 (a - x + y) = uint32 (b - x + y).
Proof.
  move=> Hab. have Hz z : (z - x + y = z + (y - x))%Z by lia. rw !Hz. by apply uint32_cong.
Qed.

Lemma conn_states_other c p : C.proto c = p → p ≠ C.TRANSPORT_TCP → conn_states c = None.
Proof. rw /conn_states => ->. by case: p. Qed.

(** Replace or add a connection. *)
Lemma stats_inv_put s p k c st w :
  stats_inv s → C.proto c = p → C.key c = Some k → C.moved c = false → law_ok c → p ≠ C.TRANSPORT_UNKNOWN →
  (∀ o r, uint32 (E.Cnt o r st) =
     uint32 (E.Cnt o r (tcp_stats s) - from_option (λ c, counts o r (conn_states c)) 0 (table p s !! k)
             + counts o r (conn_states c)))%Z →
  stats_inv (set_tcp_stats st (set_world w (set_table p (<[k := c]> (table p s)) s))).
Proof.
  move=> [Htab Hcnt] Hp Hk Hm Hok Hne Hst. set s' := set_tcp_stats _ _.
  have Hs' q : table q s' = if decide (q = p) then <[k := c]> (table p s) else table q s
    by rw -(table_set_table p q _ s Hne); destruct p, q.
  split.
  - move=> q k' c'. rw Hs'. case: (decide (q = p)) => [->|_]; last by apply Htab.
    move=> /lookup_insert_Some [[<- <-]|[_ /Htab]] //.
  - move=> o r. rw (Hst o r). change (tcp_conns s') with (table C.TRANSPORT_TCP s'). rw Hs'.
    case: (decide (C.TRANSPORT_TCP = p)) => [Hpt|Hpt].
    + rw /total. case Hold: (table p s !! k) => [c0|] /=.
      * rw (msum_update _ _ _ _ _ Hold) -Hpt. by apply uint32_cong2, Hcnt.
      * rw msum_insert // Z.sub_0_r (Z.add_comm (counts _ _ _)) -Hpt. by apply uint32_cong, Hcnt.
    + have Hn c' : C.proto c' = p → counts o r (conn_states c') = 0%Z.
      { move=> Hc'. by rw (conn_states_other _ _ Hc') // => /eq_sym. }
      rw (Hn c) //. case Hold: (table p s !! k) => [c0|] /=; last by rw Z.sub_0_r Z.add_0_r Hcnt.
      move: (Htab _ _ _ Hold) => [Hc0 _]. by rw (Hn c0) // Z.sub_0_r Z.add_0_r Hcnt.
Qed.

Lemma CancelTimers_same c w : same_conn c (C.CancelTimers (c, w)).1.
Proof. rw /C.CancelTimers /=. by rw C.foldl_RemoveTimer. Qed.

Lemma Done_same c w c' w' :
  C.Done (c, w) = Some (c', w') →
  C.key c' = C.key c ∧ C.proto c' = C.proto c ∧ C.moved c' = C.moved c ∧
  C.root_analyzer c' ≫= C.an_states = C.root_analyzer c ≫= C.an_states.
Proof.
  rw /C.Done /=. destruct (C.root_analyzer c) as [a|] eqn:Ha; last by move=> [<- _]; split_and!; rw /= ?Ha.
  destruct (C.an_IsFinished a); first by move=> [<- _]; split_and!; rw /= ?Ha.
  destruct (C.an_Done a w) as [[a1 w1]|] eqn:Hd => //= -[<- _]. split_and! => //=. by rw (law_Done _ _ _ _ Hd).
Qed.

Lemma left_stats_same c c' st :
  C.moved c' = C.moved c → C.proto c' = C.proto c →
  C.root_analyzer c' ≫= C.an_states = C.root_analyzer c ≫= C.an_states → left_stats c' st = left_stats c st.
Proof. rw /left_stats /C.HasMoved. by move=> -> -> ->. Qed.

Lemma remove_entry_shape k c s s' :
  remove_entry k c s = Some s' →
  C.proto c ≠ C.TRANSPORT_UNKNOWN ∧ tcp_stats s' = tcp_stats s ∧ fragments s' = fragments s ∧
  ∀ q, table q s' = if decide (q = C.proto c) then delete k (table q s) else table q s.
Proof.
  rw /remove_entry. case: (decide (C.proto c = _)) => // Hne Hrun.
  have {Hrun} [w ->] : ∃ w, s' = emit FlowDestroyed (set_world w
      (set_table (C.proto c) (delete k (table (C.proto c) s)) s)).
  { move: Hrun. destruct (C.Connection_delete (c, world s)) as [w|];
      case: (_ !! _); case: (C.HasMoved c) => //= *; simplify_eq; by exists w. }
  split_and! => //=; [by destruct (C.proto c)..|]. move=> q.
  by destruct (C.proto c), q.
Qed.

Lemma Remove_shape c s s' k :
  C.key c = Some k → Remove cfg c s = Some s' →
  C.proto c ≠ C.TRANSPORT_UNKNOWN ∧ tcp_stats s' = left_stats c (tcp_stats s) ∧ fragments s' = fragments s ∧
  ∀ q, table q s' = if decide (q = C.proto c) then delete k (table q s) else table q s.
Proof.
  move=> Hk. rw /Remove Hk. have := CancelTimers_same c (world s).
  case: (C.CancelTimers (c, world s)) => c1 w1 /= [_ [Hp1 [Hm1 Hr1]]].
  rw (left_stats_same c c1) //; last by rw Hr1.
  destruct (if C.HasMoved c1 then Some (c1, w1) else C.Done (c1, w1)) as [[c2 w2]|] eqn:Hd => //=.
  have Hp2 : C.proto c2 = C.proto c.
  { move: Hd. case: (C.HasMoved c1); first by move=> [<- _]. move=> /Done_same [_ [Hp _]]. by rw Hp. }
  set s1 := if negb _ && _ then _ else _. move=> /remove_entry_shape /= [Hne [-> [-> Htab]]].
  have Hs1 : tcp_stats s1 = left_stats c (tcp_stats s) ∧ fragments s1 = fragments s ∧ ∀ q, table q s1 = table q s.
  { rw /s1. case: (negb _ && _); split_and! => //= q; by case: q. }
  rw Hp2 in Hne, Htab. move: Hs1 => [-> [-> Hq]]. split_and! => // q. by rw Htab !Hq.
Qed.

Lemma counts_None o r : counts o r None = 0%Z.
Proof. done. Qed.

Lemma Cnt_StateLeft o r o' r' st :
  uint32 (E.Cnt o' r' (E.StateLeft o r st)) = uint32 (E.Cnt o' r' st - counts o' r' (Some (o, r))).
Proof.
  rw /E.Cnt /E.StateLeft /E.bump /counts.
  case: (decide (o' = o ∧ r' = r)) => [[-> ->]|Hne].
  - rw decide_True //. by rw /uint32 /wrap_u Z.mod_mod.
  - rw decide_False; [by rw Z.sub_0_r|]. move=> [*]. by apply Hne.
Qed.

Lemma stats_inv_Remove s p k c s' :
  stats_inv s → table p s !! k = Some c → Remove cfg c s = Some s' → stats_inv s' ∧ table p s' !! k = None.
Proof.
  move=> [Htab Hcnt] Hc. have [Hp [Hk [Hm _]]] := Htab _ _ _ Hc.
  move=> /(Remove_shape _ _ _ _ Hk) [Hne [Hst [_ Hq]]]. rw Hp in Hne, Hq. split; last first.
  { rw Hq decide_True //. by apply lookup_delete_eq. }
  split.
  - move=> q k' c'. rw Hq. case: (decide (q = p)) => [->|_]; last by apply Htab.
    by move=> /lookup_delete_Some [_ /Htab].
  - move=> o r. rw Hst. change (tcp_conns s') with (table C.TRANSPORT_TCP s'). rw Hq.
    rw /left_stats /C.HasMoved Hm.
    case: (decide (C.TRANSPORT_TCP = p)) => [Hpt|Hpt].
    + rw /total -Hpt in Hc *. rw (msum_delete _ _ _ _ Hc) Hp -Hpt.
      have Hcs : conn_states c = C.root_analyzer c ≫= C.an_states by rw /conn_states Hp -Hpt.
      rw -Hcs. case: (conn_states c) => [[o' r']|] /=.
      * rw Cnt_StateLeft. by apply (uint32_cong _ _ (- _)), Hcnt.
      * rw (counts_None o r) Z.sub_0_r. by apply Hcnt.
    + rw Hp. rw (_ : (match p with C.TRANSPORT_TCP => _ | _ => _ end) = tcp_stats s); [by apply Hcnt|by destruct p].
Qed.

(** Steps that leave the tables and the statistics alone. *)
Lemma keeps_quiet (f : NetSessions A → NetSessions A) :
  (∀ s, tcp_conns (f s) = tcp_conns s ∧ udp_conns (f s) = udp_conns s ∧ icmp_conns (f s) = icmp_conns s ∧
     tcp_stats (f s) = tcp_stats s) → keeps stats_inv (modify f).
Proof.
  move=> Hf. apply keeps_modify => s Hs. move: (Hf s) => [? [? [? ?]]]. by apply (stats_inv_ext s).
Qed.

Ltac quiet := keep; try (by apply keeps_quiet).

Lemma keeps_weird {X} name : keeps stats_inv (weird (A := A) (X := X) name).
Proof. rw /weird. quiet. Qed.
Lemma keeps_event name : keeps stats_inv (event (A := A) name).
Proof. rw /event. quiet. Qed.
Lemma keeps_RemoveFrag f : keeps stats_inv (RemoveFrag (A := A) f).
Proof.
  apply keeps_update => s s' Hs. case: f => [k|] Hk; simplify_eq/=; last done.
  case: (fragments s !! k) Hk => // ? [<-]. by apply (stats_inv_ext s).
Qed.
Lemma keeps_NextFragment t ip : keeps stats_inv (NextFragment (A := A) cfg t ip).
Proof. rw /NextFragment. quiet. Qed.
Lemma keeps_check_packet l cl hs ip : keeps stats_inv (check_packet (A := A) cfg l cl hs ip).
Proof. rw /check_packet. quiet; apply keeps_weird. Qed.
Lemma keeps_whole_packet t ip len caplen hl : keeps stats_inv (whole_packet (A := A) cfg t ip len caplen hl).
Proof. rw /whole_packet. quiet. apply keeps_NextFragment. Qed.
Lemma keeps_inner_packet proto ip data caplen e f :
  keeps stats_inv (inner_packet (A := A) cfg proto ip data caplen e f).
Proof.
  rw /inner_packet. quiet; try apply keeps_RemoveFrag; apply keeps_quiet => s; by repeat case_match.
Qed.

(** The table of a key that is not used yet, with a connection added. *)
Definition with_new p k c s : Prop := stats_inv (set_table p (<[k := c]> (table p s)) s).

Lemma with_new_event p k c name R : triple (with_new p k c) (event (A := A) name) (λ _, with_new p k c) R.
Proof. rw /event. apply triple_modify => s Hs. rw /with_new. eapply stats_inv_ext, Hs; by destruct p. Qed.

Lemma transport_of_known proto p : transport_of proto = Some p → p ≠ C.TRANSPORT_UNKNOWN.
Proof. rw /transport_of. intros ?. by repeat case_match; simplify_eq. Qed.

Lemma NewConn_stats p k t id data proto flow tag :
  transport_of proto = Some p →
  triple (λ s, stats_inv s ∧ table p s !! k = None) (NewConn cfg k t id data proto flow tag)
    (λ oc s, match oc with Some c => with_new p k c s | None => stats_inv s end) stats_inv.
Proof.
  move=> Hp. rw /NewConn Hp. apply triple_bind_lift => p' [<-].
  set Pre := λ s, stats_inv s ∧ table p s !! k = None.
  apply (triple_bind _ (λ _, Pre)).
  { apply (triple_weaken Pre Pre (λ _, Pre) (λ _, Pre) Pre) => // [|s []//].
    change (keeps Pre (if decide (p = C.TRANSPORT_TCP) then lift (IP.get8 data 13) else mret 0%Z)). keep. }
  move=> fl. case: (WantConnection _ _ _ _ _) => [[|] flip] /=; last by move=> s [Hs _].
  apply triple_bind_get => s0. set id' := if flip then _ else _.
  destruct (C.Connection_new _ _ _ _ _ _ _ _) as [c w] eqn:Hnew.
  have [Hck [Hcm Hcr]] : C.key c = Some k ∧ C.moved c = false ∧ C.root_analyzer c = None.
  { move: Hnew. rw /C.Connection_new. case: tag => [g|] [<- _] //. }
  apply triple_bind_lift => -[[c1 w1] st] Hbuild.
  have [Hok [Hk [Hpr [Hm Hst]]]] := law_build _ _ (C.set_proto p c) _ _ _ _ _ Hcr eq_refl Hbuild.
  apply (triple_bind _ (λ _, with_new p k c1)).
  { apply triple_modify => s [[Hs Hn] Hs0]. subst s0. eapply stats_inv_ext.
    5: { apply (stats_inv_put s p k c1 st w1 Hs); [done|by rw Hk|by rw Hm|done| |].
      - by apply (transport_of_known _ _ Hp).
      - move=> o r. by rw Hst Hn /= Z.sub_0_r. }
    all: by destruct p. }
  move=> _. apply (triple_bind _ (λ _, with_new p k c1)).
  { apply triple_when. apply (triple_bind _ (λ _, with_new p k c1)); first by apply with_new_event.
    move=> _. apply triple_when, with_new_event. }
  move=> _ s Hs. exact Hs.
Qed.

Lemma add_connection_stats k p t id data proto flow tag f :
  transport_of proto = Some p →
  triple (λ s, stats_inv s ∧ table p s !! k = None) (add_connection cfg k p t id data proto flow tag f)
    (λ _, stats_inv) stats_inv.
Proof.
  move=> Hp. rw /add_connection. apply (triple_bind _ _ _ _ _ _ (NewConn_stats p k t id data proto flow tag Hp)).
  move=> [c|]; first by apply triple_modify.
  apply (triple_pre stats_inv) => //. keep. apply keeps_RemoveFrag.
Qed.

Lemma find_or_create_stats k p t id data proto flow tag f :
  transport_of proto = Some p → keeps stats_inv (find_or_create (A := A) cfg k p t id data proto flow tag f).
Proof.
  move=> Hp. rw /find_or_create. apply triple_bind_gets => -[c|]; last first.
  { apply (triple_bind _ (λ _ s, stats_inv s ∧ table p s !! k = None)); last by move=> _; apply add_connection_stats.
    apply triple_modify => s [Hs Hn]. split; [by apply (stats_inv_ext s)|by destruct p]. }
  set P := λ s, stats_inv s ∧ Some c = table p s !! k.
  have HP : ∀ s, P s → stats_inv s by move=> s [].
  apply (triple_bind _ (λ _, P)).
  { apply triple_when, triple_modify => s [Hs Hc]. split; [by apply (stats_inv_ext s)|by destruct p]. }
  move=> _. apply triple_bind_gets => consistent. apply (triple_pre P); first by move=> s [].
  case: (consistent <? 0)%Z.
  { apply (triple_pre stats_inv) => //.
    keep. apply keeps_RemoveFrag. }
  case: ((consistent =? 0)%Z || C.IsReuse t data c); last by move=> s [].
  apply (triple_bind _ (λ _, P)).
  { apply triple_when, triple_modify => s [Hs Hc]. split; [by apply (stats_inv_ext s)|by destruct p]. }
  move=> _. apply (triple_bind _ (λ _ s, stats_inv s ∧ table p s !! k = None)); last by move=> _; apply add_connection_stats.
  apply triple_update => s s' [Hs Hc] Hr. symmetry in Hc. by apply (stats_inv_Remove s p k c).
Qed.

(** The same connection, with or without changes to the rest of it. *)
Lemma same_conn_states c c' : same_conn c c' → conn_states c' = conn_states c.
Proof. rw /conn_states. by move=> [_ [-> [_ ->]]]. Qed.

Lemma CheckFlowLabel_same ccfg orig fl c w : same_conn c (C.CheckFlowLabel ccfg orig fl (c, w)).1.
Proof. rw /C.CheckFlowLabel. by case: orig; case: (negb _). Qed.

Lemma same_conn_ok c c' : same_conn c c' → law_ok c → law_ok c'.
Proof. move=> [_ [Hp [_ Hr]]]. by apply law_ok_ext. Qed.

Lemma NextPacket_stats t orig ip data len caplen rp rc c w st c' w' st' rr :
  law_ok c → C.NextPacket t orig ip data len caplen rp rc c w st = Some (c', w', st', rr) →
  law_ok c' ∧ C.key c' = C.key c ∧ C.proto c' = C.proto c ∧ C.moved c' = C.moved c ∧
  ∀ o r, uint32 (E.Cnt o r st') = uint32 (E.Cnt o r st - counts o r (conn_states c) + counts o r (conn_states c')).
Proof.
  intros Hok. have Hsame c1 : conn_states c1 = conn_states c → ∀ o r,
    uint32 (E.Cnt o r st) = uint32 (E.Cnt o r st - counts o r (conn_states c) + counts o r (conn_states c1)).
  { move=> -> o r. f_equal. lia. }
  unfold C.NextPacket. destruct (C.Skipping c); first by intros [= <- _ <- _]; split_and!; auto.
  destruct (C.root_analyzer c) as [a|] eqn:Ha.
  - set c1 := C.with_flags _ c. destruct (C.an_NextPacket _ _ _ _ _ _ _) as [[[c2 w2] st2]|] eqn:Hn => //= -[<- _ <- _].
    destruct (law_NextPacket _ _ _ _ _ _ _ _ _ _ _ _ (law_ok_ext c c1 eq_refl eq_refl Hok) Hn) as (Hok2 & -> & -> & -> & Hst).
    by split_and!.
  - intros [= <- _ <- _]. split_and!; [by apply (law_ok_ext c)|done|done|done|by apply Hsame].
Qed.

Lemma deliver_stats k p t id ip data len caplen f :
  p ≠ C.TRANSPORT_UNKNOWN → keeps stats_inv (deliver (A := A) cfg k p t id ip data len caplen f).
Proof.
  move=> Hne. rw /deliver. apply triple_bind_gets => c0. apply triple_bind_lift => c Hc0.
  set P := λ s, stats_inv s ∧ table p s !! k = Some c.
  apply (triple_pre P); first by move=> s [Hs Hc]; split; rw -?Hc.
  have HP : ∀ s, P s → stats_inv s by move=> s [].
  case: (C.HasMoved c); first by move=> s [].
  apply triple_bind_lift => fl _. apply triple_bind_gets => w.
  apply (triple_pre P); first by move=> s [].
  have := CheckFlowLabel_same (conn_cfg cfg) (is_orig id c) fl c w.
  destruct (C.CheckFlowLabel _ _ _ _) as [c1 w1] => /= Hsame.
  have Hev name : triple P (event (A := A) name) (λ _, P) stats_inv.
  { apply triple_modify => s [Hs Hc]. split; [by apply (stats_inv_ext s)|by destruct p]. }
  apply (triple_bind _ (λ _, P)); first by apply triple_when, Hev.
  move=> _. apply (triple_bind _ (λ _, P)); first by apply triple_when, Hev.
  move=> _. apply triple_bind_gets => st. apply triple_bind_lift => -[[[c2 w2] st2] [rp rc]] Hn.
  apply (triple_bind _ (λ _, stats_inv)).
  { apply triple_modify => s [[Hs Hc] Hst]. have [Htp [Htk [Htm Hok]]] := si_table _ Hs _ _ _ Hc.
    move: (NextPacket_stats _ _ _ _ _ _ _ _ _ _ _ _ _ _ _ (same_conn_ok _ _ Hsame Hok) Hn) => [Hok2 [Hk2 [Hp2 [Hm2 Hst2]]]].
    move: (Hsame) => [Hk1 [Hp1 [Hm1 _]]].
    apply stats_inv_put => //; [by rw Hp2 Hp1|by rw Hk2 Hk1|by rw Hm2 Hm1|].
    move=> o r. by rw Hst2 Hc (same_conn_states _ _ Hsame) Hst. }
  move=> _. quiet. apply keeps_RemoveFrag.
Qed.

Lemma packet_id_transport proto src dst data id p :
  is_Some (transport_of proto) → packet_id proto src dst data = Some (id, p) → transport_of proto = Some p.
Proof.
  unfold packet_id, transport_of, IPPROTO_TCP, IPPROTO_UDP, IPPROTO_ICMP. intros [q Hq].
  destruct (Z.eqb_spec proto 6) as [->|H6]; [|destruct (Z.eqb_spec proto 17) as [->|H17]];
    [simpl; destruct (IP.get16 data 0), (IP.get16 data 2); simpl; intros; by simplify_eq..|].
  destruct (IP.get8 data 0) as [x|], (IP.get8 data 1) as [y|]; simpl; intros Hid; try done.
  destruct (proto =? 1)%Z; [destruct (ICMP4_counterpart x y)|destruct (ICMP6_counterpart x y)]; simplify_eq; [done|].
  by destruct (proto =? IPPROTO_ICMPV6)%Z.
Qed.

Lemma connection_packet_stats t proto ip data len caplen tag f :
  is_Some (transport_of proto) → keeps stats_inv (connection_packet (A := A) cfg t proto ip data len caplen tag f).
Proof.
  move=> Hp. rw /connection_packet. apply triple_bind_lift => src _. apply triple_bind_lift => dst _.
  apply triple_bind_lift => -[id p] Hid. have Hpp := packet_id_transport _ _ _ _ _ _ Hp Hid.
  quiet.
  - by apply find_or_create_stats.
  - by apply deliver_stats, (transport_of_known proto).
Qed.

Lemma packet_body_stats g t l cl hs ip tag e :
  (∀ n inner outer, keeps stats_inv (g n inner outer)) →
  keeps stats_inv (packet_body (A := A) cfg g t l cl hs ip tag e).
Proof.
  move=> Hg. rw /packet_body. quiet; try first
    [ apply keeps_check_packet | apply keeps_whole_packet | apply keeps_RemoveFrag | apply keeps_event
    | apply keeps_inner_packet | apply Hg ].
  by eapply connection_packet_stats, bool_decide_eq_true_1.
Qed.

Lemma DoNextPacket_stats n t l cl hs ip tag e : keeps stats_inv (DoNextPacket (A := A) cfg n t l cl hs ip tag e).
Proof.
  elim: n t l cl hs ip tag e => [|n IH] t l cl hs ip tag e; first by apply keeps_lift.
  apply packet_body_stats => k inner outer. apply IH.
Qed.

Lemma NextPacket_keeps t l frame hs tag ip : keeps stats_inv (NextPacket (A := A) cfg t l frame hs tag ip).
Proof. rw /NextPacket. quiet; try first [apply keeps_weird|apply DoNextPacket_stats]. Qed.

Lemma fire_same ccfg tm t e c w : same_conn c (C.fire ccfg tm t e (c, w)).1.
Proof.
  set P := λ s : C.Connection A * C.World, same_conn c s.1.
  have Hadd f t' e' (cw : C.Connection A * C.World) : P cw → P (C.AddTimer f t' e' cw).
  { case: cw => c1 w1. rw /C.AddTimer. case: (C.timers_canceled _) => //. by case: (C.key c1). }
  cut (P (C.Dispatch ccfg tm t e (c, C.set_pending (filter (λ x, C.t_id x ≠ C.t_id tm) (C.pending w)) w)));
    first by move=> Hd; exact Hd.
  rw /C.Dispatch. case: (e && _); first by []. by apply C.run_timer_keeps.
Qed.

Lemma store_fired_keeps p k w c0 c w' :
  p ≠ C.TRANSPORT_UNKNOWN → C.key c = C.key c0 → C.proto c = C.proto c0 → C.moved c = C.moved c0 →
  conn_states c = conn_states c0 → (law_ok c0 → law_ok c) →
  triple (λ s, stats_inv s ∧ table p s !! k = Some c0) (store_fired (A := A) cfg p k w c w') (λ _, stats_inv) stats_inv.
Proof.
  move=> Hne Hk1 Hp1 Hm1 Hst1 Hok1. rw /store_fired.
  apply (triple_bind _ (λ _ s, stats_inv s ∧ table p s !! k = Some c)).
  - apply triple_modify => s [Hs Hc]. have [Htp [Htk [Htm Hok]]] := si_table _ Hs _ _ _ Hc. split.
    + eapply stats_inv_ext; last first.
      * apply (stats_inv_put s p k c (tcp_stats s) w' Hs); [by rw Hp1|by rw Hk1|by rw Hm1|by apply Hok1|done|].
        move=> o r. rw Hc /= Hst1. f_equal. lia.
      * by destruct p.
      * by destruct p.
      * by destruct p.
      * by destruct p.
    + destruct p; by [|apply lookup_insert_eq].
  - move=> _. case: (bool_decide _); last by move=> s [].
    apply triple_update => s s' [Hs Hc] Hr. by apply (stats_inv_Remove s p k c).
Qed.

Lemma fire_conn_timer_keeps p k tm t e :
  p ≠ C.TRANSPORT_UNKNOWN → keeps stats_inv (fire_conn_timer (A := A) cfg p k tm t e).
Proof.
  move=> Hne. rw /fire_conn_timer. apply triple_bind_gets => c0. apply triple_bind_lift => c Hc0.
  apply triple_bind_gets => w. have := fire_same (conn_cfg cfg) tm t e c w.
  destruct (C.fire _ _ _ _ _) as [c1 w1] => /= Hsame. move: (Hsame) => [Hk1 [Hp1 [Hm1 _]]].
  apply (triple_pre (λ s, stats_inv s ∧ table p s !! k = Some c)); first by move=> s [[Hs Hc] _]; rw -Hc Hc0.
  apply store_fired_keeps => //; [by apply same_conn_states|by apply same_conn_ok].
Qed.

Lemma fire_analyzer_timer_keeps p k id t e :
  p ≠ C.TRANSPORT_UNKNOWN → keeps stats_inv (fire_analyzer_timer (A := A) cfg p k id t e).
Proof.
  move=> Hne. rw /fire_analyzer_timer. apply triple_bind_gets => c0. apply triple_bind_lift => c Hc0.
  apply triple_bind_gets => w. apply triple_bind_lift => -[c1 w1] Hf.
  move=> s [[Hs Hc] Hw]. rw Hc0 in Hc. symmetry in Hc. have [_ [_ [_ Hok]]] := si_table _ Hs _ _ _ Hc.
  destruct (law_fire _ _ _ _ _ _ _ Hok Hf) as (Hok1 & Hk1 & Hp1 & Hm1 & Hst1).
  by apply (store_fired_keeps p k w c c1 w1 Hne Hk1 Hp1 Hm1 Hst1 (λ _, Hok1)).
Qed.

Definition input_ok (i : input) : Prop :=
  match i with ConnTimer p _ _ _ _ | AnalyzerTimer p _ _ _ _ => p ≠ C.TRANSPORT_UNKNOWN | _ => True end.

Lemma handle_keeps i :
  input_ok i → keeps stats_inv (handle (A := A) cfg i).
Proof.
  case: i => [t l frame hs tag ip|p k tm t e|p k id t e|k|idx t e|g la now e] Hne /=.
  - keep. apply NextPacket_keeps.
  - by apply fire_conn_timer_keeps.
  - by apply fire_analyzer_timer_keeps.
  - rw /ExpireFragment. quiet. apply keeps_RemoveFrag.
  - apply keeps_quiet => s. rw /dispatch_tunnel_timer. by repeat case_match.
  - apply keeps_quiet => s. rw /dispatch_expire_timer. by repeat case_match.
Qed.

(** Any packets and timers. *)
Fixpoint run_inputs (ins : list input) : M (NetSessions A) () :=
  match ins with [] => mret () | i :: ins => call (handle cfg i);; run_inputs ins end.

Lemma run_inputs_keeps ins : Forall input_ok ins → keeps stats_inv (run_inputs ins).
Proof.
  elim => [|i l Hi _ IH] /=; first by apply keeps_ret.
  apply keeps_bind; last by move=> _. by apply keeps_call, handle_keeps.
Qed.

Lemma stats_inv_new : stats_inv NetSessions_new.
Proof.
  split => //. move=> p k c. by destruct p; rw /= lookup_empty.
Qed.

(** The connections in a pair of states. *)
Definition num_in_states (o r : E.EndpointState) (m : ConnTable A) : nat :=
  size (filter (λ kc : C.ConnKey * C.Connection A, conn_states kc.2 = Some (o, r)) m).

Lemma total_num o r m : total o r m = Z.of_nat (num_in_states o r m).
Proof.
  rw /total /num_in_states. induction m as [|k c m Hk IH] using map_ind; first by rw map_filter_empty map_size_empty.
  rw msum_insert // IH /counts. case: (decide (conn_states c = Some (o, r))) => Hc.
  - rw map_filter_insert_True // map_size_insert_None; [lia|]. apply map_lookup_filter_None. by left.
  - by rw map_filter_insert_False // delete_id.
Qed.

(** As long as no state has moved, whatever packets arrive and timers fire, the
    statistics have for each pair of TCP states the number of connections in it,
    and every connection is in the table of its protocol under its own key. *)
Theorem connection_statistics_exact (ins : list input) (s : NetSessions A) (Hins : Forall input_ok ins)
    (Hrun : run (run_inputs ins) NetSessions_new = Some s) :
  (∀ o r, uint32 (E.Cnt o r (tcp_stats s)) = uint32 (Z.of_nat (num_in_states o r (tcp_conns s)))) ∧
  (∀ p k c, table p s !! k = Some c → C.proto c = p ∧ C.key c = Some k).
Proof.
  have [Htab Hcnt] := keeps_run _ _ _ _ (run_inputs_keeps _ Hins) stats_inv_new Hrun.
  split; first by move=> o r; rw Hcnt total_num. by move=> p k c /Htab [? [? _]].
Qed.

End statistics.

(** ** Taking connections out of the tables *)

Section removal.
Context {A : Type} `{C.Analyzer A}.
Variable cfg : config.
Implicit Types (s : NetSessions A) (c : C.Connection A).

Lemma Done_keeps c w c' w' : C.Done (c, w) = Some (c', w') →
  C.finished (C.flags c') = true ∧
  C.key c' = C.key c ∧ C.proto c' = C.proto c ∧ C.moved c' = C.moved c ∧ C.timers c' = C.timers c ∧
  C.conn_timer_mgr c' = C.conn_timer_mgr c.
Proof.
  rw /C.Done /=. destruct (C.root_analyzer c) as [a|]; last by move=> [<- _].
  destruct (C.an_IsFinished a); first by move=> [<- _]. by destruct (C.an_Done a w) as [[a1 w1]|] => //= -[<- _].
Qed.

(** The destructor runs when the connection is done or has moved. *)
Lemma Connection_delete_spec c w :
  (C.finished (C.flags c) = true ∨ C.moved c = true) → C.timers c = [] →
  C.Connection_delete (c, w) = Some (C.count_connections 0 (-1)
    (match C.conn_timer_mgr c with Some _ => -1 | None => 0 end) w).
Proof.
  rw /C.Connection_delete /C.CancelTimers /= => Hf Ht.
  rw (_ : negb _ && negb _ = false); last by case: Hf => ->; rw ?andb_false_r.
  rw Ht /= C.filter_others; last by move=> tm _; apply not_elem_of_nil. by destruct w.
Qed.

(** An analyzer can be done, and neither touches timers nor makes connections. *)
Definition quiet_Done (a : A) : Prop := ∀ w, C.an_IsFinished a = false →
  ∃ a' w', C.an_Done a w = Some (a', w') ∧
    C.pending w' = C.pending w ∧ C.current_connections w' = C.current_connections w.

Definition quiet_conn c : Prop := C.moved c = false → ∀ a, C.root_analyzer c = Some a → quiet_Done a.

Lemma Done_quiet c w :
  (∀ a, C.root_analyzer c = Some a → quiet_Done a) →
  ∃ c' w', C.Done (c, w) = Some (c', w') ∧ C.pending w' = C.pending w ∧ C.current_connections w' = C.current_connections w.
Proof.
  move=> Hq. rw /C.Done /=. destruct (C.root_analyzer c) as [a|]; last by eexists _, _.
  destruct (C.an_IsFinished a) eqn:Hf; first by eexists _, _.
  destruct (Hq a eq_refl w Hf) as (a1 & w1 & -> & Hpe & Hcu). by eexists _, _.
Qed.

Lemma remove_entry_total k c s :
  C.proto c ≠ C.TRANSPORT_UNKNOWN → is_Some (table (C.proto c) s !! k) → C.timers c = [] →
  (C.finished (C.flags c) = true ∨ C.moved c = true) →
  ∃ s', remove_entry k c s = Some s' ∧
    (∀ q k', table q s' !! k' = if decide (q = C.proto c ∧ k' = k) then None else table q s !! k') ∧
    C.pending (world s') = C.pending (world s) ∧
    C.current_connections (world s') = uint32 (C.current_connections (world s) - 1).
Proof.
  move=> Hp [c0 Hc0] Ht Hf. rw /remove_entry decide_False // Hc0 Connection_delete_spec //=.
  eexists. split; first by reflexivity. split; last by split.
  move=> q k'. case: (decide (q = C.proto c ∧ k' = k)) => [[-> ->]|Hne].
  - destruct (C.proto c) => //=; by apply lookup_delete_eq.
  - case: (decide (q = C.proto c)) => [Hq|Hq]; last by destruct q, (C.proto c).
    have Hk : k ≠ k' by move=> Hk; apply Hne.
    rw Hq. destruct (C.proto c) => //=; by apply lookup_delete_ne.
Qed.

Lemma Remove_succeeds c s k (Hdone : quiet_conn c) (Hk : C.key c = Some k) (Hp : C.proto c ≠ C.TRANSPORT_UNKNOWN)
    (Hc : is_Some (table (C.proto c) s !! k)) :
  ∃ s', Remove cfg c s = Some s' ∧
    (∀ q k', table q s' !! k' = if decide (q = C.proto c ∧ k' = k) then None else table q s !! k') ∧
    (∀ tm, tm ∈ C.pending (world s') ↔ tm ∈ C.pending (world s) ∧ C.t_id tm ∉ C.t_id <$> C.timers c) ∧
    C.current_connections (world s') = uint32 (C.current_connections (world s) - 1).
Proof.
  rw /Remove Hk /C.CancelTimers C.foldl_RemoveTimer.
  set c1 := C.set_timers [] _. set w1 := C.set_pending _ _.
  have [c2 [w2 [-> [Hp2 [Ht2 [Hf2 [Hpe Hcu]]]]]]] : ∃ c2 w2,
    (if C.HasMoved c1 then Some (c1, w1) else C.Done (c1, w1)) = Some (c2, w2) ∧ C.proto c2 = C.proto c ∧
    C.timers c2 = [] ∧ (C.finished (C.flags c2) = true ∨ C.moved c2 = true) ∧
    C.pending w2 = C.pending w1 ∧ C.current_connections w2 = C.current_connections w1.
  { destruct (C.HasMoved c1) eqn:Hm; first by exists c1, w1; split_and!; auto.
    destruct (Done_quiet c1 w1) as (c2 & w2 & Hd & Hqu); first by apply Hdone.
    have [Hfin [_ [Hpr [_ [Htm _]]]]] := Done_keeps _ _ _ _ Hd. exists c2, w2. split_and!; naive_solver. }
  simpl.
  set s1 := if _ && _ then _ else _.
  have [Hw1 Ht1] : world s1 = w2 ∧ ∀ q, table q s1 = table q s.
  { rw /s1. case: (_ && _); split => //= q; by destruct q. }
  destruct (remove_entry_total k (C.set_key None c2) s1) as (s' & Hrun & Htab & Hpend & Hcur) => //=.
  - by rw Hp2.
  - by rw Ht1 Hp2.
  - exists s'. rw /= Hp2 in Htab. split_and! => //.
    + move=> q k'. by rw Htab Ht1.
    + move=> tm. rw Hpend Hw1 Hpe /= list_elem_of_filter. tauto.
    + by rw Hcur Hw1 Hcu.
Qed.

(** C12. Removing a connection that is in its table never fails, if the [Done] of its
    analyzer succeeds and leaves the timers of connections alone ([quiet_conn], which
    asks for nothing when the connection has moved): it and only it is gone from the
    tables, its timers and only those are canceled, and there is one current
    connection less.  The statistics lose its pair of states. *)
Theorem Remove_total `{TreeBuilder A} `{!StatisticsLaws A} c s k (Hdone : quiet_conn c) (Hk : C.key c = Some k)
    (Hp : C.proto c ≠ C.TRANSPORT_UNKNOWN) (Hc : is_Some (table (C.proto c) s !! k)) :
  ∃ s', Remove cfg c s = Some s' ∧
    (∀ q k', table q s' !! k' = if decide (q = C.proto c ∧ k' = k) then None else table q s !! k') ∧
    (∀ tm, tm ∈ C.pending (world s') ↔ tm ∈ C.pending (world s) ∧ C.t_id tm ∉ C.t_id <$> C.timers c) ∧
    C.current_connections (world s') = uint32 (C.current_connections (world s) - 1) ∧
    tcp_stats s' = left_stats c (tcp_stats s) ∧ fragments s' = fragments s.
Proof.
  destruct (Remove_succeeds c s k) as (s' & Hrun & Htab & Hpend & Hcur) => //.
  have [_ [Hst [Hfr _]]] := Remove_shape cfg _ _ _ _ Hk Hrun. exists s'. by split_and!.
Qed.

(** [Insert] destroys a connection that is already in the table under the same
    key.  It does not finish it, and the destructor stops the program unless the
    connection was finished or moved before. *)
Theorem Insert_over_live_connection c old s k (Hk : C.key c = Some k) (Hp : C.proto c ≠ C.TRANSPORT_UNKNOWN) :
  (table (C.proto c) s !! k = Some old →
   (Insert c s = None ↔ C.finished (C.flags old) = false ∧ C.moved old = false)) ∧
  (table (C.proto c) s !! k = None → Insert c s = Some (set_table (C.proto c) (<[k := c]> (table (C.proto c) s)) s)).
Proof.
  split=> Hold; rw /Insert Hk /= decide_False // Hold //.
  rw /C.CancelTimers C.foldl_RemoveTimer. set old1 := C.set_key None _. set w1 := C.set_pending _ _.
  case Hf: (C.finished (C.flags old)); last case Hm: (C.moved old).
  - rw Connection_delete_spec //=; [by split; [|case]|by left].
  - rw Connection_delete_spec //=; [by split; [|case]|by right].
  - split=> // _. by rw /C.Connection_delete /= Hf Hm.
Qed.
End removal.

(** ** Concrete inputs *)

(** An analyzer that only has the states of its endpoints: the first packet
    establishes the connection. *)
Inductive toy := Toy (o r : E.EndpointState).

Definition toy_packet (s : C.Connection toy * C.World * E.TCPStateStats)
    : C.Connection toy * C.World * E.TCPStateStats :=
  let '(c, w, st) := s in
  match C.proto c, C.root_analyzer c with
  | C.TRANSPORT_TCP, Some (Toy o r) =>
    (C.set_root_analyzer (Some (Toy E.TCP_ENDPOINT_ESTABLISHED E.TCP_ENDPOINT_ESTABLISHED)) c, w,
     E.ChangeState o E.TCP_ENDPOINT_ESTABLISHED r E.TCP_ENDPOINT_ESTABLISHED st)
  | _, _ => (c, w, st)
  end.

#[global] Instance toy_analyzer : C.Analyzer toy := {
  C.an_IsReuse _ _ _ := false; C.an_IsFinished _ := false; C.an_Done a w := Some (a, w);
  C.an_FlipRoles a st := (a, st); C.an_Moved a := a; C.an_NextPacket _ _ _ _ _ _ s := Some (toy_packet s);
  C.an_fire _ _ _ s := Some s;
  C.an_restore a := a; C.an_states '(Toy o r) := Some (o, r)
}.

#[global] Instance toy_builder : TreeBuilder toy := {
  build_tree p _ '(c, w) st := Some
    match C.proto c with
    | C.TRANSPORT_TCP =>
      (C.set_root_analyzer (Some (Toy E.TCP_ENDPOINT_INACTIVE E.TCP_ENDPOINT_INACTIVE)) c, w,
       E.StateEntered E.TCP_ENDPOINT_INACTIVE E.TCP_ENDPOINT_INACTIVE st)
    | _ => (c, w, st)
    end
}.

Lemma Cnt_StateEntered o r o' r' st :
  uint32 (E.Cnt o' r' (E.StateEntered o r st)) = uint32 (E.Cnt o' r' st + counts o' r' (Some (o, r))).
Proof.
  rw /E.Cnt /E.StateEntered /E.bump /counts.
  case: (decide (o' = o ∧ r' = r)) => [[-> ->]|Hne].
  - rw decide_True //. by rw /uint32 /wrap_u Z.mod_mod.
  - rw decide_False; [by rw Z.add_0_r|]. move=> [*]. by apply Hne.
Qed.

Lemma Cnt_ChangeState o o1 r r1 o' r' st :
  uint32 (E.Cnt o' r' (E.ChangeState o o1 r r1 st)) =
  uint32 (E.Cnt o' r' st - counts o' r' (Some (o, r)) + counts o' r' (Some (o1, r1))).
Proof.
  change (E.ChangeState o o1 r r1 st) with (E.StateEntered o1 r1 (E.StateLeft o r st)).
  rw Cnt_StateEntered. by apply uint32_cong, Cnt_StateLeft.
Qed.

#[global] Instance toy_laws : StatisticsLaws toy.
Proof.
  apply (Build_StatisticsLaws toy _ _ (λ _, True)).
  - done.
  - intros t orig ip data len caplen c w st c' w' st' _. unfold C.an_NextPacket, toy_analyzer, toy_packet.
    intros Heq. destruct (C.proto c) eqn:Hp, (C.root_analyzer c) as [[o r]|] eqn:Hr; simplify_eq; split_and!; try done;
      intros; rw /conn_states /= ?Hp ?Hr /= ?counts_None; try (f_equal; lia).
    by apply Cnt_ChangeState.
  - intros id t e c w c' w' _ Heq. simpl in Heq. by simplify_eq.
  - intros a w a' w' Heq. simpl in Heq. by simplify_eq.
  - intros p data c w st c' w' st' Hr _. unfold build_tree, toy_builder.
    intros Heq. destruct (C.proto c) eqn:Hp; simplify_eq; split_and!; try done;
      intros; rw /conn_states /= ?Hp ?Hr /= ?counts_None; try (f_equal; lia).
    by apply Cnt_StateEntered.
Qed.

Definition sample_cfg : config :=
  mkConfig C.no_config true true [] true true 2 (double_of_Z 0) (double_of_Z 60) (double_of_Z 60)
    false true false false false false None None false (false, false).

(** A SYN over Ethernet and IPv4. *)
Definition eth_hdr : bytes := replicate 12 0%Z ++ [8; 0]%Z.
Definition ip_hdr (proto len : Z) : bytes :=
  [69; 0; 0; len; 0; 1; 0; 0; 64; proto; 0; 0; 10; 0; 0; 1; 10; 0; 0; 2]%Z.
Definition syn_tcp : bytes :=
  [156; 64; 0; 80; 0; 0; 0; 1; 0; 0; 0; 0; 80; 2; 255; 255; 0; 0; 0; 0]%Z.
Definition syn_frame : bytes := eth_hdr ++ ip_hdr 6 40 ++ syn_tcp.
Definition syn_packet : input := Packet (double_of_Z 1) 54 syn_frame 14 None None.

Definition after_syn : option (NetSessions toy) := run (run_inputs sample_cfg [syn_packet]) NetSessions_new.

Lemma connection_statistics_exact_witness :
  match after_syn with
  | Some s => E.Cnt E.TCP_ENDPOINT_ESTABLISHED E.TCP_ENDPOINT_ESTABLISHED (tcp_stats s) = 1%Z ∧
      ∀ o r, uint32 (E.Cnt o r (tcp_stats s)) = uint32 (Z.of_nat (num_in_states o r (tcp_conns s)))
  | None => False
  end.
Proof.
  have Hc : (λ s, E.Cnt E.TCP_ENDPOINT_ESTABLISHED E.TCP_ENDPOINT_ESTABLISHED (tcp_stats s)) <$> after_syn = Some 1%Z
    by vm_compute.
  destruct after_syn as [s|] eqn:E; [|discriminate Hc].
  split; [by injection Hc|].
  apply (connection_statistics_exact sample_cfg [syn_packet] s); [|exact E].
  by constructor.
Defined.

(** Four packets in each other. *)
Definition nested_packet : IP.IP_Hdr := IP.Hdr4 (ip_hdr 4 80 ++ ip_hdr 4 60 ++ ip_hdr 4 40 ++ ip_hdr 4 20).

Lemma DoNextPacket_terminates_witness :
  DoNextPacket (A := toy) sample_cfg 50 (double_of_Z 1) 80 80 0 nested_packet None None NetSessions_new =
    DoNextPacket sample_cfg (nesting sample_cfg) (double_of_Z 1) 80 80 0 nested_packet None None NetSessions_new ∧
  last ∘ log <$> run (DoNextPacket (A := toy) sample_cfg 50 (double_of_Z 1) 80 80 0 nested_packet None None) NetSessions_new =
    Some (Some (Weird "exceeded_tunnel_max_depth")).
Proof.
  split; [|by vm_compute].
  apply (DoNextPacket_terminates sample_cfg 50). vm_compute. lia.
Defined.

Definition sample_id : C.ConnID :=
  C.mkID (v4_mapped_prefix ++ [10;0;0;1]%Z) (v4_mapped_prefix ++ [10;0;0;2]%Z) 16540 20480 false.
Definition sample_key : C.ConnKey := C.BuildConnIDHashKey sample_id.
Definition sample_conn : C.Connection toy :=
  C.set_proto C.TRANSPORT_TCP (C.Connection_new sample_key (double_of_Z 1) sample_id 0 None false false C.no_world).1.
Definition sample_sessions (c : C.Connection toy) : NetSessions toy := set_tcp_conns {[sample_key := c]} NetSessions_new.

Lemma moved_connection_frozen_witness :
  let s := sample_sessions (C.Moved sample_conn) in
  connection_packet sample_cfg (double_of_Z 2) 6 (IP.Hdr4 (ip_hdr 6 40 ++ syn_tcp)) syn_tcp 20 20 None None s =
    Some (set_drop_counter 1 (emit (PacketReceived "HTTP") s), None).
Proof.
  apply (moved_connection_frozen sample_cfg (double_of_Z 2) 6 (IP.Hdr4 (ip_hdr 6 40 ++ syn_tcp))
    (C.src_addr sample_id) (C.dst_addr sample_id) syn_tcp sample_id C.TRANSPORT_TCP (C.Moved sample_conn) 0 20 20 None None
    (sample_sessions (C.Moved sample_conn))); by vm_compute.
Defined.

Lemma Remove_total_witness :
  let s := set_world (C.mkWorld 1 1 0 0 [] 0 (double_of_Z 0) [] TR.GapStats_new) (sample_sessions sample_conn) in
  ∃ s', Remove sample_cfg sample_conn s = Some s' ∧ C.current_connections (world s') = 0%Z.
Proof.
  intros s. destruct (Remove_total sample_cfg sample_conn s sample_key) as (s' & Hrun & _ & _ & Hcur & _).
  - intros _ a _ w _. by exists a, w.
  - done.
  - done.
  - by exists sample_conn.
  - exists s'. split; [exact Hrun|]. rw Hcur. by vm_compute.
Defined.

Lemma Insert_over_live_connection_witness :
  Insert sample_conn (sample_sessions sample_conn) = None ∧
  is_Some (Insert sample_conn (NetSessions_new (A := toy))).
Proof.
  split.
  - apply (Insert_over_live_connection sample_conn sample_conn (sample_sessions sample_conn) sample_key); by vm_compute.
  - eexists. by apply (Insert_over_live_connection sample_conn sample_conn NetSessions_new sample_key).
Defined.

End NS.
