(* ===== verification/Sdmbn.v ===== *)
(** Sdmbn: moving connections between processes, the functions of main.cc that
    the controller's requests end in, and SDMBNlocal.cc.

    [handle_get_proto] exports the connections that match a key, and marks them
    as moved; [local_put_perflow] takes one in.  A connection travels as the
    archive of Conn.  The file that holds it on the way can fail, which is the
    parameter [encoded]; the hash of a key is a parameter too. *)
From S2P Require Import Prelude Double IP NetUtil Endpoint Codec Conn Sessions.
From stdpp Require Import strings.

Module SB.
Import CD.

Abbreviation bytes := (list Z) (only parsing).

(** ** Keys of the controller *)

(** [in6.s6_addr32[0]] and [CopyIPv4]. *)
Definition s6_addr32_0 (a : bytes) : Z := word_at a 0.
Definition CopyIPv4 (a : bytes) : Z := word_at a 12.

Section matching.
Context {A : Type}.

Definition tp_src_ok (key : PerflowKey) (c : C.Connection A) : bool :=
  wild key WILDCARD_TP_SRC || (C.orig_port c =? tp_src key)%Z || (negb (tp_flip key =? 0)%Z && (C.resp_port c =? tp_src key)%Z).
Definition tp_dst_ok (key : PerflowKey) (c : C.Connection A) : bool :=
  wild key WILDCARD_TP_DST || (C.resp_port c =? tp_dst key)%Z || (negb (tp_flip key =? 0)%Z && (C.orig_port c =? tp_dst key)%Z).
Definition nw_src_ok (key : PerflowKey) (c : C.Connection A) : option bool :=
  mask ← (if wild key WILDCARD_NW_SRC_MASK then Some 0xFFFFFFFF%Z else mask_of (nw_src_mask key));
  Some (wild key WILDCARD_NW_SRC || (Z.land mask (s6_addr32_0 (C.orig_addr c)) =? nw_src key)%Z).
Definition nw_dst_ok (key : PerflowKey) (c : C.Connection A) : option bool :=
  mask ← (if wild key WILDCARD_NW_DST_MASK then Some 0xFFFFFFFF%Z else mask_of (nw_dst_mask key));
  Some (wild key WILDCARD_NW_DST || (Z.land mask (s6_addr32_0 (C.resp_addr c)) =? nw_dst key)%Z).

(** The tests of the loop, in their order. *)
Definition matches (key : PerflowKey) (c : C.Connection A) : option bool :=
  if C.HasMoved c then Some false
  else if negb (tp_src_ok key c) then Some false
  else if negb (tp_dst_ok key c) then Some false
  else
    src ← nw_src_ok key c;
    if negb src then Some false else nw_dst_ok key c.
End matching.

(** ** Exporting connections *)

Record Message (S : Type) := mkMessage { m_id : Z; m_key : RawKey; m_state : S; m_hash : Z; m_seq : Z }.
Arguments mkMessage {S}.
Arguments m_id {S}.
Arguments m_key {S}.
Arguments m_state {S}.
Arguments m_hash {S}.
Arguments m_seq {S}.

Section operations.
Context {A : Type} `{C.Analyzer A}.
Variable encoded : C.Connection A → bool.
Variable Hash : C.ConnKey → Z.

(** The sessions, the connections whose mutex is held, and what was sent. *)
Record state := mkState {
  ns : NS.NetSessions A;
  locked : list (C.TransportProto * C.ConnKey);
  sent : list (Message (C.archive A))
}.

(** The key of a message; the masks, [dl_type] and [tp_flip] are never written. *)
Definition sent_key (c : C.Connection A) : RawKey :=
  let '(proto, w) :=
    match C.proto c with
    | C.TRANSPORT_TCP => (Some NS.IPPROTO_TCP, WILDCARD_DL_TYPE)
    | C.TRANSPORT_UDP => (Some NS.IPPROTO_UDP, WILDCARD_DL_TYPE)
    | C.TRANSPORT_ICMP => (Some NS.IPPROTO_ICMP, WILDCARD_DL_TYPE)
    | C.TRANSPORT_UNKNOWN => (None, Z.lor WILDCARD_DL_TYPE WILDCARD_NW_PROTO)
    end in
  mkPerflowKey (Some (CopyIPv4 (C.orig_addr c))) None (Some (CopyIPv4 (C.resp_addr c))) None (Some (uint16 (C.orig_port c)))
    (Some (uint16 (C.resp_port c))) None proto w None.

(** What becomes of an exported connection. *)
Definition exported (id : Z) (raiseEvents : bool) (c : C.Connection A) : C.Connection A :=
  let c := C.setGetOpId id c in if raiseEvents then C.Moved c else c.

(** One pass of the loop; waiting for a mutex that stays locked does not end. *)
Definition get_step (key : PerflowKey) (p : C.TransportProto) (id : Z) (raiseEvents : bool)
    (k : C.ConnKey) (cs : Z * state) : option (Z * state) :=
  let '(count, s) := cs in
  c ← NS.table p (ns s) !! k;
  ok ← matches key c;
  if negb ok then Some (count, s)
  else if decide ((p, k) ∈ locked s) then None
  else
    let ar := C.serialize c in
    let c' := exported id raiseEvents c in
    let n := NS.set_table p (<[k := c']> (NS.table p (ns s))) (ns s) in
    if negb (encoded c) then Some (count, mkState n ((p, k) :: locked s) (sent s))
    else
      ck ← C.key c;
      Some ((count + 1)%Z, mkState n (locked s) (sent s ++ [mkMessage id (sent_key c) ar (Hash ck) count])).

Fixpoint get_loop (key : PerflowKey) (p : C.TransportProto) (id : Z) (raiseEvents : bool)
    (order : list C.ConnKey) (cs : Z * state) : option (Z * state) :=
  match order with
  | [] => Some cs
  | k :: order => cs ← get_step key p id raiseEvents k cs; get_loop key p id raiseEvents order cs
  end.

Definition proto_table (proto : Z) : option C.TransportProto :=
  if (proto =? NS.IPPROTO_TCP)%Z then Some C.TRANSPORT_TCP
  else if (proto =? NS.IPPROTO_UDP)%Z then Some C.TRANSPORT_UDP
  else if (proto =? NS.IPPROTO_ICMP)%Z || (proto =? NS.IPPROTO_ICMPV6)%Z then Some C.TRANSPORT_ICMP
  else None.

(** [order] is the order in which the dictionary returns its entries. *)
Definition handle_get_proto (key : PerflowKey) (proto id : Z) (raiseEvents : bool) (order : list C.ConnKey)
    (s : state) : option (Z * state) :=
  match proto_table proto with
  | None => Some (0%Z, s)
  | Some p => get_loop key p id raiseEvents order (0%Z, s)
  end.

(** ** Importing a connection *)

(** [key] and [state] can be null; [None] is undefined behaviour or the end of
    the program. *)
Definition local_put_perflow (key : option PerflowKey) (st : option (C.archive A)) (s : NS.NetSessions A)
    : option (Z * NS.NetSessions A) :=
  match key, st with
  | Some _, Some ar =>
    s ← NS.Insert (C.setGetOpId 0 (C.unserialize ar)) s;
    Some (1%Z, s)
  | _, _ => Some ((-1)%Z, s)
  end.

End operations.

(** ** The entry point of the controller's request *)

Definition dummy_key : RawKey :=
  mkPerflowKey (Some 123456%Z) (Some 32%Z) (Some 875897%Z) (Some 32%Z) (Some 1111%Z) None (Some 0x0800%Z) (Some 0x06%Z)
    (foldl without WILDCARD_ALL [WILDCARD_TP_SRC; WILDCARD_NW_SRC; WILDCARD_NW_SRC_MASK; WILDCARD_NW_DST;
       WILDCARD_NW_DST_MASK; WILDCARD_DL_TYPE; WILDCARD_NW_PROTO; WILDCARD_DL_TYPE]) None.

(** [for (i = 0; i <= 68; i++)] from [i] on. *)
Fixpoint send_loop (n : nat) (get_count : Z) : Z * list Z :=
  match n with
  | O => (get_count, [])
  | S n => let '(c, l) := send_loop n (get_count + 1) in (c, get_count :: l)
  end.

(** The result and the sequence numbers of the messages, all with [dummy_key] and
    the text "lalala". *)
Definition send_state : Z * list Z := send_loop 69 1.

(** The key, the id of the request and [raiseEvents] are not used. *)
Definition local_get_perflow (key : option PerflowKey) (id : Z) (raiseEvents : bool) : Z * list Z := send_state.

(** ** What can be archived *)

Inductive Tag :=
  | T_PIA_TCP | T_PIA_UDP | T_ICMP | T_TCP | T_UDP | T_DNS | T_FTP | T_HTTP | T_SMTP | T_SSH | T_SSL | T_Teredo
  | T_File | T_ConnSize | T_ContentLine | T_NVT | T_Zip | T_other (n : nat).

Definition sdmbn_can_serialize (check : Tag) : bool := match check with T_other _ => false | _ => true end.

(** ** What is exported *)

Section exporting.
Context {A : Type} `{C.Analyzer A}.
Variable encoded : C.Connection A → bool.
Variable Hash : C.ConnKey → Z.
Variable key : PerflowKey.
Variable id : Z.
Variable raiseEvents : bool.
Implicit Types (s : state (A := A)) (c : C.Connection A) (T : gmap C.ConnKey (C.Connection A)).

(** The connections of a table the key selects. *)
Definition selected T (k : C.ConnKey) : Prop := ∃ c, T !! k = Some c ∧ matches key c = Some true.

#[global] Instance selected_dec T k : Decision (selected T k).
Proof.
  refine (match T !! k as o return T !! k = o → _ with
          | Some c => λ E, if decide (matches key c = Some true) then left _ else right _
          | None => λ E, right _ end eq_refl).
  - by exists c.
  - intros (c' & E' & Hm). congruence.
  - intros (c' & E' & Hm). congruence.
Defined.

(** A table the loop runs through without trouble: every entry is stored under
    its own key, can be compared with the key of the request, and encoded. *)
Definition exportable T (k : C.ConnKey) : Prop :=
  ∃ c, T !! k = Some c ∧ C.key c = Some k ∧ is_Some (matches key c) ∧ encoded c = true.

(** The messages for the connections [ks], numbered from [n]. *)
Definition messages T (n : Z) (ks : list C.ConnKey) (l : list (Message (C.archive A))) : Prop :=
  length l = length ks ∧
  ∀ (i : nat) k, ks !! i = Some k → ∃ c, T !! k = Some c ∧
    l !! i = Some (mkMessage id (sent_key c) (C.serialize c) (Hash k) (n + Z.of_nat i)).

(** The table after the connections [ks] were exported. *)
Definition after_export T (ks : list C.ConnKey) T' : Prop :=
  ∀ k, T' !! k = if decide (k ∈ ks) then exported id raiseEvents <$> (T !! k) else T !! k.

Lemma messages_cons T n k c ks l :
  T !! k = Some c → messages T (n + 1) ks l →
  messages T n (k :: ks) (mkMessage id (sent_key c) (C.serialize c) (Hash k) n :: l).
Proof.
  move=> Hk [Hlen Hl]. split; first by rw /= Hlen. move=> [|i] k' /=.
  - move=> [<-]. exists c. by rw Z.add_0_r.
  - move=> /Hl [c' [HT ->]]. exists c'. split => //. do 2 f_equal. lia.
Qed.

Lemma messages_ext T T' n ks l : (∀ k, k ∈ ks → T' !! k = T !! k) → messages T' n ks l → messages T n ks l.
Proof.
  move=> Heq [Hlen Hl]. split=> // i k Hi. rw -Heq; last by eapply list_elem_of_lookup_2. by apply Hl.
Qed.

Lemma get_step_spec p k n s :
  exportable (NS.table p (ns s)) k → (p, k) ∉ locked s →
  (selected (NS.table p (ns s)) k ∧ ∃ c, NS.table p (ns s) !! k = Some c ∧
     get_step encoded Hash key p id raiseEvents k (n, s) = Some ((n + 1)%Z,
       mkState (NS.set_table p (<[k := exported id raiseEvents c]> (NS.table p (ns s))) (ns s)) (locked s)
         (sent s ++ [mkMessage id (sent_key c) (C.serialize c) (Hash k) n]))) ∨
  (¬ selected (NS.table p (ns s)) k ∧ get_step encoded Hash key p id raiseEvents k (n, s) = Some (n, s)).
Proof.
  move=> [c [Hc [Hk [[b Hm] He]]]] Hl. case: b Hm => Hm; [left|right].
  - split; first by exists c. exists c. split => //.
    rw /get_step Hc /= Hm /= decide_False //= He /=. by rw Hk.
  - split; first by move=> [c' [Hc' Hm']]; congruence. by rw /get_step Hc /= Hm.
Qed.


#[local] Arguments get_step : simpl never.

Lemma filter_agree {X} (P Q : X → Prop) `{∀ x, Decision (P x)} `{∀ x, Decision (Q x)} (l : list X) :
  (∀ x, x ∈ l → P x ↔ Q x) → filter P l = filter Q l.
Proof.
  elim: l => // x l IH Hpq. have Htl : filter P l = filter Q l by apply IH => y Hy; apply Hpq; right.
  have Hx : P x ↔ Q x by apply Hpq; left.
  case: (decide (P x)) => HP.
  - rw !filter_cons_True ?Htl //. by apply Hx.
  - rw !filter_cons_False ?Htl //. by move=> /Hx.
Qed.

Lemma after_export_cons T T' k c ks :
  T !! k = Some c → k ∉ ks → after_export (<[k := exported id raiseEvents c]> T) ks T' → after_export T (k :: ks) T'.
Proof.
  move=> Hk Hnk Hae k'. rw Hae. case: (decide (k' = k)) => [->|Hne].
  - rw decide_False // decide_True; [by rw lookup_insert_eq Hk|by left].
  - rw lookup_insert_ne; last by auto. case: (decide (k' ∈ ks)) => Hin.
    + rw decide_True //. by right.
    + rw decide_False //. by move/elem_of_cons => [].
Qed.

Lemma get_loop_spec p order n s :
  p ≠ C.TRANSPORT_UNKNOWN → NoDup order → (∀ k, k ∈ order → exportable (NS.table p (ns s)) k ∧ (p, k) ∉ locked s) →
  let sel := filter (selected (NS.table p (ns s))) order in
  ∃ T l, get_loop encoded Hash key p id raiseEvents order (n, s) =
      Some ((n + Z.of_nat (length sel))%Z, mkState (NS.set_table p T (ns s)) (locked s) (sent s ++ l)) ∧
    messages (NS.table p (ns s)) n sel l ∧ after_export (NS.table p (ns s)) sel T.
Proof.
  move=> Hp. elim: order n s => [|k order IH] n s Hnd Hall /=.
  { exists (NS.table p (ns s)), []. split_and!.
    - rw Z.add_0_r app_nil_r. case: s {Hall} => [[]] ? ? /=. by destruct p.
    - by split.
    - move=> k. by destruct (decide (k ∈ [])) as [?%elem_of_nil|]. }
  move: (Hnd) => /NoDup_cons [Hk Hnd'].
  have [Hex Hlk] : exportable (NS.table p (ns s)) k ∧ (p, k) ∉ locked s by apply Hall; left.
  have Hrest k' : k' ∈ order → exportable (NS.table p (ns s)) k' ∧ (p, k') ∉ locked s by move=> ?; apply Hall; right.
  have [[Hsel [c [Hc Hstep]]]|[Hsel Hstep]] := get_step_spec p k n s Hex Hlk; rw Hstep; cbn [mbind option_bind].
  - rw filter_cons_True //. set s1 := mkState _ _ _.
    have HT1 : NS.table p (ns s1) = <[k := exported id raiseEvents c]> (NS.table p (ns s)) by destruct p.
    have Hext k' : k' ∈ order → NS.table p (ns s1) !! k' = NS.table p (ns s) !! k'.
    { move=> Hin. rw HT1 lookup_insert_ne //. by move=> He; subst. }
    have [|T [l [Hrun [Hmsg Hae]]]] := IH (n + 1)%Z s1 Hnd'.
    { move=> k' Hin. rw /exportable Hext //. by apply Hrest. }
    have Hfil : filter (selected (NS.table p (ns s1))) order = filter (selected (NS.table p (ns s))) order.
    { apply filter_agree => k' Hin. by rw /selected Hext. }
    rw Hfil in Hrun, Hmsg, Hae. exists T, (mkMessage id (sent_key c) (C.serialize c) (Hash k) n :: l).
    split_and!.
    + rw Hrun /= -app_assoc. do 2 f_equal; first by lia. f_equal. by destruct p.
    + apply messages_cons => //. apply (messages_ext _ (NS.table p (ns s1))) => // k' /list_elem_of_filter [_ Hin].
      by apply Hext.
    + rw HT1 in Hae. apply (after_export_cons _ _ _ c) => //. by move=> /list_elem_of_filter [_].
  - rw filter_cons_False //. by apply IH.
Qed.

(** C13. [handle_get_proto], for the connections of a protocol, sends exactly the unmoved
    connections its key selects, each once, in the order of the dictionary, and
    returns their number.  Only these change: they remember the request, and if
    events are to be raised they count as moved from then on. *)
Theorem handle_get_proto_exports proto p order s
    (Hp : proto_table proto = Some p) (Hnd : NoDup order)
    (Hall : ∀ k, k ∈ order → exportable (NS.table p (ns s)) k) (Hfree : locked s = []) :
  let sel := filter (selected (NS.table p (ns s))) order in
  ∃ T l, handle_get_proto encoded Hash key proto id raiseEvents order s =
      Some (Z.of_nat (length sel), mkState (NS.set_table p T (ns s)) [] (sent s ++ l)) ∧
    messages (NS.table p (ns s)) 0 sel l ∧ after_export (NS.table p (ns s)) sel T.
Proof.
  move=> sel. have Hpk : p ≠ C.TRANSPORT_UNKNOWN.
  { move: Hp. unfold proto_table. intros ?. by repeat case_match; simplify_eq. }
  have [|T [l [Hrun Hrest]]] := get_loop_spec p order 0 s Hpk Hnd.
  - move=> k Hk. split; first by apply Hall. rw Hfree. by apply not_elem_of_nil.
  - exists T, l. split => //. by rw /handle_get_proto Hp Hrun Hfree.
Qed.

End exporting.

(** ** Selecting by address *)

Section addresses.
Context {A : Type} `{C.Analyzer A}.
Implicit Types (c : C.Connection A).

(** The loop when nothing is selected. *)
Lemma get_loop_none encoded Hash key p id raise order n (s : state (A := A)) :
  (∀ k, k ∈ order → ∃ c, NS.table p (ns s) !! k = Some c ∧ matches key c = Some false) →
  get_loop encoded Hash key p id raise order (n, s) = Some (n, s).
Proof.
  elim: order => //= k order IH Hall. have [c [Hc Hm]] := Hall k ltac:(left).
  rw Hc /= Hm /=. apply IH => k' Hk'. apply Hall. by right.
Qed.

(** An IPv4 address is kept in the last four bytes, behind the mapped prefix. *)
Definition is_IPv4 (a : bytes) : Prop := ∃ a4, length a4 = 4 ∧ a = NS.v4_mapped_prefix ++ a4.

(** The filter for the address of the originator is compared with the first
    four bytes of the address, which are zero for IPv4: a request for any IPv4
    source address selects no connection at all (and the one for address zero
    selects every one). *)
Theorem nw_src_selects_no_IPv4 encoded Hash key proto p id raise order (s : state (A := A))
    (Hp : proto_table proto = Some p) (Hw : wild key WILDCARD_NW_SRC = false)
    (Hmask : wild key WILDCARD_NW_SRC_MASK = true ∨ (1 ≤ nw_src_mask key ≤ 32)%Z)
    (Hall : ∀ k, k ∈ order → ∃ c, NS.table p (ns s) !! k = Some c ∧ is_IPv4 (C.orig_addr c)) :
  (nw_src key ≠ 0%Z → handle_get_proto encoded Hash key proto id raise order s = Some (0%Z, s)) ∧
  (nw_src key = 0%Z → ∀ k c, k ∈ order → NS.table p (ns s) !! k = Some c → nw_src_ok key c = Some true).
Proof.
  have [mask Hm] : ∃ mask, (if wild key WILDCARD_NW_SRC_MASK then Some 0xFFFFFFFF%Z else mask_of (nw_src_mask key)) = Some mask.
  { destruct (wild key WILDCARD_NW_SRC_MASK); first by eexists. destruct Hmask as [|Hmask]; first done.
    rw /mask_of uint32_small; last by lia. destruct (Z.ltb_spec (32 - nw_src_mask key) 32); [by eexists|lia]. }
  have Hsrc c : is_IPv4 (C.orig_addr c) → nw_src_ok key c = Some (0 =? nw_src key)%Z.
  { move=> [a4 [_ Ha]]. by rw /nw_src_ok Hm /= Hw Ha /= /s6_addr32_0 /= Z.land_0_r. }
  split => Hn.
  - rw /handle_get_proto Hp. apply get_loop_none => k Hk. have [c [Hc Ha]] := Hall k Hk. exists c. split => //.
    have Hz : (0 =? nw_src key)%Z = false by lia. rw /matches (Hsrc c Ha) Hz.
    by destruct (C.HasMoved c), (tp_src_ok key c), (tp_dst_ok key c).
  - move=> k c Hk Hc. have [c' [Hc' Ha]] := Hall k Hk. simplify_eq. by rw (Hsrc _ Ha) Hn.
Qed.
End addresses.

(** ** A connection that cannot be encoded *)

Section failure.
Context {A : Type} `{C.Analyzer A}.
Implicit Types (c : C.Connection A).

(** When a selected connection cannot be encoded it is not sent, but it is
    marked as exported (and moved, so its packets are dropped from then on), and
    its mutex is never released: unless it moved, the next request that selects it
    waits forever. *)
Theorem encode_failure encoded Hash key proto p id id' raise raise' k c (s : state (A := A))
    (Hp : proto_table proto = Some p) (Hc : NS.table p (ns s) !! k = Some c)
    (Hm : matches key c = Some true) (Hfree : locked s = []) (He : encoded c = false) :
  ∃ s', handle_get_proto encoded Hash key proto id raise [k] s = Some (0%Z, s') ∧
    sent s' = sent s ∧ NS.table p (ns s') !! k = Some (exported id raise c) ∧ locked s' = [(p, k)] ∧
    (raise = false → handle_get_proto encoded Hash key proto id' raise' [k] s' = None).
Proof.
  have Hpk : p ≠ C.TRANSPORT_UNKNOWN.
  { move: Hp. unfold proto_table. intros ?. by repeat case_match; simplify_eq. }
  set s' := mkState (NS.set_table p (<[k := exported id raise c]> (NS.table p (ns s))) (ns s)) [(p, k)] (sent s).
  have Hk : NS.table p (ns s') !! k = Some (exported id raise c).
  { rw /s' /= NS.table_set_table // decide_True //. by apply lookup_insert_eq. }
  exists s'. split_and! => //.
  - rw /handle_get_proto Hp. rw /get_loop /get_step Hc. cbn [mbind option_bind]. rw Hm. cbn [mbind option_bind negb].
    by rw Hfree He.
  - move=> Hr. subst raise.
    have Hm' : matches key (exported id false c) = Some true by exact Hm.
    rw /handle_get_proto Hp. rw /get_loop /get_step Hk. cbn [mbind option_bind]. rw Hm'. cbn [mbind option_bind negb].
    by rw decide_True //; left.
Qed.
End failure.

(** ** Handing connections over *)

Section handover.
Context {A : Type} `{C.Analyzer A}.
Variable encoded : C.Connection A → bool.
Variable Hash : C.ConnKey → Z.
Implicit Types (c : C.Connection A) (d : NS.NetSessions A).

(** What arrives of a connection. *)
Definition arrived c : C.Connection A := C.setGetOpId 0 (C.unserialize (C.serialize c)).

(** The messages of a request are put into another process one by one. *)
Fixpoint put_all (pk : PerflowKey) (l : list (Message (C.archive A))) d : option (NS.NetSessions A) :=
  match l with
  | [] => Some d
  | m :: l => '(_, d) ← local_put_perflow (Some pk) (Some (m_state m)) d; put_all pk l d
  end.

Lemma put_one pk p k c d :
  C.key c = Some k → C.proto c = p → p ≠ C.TRANSPORT_UNKNOWN → NS.table p d !! k = None →
  local_put_perflow (Some pk) (Some (C.serialize c)) d =
    Some (1%Z, NS.set_table p (<[k := arrived c]> (NS.table p d)) d).
Proof.
  move=> Hk Hp Hne Hd. rw /local_put_perflow /NS.Insert /= Hk /= Hp decide_False // Hd //.
Qed.

#[local] Arguments local_put_perflow : simpl never.

Lemma put_all_spec pk id p T n ks l d :
  p ≠ C.TRANSPORT_UNKNOWN → NoDup ks → messages Hash id T n ks l →
  (∀ k c, T !! k = Some c → C.key c = Some k ∧ C.proto c = p) → (∀ k, k ∈ ks → NS.table p d !! k = None) →
  ∃ d', put_all pk l d = Some d' ∧
    (∀ k, NS.table p d' !! k = if decide (k ∈ ks) then arrived <$> (T !! k) else NS.table p d !! k) ∧
    (∀ q, q ≠ p → NS.table q d' = NS.table q d) ∧ NS.tcp_stats d' = NS.tcp_stats d.
Proof.
  move=> Hp. elim: ks n l d => [|k ks IH] n l d Hnd [Hlen Hl] HT Hd.
  { destruct l => //. by exists d. }
  have [c [Hc Hm]] := Hl 0 k eq_refl. destruct l as [|m l]; first done. move: Hm => [Hm]. subst m.
  move: Hnd => /NoDup_cons [Hk Hnd]. have [Hck Hcp] := HT _ _ Hc.
  rw /= (put_one pk p k c) //; last by apply Hd; left. cbn [mbind option_bind].
  set d1 := NS.set_table _ _ _.
  have Ht1 q : NS.table q d1 = if decide (q = p) then <[k := arrived c]> (NS.table p d) else NS.table q d
    by apply NS.table_set_table.
  have [| | |d' [Hrun [Htab [Hoth Hst]]]] := IH (n + 1)%Z l d1 Hnd.
  - split; first by move: Hlen => [=]. move=> i k' Hi. have [c' [HT' Hm']] := Hl (S i) k' Hi.
    exists c'. split => //. rw /= in Hm'. rw Hm'. do 2 f_equal. lia.
  - done.
  - move=> k' Hk'. rw Ht1 decide_True // lookup_insert_ne; last by move=> He; subst.
    apply Hd. by right.
  - exists d'. split_and! => //.
    + move=> k'. rw Htab Ht1 (decide_True (P := p = p)) //. case: (decide (k' = k)) => [->|Hne].
      * rw lookup_insert_eq Hc. destruct (decide (k ∈ ks)), (decide (k ∈ k :: ks)) as [|Hn]; try done.
        exfalso. apply Hn. by left.
      * rw lookup_insert_ne; last by auto.
        destruct (decide (k' ∈ ks)), (decide (k' ∈ k :: ks)) as [Hin|Hn]; try done.
        -- exfalso. apply Hn. by right.
        -- by move/elem_of_cons: Hin => [].
    + move=> q Hq. by rw Hoth // Ht1 decide_False.
    + rw Hst. by destruct p.
Qed.

(** C1. The move of a flow.  Request the connections a key selects, with events,
    and put what was sent into a process that has none of them: there each is
    live, as it is after the archive, under the same key; here each counts as
    moved, so that its packets are dropped.  All other connections are as before. *)
Theorem move_handover key proto p id order pk (s : state (A := A)) d
    (Hp : proto_table proto = Some p) (Hnd : NoDup order)
    (Hall : ∀ k, k ∈ order → exportable encoded key (NS.table p (ns s)) k) (Hfree : locked s = [])
    (Htab : ∀ k c, NS.table p (ns s) !! k = Some c → C.key c = Some k ∧ C.proto c = p)
    (Hnew : ∀ k, k ∈ order → NS.table p d !! k = None) :
  ∃ n' d' l, handle_get_proto encoded Hash key proto id true order s =
      Some (Z.of_nat (length l), mkState n' [] (sent s ++ l)) ∧
    put_all pk l d = Some d' ∧
    (∀ k, k ∈ order → selected key (NS.table p (ns s)) k →
       ∃ c c1 c2, NS.table p (ns s) !! k = Some c ∧
         NS.table p n' !! k = Some c1 ∧ C.HasMoved c1 = true ∧
         NS.table p d' !! k = Some c2 ∧ C.HasMoved c2 = false ∧ C.key c2 = Some k ∧ c2 = arrived c) ∧
    (∀ k, ¬ (k ∈ order ∧ selected key (NS.table p (ns s)) k) →
       NS.table p n' !! k = NS.table p (ns s) !! k ∧ NS.table p d' !! k = NS.table p d !! k).
Proof.
  have Hpk : p ≠ C.TRANSPORT_UNKNOWN.
  { move: Hp. unfold proto_table. intros ?. by repeat case_match; simplify_eq. }
  have [|T [l [Hrun [Hmsg Hae]]]] := get_loop_spec encoded Hash key id true p order 0 s Hpk Hnd.
  { move=> k Hk. split; first by apply Hall. rw Hfree. by apply not_elem_of_nil. }
  set sel := filter _ order in Hrun, Hmsg, Hae.
  have Hsel k : k ∈ sel ↔ k ∈ order ∧ selected key (NS.table p (ns s)) k.
  { rw /sel list_elem_of_filter. tauto. }
  have [|d' [Hput [Hd' _]]] := put_all_spec pk id p _ 0 sel l d Hpk (NoDup_filter _ _ Hnd) Hmsg Htab.
  { move=> k /Hsel [Hk _]. by apply Hnew. }
  exists (NS.set_table p T (ns s)), d', l.
  have HT k : NS.table p (NS.set_table p T (ns s)) !! k = T !! k by rw NS.table_set_table // decide_True.
  split; [|split; [|split]].
  - rw /handle_get_proto Hp Hrun Hfree. by move: (Hmsg) => [-> _].
  - done.
  - move=> k Hk Hs. have [c [Hc _]] := Hs. exists c, (exported id true c), (arrived c).
    have Hin : k ∈ sel by apply Hsel. have [Hck _] := Htab _ _ Hc.
    split_and! => //; [by rw HT Hae decide_True // Hc| |by rw Hd' decide_True // Hc].
    rw /exported /C.HasMoved /C.Moved. by case: (C.root_analyzer _).
  - move=> k Hk. rw HT Hae Hd'. by rw !decide_False // Hsel.
Qed.
End handover.

(** ** The statistics after a move *)

Section drift.
Context {A : Type} `{NS.StatisticsLaws A}.
Variable cfg : NS.config.
Implicit Types (c : C.Connection A) (d : NS.NetSessions A).

(** A move loses the statistics of TCP states on both sides.  The process the
    connection left still counts it after it was removed; the process it arrived at
    never counted it, but discounts it when it is removed, which wraps the counter
    below zero. *)
Theorem move_statistics_drift c k o r (s d : NS.NetSessions A)
    (Hrestore : ∀ a : A, C.an_states (C.an_restore a) = C.an_states a) (Hdone : NS.quiet_conn (arrived c))
    (Hk : C.key c = Some k) (Hp : C.proto c = C.TRANSPORT_TCP) (Hor : NS.conn_states c = Some (o, r))
    (Hs : NS.tcp_conns s !! k = Some (C.Moved c)) (Hd : NS.tcp_conns d !! k = None)
    (Hcnt : E.Cnt o r (NS.tcp_stats d) = 0%Z) :
  (∃ s', NS.Remove cfg (C.Moved c) s = Some s' ∧ NS.tcp_conns s' !! k = None ∧ NS.tcp_stats s' = NS.tcp_stats s) ∧
  (∃ d1 d2, NS.Insert (arrived c) d = Some d1 ∧ NS.tcp_stats d1 = NS.tcp_stats d ∧
     NS.Remove cfg (arrived c) d1 = Some d2 ∧ NS.tcp_conns d2 !! k = None ∧
     E.Cnt o r (NS.tcp_stats d2) = (2 ^ 32 - 1)%Z).
Proof.
  have Hmk : C.key (C.Moved c) = Some k ∧ C.proto (C.Moved c) = C.TRANSPORT_TCP ∧ C.moved (C.Moved c) = true.
  { rw /C.Moved. by case: (C.root_analyzer _). }
  move: Hmk => [Hmk [Hmp Hmm]].
  have Hquiet : NS.quiet_conn (C.Moved c) by move=> Hf; rw Hmm in Hf.
  split.
  - have [||s' [Hrun [Htab _]]] := NS.Remove_succeeds cfg (C.Moved c) s k Hquiet Hmk.
    + by rw Hmp.
    + rw Hmp. by exists (C.Moved c).
    + have [_ [Hst _]] := NS.Remove_shape cfg _ _ _ _ Hmk Hrun. exists s'. split_and! => //.
      * move: (Htab C.TRANSPORT_TCP k). by rw Hmp decide_True.
      * by rw Hst /NS.left_stats /C.HasMoved Hmm.
  - set c' := arrived c. set d1 := NS.set_table C.TRANSPORT_TCP (<[k := c']> (NS.tcp_conns d)) d.
    have Hk' : C.key c' = Some k by exact Hk. have Hp' : C.proto c' = C.TRANSPORT_TCP by exact Hp.
    have Hins : NS.Insert c' d = Some d1.
    { by rw /NS.Insert Hk' Hp' /= Hd. }
    have [||d2 [Hrun [Htab _]]] := NS.Remove_succeeds cfg c' d1 k Hdone Hk'.
    + by rw Hp'.
    + rw Hp'. exists c'. by apply lookup_insert_eq.
    + have [_ [Hst _]] := NS.Remove_shape cfg _ _ _ _ Hk' Hrun. exists d1, d2. split_and! => //.
      * move: (Htab C.TRANSPORT_TCP k). by rw Hp' decide_True.
      * have Hor' : C.root_analyzer c' ≫= C.an_states = Some (o, r).
        { move: Hor. rw /NS.conn_states Hp /c' /arrived /=. case: (C.root_analyzer c) => //= a. by rw Hrestore. }
        rw Hst /NS.left_stats Hp' Hor' /=. rw /E.Cnt /E.StateLeft /E.bump decide_True //.
        move: Hcnt. rw /E.Cnt => ->. by vm_compute.
Qed.
End drift.

(** ** The request handler *)

Lemma send_loop_spec n c : send_loop n c = ((c + Z.of_nat n)%Z, (λ i, c + Z.of_nat i)%Z <$> seq 0 n).
Proof.
  elim: n c => [|n IH] c; first by rw /= Z.add_0_r.
  cbn [send_loop seq]. rw IH fmap_cons -fmap_S_seq -list_fmap_compose Z.add_0_r.
  f_equal; first by lia. f_equal. apply list_fmap_ext => i x _ /=. lia.
Qed.

(** Whatever the controller asks for, the handler sends 69 messages with the
    same made-up key and text and the numbers 1 to 69, and reports 70 as the number
    of messages; no connection is looked at. *)
Theorem local_get_perflow_sends_dummies (key : option PerflowKey) (id : Z) (raise : bool) :
  let '(count, seqs) := local_get_perflow key id raise in
  count = 70%Z ∧ length seqs = 69 ∧ (∀ i : nat, i < 69 → seqs !! i = Some (1 + Z.of_nat i)%Z) ∧
  wild dummy_key WILDCARD_TP_DST = true ∧ wild dummy_key WILDCARD_TP_SRC = false.
Proof.
  rw /local_get_perflow /send_state send_loop_spec. split_and! => //.
  move=> i Hi. by rw list_lookup_fmap lookup_seq_lt.
Qed.

(** ** Concrete inputs *)

Definition any_key : PerflowKey := (mkPerflowKey 0 0 0 0 0 0 0 0 WILDCARD_ALL 0)%Z.
Definition http_key : PerflowKey := (mkPerflowKey 0 0 0 0 0 20480 0 0 (without WILDCARD_ALL WILDCARD_TP_DST) 0)%Z.
Definition from_key : PerflowKey := (mkPerflowKey 16777226 32 0 0 0 0 0 0 (without WILDCARD_ALL WILDCARD_NW_SRC) 0)%Z.
Definition live_conn : C.Connection NS.toy :=
  C.set_root_analyzer (Some (NS.Toy E.TCP_ENDPOINT_ESTABLISHED E.TCP_ENDPOINT_ESTABLISHED)) NS.sample_conn.
Definition sample_state : state (A := NS.toy) := mkState (NS.sample_sessions live_conn) [] [].

Lemma sample_exportable key k :
  is_Some (matches key live_conn) → k ∈ [NS.sample_key] →
  exportable (λ _, true) key (NS.table C.TRANSPORT_TCP (ns sample_state)) k.
Proof. move=> Hm /list_elem_of_singleton ->. exists live_conn. by split_and!. Qed.

Lemma handle_get_proto_exports_witness :
  ∃ T l, handle_get_proto (λ _, true) (λ _, 0%Z) http_key 6 5 true [NS.sample_key] sample_state =
    Some (1%Z, mkState (NS.set_table C.TRANSPORT_TCP T (ns sample_state)) [] ([] ++ l)).
Proof.
  destruct (handle_get_proto_exports (λ _, true) (λ _, 0%Z) http_key 5 true 6 C.TRANSPORT_TCP [NS.sample_key] sample_state)
    as (T & l & Hrun & _ & _).
  - done.
  - apply NoDup_singleton.
  - intros k Hk. apply sample_exportable; [by eexists|exact Hk].
  - done.
  - exists T, l. exact Hrun.
Defined.

Lemma nw_src_selects_no_IPv4_witness :
  handle_get_proto (λ _, true) (λ _, 0%Z) from_key 6 5 true [NS.sample_key] sample_state = Some (0%Z, sample_state).
Proof.
  apply (nw_src_selects_no_IPv4 (λ _, true) (λ _, 0%Z) from_key 6 C.TRANSPORT_TCP 5 true [NS.sample_key] sample_state).
  - done.
  - done.
  - right. simpl. lia.
  - intros k ->%list_elem_of_singleton. exists live_conn. split; [done|]. by exists [10;0;0;1]%Z.
  - done.
Defined.

Lemma encode_failure_witness :
  ∃ s', handle_get_proto (λ _, false) (λ _, 0%Z) any_key 6 5 false [NS.sample_key] sample_state = Some (0%Z, s') ∧
    handle_get_proto (λ _, false) (λ _, 0%Z) any_key 6 6 false [NS.sample_key] s' = None.
Proof.
  destruct (encode_failure (λ _, false) (λ _, 0%Z) any_key 6 C.TRANSPORT_TCP 5 6 false false NS.sample_key live_conn sample_state)
    as (s' & Hrun & _ & _ & _ & Hnone); [by vm_compute..|].
  exists s'. split; [exact Hrun|]. apply Hnone. reflexivity.
Defined.

Lemma move_handover_witness :
  ∃ n' d' l, handle_get_proto (λ _, true) (λ _, 0%Z) any_key 6 5 true [NS.sample_key] sample_state =
      Some (Z.of_nat (length l), mkState n' [] ([] ++ l)) ∧
    put_all any_key l NS.NetSessions_new = Some d' ∧ is_Some (NS.table C.TRANSPORT_TCP d' !! NS.sample_key).
Proof.
  destruct (move_handover (λ _, true) (λ _, 0%Z) any_key 6 C.TRANSPORT_TCP 5 [NS.sample_key] any_key sample_state NS.NetSessions_new)
    as (n' & d' & l & Hrun & Hput & Hsel & _).
  - done.
  - apply NoDup_singleton.
  - intros k Hk. apply sample_exportable; [by eexists|exact Hk].
  - done.
  - intros k c Hk. change (({[NS.sample_key := live_conn]} : gmap C.ConnKey (C.Connection NS.toy)) !! k = Some c) in Hk.
    by apply lookup_singleton_Some in Hk as [<- <-].
  - done.
  - exists n', d', l. split; [exact Hrun|]. split; [exact Hput|].
    destruct (Hsel NS.sample_key) as (c & c1 & c2 & _ & _ & _ & Hc2 & _); [by left| |by exists c2].
    exists live_conn. by split.
Defined.

Lemma move_statistics_drift_witness :
  let s := NS.sample_sessions (C.Moved live_conn) in
  (∃ s', NS.Remove NS.sample_cfg (C.Moved live_conn) s = Some s' ∧ NS.tcp_stats s' = NS.tcp_stats s) ∧
  ∃ d1 d2, NS.Insert (arrived live_conn) NS.NetSessions_new = Some d1 ∧
    NS.Remove NS.sample_cfg (arrived live_conn) d1 = Some d2 ∧
    E.Cnt E.TCP_ENDPOINT_ESTABLISHED E.TCP_ENDPOINT_ESTABLISHED (NS.tcp_stats d2) = (2 ^ 32 - 1)%Z.
Proof.
  destruct (move_statistics_drift NS.sample_cfg live_conn NS.sample_key E.TCP_ENDPOINT_ESTABLISHED
    E.TCP_ENDPOINT_ESTABLISHED (NS.sample_sessions (C.Moved live_conn)) NS.NetSessions_new)
    as [(s' & Hrun & _ & Hst) (d1 & d2 & Hins & _ & Hrun2 & _ & Hcnt)].
  - done.
  - intros _ a _ w _. by exists a, w.
  - done.
  - done.
  - done.
  - done.
  - done.
  - done.
  - split; [exists s'; exact (conj Hrun Hst)|]. exists d1, d2. exact (conj Hins (conj Hrun2 Hcnt)).
Defined.

End SB.
