(* ===== verification/Tree.v ===== *)
(** Tree: the analyzers of a connection as a tree, Analyzer.cc / Analyzer.h.

    An analyzer has children, to which it passes what it extracts, and for each
    direction a chain of support analyzers, through which its own input comes.  A
    function works on the analyzer it is called for ([this]), with everything below
    it.  What the classes of analyzers do with their input is the parameter [Env]:
    it is a function on the whole state, so an analyzer can add, remove and call
    others meanwhile. *)
From S2P Require Import Prelude Flow IP Sdmbn.

Module AT.

Abbreviation bytes := (list Z) (only parsing).

#[global] Instance Tag_eq_dec : EqDecision SB.Tag.
Proof. solve_decision. Defined.

(** ** Data *)

(** What the members of an analyzer hold besides the lists; [at_] is its address, and
    [is_orig] belongs to support analyzers. *)
Record Info := mkInfo {
  at_ : nat;
  tag : SB.Tag;
  id : Z;
  is_orig : bool;
  output_handler : bool;
  protocol_confirmed : bool;
  skip : bool;
  finished : bool;
  removing : bool;
  moved : bool;
  timers_canceled : bool;
  timers : list nat
}.

Definition set_output_handler (v : bool) (i : Info) : Info :=
  mkInfo (at_ i) (tag i) (id i) (is_orig i) v (protocol_confirmed i) (skip i) (finished i) (removing i) (moved i) (timers_canceled i) (timers i).
Definition set_protocol_confirmed (v : bool) (i : Info) : Info :=
  mkInfo (at_ i) (tag i) (id i) (is_orig i) (output_handler i) v (skip i) (finished i) (removing i) (moved i) (timers_canceled i) (timers i).
Definition set_skip (v : bool) (i : Info) : Info :=
  mkInfo (at_ i) (tag i) (id i) (is_orig i) (output_handler i) (protocol_confirmed i) v (finished i) (removing i) (moved i) (timers_canceled i) (timers i).
Definition set_finished (v : bool) (i : Info) : Info :=
  mkInfo (at_ i) (tag i) (id i) (is_orig i) (output_handler i) (protocol_confirmed i) (skip i) v (removing i) (moved i) (timers_canceled i) (timers i).
Definition set_removing (v : bool) (i : Info) : Info :=
  mkInfo (at_ i) (tag i) (id i) (is_orig i) (output_handler i) (protocol_confirmed i) (skip i) (finished i) v (moved i) (timers_canceled i) (timers i).
(** All timers are canceled. *)
Definition set_canceled (i : Info) : Info :=
  mkInfo (at_ i) (tag i) (id i) (is_orig i) (output_handler i) (protocol_confirmed i) (skip i) (finished i) (removing i) (moved i) true [].

(** An analyzer; the lists of support analyzers are the chains of [sibling]. *)
Inductive tree := Node {
  info : Info;
  children : list tree;
  new_children : list tree;
  orig_supporters : list tree;
  resp_supporters : list tree
}.

Definition set_info (f : Info → Info) (t : tree) : tree :=
  Node (f (info t)) (children t) (new_children t) (orig_supporters t) (resp_supporters t).
Definition set_children (v : list tree) (t : tree) : tree :=
  Node (info t) v (new_children t) (orig_supporters t) (resp_supporters t).
Definition set_new_children (v : list tree) (t : tree) : tree :=
  Node (info t) (children t) v (orig_supporters t) (resp_supporters t).
Definition set_supporters (orig : bool) (v : list tree) (t : tree) : tree :=
  if orig then Node (info t) (children t) (new_children t) v (resp_supporters t)
  else Node (info t) (children t) (new_children t) (orig_supporters t) v.

Definition supporters (orig : bool) (t : tree) : list tree := if orig then orig_supporters t else resp_supporters t.
Definition addr (t : tree) : nat := at_ (info t).
(** An analyzer that gets input. *)
Definition live (t : tree) : bool := negb (finished (info t) || removing (info t)).

(** What is passed on. *)
Inductive input :=
  | Packet (len : Z) (data : bytes) (orig : bool) (seq : Z) (ip : option IP.IP_Hdr) (caplen : Z)
  | Stream (data : bytes) (orig : bool)
  | Undelivered (seq len : Z) (orig : bool)
  | EndOfData (orig : bool).

Definition of_orig (inp : input) : bool :=
  match inp with Packet _ _ o _ _ _ | Stream _ o | Undelivered _ _ o | EndOfData o => o end.

(** The state of a call: the analyzer, the counter of ids, the next address, and the
    rest of the program. *)
Record State (U : Type) := mkState { this : tree; id_counter : Z; next_at : nat; world : U }.
Arguments mkState {U}.
Arguments this {U}.
Arguments id_counter {U}.
Arguments next_at {U}.
Arguments world {U}.

(** What the classes do: with input, also if it comes from a handler of the output
    ([Deliver], [Output]; what [NextX] catches is part of them), when they are created
    and initialized, at the end of the data and after [Analyzer::Done] has returned
    ([OnDone]: the rest of the [Done] of the class, which runs also when
    [Analyzer::Done] has returned at once); the manager of timers; and the event that a
    protocol was confirmed. *)
Record Env (U : Type) := mkEnv {
  Deliver : nat → input → M (State U) ();
  Output : nat → input → M (State U) ();
  Init : nat → M (State U) ();
  OnEndOfData : nat → bool → U → U;
  OnDone : nat → U → U;
  Cancel : nat → U → U;
  confirmation_event : nat → M (State U) ()
}.
Arguments mkEnv {U}.
Arguments Deliver {U}.
Arguments Output {U}.
Arguments Init {U}.
Arguments OnEndOfData {U}.
Arguments OnDone {U}.
Arguments Cancel {U}.
Arguments confirmation_event {U}.

Definition Info_new (a : nat) (tg : SB.Tag) (i : Z) : Info :=
  mkInfo a tg i false false false false false false false false [].
Definition Analyzer_new (a : nat) (tg : SB.Tag) (i : Z) : tree := Node (Info_new a tg i) [] [] [] [].

Section operations.
Context {U : Type} (env : Env U).

Definition upd (f : tree → tree) : M (State U) () :=
  modify (λ s, mkState (f (this s)) (id_counter s) (next_at s) (world s)).

(** ** The end of an analyzer *)

Definition CancelTimers (i : Info) (u : U) : U := foldl (λ u tm, Cancel env tm u) u (timers i).

(** [Done] of a list of analyzers, [f] of those that have not finished. *)
Definition done_list (f : tree → U → option (tree * U)) : list tree → U → option (list tree * U) :=
  fix go l u :=
    match l with
    | [] => Some ([], u)
    | c :: l =>
      '(c, u) ← (if finished (info c) then Some (c, u) else f c u);
      '(l, u) ← go l u;
      Some (c :: l, u)
    end.

(** [Done] of an analyzer: [Analyzer::Done], in which it is asserted that an analyzer
    finishes once and which does nothing for one that has moved, and then what its
    class goes on to do.  What a class keeps of its own (the further children of
    [TCP_Analyzer], say) is in [U]; [TCP_Analyzer] alone sets [finished] itself, which
    makes a difference when [Analyzer::Done] has not done so. *)
Fixpoint Done (t : tree) (u : U) : option (tree * U) :=
  match t with
  | Node i ch nc os rs =>
    if moved i then
      Some (Node (if decide (tag i = SB.T_TCP) then set_finished true i else i) ch nc os rs, OnDone env (at_ i) u)
    else if finished i then None
    else
      let u := if skip i then u else OnEndOfData env (at_ i) false (OnEndOfData env (at_ i) true u) in
      let u := CancelTimers i u in
      '(ch, u) ← done_list Done ch u;
      '(nc, u) ← done_list Done nc u;
      '(os, u) ← done_list Done os u;
      '(rs, u) ← done_list Done rs u;
      Some (Node (set_finished true (set_canceled i)) (ch ++ nc) [] os rs, OnDone env (at_ i) u)
  end.

(** The destructor; the new children are forgotten. *)
Fixpoint destroy (t : tree) (u : U) : U :=
  match t with
  | Node i ch nc os rs =>
    let u := foldl (λ u c, destroy c u) u ch in
    let u := foldl (λ u c, destroy c u) u os in
    let u := foldl (λ u c, destroy c u) u rs in
    if moved i then CancelTimers i u else u
  end.


(** What an analyzer is after it was archived and restored; [parent] is the tag of
    its parent.  Only the first support analyzers are looked at. *)
Fixpoint restore (t : tree) : tree :=
  match t with
  | Node i ch nc os rs =>
    Node (mkInfo (at_ i) (tag i) (id i) (is_orig i) false (protocol_confirmed i) (skip i) (finished i) (removing i) false (timers_canceled i) [])
      (map restore ch) (map restore nc) (map restore os) (map restore rs)
  end.

Definition heads_ok (l : list tree) : bool := match l with [] => true | s :: _ => SB.sdmbn_can_serialize (tag (info s)) end.

Fixpoint serializable (parent : option SB.Tag) (t : tree) : bool :=
  match t with
  | Node i ch nc os rs =>
    match parent with Some p => SB.sdmbn_can_serialize p | None => true end &&
    forallb (λ c, SB.sdmbn_can_serialize (tag (info c))) ch && heads_ok os && heads_ok rs &&
    forallb (λ c, SB.sdmbn_can_serialize (tag (info c))) nc &&
    forallb (serializable (Some (tag i))) ch && forallb (serializable (Some (tag i))) os &&
    forallb (serializable (Some (tag i))) rs && forallb (serializable (Some (tag i))) nc
  end.

Definition archived (parent : option SB.Tag) (t : tree) : option tree :=
  if serializable parent t then Some (restore t) else None.

(** ** The tree *)

(** The first analyzer of the tree, from the top, of which [p] holds. *)
Fixpoint find_child (p : Info → bool) (t : tree) : option Info :=
  if p (info t) then Some (info t)
  else
    match t with
    | Node _ ch _ _ _ =>
      (fix go (l : list tree) {struct l} : option Info :=
         match l with [] => None | c :: l => match find_child p c with Some x => Some x | None => go l end end) ch
    end.
Definition FindChild (i : Z) (t : tree) : option nat := at_ <$> find_child (λ x, bool_decide (id x = i)) t.
Definition FindChild_tag (tg : SB.Tag) (t : tree) : option nat := at_ <$> find_child (λ x, bool_decide (tag x = tg)) t.

Definition has_tag (tg : SB.Tag) (l : list tree) : bool := existsb (λ c, bool_decide (tag (info c) = tg)) l.
Definition HasChildAnalyzer (tg : SB.Tag) (t : tree) : bool := has_tag tg (children t) || has_tag tg (new_children t).

Definition AppendNewChildren : M (State U) () := upd (λ t, set_new_children [] (set_children (children t ++ new_children t) t)).

(** An analyzer that is not taken: it ends at once. *)
Definition discard (t : tree) : M (State U) () :=
  update (λ s, '(t, u) ← Done t (world s); Some (mkState (this s) (id_counter s) (next_at s) (destroy t u))).

Definition AddChildAnalyzer (t : tree) (init : bool) : M (State U) () :=
  has ← gets (λ s, HasChildAnalyzer (tag (info t)) (this s));
  if (has : bool) then discard t
  else
    upd (λ p, set_children (children p ++ [t]) p);;
    when init (call (Init env (addr t))).

(** [InstantiateAnalyzer] *)
Definition new_analyzer (tg : SB.Tag) : M (State U) tree :=
  s ← get;
  modify (λ s, mkState (this s) (uint32 (id_counter s + 1)) (S (next_at s)) (world s));;
  mret (Analyzer_new (next_at s) tg (uint32 (id_counter s + 1))).

Definition AddChildAnalyzer_tag (tg : SB.Tag) : M (State U) (option nat) :=
  has ← gets (λ s, HasChildAnalyzer tg (this s));
  if (has : bool) then mret None
  else t ← new_analyzer tg; AddChildAnalyzer t true;; mret (Some (addr t)).

(** Mark the first child that is live and of which [p] holds. *)
Fixpoint mark_first (p : Info → bool) (l : list tree) : list tree :=
  match l with
  | [] => []
  | c :: l => if p (info c) && live c then set_info (set_removing true) c :: l else c :: mark_first p l
  end.
Definition RemoveChildAnalyzer (a : nat) : M (State U) () :=
  upd (λ t, set_children (mark_first (λ i, bool_decide (at_ i = a)) (children t)) t).
Definition RemoveChildAnalyzer_id (i : Z) : M (State U) () :=
  upd (λ t, set_children (mark_first (λ x, bool_decide (id x = i)) (children t)) t).

(** [DeleteChild], where an iterator is the address of its element. *)
Definition at_iter (c : nat) (l : list tree) : option (tree * option nat) :=
  '(i, t) ← list_find (λ t, addr t = c) l;
  Some (t, addr <$> l !! S i).

Definition erase (c : nat) (l : list tree) : list tree := filter (λ t, addr t ≠ c) l.

Definition DeleteChild (c : nat) : M (State U) () :=
  update (λ s,
    '(child, _) ← at_iter c (children (this s));
    if live child then None
    else
      '(child, u) ← (if removing (info child) then '(t, u) ← Done child (world s); Some (set_info (set_removing false) t, u)
                     else Some (child, world s));
      Some (mkState (set_children (erase c (children (this s))) (this s)) (id_counter s) (next_at s) (destroy child u))).

(** ** Passing input on *)

(** [NextPacket], [NextStream], [NextUndelivered], [NextEndOfData]. *)
Fixpoint Next (t : tree) (inp : input) : M (State U) () :=
  match t with
  | Node i _ _ os rs =>
    if skip i then mret ()
    else
      match (if of_orig inp then os else rs) with
      | s :: _ => Next s inp
      | [] => call (Deliver env (at_ i) inp)
      end
  end.

(** The loop over the children; [i] is the iterator, [None] at the end. *)
Fixpoint forward_loop (fuel : nat) (inp : input) (i : option nat) : M (State U) () :=
  match i with
  | None => mret ()
  | Some c =>
    match fuel with
    | O => lift None
    | S fuel =>
      kids ← gets (λ s, children (this s));
      '(cur, next) ← lift (at_iter c kids);
      (if live cur then Next cur inp else DeleteChild c);;
      forward_loop fuel inp next
    end
  end.

Definition is_EndOfData (inp : input) : bool := match inp with EndOfData _ => true | _ => false end.

(** [ForwardPacket], [ForwardStream], [ForwardUndelivered], [ForwardEndOfData]. *)
Definition Forward (fuel : nat) (inp : input) : M (State U) () :=
  t ← gets this;
  when (output_handler (info t) && negb (is_EndOfData inp)) (call (Output env (addr t) inp));;
  AppendNewChildren;;
  kids ← gets (λ s, children (this s));
  forward_loop fuel inp (addr <$> head kids);;
  AppendNewChildren.

(** ** Support analyzers *)

Definition HasSupportAnalyzer (tg : SB.Tag) (orig : bool) (t : tree) : bool := has_tag tg (supporters orig t).

Definition AddSupportAnalyzer (t : tree) : M (State U) () :=
  has ← gets (λ s, HasSupportAnalyzer (tag (info t)) (is_orig (info t)) (this s));
  if (has : bool) then discard t
  else
    upd (λ p, set_supporters (is_orig (info t)) (supporters (is_orig (info t)) p ++ [t]) p);;
    call (Init env (addr t)).

(** [analyzer] is the support analyzer itself, whose members say where it is looked
    for. *)
Definition RemoveSupportAnalyzer (analyzer : tree) : M (State U) () :=
  let o := is_orig (info analyzer) in
  l ← gets (λ s, supporters o (this s));
  match list_find (λ t, addr t = addr analyzer) l with
  | None => mret ()
  | Some (i, t) =>
    upd (λ p, set_supporters o (delete i l) p);;
    update (λ s,
      '(t, u) ← (if finished (info t) then Some (t, world s) else Done t (world s));
      Some (mkState (this s) (id_counter s) (next_at s) (destroy t u)))
  end.

(** The [sibling] of a support analyzer. *)
Definition sibling (a : nat) (p : tree) : option (option tree) :=
  match list_find (λ x, addr x = a) (orig_supporters p) with
  | Some (i, _) => Some (orig_supporters p !! S i)
  | None => '(i, _) ← list_find (λ x, addr x = a) (resp_supporters p); Some (resp_supporters p !! S i)
  end.

(** [ForwardPacket], [ForwardStream] and [ForwardUndelivered] of the support analyzer
    [t] of [this]: to its handler, the next of the chain, or the analyzer itself. *)
Definition SupportForward (t : tree) (inp : input) : M (State U) () :=
  if output_handler (info t) then call (Output env (addr t) inp)
  else
    p ← gets this;
    next ← lift (sibling (addr t) p);
    match next with
    | Some s => Next s inp
    | None => call (Deliver env (addr p) inp)
    end.

Fixpoint FlipRoles (t : tree) : tree :=
  match t with
  | Node i ch nc os rs => Node i (map FlipRoles ch) (map FlipRoles nc) (map FlipRoles rs) (map FlipRoles os)
  end.

Definition ProtocolConfirmation : M (State U) () :=
  t ← gets this;
  if protocol_confirmed (info t) then stop
  else
    call (confirmation_event env (addr t));;
    upd (set_info (set_protocol_confirmed true)).

End operations.

(** ** Trees *)

Lemma tree_nested (P : tree → Prop) :
  (∀ i ch nc os rs, Forall P ch → Forall P nc → Forall P os → Forall P rs → P (Node i ch nc os rs)) → ∀ t, P t.
Proof.
  intros HP. fix IH 1. intros [i ch nc os rs]. apply HP.
  - clear -IH. induction ch; constructor; auto.
  - clear -IH. induction nc; constructor; auto.
  - clear -IH. induction os; constructor; auto.
  - clear -IH. induction rs; constructor; auto.
Qed.

(** What ending an analyzer does to the rest of the program, as a list of calls. *)
Inductive end_call := call_EndOfData (a : nat) (orig : bool) | call_Done (a : nat) | call_Cancel (tm : nat).

Section ends.
Context {U : Type} (env : Env U).

Definition perform (u : U) (c : end_call) : U :=
  match c with call_EndOfData a o => OnEndOfData env a o u | call_Done a => OnDone env a u | call_Cancel tm => Cancel env tm u end.

(** All analyzers of a tree. *)
Fixpoint infos (t : tree) : list Info :=
  match t with
  | Node i ch nc os rs => i :: concat (map infos ch) ++ concat (map infos nc) ++ concat (map infos os) ++ concat (map infos rs)
  end.

Definition ended (c : end_call) : list nat := match c with call_Done a => [a] | _ => [] end.
Definition canceled (c : end_call) : list nat := match c with call_Cancel tm => [tm] | _ => [] end.

(** What is told, and about whom, when the analyzers [l] end. *)
Definition tells (l : list Info) (u u' : U) : Prop :=
  ∃ calls, u' = foldl perform u calls ∧ mjoin (ended <$> calls) ≡ₚ at_ <$> l ∧ mjoin (canceled <$> calls) ≡ₚ mjoin (timers <$> l).

Lemma tells_nil u : tells [] u u.
Proof. by exists []. Qed.
Lemma tells_app l1 l2 u1 u2 u3 : tells l1 u1 u2 → tells l2 u2 u3 → tells (l1 ++ l2) u1 u3.
Proof.
  intros (c1 & -> & He1 & Hc1) (c2 & -> & He2 & Hc2). exists (c1 ++ c2). rw foldl_app !fmap_app !join_app. split; [done|]. by rw He1 He2 Hc1 Hc2.
Qed.

Lemma CancelTimers_calls i u : CancelTimers env i u = foldl perform u (call_Cancel <$> timers i).
Proof. unfold CancelTimers. revert u. induction (timers i) as [|tm l IH]; intros u; [done|]. apply IH. Qed.
Lemma cancel_calls (l : list nat) : mjoin (ended <$> (call_Cancel <$> l)) = [] ∧ mjoin (canceled <$> (call_Cancel <$> l)) = l.
Proof. induction l as [|x l [IH1 IH2]]; [done|]. cbn. by rw IH1 IH2. Qed.

Definition fresh_info (i : Info) : Prop := finished i = false ∧ moved i = false.
Definition ended_info (i : Info) : Prop := finished i = true ∧ timers i = [].

Definition ends_well (t : tree) : Prop := Forall fresh_info (infos t) → ∀ u, ∃ t' u',
  Done env t u = Some (t', u') ∧ tells (infos t) u u' ∧ at_ <$> infos t' ≡ₚ at_ <$> infos t ∧ Forall ended_info (infos t').

Lemma done_list_tells l : Forall ends_well l → Forall fresh_info (concat (map infos l)) → ∀ u, ∃ l' u',
  done_list (Done env) l u = Some (l', u') ∧ tells (concat (map infos l)) u u' ∧
  at_ <$> concat (map infos l') ≡ₚ at_ <$> concat (map infos l) ∧ Forall ended_info (concat (map infos l')).
Proof.
  induction 1 as [|t l Ht Hl IH]; intros Hf u; [exists [], u; by repeat constructor; try apply tells_nil|].
  cbn [map concat] in *. apply Forall_app in Hf as [Hf1 Hf2].
  assert (finished (info t) = false) as Hfin by (destruct t; by apply Forall_cons in Hf1 as [[? _] _]).
  destruct (Ht Hf1 u) as (t' & u1 & Hr1 & Ht1 & Hp1 & He1). destruct (IH Hf2 u1) as (l' & u2 & Hr2 & Ht2 & Hp2 & He2).
  exists (t' :: l'), u2. cbn [done_list]. rw Hfin Hr1. cbn [mbind option_bind]. rw Hr2. split; [done|].
  split; [by eapply tells_app|]. cbn [map concat]. rw !fmap_app Hp1 Hp2. split; [done|]. by apply Forall_app.
Qed.

Lemma Done_ends_well t : ends_well t.
Proof.
  induction t as [i ch nc os rs Hch Hnc Hos Hrs] using tree_nested. intros Hf u. cbn [infos] in Hf.
  apply Forall_cons in Hf as [[Hfin Hmv] Hf]. apply Forall_app in Hf as [F1 [F2 [F3 F4]%Forall_app]%Forall_app].
  set (u0 := if skip i then u else OnEndOfData env (at_ i) false (OnEndOfData env (at_ i) true u)).
  assert (∃ eod, u0 = foldl perform u eod ∧ mjoin (ended <$> eod) = [] ∧ mjoin (canceled <$> eod) = []) as (eod & Hu0 & Ho1 & Ho2).
  { unfold u0. destruct (skip i); [by exists []|by exists [call_EndOfData (at_ i) true; call_EndOfData (at_ i) false]]. }
  destruct (done_list_tells ch Hch F1 (CancelTimers env i u0)) as (ch' & u1 & R1 & T1 & P1 & E1).
  destruct (done_list_tells nc Hnc F2 u1) as (nc' & u2 & R2 & T2 & P2 & E2).
  destruct (done_list_tells os Hos F3 u2) as (os' & u3 & R3 & T3 & P3 & E3).
  destruct (done_list_tells rs Hrs F4 u3) as (rs' & u4 & R4 & T4 & P4 & E4).
  eexists _, _. cbn [Done]. rw Hmv Hfin. fold u0. rw R1. cbn [mbind option_bind]. rw R2. cbn [mbind option_bind]. rw R3.
  cbn [mbind option_bind]. rw R4. cbn [mbind option_bind]. split; [done|]. split; [|split].
  - pose proof (tells_app _ _ _ _ _ T1 (tells_app _ _ _ _ _ T2 (tells_app _ _ _ _ _ T3 T4))) as (calls & Hu & He & Hc).
    destruct (cancel_calls (timers i)) as [Hx1 Hx2]. exists (eod ++ (call_Cancel <$> timers i) ++ calls ++ [call_Done (at_ i)]).
    rw !foldl_app -Hu0 -CancelTimers_calls -Hu. split; [done|]. rw !fmap_app !join_app Ho1 Ho2 Hx1 Hx2 He Hc.
    cbn [infos]. split; [|cbn; by rw app_nil_r]. cbn. by rw (Permutation_app_comm _ [at_ i]).
  - cbn [infos]. rw map_app concat_app. cbn. constructor. rw !fmap_app P1 P2 P3 P4. by rw -!app_assoc.
  - cbn [infos]. constructor; [done|]. rw map_app concat_app. repeat apply Forall_app_2; done.
Qed.

(** C37. Ending an analyzer ends everything below it: if nothing has ended before, each
    analyzer of the tree, support analyzers included, is told once that it is done,
    all of its timers are canceled, and all are marked as finished. *)
Theorem Done_reaches_all t u : Forall fresh_info (infos t) →
  ∃ t' u' calls, Done env t u = Some (t', u') ∧ u' = foldl perform u calls ∧
    mjoin (ended <$> calls) ≡ₚ at_ <$> infos t ∧ mjoin (canceled <$> calls) ≡ₚ mjoin (timers <$> infos t) ∧
    at_ <$> infos t' ≡ₚ at_ <$> infos t ∧ Forall ended_info (infos t').
Proof.
  intros Hf. destruct (Done_ends_well t Hf u) as (t' & u' & Hr & (calls & Hu & He & Hc) & Hp & Hend). by exists t', u', calls.
Qed.

(** ** Trees that have moved *)








(** ** Passing input on *)

(** The analyzer that gets the input of [t], itself or a support analyzer. *)
Fixpoint target (inp : input) (t : tree) : option nat :=
  match t with
  | Node i _ _ os rs =>
    if skip i then None else match (if of_orig inp then os else rs) with s :: _ => target inp s | [] => Some (at_ i) end
  end.

(** An analyzer can be marked, but not revived, and takes its input in the same way. *)
Record kept (t t' : tree) : Prop := {
  kt_addr : addr t' = addr t;
  kt_target : ∀ inp, target inp t' = target inp t;
  kt_live : live t' = true → live t = true;
  kt_marks : finished (info t) && removing (info t) = false → finished (info t') && removing (info t') = false
}.
#[global] Instance kept_preorder : PreOrder kept.
Proof. split; [by intros t|]. intros t1 t2 t3 [] []. split; [congruence|congruence|auto|auto]. Qed.

(** What is seen of the input, and how many analyzers can still be added. *)
Context (seen : U → list (nat * input)) (budget : U → nat).

Definition unseen (u u' : U) : Prop := seen u' = seen u ∧ budget u' ≤ budget u.

Definition well_marked (s : State U) : Prop :=
  Forall (λ t, addr t < next_at s ∧ finished (info t) && removing (info t) = false) (children (this s)) ∧
  NoDup (addr <$> children (this s)) ∧ new_children (this s) = [].

(** Children are kept, and others are added behind them. *)
Definition grown (s s' : State U) : Prop := ∃ old new,
  children (this s') = old ++ new ∧ Forall2 kept (children (this s)) old ∧ length new + budget (world s') ≤ budget (world s) ∧
  next_at s ≤ next_at s' ∧ Forall (λ t, next_at s ≤ addr t) new ∧ well_marked s'.

(** Analyzers that do not go wrong in the middle of it: they see the input, mark
    children and add some. *)
Record behaved : Prop := {
  bh_Deliver : ∀ c inp s, well_marked s → ∃ s' r, Deliver env c inp s = Some (s', r) ∧
    seen (world s') = seen (world s) ++ [(c, inp)] ∧ grown s s';
  bh_ends : ∀ u c, unseen u (perform u c)
}.

#[global] Instance unseen_preorder : PreOrder unseen.
Proof. split; [by intros u|]. intros u1 u2 u3 [] []. split; [congruence|lia]. Qed.

Lemma grown_refl s : well_marked s → grown s s.
Proof. intros Hs. exists (children (this s)), []. rw app_nil_r. split; [done|]. split; [by apply Forall_Forall2_diag, Forall_true|]. split; [cbn; lia|]. split; [done|]. split; [constructor|done]. Qed.

Lemma Next_seen t inp s : behaved → well_marked s → ∃ s', Next env t inp s = Some (s', Some ()) ∧
  seen (world s') = seen (world s) ++ ((., inp) <$> match target inp t with Some c => [c] | None => [] end) ∧ grown s s'.
Proof.
  intros Hb Hw. induction t as [i ch nc os rs _ _ Hos Hrs] using tree_nested. cbn [Next target].
  destruct (skip i); [exists s; split; [done|]; split; [by rw app_nil_r|by apply grown_refl]|].
  assert (Forall (λ t, ∃ s', Next env t inp s = Some (s', Some ()) ∧
    seen (world s') = seen (world s) ++ ((., inp) <$> match target inp t with Some c => [c] | None => [] end) ∧ grown s s')
    (if of_orig inp then os else rs)) as Hsup by by destruct (of_orig inp).
  destruct (if of_orig inp then os else rs) as [|t l]; [|by apply Forall_cons in Hsup as [? _]].
  destruct (bh_Deliver Hb (at_ i) inp s Hw) as (s' & r & Hr & Hs & Hg). exists s'. unfold call. rw Hr. done.
Qed.

(** The end of an analyzer is not seen. *)
Lemma Cancel_unseen i u : behaved → unseen u (CancelTimers env i u).
Proof.
  intros Hb. unfold CancelTimers. revert u. induction (timers i) as [|tm l IH]; intros u; [done|].
  etrans; [apply (bh_ends Hb u (call_Cancel tm))|apply IH].
Qed.

Lemma done_list_unseen l : Forall (λ t, finished (info t) = false → ∀ u, ∃ t' u', Done env t u = Some (t', u') ∧ unseen u u') l →
  ∀ u, ∃ l' u', done_list (Done env) l u = Some (l', u') ∧ unseen u u'.
Proof.
  induction 1 as [|t l Ht Hl IH]; intros u; [by exists [], u|]. cbn [done_list].
  destruct (finished (info t)); [|destruct (Ht eq_refl u) as (t' & u1 & -> & Hu1); cbn [mbind option_bind]];
    [destruct (IH u) as (l' & u2 & Hr & Hu2)|destruct (IH u1) as (l' & u2 & Hr & Hu2)]; cbn [mbind option_bind]; rw Hr; eexists _, _; (split; [done|]); [done|by etrans].
Qed.

Lemma Done_unseen t : behaved → finished (info t) = false → ∀ u, ∃ t' u', Done env t u = Some (t', u') ∧ unseen u u'.
Proof.
  intros Hb. induction t as [i ch nc os rs Hch Hnc Hos Hrs] using tree_nested. cbn [info Done]. intros -> u.
  destruct (moved i); [eexists _, _; split; [done|apply (bh_ends Hb u (call_Done (at_ i)))]|].
  set (u0 := if skip i then u else _). assert (unseen u u0) as Hu0.
  { unfold u0. destruct (skip i); [done|]. etrans; [apply (bh_ends Hb u (call_EndOfData (at_ i) true))|apply (bh_ends Hb _ (call_EndOfData (at_ i) false))]. }
  destruct (done_list_unseen ch Hch (CancelTimers env i u0)) as (ch' & u1 & R1 & T1). destruct (done_list_unseen nc Hnc u1) as (nc' & u2 & R2 & T2).
  destruct (done_list_unseen os Hos u2) as (os' & u3 & R3 & T3). destruct (done_list_unseen rs Hrs u3) as (rs' & u4 & R4 & T4).
  rw R1. cbn [mbind option_bind]. rw R2. cbn [mbind option_bind]. rw R3. cbn [mbind option_bind]. rw R4. eexists _, _. split; [done|].
  etrans; [exact Hu0|]. etrans; [by apply Cancel_unseen|]. do 4 (etrans; [eassumption|]). apply (bh_ends Hb u4 (call_Done (at_ i))).
Qed.

Lemma destroy_unseen t : behaved → ∀ u, unseen u (destroy env t u).
Proof.
  intros Hb. induction t as [i ch nc os rs Hch _ Hos Hrs] using tree_nested. intros u. cbn [destroy].
  assert (∀ l, Forall (λ t, ∀ u, unseen u (destroy env t u)) l → ∀ u, unseen u (foldl (λ u c, destroy env c u) u l)) as Hl.
  { induction 1 as [|t l Ht _ IH]; intros u'; [done|]. etrans; [apply Ht|apply IH]. }
  etrans; [apply (Hl ch Hch)|]. etrans; [apply (Hl os Hos)|]. etrans; [apply (Hl rs Hrs)|].
  destruct (moved i); [by apply Cancel_unseen|done].
Qed.

Lemma filter_all_true {A} (P : A → Prop) `{∀ x, Decision (P x)} l : Forall P l → filter P l = l.
Proof. induction 1 as [|x l Hx _ IH]; [done|]. by rw filter_cons_True // IH. Qed.

Lemma at_iter_next pre t rest : NoDup (addr <$> pre ++ t :: rest) → at_iter (addr t) (pre ++ t :: rest) = Some (t, addr <$> head rest).
Proof.
  intros Hn. unfold at_iter. rw fmap_app /= in Hn. apply NoDup_app in Hn as (_ & Hd & _).
  assert (list_find (λ x, addr x = addr t) (pre ++ t :: rest) = Some (length pre, t)) as ->.
  { apply list_find_app_Some. right. split; [lia|]. split; [|by rw Nat.sub_diag /= decide_True].
    apply list_find_None. rw Forall_forall. intros x Hx He. apply (Hd (addr x)); [by apply list_elem_of_fmap_2|rw He; left]. }
  cbn. f_equal. f_equal. rw lookup_app_r; [|lia]. replace (S (length pre) - length pre) with 1 by lia. by destruct rest.
Qed.

(** A child that has finished or was marked is deleted; the others stay. *)
Lemma DeleteChild_unseen s pre t rest : behaved → well_marked s → children (this s) = pre ++ t :: rest → live t = false →
  ∃ s', DeleteChild env (addr t) s = Some (s', Some ()) ∧ children (this s') = pre ++ rest ∧ unseen (world s) (world s') ∧
    next_at s' = next_at s ∧ well_marked s'.
Proof.
  intros Hb (Hm & Hn & Hnew) Hch Hl. rw Hch in Hm Hn. unfold DeleteChild, update. rw Hch (at_iter_next pre t rest Hn). cbn [mbind option_bind]. rw Hl.
  assert (∃ t' u', (if removing (info t) then '(t, u) ← Done env t (world s); Some (set_info (set_removing false) t, u) else Some (t, world s)) =
    Some (t', u') ∧ unseen (world s) u') as (t' & u' & -> & Hu').
  { destruct (removing (info t)) eqn:Hr; [|by eexists _, _].
    apply Forall_app in Hm as [_ [[_ Hmk] _]%Forall_cons]. rw Hr andb_true_r in Hmk.
    destruct (Done_unseen t Hb Hmk (world s)) as (t' & u' & -> & Hu'). by eexists _, _. }
  cbn [mbind option_bind fmap option_fmap option_map]. eexists. split; [reflexivity|]. cbn [this children set_children world next_at].
  assert (erase (addr t) (pre ++ t :: rest) = pre ++ rest) as ->.
  { unfold erase. rw filter_app filter_cons_False; [|by intros ?]. rw fmap_app /= in Hn. apply NoDup_app in Hn as (_ & Hd & [Hr _]%NoDup_cons).
    f_equal; apply filter_all_true; apply Forall_forall; intros x Hx He.
    - apply (Hd (addr x)); [by apply list_elem_of_fmap_2|rw He; left].
    - apply Hr. rw -He. by apply list_elem_of_fmap_2. }
  split; [done|]. split; [etrans; [exact Hu'|by apply destroy_unseen]|]. split; [done|]. split; [|split; [|done]]; cbn [this children set_children next_at].
  - apply Forall_app in Hm as [H1 [_ H2]%Forall_cons]. by apply Forall_app.
  - rw !fmap_app /= in Hn |- *. by apply NoDup_app in Hn as (? & Hd & [_ ?]%NoDup_cons); apply NoDup_app; split_and!; try done; intros x Hx Hx'; apply (Hd x Hx); right.
Qed.
(** What the rest of a pass over the children [rest] does. *)
Record passed (inp : input) (rest : list tree) (s s' : State U) (visited : list tree) (added : list nat) : Prop := {
  ps_seen : seen (world s') = seen (world s) ++ ((., inp) <$> omap (target inp) visited);
  ps_order : sublist (addr <$> visited) ((addr <$> rest) ++ added);
  ps_added : NoDup added ∧ Forall (λ a, next_at s ≤ a) added;
  ps_wf : well_marked s';
  ps_next : next_at s ≤ next_at s';
  ps_old : ∀ a, a ∈ addr <$> children (this s') → a ∈ addr <$> children (this s) ∨ next_at s ≤ a;
  ps_live : ∀ t, t ∈ rest → (∃ t', t' ∈ visited ∧ kept t t') ∨ addr t ∉ addr <$> children (this s');
  ps_dead : ∀ t, t ∈ rest → live t = false → (addr t ∉ addr <$> visited) ∧ addr t ∉ addr <$> children (this s')
}.

Lemma passed_end inp s s' visited : well_marked s → grown s s' → (∀ t, t ∈ visited → live t = true) →
  seen (world s') = seen (world s) ++ ((., inp) <$> omap (target inp) visited) → passed inp visited s s' visited [].
Proof.
  intros Hw (old & new & Hch & Hold & Hbud & Hnx & Hnew & Hw') Hlive Hs. split; try done.
  - by rw app_nil_r.
  - split; constructor.
  - intros a Ha. rw Hch fmap_app elem_of_app in Ha. destruct Ha as [Ha|(t & -> & Ht)%list_elem_of_fmap]; [left|right; by eapply Forall_forall in Hnew].
    assert (addr <$> old = addr <$> children (this s)) as <-; [|done]. clear -Hold. induction Hold as [|x y l k [] _ IH]; [done|]. cbn. by f_equal.
  - intros t Ht. left. by exists t.
  - intros t Ht Hd. by rw (Hlive t Ht) in Hd.
Qed.

Lemma Forall2_addr l k : Forall2 kept l k → addr <$> k = addr <$> l.
Proof. induction 1 as [|x y l k [] _ IH]; [done|]. cbn. by f_equal. Qed.

(** A live child, and then the rest, with what was added. *)
Lemma passed_live inp cur rest rest' new s s1 s' visited added :
  well_marked s → (∃ pre, children (this s) = pre ++ cur :: rest) → live cur = true → grown s s1 →
  seen (world s1) = seen (world s) ++ ((., inp) <$> omap (target inp) [cur]) →
  Forall2 kept rest rest' → Forall (λ t, next_at s ≤ addr t) new → NoDup (addr <$> new) → Forall (λ t, addr t < next_at s1) new →
  passed inp (rest' ++ new) s1 s' visited added → passed inp (cur :: rest) s s' (cur :: visited) ((addr <$> new) ++ added).
Proof.
  intros Hw (pre & Hch) Hl (old & nw & Hch1 & Hold & _ & Hnx & Hnw & _) Hs1 Hr Hnew Hnd Hlt [Hs Ho [Ha1 Ha2] Hw' Hn Hch' Hlive Hdead].
  assert (∀ a, a ∈ addr <$> children (this s1) → a ∈ addr <$> children (this s) ∨ next_at s ≤ a) as Hold'.
  { intros a Ha. rw Hch1 fmap_app elem_of_app (Forall2_addr _ _ Hold) in Ha. destruct Ha as [Ha|(t & -> & Ht)%list_elem_of_fmap]; [by left|right].
    by eapply Forall_forall in Hnw. }
  split; try done.
  - rw Hs Hs1 -app_assoc -fmap_app. do 2 f_equal. cbn. by destruct (target inp cur).
  - cbn. apply sublist_skip. rw fmap_app (Forall2_addr _ _ Hr) in Ho. by rw app_assoc.
  - split.
    + apply NoDup_app. split; [done|]. split; [|done]. intros a (t & -> & Ht)%list_elem_of_fmap Ha.
      eapply Forall_forall in Hlt; [|done]. eapply Forall_forall in Ha2; [|done]. simpl in *. lia.
    + apply Forall_app. split; [by apply Forall_fmap|]. eapply Forall_impl; [exact Ha2|]. simpl. intros. lia.
  - lia.
  - intros a Ha. destruct (Hch' a Ha) as [Ha1'|]; [by apply Hold'|right; lia].
  - intros t [->|Ht]%elem_of_cons; [left; exists cur; split; [left|done]|].
    apply list_elem_of_lookup in Ht as [i Hi]. destruct (Forall2_lookup_l _ _ _ _ _ Hr Hi) as (t' & Hi' & Hk).
    destruct (Hlive t') as [(t2 & Ht2 & Hk2)|Hg]; [apply elem_of_app; left; by eapply list_elem_of_lookup_2| |].
    + left. exists t2. split; [by right|by etrans].
    + right. by rw (kt_addr _ _ Hk) in Hg.
  - intros t [->|Ht]%elem_of_cons Hd; [by rw Hl in Hd|].
    assert (addr t ≠ addr cur) as Hne.
    { destruct Hw as (_ & Hnd' & _). rw Hch fmap_app /= in Hnd'. apply NoDup_app in Hnd' as (_ & _ & [Hc _]%NoDup_cons).
      intros He. apply Hc. rw -He. by apply list_elem_of_fmap_2. }
    apply list_elem_of_lookup in Ht as [i Hi]. destruct (Forall2_lookup_l _ _ _ _ _ Hr Hi) as (t' & Hi' & Hk).
    destruct (Hdead t') as [H1 H2]; [apply elem_of_app; left; by eapply list_elem_of_lookup_2| |].
    + destruct (live t') eqn:Hlt'; [|done]. pose proof (kt_live _ _ Hk Hlt'). congruence.
    + rw (kt_addr _ _ Hk) in H1 H2. split; [|done]. cbn. by rw elem_of_cons; intros [?|?].
Qed.

(** A dead child, and then the rest. *)
Lemma passed_dead inp cur pre rest s s1 s' visited added :
  well_marked s → children (this s) = pre ++ cur :: rest → live cur = false → children (this s1) = pre ++ rest →
  unseen (world s) (world s1) → next_at s1 = next_at s →
  passed inp rest s1 s' visited added → passed inp (cur :: rest) s s' visited added.
Proof.
  intros (Hm & Hnd & _) Hch Hl Hch1 [Hu _] Hnx [Hs Ho Ha Hw' Hn Hch' Hlive Hdead]. rw Hnx in Ha Hn Hch'. rw Hch in Hm Hnd.
  assert (addr cur < next_at s) as Hlt by (by apply Forall_app in Hm as [_ [[? _] _]%Forall_cons]).
  assert (addr cur ∉ addr <$> pre ++ rest) as Hni.
  { rw fmap_app /= in Hnd. apply NoDup_app in Hnd as (_ & Hd & [Hc _]%NoDup_cons). rw fmap_app elem_of_app. intros [H1|H1]; [|done].
    apply (Hd _ H1). left. }
  assert ((addr cur ∉ addr <$> visited) ∧ addr cur ∉ addr <$> children (this s')) as Hcur.
  { split.
    - intros Hv. destruct Ha as [_ Ha]. eapply elem_of_sublist in Hv; [|exact Ho]. apply elem_of_app in Hv as [Hv|Hv].
      + apply Hni. rw fmap_app elem_of_app. by right.
      + eapply Forall_forall in Ha; [|done]. simpl in Ha. lia.
    - intros Hv. destruct (Hch' _ Hv) as [Hv'|Hv']; [|lia]. by rw Hch1 in Hv'. }
  split; try done.
  - by rw Hs Hu.
  - cbn. by apply sublist_cons.
  - intros a Ha'. destruct (Hch' a Ha') as [Hv|Hv]; [left|by right]. rw Hch1 in Hv. rw Hch. rw !fmap_app /= in Hv |- *.
    rw !elem_of_app in Hv |- *. rw elem_of_cons. tauto.
  - intros t [->|Ht]%elem_of_cons; [right; apply Hcur|by apply Hlive].
  - intros t [->|Ht]%elem_of_cons Hd; [done|by apply Hdead].
Qed.
Lemma forward_loop_once : behaved → ∀ fuel inp s pre rest, well_marked s → children (this s) = pre ++ rest →
  length rest + budget (world s) ≤ fuel →
  ∃ s' visited added, forward_loop env fuel inp (addr <$> head rest) s = Some (s', Some ()) ∧ passed inp rest s s' visited added.
Proof.
  intros Hb. induction fuel as [|fuel IH]; intros inp s pre rest Hw Hch Hf; (destruct rest as [|cur rest];
    [exists s, [], []; split; [done|]; apply passed_end; [done|by apply grown_refl|by intros t ?%elem_of_nil|by rw app_nil_r]|]);
    [simpl in Hf; lia|].
  cbn [head fmap option_fmap option_map forward_loop]. rw bind_gets Hch at_iter_next; [|rw -Hch; apply Hw]. rw bind_lift.
  destruct (live cur) eqn:Hl.
  - destruct (Next_seen cur inp s Hb Hw) as (s1 & Hr & Hs1 & Hg). unfold mbind at 1, M_bind at 1. rw Hr.
    assert (seen (world s1) = seen (world s) ++ ((., inp) <$> omap (target inp) [cur])) as Hs1' by (rw Hs1; f_equal; cbn; by destruct (target inp cur)).
    pose proof Hg as (old & new & Hch1 & Hold & Hbud & Hnx & Hnew & Hw1). rw Hch in Hold.
    apply Forall2_app_inv_l in Hold as (pre' & rest0 & Hpre & (cur' & rest' & Hcur & Hrest & ->)%Forall2_cons_inv_l & ->).
    destruct rest as [|c2 rest].
    { apply Forall2_nil_inv_l in Hrest as ->. destruct fuel; cbn [head fmap option_fmap option_map forward_loop];
        (exists s1, [cur], []; split; [done|]; apply passed_end; [done|done|by intros t ->%list_elem_of_singleton|done]). }
    assert (addr <$> head (c2 :: rest) = addr <$> head (rest' ++ new)) as ->.
    { apply Forall2_cons_inv_l in Hrest as (c2' & r2 & Hc2 & _ & ->). cbn. by rw (kt_addr _ _ Hc2). }
    destruct (IH inp s1 (pre' ++ [cur']) (rest' ++ new) Hw1) as (s' & visited & added & Hr' & Hp);
      [by rw Hch1 -!app_assoc|pose proof (Forall2_length _ _ _ Hrest); rw length_app; simpl in *; lia|].
    exists s', (cur :: visited), ((addr <$> new) ++ added). split; [exact Hr'|].
    destruct Hw1 as (Hm1 & Hnd1 & _). rw Hch1 in Hm1 Hnd1. rw fmap_app in Hnd1. apply NoDup_app in Hnd1 as (_ & _ & Hnd1). apply Forall_app in Hm1 as [_ Hm1].
    eapply passed_live; [done|by exists pre|done|done|done|done|done|done| |done]. eapply Forall_impl; [exact Hm1|]. by intros t [? _].
  - destruct (DeleteChild_unseen s pre cur rest Hb Hw Hch Hl) as (s1 & Hr & Hch1 & Hu & Hnx & Hw1). unfold mbind at 1, M_bind at 1. rw Hr.
    destruct (IH inp s1 pre rest Hw1 Hch1) as (s' & visited & added & Hr' & Hp); [destruct Hu; simpl in Hf; lia|].
    exists s', visited, added. split; [exact Hr'|]. by eapply passed_dead.
Qed.

(** C26. Input that is passed on reaches the children once: whatever analyzers do with
    it meanwhile (mark each other, add others, up to a bound), the pass ends; each
    child that was live when it began gets the input, in order, at most once, unless
    it was marked before its turn, and then it is deleted; one that had finished or
    was marked gets nothing and is deleted.  Added ones come after all others. *)
Theorem Forward_reaches_children fuel inp s : behaved → well_marked s → output_handler (info (this s)) = false →
  length (children (this s)) + budget (world s) ≤ fuel →
  ∃ s' visited added, Forward env fuel inp s = Some (s', Some ()) ∧
    seen (world s') = seen (world s) ++ ((., inp) <$> omap (target inp) visited) ∧
    sublist (addr <$> visited) ((addr <$> children (this s)) ++ added) ∧ NoDup (addr <$> visited) ∧
    (∀ t, t ∈ children (this s) → if live t then (∃ t', t' ∈ visited ∧ kept t t') ∨ addr t ∉ addr <$> children (this s')
                                  else (addr t ∉ addr <$> visited) ∧ addr t ∉ addr <$> children (this s')).
Proof.
  intros Hb Hw Ho Hf. pose proof Hw as (Hm & Hnd & Hnew).
  assert (∀ s : State U, new_children (this s) = [] → AppendNewChildren s = Some (s, Some ())) as Happ.
  { intros [[i ch nc os rs] idc nx u]. cbn. intros ->. unfold AppendNewChildren, upd, modify, set_children, set_new_children. cbn. by rw app_nil_r. }
  destruct (forward_loop_once Hb fuel inp s [] (children (this s)) Hw eq_refl Hf) as (s' & visited & added & Hr & [Hs Hord [Ha1 Ha2] Hw' _ _ Hlive Hdead]).
  exists s', visited, added. split; [|split; [done|split; [done|split]]].
  - unfold Forward. rw bind_gets Ho. cbn [andb when]. rw bind_mret. unfold mbind at 1, M_bind at 1. rw Happ // bind_gets.
    unfold mbind at 1, M_bind at 1. rw Hr. apply Happ, Hw'.
  - eapply sublist_NoDup; [|exact Hord]. apply NoDup_app. split; [done|]. split; [|done].
    intros a (t & -> & Ht)%list_elem_of_fmap Ha. eapply Forall_forall in Hm; [|done]. eapply Forall_forall in Ha2; [|done]. simpl in *. lia.
  - intros t Ht. destruct (live t) eqn:Hl; [by apply Hlive|by apply Hdead].
Qed.
End ends.

(** ** What goes wrong *)

Section errors.
Context {U : Type} (env : Env U).

(** After the roles are exchanged, a support analyzer is in the chain of the other
    direction, but still says that it belongs to its own, so that it can no longer be
    removed: [RemoveSupportAnalyzer] looks for it in the wrong chain and does nothing. *)
Theorem flipped_supporter_stays p t s : t ∈ orig_supporters p → is_orig (info t) = true →
  NoDup (addr <$> orig_supporters p ++ resp_supporters p) → this s = FlipRoles p →
  FlipRoles t ∈ resp_supporters (this s) ∧ is_orig (info (FlipRoles t)) = true ∧
  RemoveSupportAnalyzer env (FlipRoles t) s = Some (s, Some ()).
Proof.
  intros Ht Ho Hn Hs. assert (∀ t, info (FlipRoles t) = info t) as Hi by by intros [].
  assert (orig_supporters (this s) = map FlipRoles (resp_supporters p) ∧ resp_supporters (this s) = map FlipRoles (orig_supporters p)) as [Hor Hre].
  { rw Hs. by destruct p. }
  split; [rw Hre; by apply list_elem_of_fmap_2|]. rw Hi. split; [done|].
  unfold RemoveSupportAnalyzer. rw Hi Ho bind_gets. cbn [supporters]. rw Hor.
  assert (list_find (λ t', addr t' = addr (FlipRoles t)) (map FlipRoles (resp_supporters p)) = None) as ->; [|done].
  apply list_find_None. rw Forall_forall. intros x (y & -> & Hy)%list_elem_of_fmap. unfold addr. rw !Hi. intros He.
  rw fmap_app in Hn. apply NoDup_app in Hn as (_ & Hd & _). apply (Hd (addr t)); [by apply list_elem_of_fmap_2|].
  rw (_ : addr t = addr y); [by apply list_elem_of_fmap_2|done].
Qed.

Definition find_list (p : Info → bool) : list tree → option Info :=
  fix go l := match l with [] => None | c :: l => match find_child p c with Some x => Some x | None => go l end end.

Lemma find_child_eq p t : find_child p t = if p (info t) then Some (info t) else find_list p (children t).
Proof. by destruct t. Qed.
Lemma find_list_app p l1 l2 x : find_list p l1 = Some x → find_list p (l1 ++ l2) = Some x.
Proof. induction l1 as [|c l1 IH]; [done|]. cbn. by destruct (find_child p c). Qed.
Lemma find_list_finds p l t : t ∈ l → p (info t) = true → is_Some (find_list p l).
Proof.
  induction l as [|c l IH]; [by intros ?%elem_of_nil|]. intros Ht Hp. cbn. destruct (find_child p c) eqn:Hc; [done|].
  apply elem_of_cons in Ht as [->|Ht]; [|by apply IH]. by rw find_child_eq Hp in Hc.
Qed.
Lemma find_list_infos p l x : Forall (λ t, ∀ x, find_child p t = Some x → x ∈ infos t) l → find_list p l = Some x → x ∈ concat (map infos l).
Proof.
  induction 1 as [|t l Ht _ IH]; [done|]. cbn. rw elem_of_app. destruct (find_child p t) eqn:Hf; [|by right; apply IH].
  intros [= ->]. left. by apply Ht.
Qed.
Lemma find_child_infos p t : ∀ x, find_child p t = Some x → x ∈ infos t.
Proof.
  induction t as [i ch nc os rs Hch _ _ _] using tree_nested. intros x. rw find_child_eq. cbn [info children infos].
  destruct (p i); [intros [= ->]; left|]. intros Hx. right. apply elem_of_app. left. by apply (find_list_infos p).
Qed.

Lemma restore_info t : info (restore t) = mkInfo (at_ (info t)) (tag (info t)) (id (info t)) (is_orig (info t)) false (protocol_confirmed (info t))
  (skip (info t)) (finished (info t)) (removing (info t)) false (timers_canceled (info t)) [].
Proof. by destruct t. Qed.
Lemma restore_children t : children (restore t) = map restore (children t).
Proof. by destruct t. Qed.

(** A restored analyzer keeps its id, which the other process can give again: if it
    is the next one there, an analyzer that is added then has the same, and looking
    for it by its id finds another one. *)
Theorem restored_ids_collide t c tg s : archived None t = Some (this s) → c ∈ children t → id (info c) = uint32 (id_counter s + 1) →
  HasChildAnalyzer tg (this s) = false → Forall (λ i, at_ i < next_at s) (infos (this s)) → (∀ a s, Init env a s = Some (s, Some ())) →
  ∃ s', AddChildAnalyzer_tag env tg s = Some (s', Some (Some (next_at s))) ∧
    (∃ n, last (children (this s')) = Some n ∧ addr n = next_at s ∧ id (info n) = id (info c)) ∧
    (∃ a, FindChild (id (info c)) (this s') = Some a ∧ a < next_at s).
Proof.
  intros Har Hc Hid Htag Hlt Hinit.
  assert (this s = restore t) as Hs by (unfold archived in Har; by destruct (serializable None t); [injection Har|]).
  set (n := Analyzer_new (next_at s) tg (uint32 (id_counter s + 1))).
  exists (mkState (set_children (children (this s) ++ [n]) (this s)) (uint32 (id_counter s + 1)) (S (next_at s)) (world s)).
  split; [|split].
  - unfold AddChildAnalyzer_tag. rw bind_gets Htag. unfold new_analyzer. unfold mbind at 1, M_bind at 1. unfold get, mbind at 1, M_bind at 1.
    rw bind_modify. unfold mret at 1, M_ret. fold n. unfold AddChildAnalyzer, mbind at 1, M_bind at 1. rw bind_gets. cbn [this].
    change (tag (info n)) with tg. rw Htag. unfold upd. rw bind_modify. cbn [when]. unfold call at 1, mbind, M_bind. by rw Hinit.
  - exists n. cbn. by rw last_snoc Hid.
  - unfold FindChild. set (p := λ x, bool_decide (id x = id (info c))). rw find_child_eq. cbn [this set_children info children].
    destruct (p (info (this s))) eqn:Hp.
    { exists (at_ (info (this s))). split; [done|]. destruct (this s). by apply Forall_cons in Hlt as [? _]. }
    destruct (find_list_finds p (children (this s)) (restore c)) as [x Hx].
    { rw Hs restore_children. by apply list_elem_of_fmap_2. }
    { unfold p. rw restore_info. by apply bool_decide_eq_true. }
    exists (at_ x). rw (find_list_app _ _ _ _ Hx). split; [done|]. assert (x ∈ infos (this s)) as Hin.
    { apply (find_child_infos p). by rw find_child_eq Hp. }
    by eapply Forall_forall in Hin; [|exact Hlt].
Qed.
End errors.

(** ** Concrete trees *)

(** Analyzers that write down what they see; number 1 marks number 2. *)
Definition recorder : Env (list (nat * input)) := mkEnv
  (λ c inp, modify (λ s, mkState (this s) (id_counter s) (next_at s) (world s ++ [(c, inp)]));;
     when (c =? 1) (RemoveChildAnalyzer 2))
  (λ _ _, mret ()) (λ _, mret ()) (λ _ _ u, u) (λ _ u, u) (λ _ u, u) (λ _, mret ()).

Lemma mark_kept p l : Forall2 kept l (mark_first p l).
Proof.
  induction l as [|c l IH]; [constructor|]. cbn. destruct (p (info c) && live c) eqn:Hc; constructor; try done.
  apply andb_true_iff in Hc as [_ Hl]. destruct c as [i ch nc os rs]. unfold live in *. cbn in *. apply negb_true_iff, orb_false_iff in Hl as [Hf Hr].
  split; [done|done| |].
  - intros _. unfold live. cbn. by rw Hf Hr.
  - intros _. cbn. by rw Hf.
Qed.

Lemma kept_well_marked (s : State (list (nat * input))) l : well_marked s → Forall2 kept (children (this s)) l →
  ∀ u : list (nat * input), well_marked (mkState (set_children l (this s)) (id_counter s) (next_at s) u).
Proof.
  intros (Hm & Hn & Hnew) Hk u. split; [|split; [|done]]; cbn [this children set_children next_at].
  - clear Hn Hnew. induction Hk as [|x y l k [] _ IH]; [done|]. apply Forall_cons in Hm as [[? ?] Hm]. constructor; [|by apply IH]. split; [congruence|auto].
  - by rw (Forall2_addr _ _ Hk).
Qed.

Lemma recorder_behaved : behaved recorder (λ u, u) (λ _, 0).
Proof.
  split; [|by intros u []]. intros c inp s Hw. destruct s as [[i ch nc os rs] idc nx u]. pose proof Hw as (_ & _ & Hnc). cbn in Hnc. subst nc.
  set (l := if c =? 1 then mark_first (λ i, bool_decide (at_ i = 2)) ch else ch).
  assert (Forall2 kept ch l) as Hk by (unfold l; destruct (c =? 1); [apply mark_kept|by apply Forall_Forall2_diag, Forall_true]).
  exists (mkState (Node i l [] os rs) idc nx (u ++ [(c, inp)])), (Some ()). split; [|split; [done|]].
  - unfold l. cbn. unfold when. by destruct (c =? 1).
  - exists l, []. cbn. rw app_nil_r. split; [done|]. split; [done|]. split; [done|]. split; [done|]. split; [constructor|].
    exact (kept_well_marked _ l Hw Hk (u ++ [(c, inp)])).
Qed.

Definition leaf (a : nat) (tg : SB.Tag) : tree := Analyzer_new a tg (Z.of_nat a).
Definition forwarding : State (list (nat * input)) :=
  mkState (Node (Info_new 0 SB.T_UDP 1) [leaf 1 SB.T_PIA_UDP; leaf 2 SB.T_DNS; leaf 3 SB.T_ConnSize] [] [] []) 4 4 [].
Definition some_data : input := Stream [71; 69]%Z true.

Lemma forwarding_well_marked : well_marked forwarding.
Proof. split; [|split; [|done]]; cbn; [repeat (apply Forall_cons; split; [split; [cbn; lia|done]|]); by apply Forall_nil|].
  repeat (apply NoDup_cons; split; [set_solver|]). apply NoDup_nil_2. Qed.

Lemma Forward_reaches_children_witness : ∃ s' visited added, Forward recorder 3 some_data forwarding = Some (s', Some ()) ∧
  world s' = ((., some_data) <$> omap (target some_data) visited) ∧
  sublist (addr <$> visited) ((addr <$> children (this forwarding)) ++ added) ∧ NoDup (addr <$> visited).
Proof.
  destruct (Forward_reaches_children recorder (λ u, u) (λ _, 0) 3 some_data forwarding recorder_behaved forwarding_well_marked eq_refl ltac:(cbn; lia))
    as (s' & v & a & Hr & Hs & Ho & Hn & _). by exists s', v, a.
Defined.

(** What the recorder sees in this pass: the marked one is left out, and deleted. *)
Example forwarding_seen :
  (λ '(s, _), (world s, addr <$> children (this s))) <$> Forward recorder 3 some_data forwarding = Some ([(1, some_data); (3, some_data)], [1; 3]).
Proof. reflexivity. Qed.

Definition sample : tree := Node (Info_new 0 SB.T_TCP 1) [leaf 1 SB.T_PIA_TCP] [] [Node (mkInfo 2 SB.T_ContentLine 2 true false false false false false false false [7]) [] [] [] []] [].

Lemma Done_reaches_all_witness : ∃ t' u' calls, Done recorder sample [] = Some (t', u') ∧ u' = foldl (perform recorder) [] calls ∧
  mjoin (ended <$> calls) ≡ₚ at_ <$> infos sample.
Proof.
  destruct (Done_reaches_all recorder sample []) as (t' & u' & calls & Hr & Hu & He & _); [repeat (constructor; [done|]); constructor|].
  by exists t', u', calls.
Defined.


Lemma flipped_supporter_stays_witness : let s := mkState (FlipRoles sample) 3 3 [] in
  RemoveSupportAnalyzer recorder (FlipRoles (Node (mkInfo 2 SB.T_ContentLine 2 true false false false false false false false [7]) [] [] [] [])) s = Some (s, Some ()).
Proof.
  destruct (flipped_supporter_stays recorder sample (Node (mkInfo 2 SB.T_ContentLine 2 true false false false false false false false [7]) [] [] [] [])
    (mkState (FlipRoles sample) 3 3 [])) as (_ & _ & Hr); [left|done|repeat (constructor; [set_solver|]); constructor|done|exact Hr].
Defined.

Lemma restored_ids_collide_witness :
  ∃ s', AddChildAnalyzer_tag recorder SB.T_DNS (mkState (restore (Node (Info_new 0 SB.T_UDP 1) [leaf 2 SB.T_PIA_UDP] [] [] [])) 1 3 []) =
    Some (s', Some (Some 3)) ∧ ∃ a, FindChild 2 (this s') = Some a ∧ a < 3.
Proof.
  destruct (restored_ids_collide recorder (Node (Info_new 0 SB.T_UDP 1) [leaf 2 SB.T_PIA_UDP] [] [] []) (leaf 2 SB.T_PIA_UDP) SB.T_DNS
    (mkState (restore (Node (Info_new 0 SB.T_UDP 1) [leaf 2 SB.T_PIA_UDP] [] [] [])) 1 3 [])) as (s' & Hr & _ & Hf);
    [done|left|done|done|repeat (constructor; [cbn; lia|]); constructor|done|by exists s'].
Defined.
End AT.
