(* ===== verification/Pia.v ===== *)
(** Pia: the analyzer that detects protocols, PIA.cc / PIA.h, in the tree of a UDP
    connection.

    It keeps the packets from the start of the connection, and when a signature
    matches, adds the analyzer of the protocol to its parent and gives it what it
    has kept.  The signatures are the parameter [rule]; what the other analyzers get
    is written down, and they do nothing to the tree. *)
From S2P Require Import Prelude Flow IP Sdmbn Tree.

Module PI.
Import AT.

(** ** Data *)

Inductive BufferState := INIT | BUFFERING | MATCHING_ONLY | SKIPPING.

#[global] Instance BufferState_eq_dec : EqDecision BufferState.
Proof. solve_decision. Defined.

(** A block without data stands for bytes that are missing. *)
Record DataBlock := mkBlock { b_data : option bytes; b_is_orig : bool; b_len : Z; b_seq : Z }.

Record Buffer := mkBuffer { blocks : list DataBlock; size : Z; state : BufferState }.

Definition Buffer_new : Buffer := mkBuffer [] 0 INIT.
Definition set_state (v : BufferState) (b : Buffer) : Buffer := mkBuffer (blocks b) (size b) v.
Definition ClearBuffer (b : Buffer) : Buffer := mkBuffer [] 0 (state b).

Definition AddToBuffer (sq len : Z) (data : option bytes) (is_orig : bool) (b : Buffer) : Buffer :=
  mkBuffer (blocks b ++ [mkBlock data is_orig len sq]) (int32 (size b + len)) (state b).

Record PIA := mkPIA { pkt_buffer : Buffer; current_packet : option DataBlock }.
Definition set_pkt_buffer (v : Buffer) (p : PIA) : PIA := mkPIA v (current_packet p).
Definition set_current_packet (v : option DataBlock) (p : PIA) : PIA := mkPIA (pkt_buffer p) v.
Definition PIA_new : PIA := mkPIA Buffer_new None.

(** What is left of it in an archive: the size and the state of the buffer.  The
    current packet, which the constructor does not initialize and every delivery sets
    before it is used, is none here. *)
Definition restore_PIA (p : PIA) : PIA := mkPIA (mkBuffer [] (size (pkt_buffer p)) (state (pkt_buffer p))) None.

Section pia.
Context {MS : Type}.

(** The analyzers that the signatures call for when they see some data. *)
Variable rule : MS → bytes → bool → MS * list SB.Tag.
Variables (dpd_buffer_size : Z) (dpd_match_only_beginning : bool).
(** The address of the analyzer that detects protocols. *)
Variable at_pia : nat.

Record World := mkWorld { pia : PIA; matcher : MS; got : list (nat * input) }.

Definition on_pia (f : PIA → PIA) : M (State World) () :=
  modify (λ s, AT.mkState (this s) (id_counter s) (next_at s) (mkWorld (f (pia (world s))) (matcher (world s)) (got (world s)))).
Definition gets_pia {X} (f : PIA → X) : M (State World) X := gets (λ s, f (pia (world s))).

(** [DeliverPacket] of another analyzer. *)
Definition give (a : nat) (inp : input) : M (State World) () :=
  modify (λ s, AT.mkState (this s) (id_counter s) (next_at s) (mkWorld (pia (world s)) (matcher (world s)) (got (world s) ++ [(a, inp)]))).

(** ** Detection *)

Definition replayed (b : DataBlock) : input := Packet (b_len b) (default [] (b_data b)) (b_is_orig b) (-1) None 0.

Fixpoint replay (a : nat) (l : list DataBlock) : M (State World) () :=
  match l with
  | [] => mret ()
  | b :: l => give a (replayed b);; replay a l
  end.
Definition ReplayPacketBuffer (a : nat) : M (State World) () :=
  l ← gets_pia (λ p, blocks (pkt_buffer p)); replay a l.

(** [Init] of the new analyzer; analyzers are taken to have nothing to do there. *)
Definition tree_env (deliver : nat → input → M (State World) ()) : Env World :=
  mkEnv deliver (λ _ _, mret ()) (λ _, mret ()) (λ _ _ u, u) (λ _ u, u) (λ _ u, u) (λ _, mret ()).

(** [PIA_UDP::ActivateAnalyzer] *)
Definition ActivateAnalyzer (tg : SB.Tag) : M (State World) () :=
  st ← gets_pia (λ p, state (pkt_buffer p));
  if bool_decide (st = MATCHING_ONLY) then mret ()
  else
    has ← gets (λ s, HasChildAnalyzer tg (this s));
    if (has : bool) then mret ()
    else
      a ← AddChildAnalyzer_tag (tree_env give) tg;
      a ← lift a;
      ReplayPacketBuffer a.

Fixpoint activate_all (l : list SB.Tag) : M (State World) () :=
  match l with [] => mret () | tg :: l => ActivateAnalyzer tg;; activate_all l end.

Definition DoMatch (data : bytes) (is_orig : bool) : M (State World) () :=
  tags ← gets (λ s, (rule (matcher (world s)) data is_orig).2);
  modify (λ s, AT.mkState (this s) (id_counter s) (next_at s)
    (mkWorld (pia (world s)) (rule (matcher (world s)) data is_orig).1 (got (world s))));;
  activate_all tags.

(** The state of the buffer after a packet. *)
Definition full_state : BufferState := if dpd_match_only_beginning then SKIPPING else MATCHING_ONLY.

Definition PIA_DeliverPacket (len : Z) (data : bytes) (is_orig : bool) (sq : Z) : M (State World) () :=
  st ← gets_pia (λ p, state (pkt_buffer p));
  if bool_decide (st = SKIPPING) then stop
  else
    data ← lift (IP.slice data 0 len);
    on_pia (set_current_packet (Some (mkBlock (Some data) is_orig len sq)));;
    let new_state := if bool_decide (st = INIT) then BUFFERING else st in
    new_state ← (if (bool_decide (st = BUFFERING) || bool_decide (new_state = BUFFERING)) && (0 <? len)%Z then
        on_pia (λ p, set_pkt_buffer (AddToBuffer sq len (Some data) is_orig (pkt_buffer p)) p);;
        sz ← gets_pia (λ p, size (pkt_buffer p));
        mret (if (dpd_buffer_size <? sz)%Z then full_state else new_state)
      else mret new_state);
    DoMatch data is_orig;;
    on_pia (λ p, set_current_packet None (set_pkt_buffer (set_state new_state (pkt_buffer p)) p)).

(** [PIA_UDP] and the others. *)
Definition deliver (c : nat) (inp : input) : M (State World) () :=
  if c =? at_pia then
    match inp with
    | Packet len data is_orig sq _ _ => PIA_DeliverPacket len data is_orig sq
    | _ => mret ()
    end
  else give c inp.
Definition udp_env : Env World := tree_env deliver.

(** ** Packets of a connection *)

(** A packet with its payload; [pk_rest] is what else is passed. *)
Record packet := mkPacket { pk_data : bytes; pk_orig : bool; pk_seq : Z; pk_ip : option IP.IP_Hdr; pk_caplen : Z }.
Definition as_input (p : packet) : input :=
  Packet (Z.of_nat (length (pk_data p))) (pk_data p) (pk_orig p) (pk_seq p) (pk_ip p) (pk_caplen p).

(** [room] bounds how many analyzers one packet adds. *)
Fixpoint forward_all (room : nat) (l : list packet) : M (State World) () :=
  match l with
  | [] => mret ()
  | p :: l => kids ← gets (λ s, children (this s)); Forward udp_env (length kids + room) (as_input p);; forward_all room l
  end.

(** ** A pass over the children *)

(** An analyzer that takes its input directly. *)
Definition plain (t : tree) : Prop := live t = true ∧ skip (info t) = false ∧ orig_supporters t = [] ∧ resp_supporters t = [].

Lemma Next_plain t inp s : plain t → Next udp_env t inp s = call (deliver (addr t) inp) s.
Proof. destruct t as [i ch nc os rs]. unfold plain. cbn. intros (_ & -> & -> & ->). by destruct (of_orig inp). Qed.

(** The input was given to the analyzers [l]. *)
Definition gave (inp : input) (l : list tree) (s : State World) : State World :=
  AT.mkState (this s) (id_counter s) (next_at s)
    (mkWorld (pia (world s)) (matcher (world s)) (got (world s) ++ ((λ t, (addr t, inp)) <$> l))).

Lemma loop_prefix fuel inp l r : ∀ done s, children (this s) = done ++ l ++ r → NoDup (addr <$> children (this s)) →
  Forall plain l → at_pia ∉ addr <$> l →
  forward_loop udp_env (length l + fuel) inp (addr <$> head (l ++ r)) s = forward_loop udp_env fuel inp (addr <$> head r) (gave inp l s).
Proof.
  induction l as [|t l IH]; intros done s Hch Hn Hp Ha; [destruct s as [? ? ? []]; unfold gave; cbn; by rw app_nil_r|].
  apply Forall_cons in Hp as [Ht Hp]. cbn [fmap list_fmap] in Ha. apply not_elem_of_cons in Ha as [Hne Ha].
  cbn [length Nat.add app head fmap option_fmap option_map forward_loop]. rw bind_gets Hch /= at_iter_next; [|by rw Hch in Hn]. rw bind_lift.
  rw (proj1 Ht). unfold mbind at 1, M_bind at 1. rw Next_plain //. unfold call, deliver. rw (proj2 (Nat.eqb_neq (addr t) at_pia)) //. cbn.
  rw (IH (done ++ [t])); [|cbn; by rw Hch -!app_assoc|done|done|done]. f_equal. unfold gave. cbn. by rw -app_assoc.
Qed.

(** ** The analyzer that detects protocols *)

Definition quiet (m : MS) (p : packet) : Prop := (rule m (pk_data p) (pk_orig p)).2 = [].
Definition matched (m : MS) (p : packet) : MS := (rule m (pk_data p) (pk_orig p)).1.

Definition buffered (p : packet) : list DataBlock :=
  if decide (pk_data p = []) then [] else [mkBlock (Some (pk_data p)) (pk_orig p) (Z.of_nat (length (pk_data p))) (pk_seq p)].

(** Its buffer has these blocks and this size, and is not full. *)
Definition keeps_packets (B : list DataBlock) (z : Z) (w : World) : Prop :=
  blocks (pkt_buffer (pia w)) = B ∧ size (pkt_buffer (pia w)) = z ∧
  (state (pkt_buffer (pia w)) = INIT ∨ state (pkt_buffer (pia w)) = BUFFERING).

(** A packet that was kept. *)
Definition packet_kept (p : packet) (w : World) : World :=
  mkWorld (mkPIA (mkBuffer (blocks (pkt_buffer (pia w)) ++ buffered p) (size (pkt_buffer (pia w)) + Z.of_nat (length (pk_data p))) BUFFERING) None)
    (matched (matcher w) p) (got w).

Definition with_world (f : World → World) (s : State World) : State World := AT.mkState (this s) (id_counter s) (next_at s) (f (world s)).

Lemma packet_kept_keeps p B z w : keeps_packets B z w → keeps_packets (B ++ buffered p) (z + Z.of_nat (length (pk_data p))) (packet_kept p w).
Proof. intros (<- & <- & _). split; [done|]. split; [done|]. by right. Qed.

(** What the detection works on: the packet is in the buffer, whose state is still
    the old one. *)
Definition during (p : packet) (w : World) : World :=
  mkWorld (mkPIA (mkBuffer (blocks (pkt_buffer (pia w)) ++ buffered p) (size (pkt_buffer (pia w)) + Z.of_nat (length (pk_data p))) (state (pkt_buffer (pia w))))
      (Some (mkBlock (Some (pk_data p)) (pk_orig p) (Z.of_nat (length (pk_data p))) (pk_seq p))))
    (matcher w) (got w).

Lemma slice_whole (d : bytes) : IP.slice d 0 (Z.of_nat (length d)) = Some d.
Proof. unfold IP.slice. rw decide_True; [|lia]. by rw Nat2Z.id firstn_all. Qed.

Lemma deliver_pia p B z s : keeps_packets B z (world s) → (0 ≤ z)%Z → (z + Z.of_nat (length (pk_data p)) ≤ dpd_buffer_size < 2 ^ 31)%Z →
  deliver at_pia (as_input p) s = (DoMatch (pk_data p) (pk_orig p);;
    on_pia (λ q, set_current_packet None (set_pkt_buffer (set_state BUFFERING (pkt_buffer q)) q))) (with_world (during p) s).
Proof.
  destruct s as [t idc nx [[[bl sz st] cp] m g]]. intros (HB & Hz & Hst) H0 Hlim. cbn in HB, Hz, Hst. subst bl sz. unfold deliver. rw Nat.eqb_refl.
  cbn [as_input]. unfold PIA_DeliverPacket, gets_pia. rw bind_gets. cbn [world pia pkt_buffer state].
  rw bool_decide_eq_false_2; [|destruct Hst as [-> | ->]; done]. rw slice_whole bind_lift. unfold on_pia at 1. rw bind_modify. cbv zeta.
  assert ((if bool_decide (st = INIT) then BUFFERING else st) = BUFFERING) as -> by by destruct Hst as [-> | ->].
  rw orb_true_r. cbn [andb]. destruct (decide (pk_data p = [])) as [Hd|Hd].
  - assert (buffered p = []) as Hb by (unfold buffered; by rw decide_True). unfold with_world, during. rw Hb Hd. cbn. by rw app_nil_r Z.add_0_r.
  - assert (buffered p = [mkBlock (Some (pk_data p)) (pk_orig p) (Z.of_nat (length (pk_data p))) (pk_seq p)]) as Hb by (unfold buffered; by rw decide_False).
    rw (proj2 (Z.ltb_lt 0 (Z.of_nat (length (pk_data p))))); [|destruct (pk_data p); [done|simpl; lia]]. unfold on_pia at 1, mbind at 1, M_bind at 1.
    rw bind_modify bind_gets. cbn [pia world set_current_packet pkt_buffer set_pkt_buffer current_packet].
    assert (AddToBuffer (pk_seq p) (Z.of_nat (length (pk_data p))) (Some (pk_data p)) (pk_orig p) (mkBuffer B z st) =
      mkBuffer (B ++ buffered p) (z + Z.of_nat (length (pk_data p))) st) as ->.
    { unfold AddToBuffer. cbn [blocks size state]. rw Hb int32_small; [done|lia]. }
    cbn [size]. rw (proj2 (Z.ltb_ge dpd_buffer_size (z + Z.of_nat (length (pk_data p))))); [|lia]. reflexivity.
Qed.

(** Nothing matches. *)
Lemma deliver_quiet p B z s : keeps_packets B z (world s) → (0 ≤ z)%Z → (z + Z.of_nat (length (pk_data p)) ≤ dpd_buffer_size < 2 ^ 31)%Z →
  quiet (matcher (world s)) p → deliver at_pia (as_input p) s = Some (with_world (packet_kept p) s, Some ()).
Proof.
  intros Hk H0 Hlim Hq. rw (deliver_pia p B z) //. unfold DoMatch, mbind at 1, M_bind at 1. rw bind_gets. cbn [world with_world during matcher].
  rw Hq. cbn [activate_all]. rw bind_modify. reflexivity.
Qed.

(** An analyzer is added, and gets the packets that were kept. *)
Definition the_new (tg : SB.Tag) (s : State World) : tree := Analyzer_new (next_at s) tg (uint32 (id_counter s + 1)).
Definition added (tg : SB.Tag) (s : State World) : State World :=
  AT.mkState (set_children (children (this s) ++ [the_new tg s]) (this s)) (uint32 (id_counter s + 1)) (S (next_at s)) (world s).
Definition activated (p : packet) (a : nat) (w : World) : World :=
  let w := packet_kept p w in mkWorld (pia w) (matcher w) (got w ++ ((λ b, (a, replayed b)) <$> blocks (pkt_buffer (pia w)))).

Lemma replay_gives a l : ∀ s, replay a l s = Some (with_world (λ w, mkWorld (pia w) (matcher w) (got w ++ ((λ b, (a, replayed b)) <$> l))) s, Some ()).
Proof.
  induction l as [|b l IH]; intros s; [destruct s as [? ? ? []]; unfold with_world; cbn; by rw app_nil_r|]. cbn [replay]. unfold give. rw bind_modify IH.
  unfold with_world. cbn. by rw -app_assoc.
Qed.

Lemma deliver_activates p tg B z s : keeps_packets B z (world s) → (0 ≤ z)%Z → (z + Z.of_nat (length (pk_data p)) ≤ dpd_buffer_size < 2 ^ 31)%Z →
  (rule (matcher (world s)) (pk_data p) (pk_orig p)).2 = [tg] → HasChildAnalyzer tg (this s) = false →
  deliver at_pia (as_input p) s = Some (with_world (activated p (next_at s)) (added tg s), Some ()).
Proof.
  intros Hk H0 Hlim Hr Hc. rw (deliver_pia p B z) //. destruct Hk as (HB & Hz & Hst).
  unfold DoMatch, mbind at 1, M_bind at 1. rw bind_gets. cbn [world with_world during matcher]. rw Hr. cbn [activate_all]. rw bind_modify.
  cbn [this id_counter next_at world with_world during pia matcher got]. unfold ActivateAnalyzer, gets_pia, mbind at 1, M_bind at 1. rw bind_gets. cbn [world pia pkt_buffer state].
  rw bool_decide_eq_false_2; [|destruct Hst as [-> | ->]; done]. rw bind_gets. cbn [this]. rw Hc.
  unfold AddChildAnalyzer_tag, mbind at 1, M_bind at 1. rw bind_gets. cbn [this]. rw Hc. unfold new_analyzer, get, mbind at 1, M_bind at 1, mbind at 1, M_bind at 1.
  rw bind_modify. cbn [next_at id_counter this world]. unfold mret at 1, M_ret at 1. unfold AddChildAnalyzer, mbind at 1, M_bind at 1. rw bind_gets. cbn [this].
  change (tag (info (Analyzer_new (next_at s) tg (uint32 (id_counter s + 1))))) with tg. rw Hc. unfold upd. rw bind_modify. cbn.
  rw bind_lift. unfold ReplayPacketBuffer, gets_pia. rw bind_gets. cbn [world pia pkt_buffer blocks]. rw replay_gives. reflexivity.
Qed.

(** ** One packet *)

Record ready (pre : list tree) (c : tree) (post : list tree) (s : State World) : Prop := {
  rd_children : children (this s) = pre ++ c :: post;
  rd_pia : addr c = at_pia;
  rd_plain : Forall plain (children (this s));
  rd_distinct : NoDup (addr <$> children (this s));
  rd_old : Forall (λ t, addr t < next_at s) (children (this s));
  rd_output : output_handler (info (this s)) = false;
  rd_new : new_children (this s) = []
}.

Lemma ready_gave inp l pre c post s f : ready pre c post s → ready pre c post (with_world f (gave inp l s)).
Proof. by intros []. Qed.

Lemma ready_pia pre c post s : ready pre c post s → (at_pia ∉ addr <$> pre) ∧ at_pia ∉ addr <$> post.
Proof.
  intros [Hc Hp _ Hn _ _ _]. rw Hc fmap_app /= Hp in Hn. apply NoDup_app in Hn as (_ & Hd & [Hp' _]%NoDup_cons). split; [|done].
  intros Hi. apply (Hd _ Hi). left.
Qed.

(** A pass in which the analyzer that detects protocols adds [new]. *)
Lemma Forward_passes fuel p pre c post new s w s2 : ready pre c post s →
  deliver at_pia (as_input p) (gave (as_input p) pre s) = Some (s2, Some ()) → s2 = AT.mkState (set_children (pre ++ c :: post ++ new) (this s)) (id_counter s2) (next_at s2) w →
  Forall plain new → NoDup (addr <$> pre ++ c :: post ++ new) →
  length (children (this s)) + length new ≤ fuel →
  Forward udp_env fuel (as_input p) s = Some (if decide (post = []) then s2 else gave (as_input p) (post ++ new) s2, Some ()).
Proof.
  intros Hr Hd Hs2 Hpl Hnd Hf. destruct (ready_pia _ _ _ _ Hr) as [Hpre Hpost]. destruct Hr as [Hc Hp Hpl' Hn _ Ho Hnew]. rw Hc in Hpl' Hn Hf.
  apply Forall_app in Hpl' as [P1 [P2 P3]%Forall_cons]. rw length_app /= in Hf.
  unfold Forward. rw bind_gets Ho. cbn [andb when]. rw bind_mret.
  assert (∀ s : State World, new_children (this s) = [] → AppendNewChildren s = Some (s, Some ())) as Happ.
  { intros [[i ch nc os rs] idc nx u]. cbn. intros ->. unfold AppendNewChildren, upd, modify, set_children, set_new_children. cbn. by rw app_nil_r. }
  unfold mbind at 1, M_bind at 1. rw Happ // bind_gets Hc. unfold mbind at 1, M_bind at 1.
  replace fuel with (length pre + S (fuel - length pre - 1)) by lia. rw (loop_prefix _ _ _ _ []) //; [|by rw Hc].
  cbn [head fmap option_fmap option_map forward_loop]. rw bind_gets. cbn [this gave]. rw Hc at_iter_next // bind_lift (proj1 P2).
  unfold mbind at 1, M_bind at 1. rw Next_plain // Hp. unfold call. rw Hd. cbn [fmap option_fmap option_map].
  assert (new_children (this s2) = []) as Hnew2 by by rw Hs2.
  destruct post as [|d post].
  - by destruct (fuel - length pre - 1); cbn; apply Happ.
  - cbn [decide list_eq_nil_dec]. change (addr <$> head (d :: post)) with (addr <$> head (((d :: post) ++ new) ++ [])).
    replace (fuel - length pre - 1) with (length ((d :: post) ++ new) + (fuel - length pre - 1 - length ((d :: post) ++ new)))
      by (rw length_app; simpl in *; lia).
    rw (loop_prefix _ _ _ _ (pre ++ [c])).
    + set (k := fuel - _ - _ - _). by destruct k; cbn [head fmap option_fmap option_map forward_loop]; unfold mret, M_ret; apply Happ.
    + rw Hs2. cbn. by rw app_nil_r -!app_assoc.
    + by rw Hs2.
    + by apply Forall_app_2.
    + rw fmap_app. intros [H1|H1]%elem_of_app; [done|]. rw fmap_app fmap_cons Hp fmap_app in Hnd.
      apply NoDup_app in Hnd as (_ & _ & [Hx _]%NoDup_cons). apply Hx. apply elem_of_app. by right.
Qed.

(** ** A connection *)

Definition payload (i : input) : bytes := match i with Packet _ d _ _ _ _ | Stream d _ => d | _ => [] end.
(** What the analyzer at [a] got. *)
Definition seen_by (a : nat) (l : list (nat * input)) : list bytes := omap (λ x, if decide (x.1 = a) then Some (payload x.2) else None) l.
Definition nonempty (l : list bytes) : list bytes := filter (λ d, d ≠ []) l.

Fixpoint quiet_all (m : MS) (l : list packet) : Prop :=
  match l with [] => True | p :: l => quiet m p ∧ quiet_all (matched m p) l end.
Definition volume (l : list packet) : Z := foldr (λ p n, Z.of_nat (length (pk_data p)) + n)%Z 0%Z l.

Lemma volume_pos l : (0 ≤ volume l)%Z.
Proof. induction l; simpl; lia. Qed.
Lemma volume_app l k : volume (l ++ k) = (volume l + volume k)%Z.
Proof. induction l as [|p l IH]; simpl; [done|]. rw IH. lia. Qed.

Lemma seen_by_app a l k : seen_by a (l ++ k) = seen_by a l ++ seen_by a k.
Proof. apply omap_app. Qed.
Lemma seen_by_none a i l : a ∉ addr <$> l → seen_by a ((λ t, (addr t, i)) <$> l) = [].
Proof. induction l as [|t l IH]; [done|]. cbn. intros [Hne Hl]%not_elem_of_cons. rw decide_False; [by apply IH|done]. Qed.
Lemma seen_by_once a i l : NoDup (addr <$> l) → a ∈ addr <$> l → seen_by a ((λ t, (addr t, i)) <$> l) = [payload i].
Proof.
  induction l as [|t l IH]; cbn; [by intros _ ?%elem_of_nil|]. intros [Ht Hn]%NoDup_cons [->|Ha]%elem_of_cons.
  - rw decide_True //. f_equal. by apply seen_by_none.
  - rw decide_False; [by apply IH|]. intros He. by rw He in Ht.
Qed.
Lemma seen_by_replayed a l : seen_by a ((λ b, (a, replayed b)) <$> l) = (λ b, default [] (b_data b)) <$> l.
Proof. induction l as [|b l IH]; [done|]. cbn. rw decide_True //. f_equal. apply IH. Qed.

Lemma buffered_data p : (λ b, default [] (b_data b)) <$> buffered p = nonempty [pk_data p].
Proof. unfold buffered, nonempty. case_decide as Hd; [rw filter_cons_False //; by intros ?|by rw filter_cons_True]. Qed.
Lemma buffered_all l : (λ b, default [] (b_data b)) <$> concat (buffered <$> l) = nonempty (pk_data <$> l).
Proof.
  induction l as [|p l IH]; [done|]. cbn. rw fmap_app IH buffered_data. unfold nonempty. rw -filter_app. done.
Qed.

(** What is the same after packets that only are kept, and what the others got. *)
Record kept_all (pre post : list tree) (l : list packet) (s s' : State World) : Prop := {
  ka_this : this s' = this s;
  ka_next : next_at s' = next_at s;
  ka_id : id_counter s' = id_counter s;
  ka_matcher : matcher (world s') = foldl matched (matcher (world s)) l;
  ka_in : ∀ a, a ∈ addr <$> pre ++ post → seen_by a (got (world s')) = seen_by a (got (world s)) ++ (pk_data <$> l);
  ka_out : ∀ a, a ∉ addr <$> pre ++ post → seen_by a (got (world s')) = seen_by a (got (world s))
}.

Lemma ready_same pre c post s s' : ready pre c post s → this s' = this s → next_at s' = next_at s → ready pre c post s'.
Proof. intros [] Ht Hn. split; by rw ?Ht ?Hn. Qed.

Lemma Forward_quiet fuel p B z pre c post s : ready pre c post s → keeps_packets B z (world s) → (0 ≤ z)%Z →
  (z + Z.of_nat (length (pk_data p)) ≤ dpd_buffer_size < 2 ^ 31)%Z → quiet (matcher (world s)) p → length (children (this s)) ≤ fuel →
  ∃ s', Forward udp_env fuel (as_input p) s = Some (s', Some ()) ∧ kept_all pre post [p] s s' ∧
    keeps_packets (B ++ buffered p) (z + Z.of_nat (length (pk_data p))) (world s').
Proof.
  intros Hr Hk H0 Hlim Hq Hf. set (s2 := with_world (packet_kept p) (gave (as_input p) pre s)).
  eexists. split; [apply (Forward_passes fuel p pre c post [] s (world s2) s2 Hr)|].
  - by apply (deliver_quiet p B z).
  - destruct Hr as [Hc _ _ _ _ _ _]. unfold s2, gave, with_world. cbn. rw app_nil_r -Hc. by destruct s as [[]].
  - done.
  - rw app_nil_r -(rd_children _ _ _ _ Hr). apply Hr.
  - cbn. lia.
  - pose proof (rd_distinct _ _ _ _ Hr) as Hn. rw (rd_children _ _ _ _ Hr) fmap_app fmap_cons in Hn.
    assert (NoDup (addr <$> pre ++ post)) as Hn'.
    { rw fmap_app. apply NoDup_app in Hn as (? & Hd & [_ ?]%NoDup_cons). apply NoDup_app. split_and!; try done. intros x Hx Hx'. apply (Hd x Hx). by right. }
    assert (∀ a, seen_by a (got (world (if decide (post = []) then s2 else gave (as_input p) (post ++ []) s2))) =
      seen_by a (got (world s)) ++ seen_by a ((λ t, (addr t, as_input p)) <$> pre ++ post)) as Hgot.
    { intros a. destruct post; cbn [decide list_eq_nil_dec]; unfold s2, gave, with_world; cbn; rw ?app_nil_r ?fmap_app -?app_assoc !seen_by_app //. }
    split; [|case_decide; by apply packet_kept_keeps].
    split; try (by case_decide).
    + intros a Ha. rw Hgot. f_equal. by apply seen_by_once.
    + intros a Ha. rw Hgot (seen_by_none a) //. by rw app_nil_r.
Qed.

Lemma forward_quiet room B z pre c post l : ∀ s, ready pre c post s → keeps_packets B z (world s) → (0 ≤ z)%Z →
  (z + volume l ≤ dpd_buffer_size < 2 ^ 31)%Z → quiet_all (matcher (world s)) l →
  ∃ s', forward_all room l s = Some (s', Some ()) ∧ kept_all pre post l s s' ∧
    keeps_packets (B ++ concat (buffered <$> l)) (z + volume l) (world s').
Proof.
  revert B z. induction l as [|p l IH]; intros B z s Hr Hk H0 Hlim Hq.
  - exists s. split; [done|]. cbn. rw app_nil_r Z.add_0_r. split; [|done]. split; try done. intros a _. by rw app_nil_r.
  - destruct Hq as [Hq1 Hq]. cbn [volume foldr] in Hlim. fold (volume l) in Hlim. pose proof (volume_pos l).
    destruct (Forward_quiet (length (children (this s)) + room) p B z pre c post s) as (s1 & Hr1 & Hk1 & Hb1); [done..|lia|done|lia|].
    destruct (IH (B ++ buffered p) (z + Z.of_nat (length (pk_data p)))%Z s1) as (s' & Hr2 & Hk2 & Hb2).
    + by apply (ready_same _ _ _ s); [|apply Hk1..].
    + done.
    + lia.
    + lia.
    + by rw (ka_matcher _ _ _ _ _ Hk1).
    + exists s'. split; [cbn [forward_all]; rw bind_gets; unfold mbind, M_bind; by rw Hr1|]. split.
      * destruct Hk1, Hk2. split; try congruence; [by rw ka_matcher1 ka_matcher0| |].
        -- intros a Ha. by rw ka_in1 // ka_in0 // -app_assoc.
        -- intros a Ha. by rw ka_out1 // ka_out0.
      * cbn [fmap list_fmap concat volume foldr]. fold (volume l). by rw app_assoc Z.add_assoc.
Qed.

(** A new analyzer among the children. *)
Lemma ready_added tg pre c post s f i l : ready pre c post s → ready pre c (post ++ [the_new tg s]) (gave i l (with_world f (added tg s))).
Proof.
  intros [Hc Hp Hpl Hn Ho Hout Hnew]. assert (children (this (added tg s)) = pre ++ c :: post ++ [the_new tg s]) as Hch
    by (cbn; by rw Hc -app_assoc). cbn in Hch. rw Hc in Hpl Hn Ho. split; cbn; try done.
  - rw Hc. by apply Forall_app_2; [|repeat constructor].
  - rw Hc fmap_app. apply NoDup_app. split; [done|]. split; [|apply NoDup_singleton].
    intros x (t & -> & Ht)%list_elem_of_fmap He%list_elem_of_singleton. eapply Forall_forall in Ho; [|exact Ht]. cbn in *. lia.
  - rw Hc. apply Forall_app_2; [eapply Forall_impl; [exact Ho|intros; simpl in *; lia]|]. repeat constructor.
Qed.

Lemma Forward_activates fuel p tg B z pre c post s : ready pre c post s → keeps_packets B z (world s) → (0 ≤ z)%Z →
  (z + Z.of_nat (length (pk_data p)) ≤ dpd_buffer_size < 2 ^ 31)%Z → (rule (matcher (world s)) (pk_data p) (pk_orig p)).2 = [tg] →
  HasChildAnalyzer tg (this s) = false → length (children (this s)) < fuel →
  ∃ s', Forward udp_env fuel (as_input p) s = Some (s', Some ()) ∧ ready pre c (post ++ [the_new tg s]) s' ∧
    matcher (world s') = matched (matcher (world s)) p ∧ keeps_packets (B ++ buffered p) (z + Z.of_nat (length (pk_data p))) (world s') ∧
    seen_by (next_at s) (got (world s')) = seen_by (next_at s) (got (world s)) ++
      ((λ b, default [] (b_data b)) <$> B ++ buffered p) ++ (if decide (post = []) then [] else [pk_data p]).
Proof.
  intros Hr Hk H0 Hlim Hm Hc Hf. set (g := gave (as_input p) pre s). set (s2 := with_world (activated p (next_at s)) (added tg g)).
  pose proof Hr as [Hch Hp Hpl Hn Ho _ _].
  assert (∀ l, Forall (λ t, addr t < next_at s) l → seen_by (next_at s) ((λ t, (addr t, as_input p)) <$> l) = []) as Hold.
  { intros l Hl. apply seen_by_none. intros (t & He & Ht)%list_elem_of_fmap. eapply Forall_forall in Hl; [|done]. cbn in Hl. lia. }
  assert (ready pre c (post ++ [the_new tg s]) s2) as Hr2.
  { pose proof (ready_added tg pre c post s (λ _, world s2) (as_input p) [] Hr) as Hx. by eapply ready_same; [exact Hx|..]. }
  rw Hch in Ho. apply Forall_app in Ho as [Ho1 [_ Ho2]%Forall_cons].
  assert (seen_by (next_at s) (got (world s2)) = seen_by (next_at s) (got (world s)) ++ ((λ b, default [] (b_data b)) <$> B ++ buffered p)) as Hs2.
  { unfold s2, g. cbn [got world gave with_world activated packet_kept added pia matcher pkt_buffer blocks]. rw !seen_by_app Hold // app_nil_r.
    destruct Hk as (-> & _). by rw seen_by_replayed. }
  exists (if decide (post = []) then s2 else gave (as_input p) (post ++ [the_new tg s]) s2).
  split; [apply (Forward_passes fuel p pre c post [the_new tg s] s (world s2) s2 Hr)|].
  - by apply (deliver_activates p tg B z).
  - unfold s2, g, gave, with_world, added. cbn. by rw Hch -app_assoc.
  - by repeat constructor.
  - rw -(rd_children _ _ _ _ Hr2). apply Hr2.
  - cbn. lia.
  - split; [case_decide; [done|by eapply ready_same; [exact Hr2|..]]|].
    split; [by case_decide|]. split; [case_decide; by apply packet_kept_keeps|]. case_decide as Hpo; [by rw Hs2 app_nil_r|].
    cbn [gave world got]. rw seen_by_app Hs2 (fmap_app _ post) seen_by_app Hold // app_nil_l. cbn. rw decide_True //. by rw -app_assoc.
Qed.

Lemma activation room tg B z pre c post s before pk after : ready pre c post s → keeps_packets B z (world s) → (0 ≤ z)%Z →
  (z + volume (before ++ pk :: after) ≤ dpd_buffer_size < 2 ^ 31)%Z → quiet_all (matcher (world s)) before →
  let m := foldl matched (matcher (world s)) before in
  (rule m (pk_data pk) (pk_orig pk)).2 = [tg] → quiet_all (matched m pk) after → HasChildAnalyzer tg (this s) = false → 0 < room →
  seen_by (next_at s) (got (world s)) = [] →
  ∃ s', forward_all room (before ++ pk :: after) s = Some (s', Some ()) ∧
    seen_by (next_at s) (got (world s')) = ((λ b, default [] (b_data b)) <$> B) ++ nonempty (pk_data <$> before ++ [pk]) ++
      (if decide (post = []) then [] else [pk_data pk]) ++ (pk_data <$> after).
Proof.
  intros Hr Hk H0 Hlim Hq m Hm Hq2 Hc Hroom Hnone. rw volume_app in Hlim. cbn [volume foldr] in Hlim. fold (volume after) in Hlim.
  pose proof (volume_pos before). pose proof (volume_pos after).
  destruct (forward_quiet room B z pre c post before s) as (s1 & Hr1 & Hk1 & Hb1); [done..|lia|done|].
  destruct (Forward_activates (length (children (this s1)) + room) pk tg (B ++ concat (buffered <$> before)) (z + volume before) pre c post s1)
    as (s2 & Hr2 & Hrd2 & Hm2 & Hb2 & Hs2); [by apply (ready_same _ _ _ s); [|apply Hk1..]|done|lia|lia|by rw (ka_matcher _ _ _ _ _ Hk1)
    |by rw (ka_this _ _ _ _ _ Hk1)|lia|].
  destruct (forward_quiet room ((B ++ concat (buffered <$> before)) ++ buffered pk) (z + volume before + Z.of_nat (length (pk_data pk)))
    pre c (post ++ [the_new tg s1]) after s2) as (s3 & Hr3 & Hk3 & _); [done|done|lia|lia|by rw Hm2 (ka_matcher _ _ _ _ _ Hk1)|].
  exists s3. split.
  - assert (∀ l k s s', forward_all room l s = Some (s', Some ()) → forward_all room (l ++ k) s = forward_all room k s') as Happ.
    { induction l as [|p l IH]; intros k t t'; [by intros [= ->]|]. cbn [forward_all app]. rw !bind_gets. unfold mbind, M_bind.
      destruct (Forward _ _ _ t) as [[t1 [[]|]]|]; [|done|done]. apply IH. }
    rw (Happ before _ s s1 Hr1). cbn [forward_all]. rw bind_gets. unfold mbind, M_bind. by rw Hr2.
  - rw (ka_next _ _ _ _ _ Hk1) in Hs2. rw (ka_in _ _ _ _ _ Hk3).
    + rw Hs2 (ka_out _ _ _ _ _ Hk1).
      * rw Hnone app_nil_l -!app_assoc. rw !fmap_app buffered_all buffered_data. unfold nonempty. rw filter_app -!app_assoc. done.
      * rw fmap_app. pose proof (rd_old _ _ _ _ Hr) as Ho. rw (rd_children _ _ _ _ Hr) in Ho. apply Forall_app in Ho as [Ho1 [_ Ho2]%Forall_cons].
        intros [(t & He & Ht)%list_elem_of_fmap|(t & He & Ht)%list_elem_of_fmap]%elem_of_app;
          [eapply Forall_forall in Ho1; [|done]|eapply Forall_forall in Ho2; [|done]]; cbn in *; lia.
    + rw !fmap_app. apply elem_of_app. right. apply elem_of_app. right. cbn. rw (ka_next _ _ _ _ _ Hk1). left.
Qed.

(** C27. An analyzer that is found by its signature sees the whole connection: if the
    detection is the last child, the packets fit into [dpd_buffer_size], and no
    signature matches but this one, at the packet [pk], the analyzer gets
    every packet from the first one, also those before it was there, once and in
    order; of those, only the ones without payload are left out. *)
Theorem found_analyzer_sees_all tg pre c s before pk after : ready pre c [] s → pia (world s) = PIA_new →
  (volume (before ++ pk :: after) ≤ dpd_buffer_size < 2 ^ 31)%Z → quiet_all (matcher (world s)) before →
  let m := foldl matched (matcher (world s)) before in
  (rule m (pk_data pk) (pk_orig pk)).2 = [tg] → quiet_all (matched m pk) after → HasChildAnalyzer tg (this s) = false →
  seen_by (next_at s) (got (world s)) = [] →
  ∃ s', forward_all 1 (before ++ pk :: after) s = Some (s', Some ()) ∧
    seen_by (next_at s) (got (world s')) = nonempty (pk_data <$> before ++ [pk]) ++ (pk_data <$> after).
Proof.
  intros Hr Hp Hlim Hq m Hm Hq2 Hc Hn.
  destruct (activation 1 tg [] 0 pre c [] s before pk after Hr) as (s' & Hf & Hs); try done; [by unfold keeps_packets; rw Hp; split; [|split; [|left]]|lia|].
  by exists s'.
Qed.

(** C39. If the detection is not the last child, which it never is after a first
    analyzer was found, the packet that makes it add one is given to it twice: from
    the buffer, and as the next child of the same pass. *)
Theorem found_analyzer_sees_packet_twice tg B z pre c d post s pk : ready pre c (d :: post) s → keeps_packets B z (world s) → (0 ≤ z)%Z →
  (z + Z.of_nat (length (pk_data pk)) ≤ dpd_buffer_size < 2 ^ 31)%Z → pk_data pk ≠ [] →
  (rule (matcher (world s)) (pk_data pk) (pk_orig pk)).2 = [tg] → HasChildAnalyzer tg (this s) = false →
  seen_by (next_at s) (got (world s)) = [] →
  ∃ s', forward_all 1 [pk] s = Some (s', Some ()) ∧
    seen_by (next_at s) (got (world s')) = ((λ b, default [] (b_data b)) <$> B) ++ [pk_data pk; pk_data pk].
Proof.
  intros Hr Hk H0 Hlim Hne Hm Hc Hn.
  destruct (activation 1 tg B z pre c (d :: post) s [] pk [] Hr Hk H0) as (s' & Hf & Hs); try done; [cbn; lia|lia|].
  exists s'. split; [done|]. rw Hs. unfold nonempty. cbn [app fmap list_fmap decide list_eq_nil_dec]. by rw filter_cons_True.
Qed.

(** C28. A move loses what the detection has kept: of a connection that is moved after
    some packets, an analyzer that is found later gets none of them, although their
    size still fills the buffer. *)
Theorem moved_detection_forgets tg pre c post s early s1 pre' c' s2 before pk after :
  ready pre c post s → pia (world s) = PIA_new → (volume (early ++ before ++ pk :: after) ≤ dpd_buffer_size < 2 ^ 31)%Z →
  quiet_all (matcher (world s)) early → forward_all 1 early s = Some (s1, Some ()) →
  ready pre' c' [] s2 → pia (world s2) = restore_PIA (pia (world s1)) →
  quiet_all (matcher (world s2)) before → let m := foldl matched (matcher (world s2)) before in
  (rule m (pk_data pk) (pk_orig pk)).2 = [tg] → quiet_all (matched m pk) after → HasChildAnalyzer tg (this s2) = false →
  seen_by (next_at s2) (got (world s2)) = [] →
  size (pkt_buffer (pia (world s2))) = volume early ∧
  ∃ s', forward_all 1 (before ++ pk :: after) s2 = Some (s', Some ()) ∧
    seen_by (next_at s2) (got (world s')) = nonempty (pk_data <$> before ++ [pk]) ++ (pk_data <$> after).
Proof.
  intros Hr Hp Hlim Hq He Hr2 Hp2 Hq2 m Hm Hq3 Hc Hn. rw volume_app in Hlim. pose proof (volume_pos early). pose proof (volume_pos (before ++ pk :: after)).
  destruct (forward_quiet 1 [] 0 pre c post early s Hr) as (s1' & He' & _ & (Hb & Hz & Hst)); [by unfold keeps_packets; rw Hp; split; [|split; [|left]]|done|lia|done|].
  rw He in He'. injection He' as <-. rw Z.add_0_l in Hz. split; [by rw Hp2|].
  destruct (activation 1 tg [] (volume early) pre' c' [] s2 before pk after Hr2) as (s' & Hf & Hs); try done; [|lia|by exists s'].
  unfold keeps_packets. rw Hp2. by split; [|split].
Qed.
End pia.

(** ** A concrete connection *)

(** One signature: a packet that begins with 71 is of DNS. *)
Definition one_rule (m : ()) (data : bytes) (o : bool) : () * list SB.Tag :=
  (m, match data with 71%Z :: _ => [SB.T_DNS] | _ => [] end).

Definition a_packet (d : bytes) : packet := mkPacket d true (-1) None 1500.
Definition a_child (a : nat) (tg : SB.Tag) : tree := Analyzer_new a tg (Z.of_nat a).

(** The detection at address 2, before or behind another analyzer. *)
Definition first_state (last : bool) (p : PIA) : State (World (MS := ())) :=
  AT.mkState (Node (Info_new 0 SB.T_UDP 1)
    (if last then [a_child 1 SB.T_ConnSize; a_child 2 SB.T_PIA_UDP] else [a_child 2 SB.T_PIA_UDP; a_child 1 SB.T_ConnSize]) [] [] []) 3 3 (mkWorld p () []).

Lemma first_state_ready (last : bool) p : ready 2 (if last then [a_child 1 SB.T_ConnSize] else []) (a_child 2 SB.T_PIA_UDP)
  (if last then [] else [a_child 1 SB.T_ConnSize]) (first_state last p).
Proof.
  destruct last; (split; [done|done| | | |done|done]); cbn.
  - by repeat constructor.
  - repeat (apply NoDup_cons; split; [set_solver|]). apply NoDup_nil_2.
  - repeat (apply Forall_cons; split; [cbn; lia|]). by apply Forall_nil.
  - by repeat constructor.
  - repeat (apply NoDup_cons; split; [set_solver|]). apply NoDup_nil_2.
  - repeat (apply Forall_cons; split; [cbn; lia|]). by apply Forall_nil.
Qed.

Lemma found_analyzer_sees_all_witness : ∃ s',
  forward_all one_rule 1024 true 2 1 [a_packet [5]; a_packet [71; 1]; a_packet [6]]%Z (first_state true PIA_new) = Some (s', Some ()) ∧
  seen_by 3 (got (world s')) = [[5]; [71; 1]; [6]]%Z.
Proof.
  exact (found_analyzer_sees_all one_rule 1024 true 2 SB.T_DNS _ _ (first_state true PIA_new) [a_packet [5%Z]] (a_packet [71; 1]%Z) [a_packet [6%Z]]
    (first_state_ready true PIA_new) eq_refl ltac:(cbn; lia) (conj eq_refl I) eq_refl (conj eq_refl I) eq_refl eq_refl).
Defined.

Lemma found_analyzer_sees_packet_twice_witness : ∃ s',
  forward_all one_rule 1024 true 2 1 [a_packet [71; 1]]%Z (first_state false PIA_new) = Some (s', Some ()) ∧
  seen_by 3 (got (world s')) = [[71; 1]; [71; 1]]%Z.
Proof.
  exact (found_analyzer_sees_packet_twice one_rule 1024 true 2 SB.T_DNS [] 0 _ _ _ [] (first_state false PIA_new) (a_packet [71; 1]%Z)
    (first_state_ready false PIA_new) (conj eq_refl (conj eq_refl (or_introl eq_refl))) ltac:(lia) ltac:(cbn; lia) ltac:(done) eq_refl eq_refl eq_refl).
Defined.

(** The connection after its first packet, at its source. *)
Definition before_move : State (World (MS := ())) :=
  default (first_state true PIA_new) (fst <$> forward_all one_rule 1024 true 2 1 [a_packet [5%Z]] (first_state true PIA_new)).

Lemma moved_detection_forgets_witness : ∃ s',
  forward_all one_rule 1024 true 2 1 [a_packet [71; 1]; a_packet [6]]%Z (first_state true (restore_PIA (pia (world before_move)))) = Some (s', Some ()) ∧
  seen_by 3 (got (world s')) = [[71; 1]; [6]]%Z.
Proof.
  exact (proj2 (moved_detection_forgets one_rule 1024 true 2 SB.T_DNS _ _ _ (first_state true PIA_new) [a_packet [5%Z]] before_move _ _
    (first_state true (restore_PIA (pia (world before_move)))) [] (a_packet [71; 1]%Z) [a_packet [6%Z]]
    (first_state_ready true PIA_new) eq_refl ltac:(cbn; lia) (conj eq_refl I) eq_refl (first_state_ready true _) eq_refl I eq_refl (conj eq_refl I) eq_refl eq_refl)).
Defined.
End PI.
