(* ===== verification/Events.v ===== *)
(** Events: the filters of packets of libsdmbn, event.c, and the state of the
    library that its threads share.

    The program calls [sdmbn_preprocess_packet] and [sdmbn_postprocess_packet]
    around the processing of each packet; the threads of the two connections to the
    controller call the handlers of messages.  What the program gives the library
    (SDMBNLocals) are functions on the state.  Waiting for a mutex that is held is
    no result, like undefined behaviour; allocations succeed. *)
From S2P Require Import Prelude Flow IP NetUtil Codec.
From stdpp Require Import strings.

Module EV.
Import CD.

Abbreviation bytes := (list Z) (only parsing).

(** ** The state of the library *)

Inductive Action := EVENT_ACTION_DROP | EVENT_ACTION_BUFFER | EVENT_ACTION_PROCESS.

(** A filter, with the address it has; [action] is not written for an unknown name.
    The buffer is the list from [bufferHead] to [bufferTail]: the header of a packet
    and its bytes. *)
Record EventFilter := mkFilter {
  address : nat;
  key : PerflowKey;
  action : option Action;
  id : Z;
  buffer : list (bytes * bytes)
}.
Definition set_buffer (v : list (bytes * bytes)) (f : EventFilter) : EventFilter :=
  mkFilter (address f) (key f) (action f) (id f) v.

(** The counters of SDMBNStatistics (the times are left out). *)
Inductive counter :=
  | gets_per_count | puts_per_count | gets_mul_count | puts_mul_count | pkts_received | flows_active | reprocess_raised
  | pkts_nofilter_count | pkts_drop_count | pkts_buffer_count | pkts_nobuffer_count | pkts_release_count
  | pkts_process_count | events_count.
#[global] Instance counter_eq_dec : EqDecision counter.
Proof. solve_decision. Defined.

#[global] Instance Key_eq_dec {V} `{EqDecision V} : EqDecision (Key V).
Proof. solve_decision. Defined.

(** The two connections to the controller. *)
Inductive conn := State_conn | Event_conn.
#[global] Instance conn_eq_dec : EqDecision conn.
Proof. solve_decision. Defined.

(** [mb] is the state of the program itself; [sent_msgs] is what was written to the
    connections, in order. *)
Record Lib (json MB : Type) := mkLib {
  mb : MB;
  filters : list EventFilter;
  next_address : nat;
  lock_processing_pkt : bool;
  lock_get : bool;
  stats : counter → Z;
  sent_msgs : list (conn * json)
}.
Arguments mkLib {json MB}.
Arguments mb {json MB}.
Arguments filters {json MB}.
Arguments next_address {json MB}.
Arguments lock_processing_pkt {json MB}.
Arguments lock_get {json MB}.
Arguments stats {json MB}.
Arguments sent_msgs {json MB}.

(** What the library is configured with (the addresses of the controller left out). *)
Record SDMBNConfig := mkConfig { release_get_pkts : Z; release_get_flows : Z; max_get_flows : Z }.

(** [ProcessContext], with members that may not be written. *)
Record ProcessContext := mkContext { injected : option Z; stop_ : option Z; event : option Z }.

Section lib.
Context {json MB : Type}.

Definition set_mb (v : MB) (s : Lib json MB) : Lib json MB :=
  mkLib v (filters s) (next_address s) (lock_processing_pkt s) (lock_get s) (stats s) (sent_msgs s).
Definition set_filters (v : list EventFilter) (s : Lib json MB) : Lib json MB :=
  mkLib (mb s) v (next_address s) (lock_processing_pkt s) (lock_get s) (stats s) (sent_msgs s).
Definition set_next_address (v : nat) (s : Lib json MB) : Lib json MB :=
  mkLib (mb s) (filters s) v (lock_processing_pkt s) (lock_get s) (stats s) (sent_msgs s).
Definition set_lock_processing_pkt (v : bool) (s : Lib json MB) : Lib json MB :=
  mkLib (mb s) (filters s) (next_address s) v (lock_get s) (stats s) (sent_msgs s).
Definition set_lock_get (v : bool) (s : Lib json MB) : Lib json MB :=
  mkLib (mb s) (filters s) (next_address s) (lock_processing_pkt s) v (stats s) (sent_msgs s).
Definition set_stats (v : counter → Z) (s : Lib json MB) : Lib json MB :=
  mkLib (mb s) (filters s) (next_address s) (lock_processing_pkt s) (lock_get s) v (sent_msgs s).
Definition set_sent_msgs (v : list (conn * json)) (s : Lib json MB) : Lib json MB :=
  mkLib (mb s) (filters s) (next_address s) (lock_processing_pkt s) (lock_get s) (stats s) v.

Definition add_to (c : counter) (n : Z) : M (Lib json MB) () :=
  modify (λ s, set_stats (λ c', if decide (c = c') then int32 (stats s c' + n) else stats s c') s).
Definition send (c : conn) (msg : json) : M (Lib json MB) () := modify (λ s, set_sent_msgs (sent_msgs s ++ [(c, msg)]) s).

Definition lock_processing : M (Lib json MB) () :=
  update (λ s, if lock_processing_pkt s then None else Some (set_lock_processing_pkt true s)).
Definition unlock_processing : M (Lib json MB) () := modify (set_lock_processing_pkt false).

(** ** What the program reports *)

(** Requests for state wait for [lock_get], which a number of packets or of flows
    releases. *)
Definition gets_wait (cfg : SDMBNConfig) : bool := (0 <? release_get_pkts cfg)%Z || (0 <? release_get_flows cfg)%Z.

Definition sdmbn_notify_packet_received (cfg : SDMBNConfig) : M (Lib json MB) () :=
  add_to pkts_received 1;;
  n ← gets (λ s, stats s pkts_received); fl ← gets (λ s, stats s flows_active);
  when (gets_wait cfg)
    (if (release_get_pkts cfg =? n)%Z then modify (set_lock_get false)
     else when (release_get_flows cfg =? fl)%Z (modify (set_lock_get false))).

Definition sdmbn_notify_flow_created : M (Lib json MB) () := add_to flows_active 1.
Definition sdmbn_notify_flow_destroyed : M (Lib json MB) () := add_to flows_active (-1).

(** ** Filters *)

Context `{JSON json} `{INET}.

Definition action_of (name : string) : option Action :=
  if (name =? "drop")%string then Some EVENT_ACTION_DROP
  else if (name =? "buffer")%string then Some EVENT_ACTION_BUFFER
  else if (name =? "process")%string then Some EVENT_ACTION_PROCESS
  else None.

Definition events_add_filter (k : PerflowKey) (name : string) (i : Z) : M (Lib json MB) () :=
  modify (λ s, set_next_address (S (next_address s))
    (set_filters (mkFilter (next_address s) k (action_of name) i [] :: filters s) s)).

Definition ETHER_HDR_LEN : Z := 14.
Definition ETHERTYPE_IP : Z := 0x0800.
Definition IPPROTO_TCP : Z := 6.
Definition IPPROTO_UDP : Z := 17.

(** The key of a packet.  The transport protocol is looked at also when the packet is
    not of IP, and was not written then. *)
Definition build_packet_key (pkt : bytes) : option RawKey :=
  let w := without WILDCARD_ALL WILDCARD_DL_TYPE in
  dl ← IP.get16 pkt 12;
  if negb (dl =? ETHERTYPE_IP)%Z then None
  else
    src ← IP.get32 pkt (ETHER_HDR_LEN + 12); dst ← IP.get32 pkt (ETHER_HDR_LEN + 16);
    proto ← IP.get8 pkt (ETHER_HDR_LEN + 9); vhl ← IP.get8 pkt ETHER_HDR_LEN;
    let w := foldl without w [WILDCARD_NW_SRC; WILDCARD_NW_DST; WILDCARD_NW_PROTO] in
    let nxthdr := (ETHER_HDR_LEN + Z.land vhl 15 * 4)%Z in
    let ip_key sp dp w := mkPerflowKey (Some src) None (Some dst) None sp dp (Some dl) (Some proto) w None in
    if (proto =? IPPROTO_TCP)%Z || (proto =? IPPROTO_UDP)%Z then
      sp ← IP.get16 pkt nxthdr; dp ← IP.get16 pkt (nxthdr + 2);
      _ ← (if (proto =? IPPROTO_TCP)%Z then IP.get8 pkt (nxthdr + 12) else Some 0%Z);
      Some (ip_key (Some sp) (Some dp) (foldl without w [WILDCARD_TP_SRC; WILDCARD_TP_DST]))
    else Some (ip_key None None w).

(** A member of the filter against one of the packet. *)
Definition member_ok (skip : bool) (f : Z) (p : option Z) : option bool :=
  if skip then Some true else x ← p; Some (f =? x)%Z.
Definition addr_ok (skip : bool) (mask : Z) (f : Z) (p : option Z) : option bool :=
  if skip then Some true else x ← p; Some (Z.land f mask =? Z.land x mask)%Z.

(** A port, and the other one of the filter if the packet's key is flipped. *)
Definition port_ok (skip : bool) (f f' : Z) (p : option Z) (flip : option Z) : option bool :=
  if skip then Some true
  else x ← p; if (f =? x)%Z then Some true else fl ← flip; Some (negb (fl =? 0)%Z && (f' =? x)%Z).

Definition addr_mask (k : PerflowKey) (w : Z) (len : Z) : option Z := if wild k w then Some 0xFFFFFFFF%Z else mask_of len.

(** The tests of one filter, in their order. *)
Definition filter_ok (f : PerflowKey) (p : RawKey) : option bool :=
  let andthen (o : option bool) (k : option bool) : option bool := b ← o; if (b : bool) then k else Some false in
  andthen (member_ok (wild f WILDCARD_DL_TYPE) (dl_type f) (dl_type p))
  (src_mask ← addr_mask f WILDCARD_NW_SRC_MASK (nw_src_mask f);
   andthen (addr_ok (wild f WILDCARD_NW_SRC) src_mask (nw_src f) (nw_src p))
   (dst_mask ← addr_mask f WILDCARD_NW_DST_MASK (nw_dst_mask f);
    andthen (addr_ok (wild f WILDCARD_NW_DST) dst_mask (nw_dst f) (nw_dst p))
    (andthen (member_ok (wild f WILDCARD_NW_PROTO) (nw_proto f) (nw_proto p))
     (andthen (port_ok (wild f WILDCARD_TP_SRC) (tp_src f) (tp_dst f) (tp_src p) (tp_flip p))
      (port_ok (wild f WILDCARD_TP_DST) (tp_dst f) (tp_src f) (tp_dst p) (tp_flip p)))))).

Fixpoint first_match (p : RawKey) (fs : list EventFilter) : option (option EventFilter) :=
  match fs with
  | [] => Some None
  | f :: fs => b ← filter_ok (key f) p; if (b : bool) then Some (Some f) else first_match p fs
  end.

Definition matches_filter (pkt : bytes) (fs : list EventFilter) : option (option EventFilter) :=
  match fs with [] => Some None | _ => p ← build_packet_key pkt; first_match p fs end.

(** ** Packets *)

Definition PACKET_FLAG_DO_NOT_BUFFER : Z := 4.
Definition PACKET_FLAG_DO_NOT_DROP : Z := 8.

Definition is_packet_flag_set (pkt : bytes) (flag : Z) : option bool :=
  dl ← IP.get16 pkt 12;
  if (dl =? ETHERTYPE_IP)%Z then tos ← IP.get8 pkt (ETHER_HDR_LEN + 1); Some (negb (Z.land tos flag =? 0)%Z)
  else Some false.

Definition sdmbn_raise_reprocess (i hashkey : Z) (hdr pkt : bytes) : M (Lib json MB) () :=
  ev ← lift (json_compose_reprocess_event i hashkey hdr pkt);
  send Event_conn ev;; add_to reprocess_raised 1.

(** The filter at an address. *)
Definition filter_at (a : nat) (s : Lib json MB) : option EventFilter :=
  List.find (λ f, bool_decide (address f = a)) (filters s).
Definition put_filter (f : EventFilter) (s : Lib json MB) : Lib json MB :=
  set_filters ((λ g, if bool_decide (address g = address f) then f else g) <$> filters s) s.

(** What a filter does with a packet; the results are [stop] and [event], which is a
    [char]. *)
Definition buffer_packet (f : EventFilter) (ctx : ProcessContext) (hdr pkt : bytes) : M (Lib json MB) (Z * Z) :=
  keep ← lift (is_packet_flag_set pkt PACKET_FLAG_DO_NOT_BUFFER);
  if (keep : bool) then add_to pkts_nobuffer_count 1;; mret (0%Z, int8 (id f))
  else
    inj ← lift (injected ctx);
    if negb (inj =? 0)%Z then mret (0%Z, 0%Z)
    else
      data ← lift (IP.slice pkt 0 (caplen hdr));
      modify (put_filter (set_buffer (buffer f ++ [(hdr, data)]) f));;
      add_to pkts_buffer_count 1;; mret (1%Z, (-1)%Z).

Definition drop_packet (f : EventFilter) (hdr pkt : bytes) : M (Lib json MB) (Z * Z) :=
  keep ← lift (is_packet_flag_set pkt PACKET_FLAG_DO_NOT_DROP);
  if (keep : bool) then mret (0%Z, int8 (id f))
  else sdmbn_raise_reprocess (id f) (-1) hdr pkt;; add_to pkts_drop_count 1;; mret (1%Z, (-1)%Z).

Definition sdmbn_preprocess_packet (hdr pkt : bytes) (ctx : ProcessContext) : M (Lib json MB) ProcessContext :=
  lock_processing;;
  s ← get;
  m ← lift (matches_filter pkt (filters s));
  r ← match m with
      | None => add_to pkts_nofilter_count 1;; mret (0%Z, 0%Z)
      | Some f =>
        a ← lift (action f);
        match a with
        | EVENT_ACTION_BUFFER => buffer_packet f ctx hdr pkt
        | EVENT_ACTION_DROP => drop_packet f hdr pkt
        | EVENT_ACTION_PROCESS => add_to pkts_process_count 1;; mret (0%Z, int8 (id f))
        end
      end;
  when (negb (r.1 =? 0)%Z) unlock_processing;;
  mret (mkContext (injected ctx) (Some r.1) (Some r.2)).

Definition sdmbn_postprocess_packet (hdr pkt : bytes) (ctx : ProcessContext) : M (Lib json MB) () :=
  ev ← lift (event ctx);
  when (0 <? ev)%Z (sdmbn_raise_reprocess ev (-1) hdr pkt);;
  unlock_processing.
(** ** Removing a filter *)

(** [SDMBNLocals.process_packet], NULL if the program has none: the header and the
    bytes of a packet. *)
Context (process_packet : option (bytes → bytes → Lib json MB → option (Z * Lib json MB))).

(** [write_len] after a packet was given to the program, if it can be. *)
Definition inject (hdr pkt : bytes) (write_len : Z) : M (Lib json MB) Z :=
  match process_packet with
  | Some f => λ s, '(n, s) ← f hdr pkt s; Some (s, Some n)
  | None => mret write_len
  end.

(** The packets of a buffer are processed until it is empty; more may come in
    meanwhile.  [write_len] keeps its value from packet to packet. *)
Fixpoint release_loop (fuel : nat) (a : nat) (write_len : Z) : M (Lib json MB) () :=
  match fuel with
  | O => lift None
  | S fuel =>
    f ← (λ s, lift (filter_at a s) s);
    match buffer f with
    | [] => mret ()
    | (hdr, pkt) :: _ =>
      write_len ← inject hdr pkt write_len;
      when (0 <=? write_len)%Z (add_to pkts_release_count 1);;
      f ← (λ s, lift (filter_at a s) s);
      modify (put_filter (set_buffer (tail (buffer f)) f));;
      release_loop fuel a write_len
    end
  end.

(** The newest filter with exactly this key. *)
Definition find_filter (k : PerflowKey) (fs : list EventFilter) : option EventFilter :=
  List.find (λ f, bool_decide (key f = k)) fs.

Definition events_remove_filter (fuel : nat) (k : PerflowKey) : M (Lib json MB) () :=
  s ← get;
  match find_filter k (filters s) with
  | None => mret ()
  | Some f =>
    release_loop fuel (address f) (-1);;
    modify (λ s, set_filters (List.filter (λ g, negb (bool_decide (address g = address f))) (filters s)) s)
  end.

(** ** Messages *)

Definition send_error (c : conn) (i hashkey : Z) (cause : string) : M (Lib json MB) () := send c (json_compose_error i hashkey cause).

(** A member of a message that has to be there; otherwise the answer is an error and
    the handler returns. *)
Definition need (c : conn) (msg : json) (i hashkey : Z) (name : string) : M (Lib json MB) json :=
  match object_get msg name with
  | Some v => mret v
  | None => send_error c i hashkey "malformed";; stop
  end.

Definition handle_enable_events (msg : json) (i : Z) : M (Lib json MB) () :=
  key_field ← need Event_conn msg i (-1) "key";
  action_field ← need Event_conn msg i (-1) "action";
  events_add_filter (json_parse_perflow_key key_field) (get_string action_field) i;;
  send State_conn (json_compose_events_ack i).

Definition handle_disable_events (fuel : nat) (msg : json) (i : Z) : M (Lib json MB) () :=
  key_field ← need Event_conn msg i (-1) "key";
  events_remove_filter fuel (json_parse_perflow_key key_field);;
  send State_conn (json_compose_events_ack i).

Definition handle_reprocess_event (msg : json) (i : Z) : M (Lib json MB) () :=
  hashkey_field ← need Event_conn msg i (-1) "hashkey";
  let hashkey := get_int hashkey_field in
  header_field ← need Event_conn msg i hashkey "header";
  header ← lift (sdmbn_base64_decode (get_string header_field));
  packet_field ← need Event_conn msg i hashkey "packet";
  packet ← lift (sdmbn_base64_decode (get_string packet_field));
  add_to events_count 1;;
  call (inject header packet (-1)).

(** One message of the event connection.  A message without "id" or "type" is
    printed after its text was freed. *)
Definition event_message (msg : json) : M (Lib json MB) () :=
  id_field ← lift (object_get msg "id");
  type_field ← lift (object_get msg "type");
  let i := get_int id_field in
  if (get_string type_field =? "reprocess")%string then call (handle_reprocess_event msg i)
  else send_error Event_conn i (-1) "malformed".

End lib.

(** ** The program's side

    How PRADS, one of the programs that are changed for the library, processes a
    packet: [proc] is what it does itself.  [inj] is the member [injected] of the
    context, which nothing writes; the function that processes packets for the
    library has no return statement, [ret] is what it answers. *)
Section program.
Context {json MB : Type} `{JSON json}.
Context (cfg : SDMBNConfig) (proc : bytes → bytes → MB → MB).

Definition got_packet (inj : option Z) (hdr pkt : bytes) : M (Lib json MB) () :=
  ctx ← sdmbn_preprocess_packet hdr pkt (mkContext inj None None);
  st ← lift (stop_ ctx);
  if negb (st =? 0)%Z then stop
  else
    modify (λ s, set_mb (proc hdr pkt (mb s)) s);;
    sdmbn_notify_packet_received cfg;;
    sdmbn_postprocess_packet hdr pkt ctx.

Definition local_process_packet (inj : option Z) (ret : Z) (hdr pkt : bytes) (s : Lib json MB) : option (Z * Lib json MB) :=
  (λ s, (ret, s)) <$> run (got_packet inj hdr pkt) s.
(** Packets that arrive one after the other. *)
Fixpoint arrive (inj : option Z) (pkts : list (bytes * bytes)) : M (Lib json MB) () :=
  match pkts with
  | [] => mret ()
  | (hdr, pkt) :: pkts => call (got_packet inj hdr pkt);; arrive inj pkts
  end.
End program.

(** A notification always succeeds, and only counts and releases. *)
Lemma notify_received {json MB} cfg (s : Lib json MB) : ∃ s', sdmbn_notify_packet_received cfg s = Some (s', Some ()) ∧
  mb s' = mb s ∧ filters s' = filters s ∧ lock_processing_pkt s' = lock_processing_pkt s ∧ sent_msgs s' = sent_msgs s.
Proof.
  unfold sdmbn_notify_packet_received, add_to, when. rw bind_modify !bind_gets. cbv zeta.
  destruct (gets_wait cfg); [|by eexists]. destruct (_ =? _)%Z; [by eexists|]. destruct (_ =? _)%Z; by eexists.
Qed.

(** ** Buffers: properties *)

Section buffers.
Context {json MB : Type} `{HJ : JSON json} `{HI : INET}.
Implicit Types (s : Lib json MB) (f g : EventFilter).

(** Every filter has its own address. *)
Definition addresses_ok s : Prop := NoDup (address <$> filters s).

(** A packet that a filter buffers: it is the first that matches, the packet is
    captured as a whole and may be buffered. *)
Definition held s f (hp : bytes * bytes) : Prop :=
  matches_filter hp.2 (filters s) = Some (Some f) ∧ is_packet_flag_set hp.2 PACKET_FLAG_DO_NOT_BUFFER = Some false ∧
  caplen hp.1 = Z.of_nat (length hp.2).

(** What is left alone while packets are buffered and released. *)
Record still s s' : Prop := {
  still_mb : mb s' = mb s;
  still_filters : filters s' = filters s;
  still_lock : lock_processing_pkt s' = lock_processing_pkt s
}.
#[global] Instance still_preorder : PreOrder still.
Proof. split; [by split|]. intros s1 s2 s3 [] []. split; congruence. Qed.

Lemma filter_at_in s f : addresses_ok s → f ∈ filters s → filter_at (address f) s = Some f.
Proof. intros Hok Hf. by apply (find_by_key address). Qed.

Lemma first_match_in p fs f : first_match p fs = Some (Some f) → f ∈ fs.
Proof.
  induction fs as [|g fs IH]; [done|]. simpl. intros (b & _ & Hb)%bind_Some. destruct b; [injection Hb as ->; by left|right; auto].
Qed.
Lemma matches_in pkt fs f : matches_filter pkt fs = Some (Some f) → f ∈ fs.
Proof. destruct fs as [|g fs]; [done|]. unfold matches_filter. intros (p & _ & Hm)%bind_Some. by eapply first_match_in. Qed.

Definition replaced f : EventFilter → EventFilter := λ g, if bool_decide (address g = address f) then f else g.

Lemma replaced_address f g : address (replaced f g) = address g.
Proof. unfold replaced. by case_bool_decide. Qed.
Lemma put_addresses_ok s f : addresses_ok s → addresses_ok (put_filter f s).
Proof.
  unfold addresses_ok. simpl. rw -list_fmap_compose. rw (list_fmap_ext (address ∘ replaced f) address (filters s)); [done|].
  intros i g _. apply replaced_address.
Qed.

(** The matching does not look at the buffers. *)
Lemma first_match_replaced p f f' fs :
  NoDup (address <$> fs) → f ∈ fs → address f' = address f → key f' = key f →
  first_match p fs = Some (Some f) → first_match p (replaced f' <$> fs) = Some (Some f').
Proof.
  intros Hnd Hf Ha Hk. revert Hnd Hf. induction fs as [|g fs IH]; [done|]. rw !fmap_cons NoDup_cons. intros [Hg Hnd] Hf. cbn [first_match].
  destruct (decide (address g = address f)) as [Hag|Hag].
  - assert (g = f) as ->.
    { apply elem_of_cons in Hf as [->|Hf]; [done|]. destruct Hg. rw Hag. by apply list_elem_of_fmap_2. }
    assert (replaced f' f = f') as -> by (unfold replaced; by rw bool_decide_eq_true_2; [|congruence]).
    rw Hk. destruct (filter_ok (key f) p) as [[]|]; [done| |done]. intros Hm%first_match_in. destruct Hg. by apply list_elem_of_fmap_2.
  - assert (replaced f' g = g) as -> by (unfold replaced; by rw bool_decide_eq_false_2; [|congruence]).
    apply elem_of_cons in Hf as [->|Hf]; [done|]. destruct (filter_ok (key g) p) as [[]|]; [|by apply IH|done].
    intros [= ->]. done.
Qed.
Lemma held_put s f b hp :
  addresses_ok s → held s f hp → held (put_filter (set_buffer b f) s) (set_buffer b f) hp.
Proof.
  intros Hok (Hm & Hflag & Hlen). split; [|done]. pose proof (matches_in _ _ _ Hm) as Hf. simpl. revert Hm.
  unfold addresses_ok in Hok. revert Hok Hf. destruct (filters s) as [|g fs]; [done|]. intros Hok Hf. unfold matches_filter at 1.
  intros (p & Hp & Hm)%bind_Some. change (matches_filter hp.2 (replaced (set_buffer b f) <$> g :: fs) = Some (Some (set_buffer b f))).
  rw fmap_cons /matches_filter Hp. change (first_match p (replaced (set_buffer b f) <$> g :: fs) = Some (Some (set_buffer b f))).
  by apply (first_match_replaced _ f).
Qed.
Lemma held_still s s' f hp : filters s' = filters s → held s f hp → held s' f hp.
Proof. intros Hs (Hm & ?). split; [by rw Hs|done]. Qed.

Lemma put_twice s s' b b' f : filters s' = filters (put_filter (set_buffer b f) s) →
  filters (put_filter (set_buffer b' f) s') = filters (put_filter (set_buffer b' f) s).
Proof.
  simpl. intros ->. rw -list_fmap_compose. apply list_fmap_ext. intros i g _. unfold compose.
  destruct (decide (address g = address f)) as [Hg|Hg]; [|by rw !(bool_decide_eq_false_2 (address g = address f))].
  by rw !(bool_decide_eq_true_2 (address g = address f)) // bool_decide_eq_true_2.
Qed.

Lemma put_self s f b : addresses_ok s → f ∈ filters s → buffer f = b → filters (put_filter (set_buffer b f) s) = filters s.
Proof.
  intros Hok Hf <-. simpl. rw -{2}(list_fmap_id (filters s)). apply list_fmap_ext. intros i g Hg%list_elem_of_lookup_2.
  simpl. case_bool_decide as Hag; [|done]. assert (g = f) as ->; [by apply (NoDup_fmap_eq address (filters s))|by destruct f].
Qed.

Lemma put_in s f f' : f ∈ filters s → address f' = address f → f' ∈ filters (put_filter f' s).
Proof.
  intros Hf Ha. simpl. apply list_elem_of_fmap. exists f. split; [|done]. by rw Ha bool_decide_eq_true_2.
Qed.

(** A packet of a filter that buffers. *)
Lemma preprocess_held s f hdr pkt :
  lock_processing_pkt s = false → action f = Some EVENT_ACTION_BUFFER → held s f (hdr, pkt) →
  ∃ s', sdmbn_preprocess_packet hdr pkt (mkContext (Some 0%Z) None None) s = Some (s', Some (mkContext (Some 0%Z) (Some 1%Z) (Some (-1)%Z))) ∧
    still (put_filter (set_buffer (buffer f ++ [(hdr, pkt)]) f) s) s'.
Proof.
  intros Hl Ha (Hm & Hflag & Hlen). simpl in *.
  unfold sdmbn_preprocess_packet, lock_processing, update, mbind at 1, M_bind at 1. rw Hl. cbn [fmap option_fmap option_map].
  unfold get, mbind at 1, M_bind at 1. simpl. unfold lift. rw Hm. unfold mbind at 1, M_bind at 1. simpl. rw Ha. simpl.
  unfold buffer_packet, lift, mbind, M_bind. rw Hflag. simpl. unfold IP.slice. rw Hlen.
  rw decide_True; [|lia]. rw Nat2Z.id drop_0 firstn_all. simpl. eexists. split; [reflexivity|]. by split.
Qed.
Lemma preprocess_injected s f hdr pkt inj :
  lock_processing_pkt s = false → action f = Some EVENT_ACTION_BUFFER → held s f (hdr, pkt) → inj ≠ 0%Z →
  ∃ s', sdmbn_preprocess_packet hdr pkt (mkContext (Some inj) None None) s = Some (s', Some (mkContext (Some inj) (Some 0%Z) (Some 0%Z))) ∧
    still (set_lock_processing_pkt true s) s'.
Proof.
  intros Hl Ha (Hm & Hflag & Hlen) Hi. simpl in *.
  unfold sdmbn_preprocess_packet, lock_processing, update, mbind at 1, M_bind at 1. rw Hl. cbn [fmap option_fmap option_map].
  unfold get, mbind at 1, M_bind at 1. simpl. unfold lift. rw Hm. unfold mbind at 1, M_bind at 1. simpl. rw Ha. simpl.
  unfold buffer_packet, lift, mbind, M_bind. rw Hflag. simpl. rw (proj2 (Z.eqb_neq inj 0) Hi). simpl. eexists. by split.
Qed.

Context (cfg : SDMBNConfig) (proc : bytes → bytes → MB → MB).

Lemma got_held s f hdr pkt :
  lock_processing_pkt s = false → action f = Some EVENT_ACTION_BUFFER → held s f (hdr, pkt) →
  ∃ s', run (got_packet cfg proc (Some 0%Z) hdr pkt) s = Some s' ∧ still (put_filter (set_buffer (buffer f ++ [(hdr, pkt)]) f) s) s'.
Proof.
  intros Hl Ha Hh. destruct (preprocess_held s f hdr pkt Hl Ha Hh) as (s' & Hr & Hs). exists s'. split; [|done].
  unfold run, got_packet, mbind, M_bind. by rw Hr.
Qed.

Lemma got_injected s f hdr pkt inj :
  lock_processing_pkt s = false → action f = Some EVENT_ACTION_BUFFER → held s f (hdr, pkt) → inj ≠ 0%Z →
  ∃ s', run (got_packet cfg proc (Some inj) hdr pkt) s = Some s' ∧ still (set_mb (proc hdr pkt (mb s)) s) s'.
Proof.
  intros Hl Ha Hh Hi. destruct (preprocess_injected s f hdr pkt inj Hl Ha Hh Hi) as (s' & Hr & [Hm Hf _]).
  destruct (notify_received cfg (set_mb (proc hdr pkt (mb s')) s')) as (s2 & Hn & Hm2 & Hf2 & _).
  eexists. split.
  { unfold run, got_packet, mbind, M_bind. rw Hr. simpl. unfold modify. rw Hn. reflexivity. }
  split; simpl in *; [by rw Hm2 Hm|by rw Hf2|done].
Qed.

(** The packets that arrive for a filter are appended to its buffer. *)
Lemma arrive_held pkts : ∀ s f,
  addresses_ok s → lock_processing_pkt s = false → action f = Some EVENT_ACTION_BUFFER → f ∈ filters s → Forall (held s f) pkts →
  ∃ s', run (arrive cfg proc (Some 0%Z) pkts) s = Some s' ∧ still (put_filter (set_buffer (buffer f ++ pkts) f) s) s'.
Proof.
  induction pkts as [|[hdr pkt] pkts IH]; intros s f Hok Hl Ha Hf Hh.
  - exists s. split; [done|]. split; [done| |done]. rw app_nil_r. by rw put_self.
  - apply Forall_cons in Hh as [Hh1 Hh]. destruct (got_held s f hdr pkt Hl Ha Hh1) as (s1 & Hr1 & [Hm1 Hf1 Hl1]).
    set (f1 := set_buffer (buffer f ++ [(hdr, pkt)]) f) in *.
    destruct (IH s1 f1) as (s2 & Hr2 & [Hm2 Hf2 Hl2]).
    + unfold addresses_ok. rw Hf1. by apply (put_addresses_ok s f1).
    + by rw Hl1.
    + done.
    + rw Hf1. by apply (put_in s f f1).
    + eapply Forall_impl; [exact Hh|]. intros hp Hhp. eapply held_still; [exact Hf1|]. by apply held_put.
    + exists s2. split.
      * unfold run in *. cbn [arrive]. unfold call, mbind, M_bind.
        destruct (got_packet cfg proc (Some 0%Z) hdr pkt s) as [[s1' r]|]; [|done]. simpl in Hr1. injection Hr1 as ->. simpl.
        by destruct (arrive cfg proc (Some 0%Z) pkts s1) as [[s2' r']|].
      * split; [by rw Hm2 /= Hm1| |by rw Hl2 /= Hl1]. rw Hf2 -(put_twice s s1 _ (buffer f ++ (hdr, pkt) :: pkts) f Hf1).
        unfold f1. simpl. by rw -app_assoc.
Qed.

(** One pass of the loop. *)
Lemma release_step process fuel a wl s f hdr pkt b n s1 f1 :
  filter_at a s = Some f → buffer f = (hdr, pkt) :: b → process hdr pkt s = Some (n, s1) → filter_at a s1 = Some f1 →
  ∃ s2, still (put_filter (set_buffer (tail (buffer f1)) f1) s1) s2 ∧
    release_loop (Some process) (S fuel) a wl s = release_loop (Some process) fuel a n s2.
Proof.
  intros Hf Hb Hp Hf1. set (s1' := if (0 <=? n)%Z then set_stats (λ c, if decide (pkts_release_count = c) then int32 (stats s1 c + 1) else stats s1 c) s1 else s1).
  assert (still s1 s1') as Hs by (unfold s1'; by destruct (0 <=? n)%Z).
  assert (filter_at a s1' = Some f1) as Hf1' by (unfold filter_at; by rw (still_filters _ _ Hs)).
  exists (put_filter (set_buffer (tail (buffer f1)) f1) s1'). split.
  { destruct Hs as [? Hfs ?]. split; [done| |done]. simpl. by rw Hfs. }
  cbn [release_loop]. unfold mbind at 1, M_bind at 1. unfold lift at 1. rw Hf. simpl. rw Hb.
  unfold inject, mbind at 1, M_bind at 1. rw Hp. simpl. unfold mbind at 1, M_bind at 1.
  assert (when (0 <=? n)%Z (add_to pkts_release_count 1) s1 = Some (s1', Some ())) as -> by (unfold s1'; by destruct (0 <=? n)%Z).
  unfold mbind at 1, M_bind at 1. unfold lift at 1. by rw Hf1'.
Qed.

(** Packets that the library is told of are processed in order. *)
Lemma release_injected fuel inj ret s f wl :
  addresses_ok s → lock_processing_pkt s = false → action f = Some EVENT_ACTION_BUFFER → f ∈ filters s → Forall (held s f) (buffer f) →
  inj ≠ 0%Z → length (buffer f) < fuel →
  ∃ s', release_loop (Some (local_process_packet cfg proc (Some inj) ret)) fuel (address f) wl s = Some (s', Some ()) ∧
    still (set_mb (foldl (λ m hp, proc hp.1 hp.2 m) (mb s) (buffer f)) (put_filter (set_buffer [] f) s)) s'.
Proof.
  intros Hok Hl Ha Hf Hh Hi. revert s f wl Hok Hl Ha Hf Hh. induction fuel as [|fuel IH]; [lia|]. intros s f wl Hok Hl Ha Hf Hh Hfuel.
  destruct (buffer f) as [|[hdr pkt] b] eqn:Hb.
  { exists s. split; [|split; [done|by rw (put_self s f []) //|done]]. cbn [release_loop]. unfold mbind at 1, M_bind at 1.
    unfold lift at 1. rw (filter_at_in s f Hok Hf). simpl. by rw Hb. }
  apply Forall_cons in Hh as [Hh1 Hh]. destruct (got_injected s f hdr pkt inj Hl Ha Hh1 Hi) as (s1 & Hr1 & [Hm1 Hf1 Hl1]).
  destruct (release_step (local_process_packet cfg proc (Some inj) ret) fuel (address f) wl s f hdr pkt b ret s1 f) as (s2 & [Hm2 Hf2 Hl2] & ->).
  { by apply filter_at_in. } { done. } { unfold local_process_packet. by rw Hr1. }
  { unfold filter_at. rw Hf1. by apply (filter_at_in s). }
  rw Hb /= in Hf2. set (f2 := set_buffer b f) in *.
  assert (filters s2 = filters (put_filter f2 s)) as Hfs by (by rw Hf2 /= Hf1).
  destruct (IH s2 f2 ret) as (s3 & Hr3 & [Hm3 Hf3 Hl3]).
  - unfold addresses_ok. rw Hfs. by apply (put_addresses_ok s f2).
  - by rw Hl2 /= Hl1.
  - done.
  - rw Hfs. by apply (put_in s f f2).
  - eapply Forall_impl; [exact Hh|]. intros hp Hhp. eapply held_still; [exact Hfs|]. by apply held_put.
  - simpl in *. lia.
  - exists s3. split; [exact Hr3|]. split; [by rw Hm3 /= Hm2 /= Hm1| |by rw Hl3 /= Hl2 /= Hl1].
    rw Hf3. exact (put_twice s s2 _ [] f Hfs).
Qed.

(** A filter that buffers, the newest with its key, and the packets it holds. *)
Record collecting s f : Prop := {
  col_addresses : addresses_ok s;
  col_lock : lock_processing_pkt s = false;
  col_action : action f = Some EVENT_ACTION_BUFFER;
  col_newest : find_filter (key f) (filters s) = Some f;
  col_held : Forall (held s f) (buffer f)
}.

Lemma find_filter_in k fs f : find_filter k fs = Some f → f ∈ fs ∧ key f = k.
Proof. unfold find_filter. by intros [Hf%list_elem_of_In Hk%bool_decide_eq_true]%List.find_some. Qed.

Lemma find_filter_put s b f :
  addresses_ok s → find_filter (key f) (filters s) = Some f → find_filter (key f) (filters (put_filter (set_buffer b f) s)) = Some (set_buffer b f).
Proof.
  unfold addresses_ok, find_filter. simpl. induction (filters s) as [|g fs IH]; [done|]. rw fmap_cons NoDup_cons. intros [Hg Hnd]. simpl.
  case_bool_decide as Hk.
  - intros [= ->]. rw (bool_decide_eq_true_2 (address f = address f)) //. simpl. by rw bool_decide_eq_true_2.
  - intros Hf. assert (address g ≠ address f) as Ha.
    { intros Ha. destruct Hg. rw Ha. apply list_elem_of_fmap_2. by apply find_filter_in in Hf as [? _]. }
    rw (bool_decide_eq_false_2 (address g = address f)) // (bool_decide_eq_false_2 (key g = key f)) //. by apply IH.
Qed.

Lemma collecting_put s s' b f :
  collecting s f → Forall (held s f) b → still (put_filter (set_buffer b f) s) s' → collecting s' (set_buffer b f).
Proof.
  intros [Hok Hl Ha Hn Hh] Hb [_ Hf Hl']. split; [|by rw Hl'|done| |].
  - unfold addresses_ok. rw Hf. by apply (put_addresses_ok s (set_buffer b f)).
  - rw Hf. change (key (set_buffer b f)) with (key f). by apply find_filter_put.
  - eapply Forall_impl; [exact Hb|]. intros hp Hhp. eapply held_still; [exact Hf|]. by apply held_put.
Qed.

(** The filters but the one at an address. *)
Definition others (a : nat) (fs : list EventFilter) : list EventFilter := List.filter (λ g, negb (bool_decide (address g = a))) fs.

Lemma others_replaced f fs : others (address f) (replaced f <$> fs) = others (address f) fs.
Proof.
  induction fs as [|g fs IH]; [done|]. rw fmap_cons. unfold others in *. simpl. rw replaced_address. case_bool_decide as Hg; simpl; [done|].
  rw IH. unfold replaced. by rw bool_decide_eq_false_2.
Qed.

(** C2. Packets of a flow that is being moved wait in order: those that arrive while
    a filter buffers them are not processed; when the filter is removed, and the
    program tells the library which packets it gets from it, each of them is
    processed once, in the order in which they arrived, and the filter, and only
    it, is gone. *)
Theorem buffered_packets_in_order s f pkts inj ret fuel :
  collecting s f → Forall (held s f) pkts → inj ≠ 0%Z → length (buffer f ++ pkts) < fuel →
  ∃ s1 s2, run (arrive cfg proc (Some 0%Z) pkts) s = Some s1 ∧
    mb s1 = mb s ∧ filter_at (address f) s1 = Some (set_buffer (buffer f ++ pkts) f) ∧
    run (events_remove_filter (Some (local_process_packet cfg proc (Some inj) ret)) fuel (key f)) s1 = Some s2 ∧
    mb s2 = foldl (λ m hp, proc hp.1 hp.2 m) (mb s) (buffer f ++ pkts) ∧
    filters s2 = others (address f) (filters s).
Proof.
  intros Hc Hp Hi Hfuel. pose proof Hc as [Hok Hl Ha Hn Hh]. destruct (find_filter_in _ _ _ Hn) as [Hf _].
  destruct (arrive_held pkts s f Hok Hl Ha Hf Hp) as (s1 & Hr1 & Hs1). set (f1 := set_buffer (buffer f ++ pkts) f) in *.
  assert (collecting s1 f1) as [Hok1 Hl1 Ha1 Hn1 Hh1] by (eapply collecting_put; [exact Hc|by apply Forall_app|done]).
  destruct (find_filter_in _ _ _ Hn1) as [Hf1 _].
  destruct (release_injected fuel inj ret s1 f1 (-1) Hok1 Hl1 Ha1 Hf1 Hh1 Hi Hfuel) as (s2 & Hr2 & [Hm2 Hf2 _]).
  eexists s1, _. split; [done|]. split; [apply Hs1|]. split; [by apply (filter_at_in s1 f1)|].
  change (key f) with (key f1). unfold events_remove_filter, get, run, mbind, M_bind. rw Hn1 Hr2. split; [reflexivity|]. simpl. split.
  - rw Hm2. simpl. by destruct Hs1 as [-> _ _].
  - rw Hf2. change (others (address f1) (replaced (set_buffer [] f1) <$> filters s1) = others (address f) (filters s)).
    rw (others_replaced (set_buffer [] f1)). destruct Hs1 as [_ -> _]. exact (others_replaced f1 (filters s)).
Qed.

(** A context of which [injected] was not written cannot be looked at. *)
Lemma got_unwritten s f hdr pkt :
  lock_processing_pkt s = false → action f = Some EVENT_ACTION_BUFFER → held s f (hdr, pkt) → got_packet cfg proc None hdr pkt s = None.
Proof.
  intros Hl Ha (Hm & Hflag & _). simpl in *. unfold got_packet, sdmbn_preprocess_packet, lock_processing, update.
  unfold mbind at 1, M_bind at 1. unfold mbind at 1, M_bind at 1. rw Hl. cbn [fmap option_fmap option_map].
  unfold get, mbind at 1, M_bind at 1. simpl. unfold lift at 1. rw Hm. unfold mbind at 1, M_bind at 1. simpl. rw Ha. simpl.
  unfold buffer_packet, lift, mbind, M_bind. by rw Hflag.
Qed.

Lemma release_stuck fuel inj ret : inj = None ∨ inj = Some 0%Z → ∀ s f wl,
  collecting s f → buffer f ≠ [] → release_loop (Some (local_process_packet cfg proc inj ret)) fuel (address f) wl s = None.
Proof.
  intros Hi. induction fuel as [|fuel IH]; [done|]. intros s f wl Hc Hne. pose proof Hc as [Hok Hl Ha Hn Hh].
  destruct (find_filter_in _ _ _ Hn) as [Hf _]. destruct (buffer f) as [|[hdr pkt] b] eqn:Hb; [done|].
  pose proof Hh as [Hh1 Hh2]%Forall_cons. destruct Hi as [->| ->].
  { cbn [release_loop]. unfold mbind at 1, M_bind at 1. unfold lift at 1. rw (filter_at_in s f Hok Hf). simpl. rw Hb.
    unfold inject, mbind at 1, M_bind at 1. unfold local_process_packet, run. by rw (got_unwritten s f). }
  destruct (got_held s f hdr pkt Hl Ha Hh1) as (s1 & Hr1 & Hs1). set (f1 := set_buffer (buffer f ++ [(hdr, pkt)]) f) in *.
  assert (collecting s1 f1) as Hc1.
  { eapply collecting_put; [exact Hc| |exact Hs1]. rw Hb. apply Forall_app. split; [done|by apply Forall_singleton]. }
  destruct (release_step (local_process_packet cfg proc (Some 0%Z) ret) fuel (address f) wl s f hdr pkt b ret s1 f1) as (s2 & Hs2 & ->).
  { by apply filter_at_in. } { done. } { unfold local_process_packet. by rw Hr1. }
  { destruct Hc1 as [Hok1 _ _ Hn1 _]. destruct (find_filter_in _ _ _ Hn1) as [Hf1 _]. by apply (filter_at_in s1 f1). }
  apply (IH s2 (set_buffer (tail (buffer f1)) f1)).
  - eapply collecting_put; [exact Hc1| |exact Hs2]. destruct Hc1 as [_ _ _ _ Hh']. destruct (buffer f1); [done|]. by apply Forall_cons in Hh' as [_ ?].
  - unfold f1. simpl. rw Hb. simpl. by destruct b.
Qed.

(** C34. Nothing tells the library which packets the program gets from it: the member
    [injected] of the context is never written.  If it reads as 0, a packet that is
    released is matched by the filter again and appended to the buffer it was taken
    from, so removing a filter that holds packets never ends; nor does it have a
    result when the member is looked at unwritten. *)
Theorem release_never_ends s f inj ret fuel :
  collecting s f → buffer f ≠ [] → inj = None ∨ inj = Some 0%Z →
  events_remove_filter (Some (local_process_packet cfg proc inj ret)) fuel (key f) s = None.
Proof.
  intros Hc Hne Hi. unfold events_remove_filter, get, mbind at 1, M_bind at 1. rw (col_newest _ _ Hc).
  unfold mbind, M_bind. by rw (release_stuck fuel inj ret Hi s f (-1)).
Qed.

End buffers.

(** ** Events and filters: properties *)

Section events.
Context {json MB : Type} `{HJ : JSON json} `{HJL : !JSONLaws json} `{HI : INET} `{HIL : !INETLaws}.
Context (cfg : SDMBNConfig) (proc : bytes → bytes → MB → MB).
Implicit Types (s : Lib json MB) (f g : EventFilter).

(** The id of the request for events is kept in a [char]: a packet that a filter
    processes with events is processed, and the event that follows bears the id as
    a signed byte; there is none if that is not positive, as for the ids from 128 to
    256. *)
Theorem event_ids_truncated s g inj hdr pkt s' :
  matches_filter pkt (filters s) = Some (Some g) → action g = Some EVENT_ACTION_PROCESS →
  run (got_packet cfg proc inj hdr pkt) s = Some s' →
  mb s' = proc hdr pkt (mb s) ∧
  (if (0 <? int8 (id g))%Z
   then ∃ ev, json_compose_reprocess_event (int8 (id g)) (-1) hdr pkt = Some ev ∧ sent_msgs s' = sent_msgs s ++ [(Event_conn, ev)]
   else sent_msgs s' = sent_msgs s) ∧
  ((128 ≤ id g ≤ 256)%Z → sent_msgs s' = sent_msgs s).
Proof.
  intros Hm Ha. unfold run, got_packet, sdmbn_preprocess_packet, lock_processing, update. unfold mbind at 1, M_bind at 1.
  unfold mbind at 1, M_bind at 1. destruct (lock_processing_pkt s) eqn:Hl; [done|]. cbn [fmap option_fmap option_map].
  unfold get, mbind at 1, M_bind at 1. simpl. unfold lift at 1. rw Hm. unfold mbind at 1, M_bind at 1. simpl. rw Ha. simpl.
  assert ((128 ≤ id g ≤ 256)%Z → (0 <? int8 (id g))%Z = false) as Hid.
  { intros Hid. apply Z.ltb_ge. unfold int8, wrap_s. Z.div_mod_to_equations. lia. }
  unfold mbind at 1, M_bind at 1. simpl. unfold mbind at 1, M_bind at 1. unfold mbind at 1, M_bind at 1. unfold modify.
  match goal with |- context [sdmbn_notify_packet_received cfg ?x] => destruct (notify_received cfg x) as (s2 & Hn & Hm2 & _ & _ & Hs2) end.
  rw Hn. simpl in Hm2, Hs2. destruct (0 <? int8 (id g))%Z eqn:Hpos.
  - unfold sdmbn_postprocess_packet, when, lift, mbind, M_bind. simpl. rw Hpos. unfold sdmbn_raise_reprocess, lift, mbind, M_bind.
    destruct (json_compose_reprocess_event (int8 (id g)) (-1) hdr pkt) as [ev|] eqn:Hev; [|done]. simpl.
    intros [= <-]. simpl. split_and!; [done|exists ev; by rw Hs2|intros Hr; by apply Hid in Hr].
  - unfold sdmbn_postprocess_packet, when, lift, mbind, M_bind. simpl. rw Hpos. intros [= <-]. simpl. by rw Hm2 Hs2.
Qed.

(** An event carries its packet: what one instance raises for a packet, another
    one that gets the message processes, with the same header and the same bytes. *)
Theorem reprocess_roundtrip i h hdr pkt :
  Forall (λ x, 0 ≤ x < 256)%Z (hdr ++ pkt) → Z.of_nat (length hdr) = sizeof_pkthdr → caplen hdr = Z.of_nat (length pkt) →
  (0 < Z.of_nat (length pkt) < 2 ^ 30)%Z →
  ∃ ev, json_compose_reprocess_event i h hdr pkt = Some ev ∧
    ∀ process s, run (event_message (Some process) ev) s =
      snd <$> process hdr pkt (set_stats (λ c, if decide (events_count = c) then int32 (stats s c + 1) else stats s c) s).
Proof.
  intros [Hh Hp]%Forall_app Hlh Hcap Hlp.
  assert (∀ l : bytes, (0 < Z.of_nat (length l) < 2 ^ 30)%Z →
    json_compose_base64_field l (Z.of_nat (length l)) = Some (new_string (encode_loop l))) as Hfield.
  { intros l Hl. unfold json_compose_base64_field. by rw (encode_whole l Hl). }
  set (fields := [("type", new_string "reprocess"); ("id", new_int i); ("hashkey", new_int h);
    ("header", new_string (encode_loop hdr)); ("packet", new_string (encode_loop pkt))]).
  exists (object fields). split.
  { unfold json_compose_reprocess_event. rw (int32_small (caplen hdr)); [|lia]. rw Hcap.
    assert (json_compose_base64_field hdr sizeof_pkthdr = Some (new_string (encode_loop hdr))) as ->
      by (rw -Hlh; apply Hfield; unfold sizeof_pkthdr in Hlh; lia).
    rw (Hfield pkt Hlp). reflexivity. }
  assert (∀ k v, foldl (λ r kv, if (kv.1 =? k)%string then Some kv.2 else r) None fields = Some v → object_get (object fields) k = Some v) as Hg
    by (intros k v <-; apply get_field).
  intros process s. unfold event_message, run. rw (Hg "id" (new_int i) eq_refl) bind_lift (Hg "type" _ eq_refl) bind_lift.
  cbv zeta. rw get_string_new. change ("reprocess" =? "reprocess")%string with true. cbv iota.
  unfold call, handle_reprocess_event, need. rw (Hg "hashkey" _ eq_refl) bind_mret. cbv zeta.
  rw (Hg "header" _ eq_refl) bind_mret get_string_new (proj1 (decode_encode hdr Hh)) bind_lift.
  rw (Hg "packet" _ eq_refl) bind_mret get_string_new (proj1 (decode_encode pkt Hp)) bind_lift.
  unfold add_to. rw bind_modify. unfold inject, call. by destruct (process hdr pkt _) as [[n s1]|].
Qed.
(** A key of a message that only gives one member. *)
Definition only (name : string) (v : json) : PerflowKey := json_parse_perflow_key (object [(name, v)]).

Lemma build_packet_key_src pkt p :
  build_packet_key pkt = Some p → ∃ x, IP.get32 pkt 26 = Some x ∧ nw_src p = Some x ∧ tp_flip p = None.
Proof.
  unfold build_packet_key. intros (dl & _ & Hr)%bind_Some. destruct (negb (dl =? ETHERTYPE_IP)%Z); [done|].
  apply bind_Some in Hr as (x & Hx & (dst & _ & (proto & _ & (vhl & _ & Hr)%bind_Some)%bind_Some)%bind_Some).
  exists x. split; [done|]. destruct ((proto =? IPPROTO_TCP)%Z || (proto =? IPPROTO_UDP)%Z); [|by injection Hr as <-].
  by apply bind_Some in Hr as (sp & _ & (dp & _ & (d & _ & [= <-])%bind_Some)%bind_Some).
Qed.

Lemma only_nw_src v : only "nw_src" v = mkPerflowKey (default 0%Z (inet_aton (get_string v))) 0%Z 0%Z 0%Z 0%Z 0%Z 0%Z 0%Z 253 0%Z.
Proof. unfold only, json_parse_perflow_key, received, absent. rw !get_field. reflexivity. Qed.
Lemma only_tp_dst v : only "tp_dst" v = mkPerflowKey 0%Z 0%Z 0%Z 0%Z 0%Z (NU.htons (get_int v)) 0%Z 0%Z 223 0%Z.
Proof. unfold only, json_parse_perflow_key, received, absent. rw !get_field. reflexivity. Qed.

(** A filter that only looks at one member. *)
Definition looks_at (k : PerflowKey) (bit : Z) : Prop :=
  ∀ w, w ∈ [WILDCARD_DL_TYPE; WILDCARD_NW_SRC; WILDCARD_NW_SRC_MASK; WILDCARD_NW_DST; WILDCARD_NW_DST_MASK; WILDCARD_NW_PROTO;
    WILDCARD_TP_SRC; WILDCARD_TP_DST] → wild k w = negb (w =? bit)%Z.

Lemma filter_src_only k p : looks_at k WILDCARD_NW_SRC →
  filter_ok k p = (x ← nw_src p; Some (Z.land (nw_src k) 0xFFFFFFFF =? Z.land x 0xFFFFFFFF)%Z).
Proof.
  intros Hw. unfold filter_ok, addr_mask, member_ok, addr_ok, port_ok. rw !Hw; [|set_solver..]. set (M := 0xFFFFFFFF%Z).
  cbn -[Z.land M]. destruct (nw_src p) as [x|]; [|done]. cbn -[Z.land M]. by destruct (Z.land _ M =? Z.land x M)%Z.
Qed.
Lemma filter_dst_only k p : looks_at k WILDCARD_TP_DST →
  filter_ok k p = port_ok false (tp_dst k) (tp_src k) (tp_dst p) (tp_flip p).
Proof.
  intros Hw. unfold filter_ok, addr_mask, member_ok, addr_ok. rw !Hw; [|set_solver..]. by destruct (port_ok _ _ _ _ _).
Qed.

Lemma only_looks_at y z :
  looks_at (mkPerflowKey y 0%Z 0%Z 0%Z 0%Z 0%Z 0%Z 0%Z 253 0%Z) WILDCARD_NW_SRC ∧
  looks_at (mkPerflowKey 0%Z 0%Z 0%Z 0%Z 0%Z z 0%Z 0%Z 223 0%Z) WILDCARD_TP_DST.
Proof. split; intros w Hw; repeat (apply elem_of_cons in Hw as [->|Hw]; [reflexivity|]); by apply elem_of_nil in Hw. Qed.

(** The two byte orders of an address. *)
Lemma word_at_reversed l x : Forall (λ x, 0 ≤ x < 256)%Z l → IP.get32 l 0 = Some x →
  ∀ a b c d, Forall (λ x, 0 ≤ x < 256)%Z [a; b; c; d] → length l = 4 → word_at [a; b; c; d] 0 = x ↔ l = [d; c; b; a].
Proof.
  intros Hl Hx a b c d Ha Hlen. destruct l as [|p [|q [|r [|t [|]]]]]; try done.
  injection Hx as <-. repeat (apply Forall_cons in Hl as [? Hl]). repeat (apply Forall_cons in Ha as [? Ha]).
  unfold word_at. simpl. split; [|intros [= -> -> -> ->]; lia]. intros He.
  assert (a = t ∧ b = r ∧ c = q ∧ d = p) as (-> & -> & -> & ->); [lia|done].
Qed.

(** The addresses of filters and packets are compared in different byte orders:
    a filter for the address a.b.c.d, as the controller writes it, selects the
    packets from d.c.b.a and no others; and a filter for a port selects the packets
    to the port with its two bytes exchanged, and has no defined result for any
    other port, since [tp_flip] of the packet's key was never written. *)
Theorem filter_selects_reversed a b c d n pkt p x :
  Forall (λ x, 0 ≤ x < 256)%Z ([a; b; c; d] ++ pkt) → (0 ≤ n < 65536)%Z → build_packet_key pkt = Some p →
  (∀ src, IP.slice pkt 26 4 = Some src →
     filter_ok (only "nw_src" (new_string (inet_ntoa (word_at [a; b; c; d] 0)))) p = Some (bool_decide (src = [d; c; b; a]))) ∧
  (tp_dst p = Some x → filter_ok (only "tp_dst" (new_int n)) p = if (x =? NU.htons n)%Z then Some true else None).
Proof.
  intros [Ha Hpkt]%Forall_app Hn Hp. destruct (build_packet_key_src _ _ Hp) as (y & Hy & Hsrc & Hflip). split.
  - intros src Hs. rw only_nw_src get_string_new. assert (0 ≤ word_at [a; b; c; d] 0 < 2 ^ 32)%Z as Hw.
    { repeat (apply Forall_cons in Ha as [? Ha]). unfold word_at. simpl. lia. }
    rw inet_aton_ntoa //. rw (filter_src_only _ p (proj1 (only_looks_at _ 0%Z))) Hsrc /=.
    assert (Forall (λ x, 0 ≤ x < 256)%Z src ∧ length src = 4 ∧ IP.get32 src 0 = Some y) as (Hb & Hl & Hg).
    { revert Hs Hy. unfold IP.slice. case_decide as Hd; [|done]. intros [= <-] Hy. split; [by apply Forall_take, Forall_drop|].
      split; [rw length_take_le // length_drop; lia|]. rw -Hy. unfold IP.get32, IP.get16, IP.get8. simpl.
      by rw !lookup_take_lt ?lookup_drop; try lia. }
    assert (0 ≤ y < 2 ^ 32)%Z as Hyb.
    { revert Hy. unfold IP.get32. intros (u & Hu & (v & Hv & [= <-])%bind_Some)%bind_Some.
      apply (IP.get16_bounds _ _ _ Hpkt) in Hu, Hv. lia. }
    f_equal. change 0xFFFFFFFF%Z with (Z.ones 32). rw !Z.land_ones // !Z.mod_small //.
    apply eq_true_iff_eq. rw Z.eqb_eq bool_decide_eq_true. by apply word_at_reversed.
  - intros Hx. rw only_tp_dst get_int_new; [|lia]. rw (filter_dst_only _ p (proj2 (only_looks_at 0%Z _))). unfold port_ok.
    rw Hx Hflip /= Z.eqb_sym. by destruct (x =? NU.htons n)%Z.
Qed.
End events.

(** ** Concrete packets *)

(** Ethernet, IPv4 and the first bytes of TCP: from [src] to port 80. *)
Definition frame (src : bytes) (port : Z) : bytes :=
  [0; 1; 2; 3; 4; 5; 6; 7; 8; 9; 10; 11; 8; 0]%Z ++
  [69; 0; 0; 40; 0; 1; 64; 0; 64; 6; 0; 0]%Z ++ src ++ [10; 0; 0; 2]%Z ++
  [156; 64; port / 256; port mod 256; 0; 0; 0; 1; 0; 0; 0; 0; 80; 2; 255; 255; 0; 0; 0; 0]%Z.
Definition header : bytes := (replicate 16 0 ++ [54; 0; 0; 0; 54; 0; 0; 0])%Z.

Definition http : bytes * bytes := (header, frame [10; 0; 0; 1]%Z 80).
Definition https : bytes * bytes := (header, frame [10; 0; 0; 1]%Z 443).

Definition tcp_key : PerflowKey :=
  (mkPerflowKey 0 0 0 0 0 0 0 6 (without WILDCARD_ALL WILDCARD_NW_PROTO) 0)%Z.
Definition tcp_filter (a : Action) (i : Z) (b : list (bytes * bytes)) : EventFilter := mkFilter 1 tcp_key (Some a) i b.

Definition unlimited : SDMBNConfig := mkConfig (-1) (-1) (-1).

(** The program notes the ports of the packets it processes. *)
Definition noting (hdr pkt : bytes) (m : list bytes) : list bytes := m ++ [default [] (IP.slice pkt 36 2)].
Definition with_filters (fs : list EventFilter) : Lib jval (list bytes) := mkLib [] fs 5 false false (λ _, 0%Z) [].

Lemma collecting_sample b : Forall (held (with_filters [tcp_filter EVENT_ACTION_BUFFER 7 b]) (tcp_filter EVENT_ACTION_BUFFER 7 b)) b →
  collecting (with_filters [tcp_filter EVENT_ACTION_BUFFER 7 b]) (tcp_filter EVENT_ACTION_BUFFER 7 b).
Proof. split; [apply NoDup_singleton|done|done| |done]. simpl. unfold find_filter. simpl. reflexivity. Qed.

(** Two packets wait for a filter, and are processed when it goes. *)
Lemma buffered_packets_in_order_witness :
  let f := tcp_filter EVENT_ACTION_BUFFER 7 [] in let s := with_filters [f] in
  ∃ s1 s2, run (arrive unlimited noting (Some 0%Z) [http; https]) s = Some s1 ∧ mb s1 = [] ∧
    run (events_remove_filter (Some (local_process_packet unlimited noting (Some 1%Z) 0)) 3 tcp_key) s1 = Some s2 ∧
    mb s2 = [[0; 80]; [1; 187]]%Z ∧ filters s2 = [].
Proof.
  intros f s. destruct (buffered_packets_in_order unlimited noting s f [http; https] 1 0 3) as (s1 & s2 & H1 & H2 & _ & H4 & H5 & H6).
  - apply collecting_sample. constructor.
  - repeat constructor.
  - done.
  - simpl. lia.
  - exists s1, s2. split_and!; [exact H1|exact H2|exact H4|rw H5; vm_compute; reflexivity|rw H6; reflexivity].
Defined.

Lemma release_never_ends_witness :
  let f := tcp_filter EVENT_ACTION_BUFFER 7 [http] in
  events_remove_filter (Some (local_process_packet unlimited noting (Some 0%Z) 0)) 100 tcp_key (with_filters [f]) = None.
Proof.
  apply (release_never_ends unlimited noting (with_filters [tcp_filter EVENT_ACTION_BUFFER 7 [http]]) (tcp_filter EVENT_ACTION_BUFFER 7 [http]));
    [|done|by right].
  apply collecting_sample. repeat constructor.
Defined.

(** A filter of request 200 processes a packet, and no event follows. *)
Lemma event_ids_truncated_witness :
  let s := with_filters [tcp_filter EVENT_ACTION_PROCESS 200 []] in
  ∃ s', run (got_packet unlimited noting None header (frame [10; 0; 0; 1]%Z 80)) s = Some s' ∧ mb s' = [[0; 80]]%Z ∧ sent_msgs s' = [].
Proof.
  intros s. assert (bool_decide (is_Some (run (got_packet unlimited noting None header (frame [10; 0; 0; 1]%Z 80)) s)) = true) as [s' Hr]%bool_decide_eq_true
    by (vm_compute; reflexivity).
  exists s'. split; [exact Hr|].
  destruct (event_ids_truncated unlimited noting s (tcp_filter EVENT_ACTION_PROCESS 200 []) None header (frame [10; 0; 0; 1]%Z 80) s')
    as (Hm & _ & Hs); [vm_compute; reflexivity|reflexivity|exact Hr|]. rw Hm Hs; [|simpl; lia]. by split.
Defined.

Lemma reprocess_roundtrip_witness :
  ∃ ev : jval, json_compose_reprocess_event 5 (-1) header (frame [10; 0; 0; 1]%Z 80) = Some ev ∧
    mb <$> run (event_message (Some (local_process_packet unlimited noting (Some 1%Z) 0)) ev) (with_filters []) = Some [[0; 80]]%Z.
Proof.
  destruct (reprocess_roundtrip (json := jval) (MB := list bytes) 5 (-1) header (frame [10; 0; 0; 1]%Z 80)) as (ev & Hev & Hp);
    [apply (bool_decide_unpack _); vm_compute; reflexivity|done|done|simpl; lia|].
  exists ev. split; [exact Hev|]. rw Hp. vm_compute. reflexivity.
Defined.

(** A filter for 1.0.0.10 selects a packet from 10.0.0.1. *)
Lemma filter_selects_reversed_witness :
  (p ← build_packet_key (frame [10; 0; 0; 1]%Z 80); filter_ok (only "nw_src" (JString "1.0.0.10")) p) = Some true ∧
  (p ← build_packet_key (frame [10; 0; 0; 1]%Z 80); filter_ok (only "tp_dst" (JInt 80)) p) = None.
Proof.
  destruct (build_packet_key (frame [10; 0; 0; 1]%Z 80)) as [p|] eqn:Hp; [|by vm_compute in Hp].
  destruct (filter_selects_reversed (json := jval) 1 0 0 10 80 (frame [10; 0; 0; 1]%Z 80) p 80) as [Hsrc Hdst];
    [apply (bool_decide_unpack _); vm_compute; reflexivity|lia|exact Hp|].
  split; [exact (Hsrc [10; 0; 0; 1]%Z eq_refl)|]. apply Hdst. vm_compute in Hp. by injection Hp as <-.
Defined.

(** A packet that is not of IP has no defined key, so it is not defined what a filter
    does with it. *)
Lemma not_IP_undefined (json MB : Type) `{JSON json} (s : Lib json MB) hdr pkt ctx dl :
  IP.get16 pkt 12 = Some dl → dl ≠ ETHERTYPE_IP → filters s ≠ [] → sdmbn_preprocess_packet hdr pkt ctx s = None.
Proof.
  intros Hdl Hne Hf. assert (matches_filter pkt (filters s) = None) as Hm.
  { unfold matches_filter, build_packet_key. destruct (filters s); [done|]. by rw Hdl /= (proj2 (Z.eqb_neq _ _) Hne). }
  unfold sdmbn_preprocess_packet, lock_processing, update, mbind at 1, M_bind at 1. destruct (lock_processing_pkt s); [done|].
  cbn [fmap option_fmap option_map]. unfold get, mbind at 1, M_bind at 1. simpl. unfold lift at 1. by rw Hm.
Qed.

End EV.
