(* ===== verification/Wire.v ===== *)
(** Wire: the messages of libsdmbn on its connections, SDMBNConn.c: each one is sent
    as its length and its text.

    A connection is what the calls of [read] will find on it, piece by piece; what is
    left when there are no more pieces is the end of the stream.  A loop that does
    not end has no result for any fuel. *)
From S2P Require Import Prelude Flow IP NetUtil.

Module W.

Abbreviation bytes := (list Z) (only parsing).

(** ** Reading *)

(** Bytes that are there to be read, or an error. *)
Inductive piece := Data (b : bytes) | Fail.

(** One call of [read] for at most [n] bytes; without any at the end. *)
Definition read (n : nat) (c : list piece) : option bytes * list piece :=
  match c with
  | [] => (Some [], [])
  | Fail :: c => (None, c)
  | Data b :: c => if decide (length b ≤ n) then (Some b, c) else (Some (take n b), Data (drop n b) :: c)
  end.

(** The two loops of [conn_read]: until [n] more bytes were read. *)
Fixpoint read_loop (fuel : nat) (n : nat) (buf : bytes) (c : list piece) : option (option bytes * list piece) :=
  match n, fuel with
  | O, _ => Some (Some buf, c)
  | _, O => None
  | _, S fuel =>
    match read n c with
    | (None, c) => Some (None, c)
    | (Some b, c) => read_loop fuel (n - length b) (buf ++ b) c
    end
  end.

Definition SDMBN_CONN_READ_MAX : Z := 1024 * 1024 * 1024.

(** [Null] is the answer after an error; an assertion that fails aborts the program.
    [Undefined] is a write outside of a block of memory: the text of length -1 gets a
    block without bytes and then its 0. *)
Inductive answer := Got (b : bytes) | Null | Aborted | Undefined.

Definition conn_read (fuel : nat) (c : list piece) : option (answer * list piece) :=
  '(r, c) ← read_loop fuel 4 [] c;
  match r with
  | None => Some (Null, c)
  | Some lenchars =>
    x ← IP.get32 lenchars 0;
    let strlen := int32 x in
    if negb (strlen <? SDMBN_CONN_READ_MAX)%Z then Some (Aborted, c)
    else if (strlen =? -1)%Z then Some (Undefined, c)
    else if (strlen <? 0)%Z then Some (Aborted, c)
    else
      '(r, c) ← read_loop fuel (Z.to_nat strlen) [] c;
      Some (match r with Some b => Got b | None => Null end, c)
  end.

(** ** Writing *)

(** What comes onto the connection if its two calls of [write] take [n1] and [n2]
    bytes at most; the results of [write] are not looked at but for the second, which
    is the answer. *)
Definition conn_write_append_newline (n1 n2 : nat) (buf : bytes) : bytes * Z :=
  (take n1 (NU.be32 (Z.of_nat (length buf))) ++ take n2 buf, Z.of_nat (length (take n2 buf))).

Definition frame (buf : bytes) : bytes := NU.be32 (Z.of_nat (length buf)) ++ buf.

(** ** Messages *)

(** JSON as text: what [json_object_to_json_string] and [json_tokener_parse] are. *)
Class JSONText (json : Type) := { to_text : json → bytes; tokener_parse : bytes → option json }.
(** Texts have no byte 0, and are parsed to what they were made of. *)
Class JSONTextLaws (json : Type) `{JSONText json} := {
  parse_text : ∀ j, tokener_parse (to_text j) = Some j;
  text_nonzero : ∀ j, Forall (λ x, x ≠ 0)%Z (to_text j)
}.

(** The part of a buffer that is its string. *)
Fixpoint c_string (b : bytes) : bytes :=
  match b with [] => [] | x :: b => if (x =? 0)%Z then [] else x :: c_string b end.

Section messages.
Context {json S : Type} `{JSONText json}.

Definition json_send (n1 n2 : nat) (msg : json) : bytes * Z := ((conn_write_append_newline n1 n2 (to_text msg)).1, 1%Z).

(** The loop of a thread that handles messages.  A text that cannot be parsed is
    printed after it was freed. *)
Fixpoint handler_loop (fuel : nat) (handle : json → M S ()) (c : list piece) : M S () :=
  match fuel with
  | O => lift None
  | Datatypes.S fuel =>
    '(r, c) ← lift (conn_read fuel c);
    match r with
    | Null => mret ()
    | Got b => msg ← lift (tokener_parse (c_string b)); call (handle msg);; handler_loop fuel handle c
    | _ => lift None
    end
  end.

(** Messages one after the other. *)
Fixpoint handle_all (handle : json → M S ()) (msgs : list json) : M S () :=
  match msgs with [] => mret () | msg :: msgs => call (handle msg);; handle_all handle msgs end.
End messages.

(** ** Properties *)

Definition data (p : piece) : bytes := match p with Data b => b | Fail => [] end.
Definition has_data (p : piece) : Prop := match p with Data b => b ≠ [] | Fail => False end.
Definition stream (c : list piece) : bytes := concat (data <$> c).

Lemma get32_be32 x rest : (0 ≤ x < 2 ^ 32)%Z → IP.get32 (NU.be32 x ++ rest) 0 = Some x.
Proof. intros Hx. unfold NU.be32. rw uint32_small //. unfold IP.get32, IP.get16, IP.get8. simpl. f_equal. Z.div_mod_to_equations. lia. Qed.

Lemma stream_app c1 c2 : stream (c1 ++ c2) = stream c1 ++ stream c2.
Proof. unfold stream. by rw fmap_app concat_app. Qed.

(** Whatever the pieces, a loop reads the next bytes of the stream. *)
Lemma read_loop_data tl fuel : ∀ n buf c x rest,
  Forall has_data c → stream c = x ++ rest → length x = n → n ≤ fuel →
  ∃ c', read_loop fuel n buf (c ++ tl) = Some (Some (buf ++ x), c' ++ tl) ∧ Forall has_data c' ∧ stream c' = rest.
Proof.
  induction fuel as [|fuel IH]; intros n buf c x rest Hc Hs Hx Hn.
  { destruct x; [|simpl in *; lia]. exists c. subst n. by rw app_nil_r. }
  destruct n as [|n]; [destruct x; [|done]; exists c; by rw app_nil_r|].
  destruct c as [|p c]; [destruct x; [done|by apply (f_equal length) in Hs]|]. apply Forall_cons in Hc as [Hp Hc].
  destruct p as [b|]; [|done]. change (b ++ stream c = x ++ rest) in Hs. cbn [app read_loop read]. case_decide as Hb.
  - assert (take (length b) x = b) as Hbx by (rw -(take_app_le x rest); [|lia]; rw -Hs; apply take_app_length).
    assert (stream c = drop (length b) x ++ rest) as Hs'
      by (rw -(drop_app_le x rest); [|lia]; by rw -Hs drop_app_length).
    destruct (IH (S n - length b) (buf ++ b) c (drop (length b) x) rest) as (c' & -> & Hc'); [done..| | |].
    + rw length_drop. lia.
    + destruct b; [done|]. simpl in *. lia.
    + exists c'. split; [|done]. assert (b ++ drop (length b) x = x) as Hx' by (rw -{1}Hbx; apply take_drop). by rw -app_assoc Hx'.
  - assert (take (S n) b = x) as Hbx by (rw -(take_app_le b (stream c)); [|lia]; rw Hs -Hx; apply take_app_length).
    assert (drop (S n) b ++ stream c = rest) as Hr by (rw -(drop_app_le b (stream c)); [|lia]; rw Hs -Hx; apply drop_app_length).
    rw Hbx Hx Nat.sub_diag. exists (Data (drop (S n) b) :: c). split; [by destruct fuel|]. split; [|done].
    apply Forall_cons. split; [|done]. simpl. intros Hd%(f_equal length). rw length_drop in Hd. simpl in *. lia.
Qed.

(** What a loop has read, when it ends. *)
Lemma read_loop_sound fuel : ∀ n buf c r c',
  Forall (λ p, p ≠ Fail) c → read_loop fuel n buf c = Some (r, c') →
  ∃ x, r = Some (buf ++ x) ∧ length x = n ∧ stream c = x ++ stream c' ∧ Forall (λ p, p ≠ Fail) c'.
Proof.
  induction fuel as [|fuel IH]; intros n buf c r c' Hc; (destruct n as [|n]; [intros [= <- <-]; exists []; by rw app_nil_r|]); [done|].
  cbn [read_loop]. destruct c as [|[b|] c]; cbn [read].
  - intros (x & -> & Hx)%IH; [|done]. exists x. by rw app_nil_r.
  - apply Forall_cons in Hc as [_ Hc]. case_decide as Hb.
    + intros (x & -> & Hx & Hs & Hc')%IH; [|done]. exists (b ++ x). rw app_assoc length_app. split; [done|]. split; [lia|].
      split; [|done]. change (stream (Data b :: c)) with (b ++ stream c). by rw Hs app_assoc.
    + intros (x & -> & Hx & Hs & Hc')%IH; [|by constructor]. exists (take (S n) b ++ x). rw app_assoc length_app.
      rw length_take in Hx. rw length_take. split; [done|]. split; [lia|]. split; [|done].
      change (stream (Data b :: c)) with (b ++ stream c). change (stream (Data (drop (S n) b) :: c)) with (drop (S n) b ++ stream c) in Hs.
      by rw -app_assoc -Hs app_assoc take_drop.
  - by apply Forall_cons in Hc as [? _].
Qed.

Lemma read_loop_fail fuel n buf c : read_loop (S fuel) (S n) buf (Fail :: c) = Some (None, c).
Proof. done. Qed.

Lemma c_string_nonzero b : Forall (λ x, x ≠ 0)%Z b → c_string b = b.
Proof. induction 1 as [|x b Hx Hb IH]; [done|]. simpl. rw (proj2 (Z.eqb_neq x 0) Hx). by rw IH. Qed.

(** A message is read as it was framed. *)
Lemma conn_read_frame tl fuel buf c rest :
  Forall has_data c → stream c = frame buf ++ rest → (Z.of_nat (length buf) < SDMBN_CONN_READ_MAX)%Z → 4 ≤ fuel → length buf ≤ fuel →
  ∃ c', conn_read fuel (c ++ tl) = Some (Got buf, c' ++ tl) ∧ Forall has_data c' ∧ stream c' = rest.
Proof.
  unfold frame, SDMBN_CONN_READ_MAX. rw -app_assoc. intros Hc Hs Hb H4 Hf. set (n := Z.of_nat (length buf)) in *.
  destruct (read_loop_data tl fuel 4 [] c (NU.be32 n) (buf ++ rest) Hc Hs eq_refl H4) as (c1 & Hr1 & Hc1 & Hs1).
  destruct (read_loop_data tl fuel (length buf) [] c1 buf rest Hc1 Hs1 eq_refl Hf) as (c2 & Hr2 & Hc2 & Hs2).
  exists c2. split; [|done]. unfold conn_read. rw Hr1. cbn [mbind option_bind]. rw app_nil_l -(app_nil_r (NU.be32 n)) get32_be32; [|lia].
  cbn [mbind option_bind]. cbv zeta. rw int32_small; [|lia]. unfold SDMBN_CONN_READ_MAX.
  rw (proj2 (Z.ltb_lt n _) Hb) (proj2 (Z.eqb_neq n (-1)) ltac:(lia)) (proj2 (Z.ltb_ge n 0) ltac:(lia)). simpl.
  unfold n. rw Nat2Z.id. by rw Hr2.
Qed.

Lemma conn_read_fail fuel : 0 < fuel → conn_read fuel [Fail] = Some (Null, []).
Proof. by destruct fuel; [lia|]. Qed.

Lemma frame_length buf : length (frame buf) = 4 + length buf.
Proof. done. Qed.

Section handling.
Context {json S : Type} `{HT : JSONText json} `{HTL : !JSONTextLaws json}.

Definition sent_whole (msgs : list json) : bytes := concat ((λ msg, frame (to_text msg)) <$> msgs).

(** C4. Messages come through whole and in order: however the bytes of a sequence of
    messages are split into the pieces that [read] finds, the thread that handles them
    does what handling the messages one after the other does, and stops when reading
    fails. *)
Theorem messages_in_order (handle : json → M S ()) (msgs : list json) (c : list piece) (fuel : nat) (s : S) :
  Forall has_data c → stream c = sent_whole msgs → Forall (λ msg, Z.of_nat (length (to_text msg)) < SDMBN_CONN_READ_MAX)%Z msgs →
  4 + length (sent_whole msgs) ≤ fuel →
  handler_loop fuel handle (c ++ [Fail]) s = handle_all handle msgs s.
Proof using HTL.
  revert c fuel s. induction msgs as [|msg msgs IH]; intros c fuel s Hc Hs Hl Hf.
  - destruct c as [|[b|] c]; [|by apply Forall_cons in Hc as [Hb _]; destruct b|by apply Forall_cons in Hc as [? _]].
    destruct fuel as [|[|fuel]]; [simpl in Hf; lia..|]. done.
  - apply Forall_cons in Hl as [Hl1 Hl]. change (stream c = frame (to_text msg) ++ sent_whole msgs) in Hs.
    change (4 + length (frame (to_text msg) ++ sent_whole msgs) ≤ fuel) in Hf. rw length_app frame_length in Hf.
    destruct fuel as [|fuel]; [lia|].
    destruct (conn_read_frame [Fail] fuel (to_text msg) c (sent_whole msgs) Hc Hs Hl1) as (c' & Hr & Hc' & Hs'); [lia|lia|].
    cbn [handler_loop handle_all]. rw Hr bind_lift c_string_nonzero; [|apply text_nonzero]. rw parse_text bind_lift.
    apply bind_ext. intros [] s' _. apply IH; [done..|lia].
Qed.
End handling.

(** The end of a connection is never noticed: once the other side has closed it
    between two messages or in the middle of one, [conn_read] does not return. *)
Theorem conn_read_waits_forever (c : list piece) (fuel : nat) (n : Z) (part : bytes) :
  Forall (λ p, p ≠ Fail) c → (0 ≤ n < SDMBN_CONN_READ_MAX)%Z → (Z.of_nat (length part) < n)%Z →
  length (stream c) < 4 ∨ stream c = NU.be32 n ++ part → conn_read fuel c = None.
Proof.
  unfold SDMBN_CONN_READ_MAX. intros Hc Hn Hp Hs. unfold conn_read.
  destruct (read_loop fuel 4 [] c) as [[r c1]|] eqn:Hr; [|done].
  apply read_loop_sound in Hr as (x & -> & Hx & Hs1 & Hc1); [|done]. destruct Hs as [Hs|Hs]; [rw Hs1 length_app in Hs; lia|].
  rw Hs1 in Hs. apply app_inj_1 in Hs as [-> Hs]; [|done]. cbn [mbind option_bind].
  rw app_nil_l -(app_nil_r (NU.be32 n)) get32_be32; [|lia]. cbn [mbind option_bind]. cbv zeta. rw int32_small; [|lia].
  unfold SDMBN_CONN_READ_MAX.
  rw (proj2 (Z.ltb_lt n _) (proj2 Hn)) (proj2 (Z.eqb_neq n (-1)) ltac:(lia)) (proj2 (Z.ltb_ge n 0) ltac:(lia)). simpl.
  destruct (read_loop fuel (Z.to_nat n) [] c1) as [[r c2]|] eqn:Hr; [|done].
  apply read_loop_sound in Hr as (x & -> & Hx2 & Hs2 & _); [|done]. apply (f_equal length) in Hs2. rw Hs length_app in Hs2. lia.
Qed.

(** A length that is too large, or negative, ends the program. *)
Lemma bad_length_ends c fuel x rest :
  Forall has_data c → stream c = NU.be32 x ++ rest → (2 ^ 30 ≤ x < 2 ^ 32)%Z → 4 ≤ fuel →
  ∃ c', conn_read fuel c = Some (if (x =? 2 ^ 32 - 1)%Z then Undefined else Aborted, c').
Proof.
  intros Hc Hs Hx Hf. destruct (read_loop_data [] fuel 4 [] c (NU.be32 x) rest Hc Hs eq_refl Hf) as (c1 & Hr1 & _).
  rw !app_nil_r in Hr1. exists c1. unfold conn_read. rw Hr1. cbn [mbind option_bind].
  rw app_nil_l -(app_nil_r (NU.be32 x)) get32_be32; [|lia]. cbn [mbind option_bind]. cbv zeta. unfold SDMBN_CONN_READ_MAX.
  assert (int32 x = if (x <? 2 ^ 31)%Z then x else x - 2 ^ 32)%Z as ->
    by (destruct (Z.ltb_spec x (2 ^ 31)); unfold int32, wrap_s; Z.div_mod_to_equations; lia).
  destruct (Z.ltb_spec x (2 ^ 31)).
  - rw (proj2 (Z.ltb_ge x _)); [|lia]. by rw (proj2 (Z.eqb_neq x (2 ^ 32 - 1))); [|lia].
  - rw (proj2 (Z.ltb_lt (x - 2 ^ 32) _)); [|lia]. destruct (Z.eqb_spec x (2 ^ 32 - 1)) as [->|Hne]; [done|].
    rw (proj2 (Z.eqb_neq (x - 2 ^ 32) (-1))); [|lia]. rw (proj2 (Z.ltb_lt (x - 2 ^ 32) 0)); [done|lia].
Qed.

(** A [write] that takes only a part of a text is not noticed, and the reader fills the
    message with the start of the next one. *)
Lemma short_write_swallows {json} `{JSONText json} msg n next fuel :
  n < length (to_text msg) ≤ n + length (frame next) → (Z.of_nat (length (to_text msg)) < SDMBN_CONN_READ_MAX)%Z →
  4 + length (to_text msg) ≤ fuel →
  (json_send 4 n msg).2 = 1%Z ∧
  ∃ c', conn_read fuel [Data (json_send 4 n msg).1; Data (frame next)] =
    Some (Got (take n (to_text msg) ++ take (length (to_text msg) - n) (frame next)), c').
Proof.
  intros Hn Hl Hf. split; [done|]. set (got := take n (to_text msg) ++ take (length (to_text msg) - n) (frame next)).
  assert (length got = length (to_text msg)) as Hg.
  { unfold got. rw length_app !length_take_le; [lia| |]; lia. }
  destruct (conn_read_frame [] fuel got [Data (json_send 4 n msg).1; Data (frame next)] (drop (length (to_text msg) - n) (frame next)))
    as (c' & Hr & _).
  - repeat constructor; done.
  - unfold stream, frame. cbn [fmap list_fmap concat data]. rw Hg app_nil_r. unfold json_send, conn_write_append_newline. cbn [fst].
    change (take 4 (NU.be32 (Z.of_nat (length (to_text msg))))) with (NU.be32 (Z.of_nat (length (to_text msg)))). unfold got.
    rw -!app_assoc. do 2 f_equal. symmetry. apply take_drop.
  - by rw Hg.
  - lia.
  - rw Hg. lia.
  - rw !app_nil_r in Hr. by exists c'.
Qed.

(** ** Concrete connections *)

(** The texts "true" and "false". *)
#[local] Instance bool_text : JSONText bool := {|
  to_text := λ b : bool, if b then [116; 114; 117; 101]%Z else [102; 97; 108; 115; 101]%Z;
  tokener_parse := λ t : list Z, if decide (t = [116; 114; 117; 101]%Z) then Some true
                        else if decide (t = [102; 97; 108; 115; 101]%Z) then Some false else None
|}.
#[local] Instance bool_text_laws : JSONTextLaws bool.
Proof. split; [by intros []|intros []; apply (bool_decide_unpack _); vm_compute; reflexivity]. Qed.

Definition note (b : bool) : M (list bool) () := modify (λ l : list bool, l ++ [b]).

(** Two messages, in pieces that end in the middle of them. *)
Lemma messages_in_order_witness :
  handler_loop 30 note [Data [0; 0; 0; 4; 116]; Data [114; 117; 101; 0; 0]; Data [0; 5; 102; 97; 108; 115; 101]; Fail]%Z [] = Some ([true; false], Some ()).
Proof.
  rw (messages_in_order note [true; false] [Data [0; 0; 0; 4; 116]; Data [114; 117; 101; 0; 0]; Data [0; 5; 102; 97; 108; 115; 101]]%Z 30 []);
    [done|by repeat constructor|done|by repeat constructor|simpl; lia].
Defined.

Lemma conn_read_waits_forever_witness : conn_read 1000 [Data [0; 0; 0; 4; 116]%Z] = None.
Proof. apply (conn_read_waits_forever [Data [0; 0; 0; 4; 116]%Z] 1000 4 [116]%Z); [by repeat constructor|done|done|by right]. Defined.

End W.
