(* ===== verification/Requests.v ===== *)
(** Requests: the requests of the controller for the state of the program, state.c of
    libsdmbn, and when they have to wait, SDMBNCore.c.

    What the program gives the library are functions on the state of the library; a
    count below 0 is a failure.  Members of SDMBNLocals that no handler calls are
    left out. *)
From S2P Require Import Prelude Flow Codec Events Wire.
From stdpp Require Import strings.

Module RQ.
Import CD EV.

Abbreviation bytes := (list Z) (only parsing).

(** ** The program's functions *)

Definition local (json MB : Type) : Type := Lib json MB → option (Z * Lib json MB).

(** The extensions of a request are given as a pointer to a variable of a block that
    was left, or as NULL. *)
Inductive Exts := exts_NULL | exts_dangling.

(** SDMBNLocals: a member that is NULL is [None], and so is a key. *)
Record Locals (json MB : Type) := mkLocals {
  get_perflow : option (PerflowKey → Z → Z → Exts → local json MB);
  put_perflow : option (Z → PerflowKey → string → local json MB);
  get_allflows : option (Z → local json MB);
  put_allflows : option (Z → string → local json MB);
  get_multiflow : option (option PerflowKey → Z → local json MB);
  put_multiflow : option (Z → PerflowKey → string → local json MB);
  delete_multiflow : option (option PerflowKey → Z → Z → local json MB);
  delete_perflow : option (option PerflowKey → Z → local json MB);
  get_config : option (Z → local json MB);
  put_config : option (Z → string → local json MB);
  process_packet : option (bytes → bytes → local json MB)
}.
Arguments mkLocals {json MB}.
Arguments get_perflow {json MB}.
Arguments put_perflow {json MB}.
Arguments get_allflows {json MB}.
Arguments put_allflows {json MB}.
Arguments get_multiflow {json MB}.
Arguments put_multiflow {json MB}.
Arguments delete_multiflow {json MB}.
Arguments delete_perflow {json MB}.
Arguments get_config {json MB}.
Arguments put_config {json MB}.
Arguments process_packet {json MB}.

Section requests.
Context {json MB : Type} `{JSON json} `{INET}.

(** ** What the program sends *)

Definition sdmbn_send_perflow (i : Z) (key : option RawKey) (state : option string) (hashkey seq : Z) : M (Lib json MB) Z :=
  match key, state with
  | Some key, Some state =>
    if (seq <? 0)%Z then mret (-1)%Z
    else msg ← lift (json_compose_perflow_state i key state hashkey seq); send State_conn msg;; mret 1%Z
  | _, _ => mret (-1)%Z
  end.

Definition sdmbn_send_multiflow (i : Z) (key : option RawKey) (state : option string) (hashkey seq : Z) : M (Lib json MB) Z :=
  match key, state with
  | Some key, Some state =>
    if (seq <? 0)%Z then mret (-1)%Z
    else msg ← lift (json_compose_multiflow_state i key state hashkey seq); send State_conn msg;; mret 1%Z
  | _, _ => mret (-1)%Z
  end.

Definition sdmbn_send_allflows (i : Z) (state : option string) (seq : Z) : M (Lib json MB) Z :=
  match state with
  | Some state => if (seq <? 0)%Z then mret (-1)%Z else send State_conn (json_compose_allflows_state i state seq);; mret 1%Z
  | None => mret (-1)%Z
  end.

Definition sdmbn_send_config (i : Z) (state : option string) (seq : Z) : M (Lib json MB) Z :=
  match state with
  | Some state => if (seq <? 0)%Z then mret (-1)%Z else send State_conn (json_compose_config_state i state seq);; mret 1%Z
  | None => mret (-1)%Z
  end.

(** ** Handlers *)

Context (cfg : SDMBNConfig) (loc : Locals json MB).

(** A function that the program has to have, otherwise the answer is an error. *)
Definition supported {X} (f : option X) (i : Z) : M (Lib json MB) X :=
  match f with Some f => mret f | None => send_error State_conn i (-1) "unsupported";; stop end.

(** The call of a function of the program; a result below 0 is answered by an error. *)
Definition call_local (f : local json MB) (i hashkey : Z) : M (Lib json MB) Z :=
  n ← (λ s, '(n, s) ← f s; Some (s, Some n));
  if (n <? 0)%Z then send_error State_conn i hashkey "internal-failure";; stop else mret n.

(** The key of a message, NULL if it has none. *)
Definition optional_key (msg : json) : option PerflowKey := json_parse_perflow_key <$> object_get msg "key".

Definition wait_get : M (Lib json MB) () := update (λ s, if lock_get s then None else Some (set_lock_get true s)).
Definition release_get : M (Lib json MB) () := modify (set_lock_get false).

Definition handle_get_perflow (msg : json) (i : Z) : M (Lib json MB) () :=
  f ← supported (get_perflow loc) i;
  key_field ← need State_conn msg i (-1) "key";
  raiseEvents_field ← need State_conn msg i (-1) "raiseEvents";
  wait_get;;
  let exts := if (0 <? max_get_flows cfg)%Z then exts_dangling else exts_NULL in
  count ← call_local (f (json_parse_perflow_key key_field) i (get_int raiseEvents_field) exts) i (-1);
  send State_conn (json_compose_get_perflow_ack i count);;
  release_get;;
  add_to gets_per_count 1.

Definition handle_put_perflow (msg : json) (i : Z) : M (Lib json MB) () :=
  f ← supported (put_perflow loc) i;
  hashkey_field ← need State_conn msg i (-1) "hashkey";
  let hashkey := get_int hashkey_field in
  key_field ← need State_conn msg i hashkey "key";
  state_field ← need State_conn msg i hashkey "state";
  call_local (f hashkey (json_parse_perflow_key key_field) (get_string state_field)) i hashkey;;
  add_to flows_active 1;;
  send Event_conn (json_compose_put_perflow_ack i hashkey);;
  add_to puts_per_count 1.

Definition handle_get_multiflow (msg : json) (i : Z) : M (Lib json MB) () :=
  f ← supported (get_multiflow loc) i;
  count ← call_local (f (optional_key msg) i) i (-1);
  send State_conn (json_compose_get_multiflow_ack i count);;
  add_to gets_mul_count 1.

Definition handle_put_multiflow (msg : json) (i : Z) : M (Lib json MB) () :=
  f ← supported (put_multiflow loc) i;
  hashkey_field ← need State_conn msg i (-1) "hashkey";
  let hashkey := get_int hashkey_field in
  key_field ← need State_conn msg i hashkey "key";
  state_field ← need State_conn msg i hashkey "state";
  call_local (f hashkey (json_parse_perflow_key key_field) (get_string state_field)) i hashkey;;
  send Event_conn (json_compose_put_multiflow_ack i hashkey);;
  add_to puts_mul_count 1.

Definition handle_get_allflows (msg : json) (i : Z) : M (Lib json MB) () :=
  f ← supported (get_allflows loc) i;
  count ← call_local (f i) i (-1);
  send State_conn (json_compose_get_allflows_ack i count).

Definition handle_put_allflows (msg : json) (i : Z) : M (Lib json MB) () :=
  f ← supported (put_allflows loc) i;
  hashkey_field ← need State_conn msg i (-1) "hashkey";
  let hashkey := get_int hashkey_field in
  state_field ← need State_conn msg i hashkey "state";
  call_local (f hashkey (get_string state_field)) i hashkey;;
  send Event_conn (json_compose_put_allflows_ack i hashkey).

Definition handle_get_config (msg : json) (i : Z) : M (Lib json MB) () :=
  f ← supported (get_config loc) i;
  count ← call_local (f i) i (-1);
  send State_conn (json_compose_get_config_ack i count).

Definition handle_put_config (msg : json) (i : Z) : M (Lib json MB) () :=
  f ← supported (put_config loc) i;
  hashkey_field ← need State_conn msg i (-1) "hashkey";
  let hashkey := get_int hashkey_field in
  state_field ← need State_conn msg i hashkey "state";
  call_local (f hashkey (get_string state_field)) i hashkey;;
  send Event_conn (json_compose_put_config_ack i hashkey).

Definition handle_delete_perflow (msg : json) (i : Z) : M (Lib json MB) () :=
  f ← supported (delete_perflow loc) i;
  count ← call_local (f (optional_key msg) i) i (-1);
  add_to flows_active (-1);;
  send State_conn (json_compose_delete_perflow_ack i count).

Definition handle_delete_multiflow (msg : json) (i : Z) : M (Lib json MB) () :=
  f ← supported (delete_multiflow loc) i;
  deltype_field ← need State_conn msg i (-1) "deltype";
  count ← call_local (f (optional_key msg) i (get_int deltype_field)) i (-1);
  send State_conn (json_compose_delete_multiflow_ack i count).

(** The requests, and what handles each; [fuel] is for removing a filter. *)
Definition handler (fuel : nat) (type : string) (msg : json) (i : Z) : M (Lib json MB) () :=
  if (type =? "get-perflow")%string then handle_get_perflow msg i
  else if (type =? "put-perflow")%string then handle_put_perflow msg i
  else if (type =? "get-multiflow")%string then handle_get_multiflow msg i
  else if (type =? "put-multiflow")%string then handle_put_multiflow msg i
  else if (type =? "get-allflows")%string then handle_get_allflows msg i
  else if (type =? "put-allflows")%string then handle_put_allflows msg i
  else if (type =? "get-config")%string then handle_get_config msg i
  else if (type =? "put-config")%string then handle_put_config msg i
  else if (type =? "delete-perflow")%string then handle_delete_perflow msg i
  else if (type =? "delete-multiflow")%string then handle_delete_multiflow msg i
  else if (type =? "enable-events")%string then handle_enable_events msg i
  else if (type =? "disable-events")%string then handle_disable_events (process_packet loc) fuel msg i
  else send_error State_conn i (-1) "malformed".

(** One message of the state connection.  A message without "id" or "type" is printed
    after its text was freed. *)
Definition state_message (fuel : nat) (msg : json) : M (Lib json MB) () :=
  id_field ← lift (object_get msg "id");
  type_field ← lift (object_get msg "type");
  handler fuel (get_string type_field) msg (get_int id_field).


End requests.

(** ** Every request is answered *)

(** Some messages were sent. *)
Definition extends {json MB} (s s' : Lib json MB) : Prop := ∃ l, sent_msgs s' = sent_msgs s ++ l.
#[global] Instance extends_preorder {json MB} : PreOrder (@extends json MB).
Proof.
  split; [intros s; exists []; by rw app_nil_r|]. intros s1 s2 s3 [l1 H1] [l2 H2]. exists (l1 ++ l2). by rw H2 H1 app_assoc.
Qed.
Lemma extends_same {json MB} (s s' : Lib json MB) : sent_msgs s' = sent_msgs s → extends s s'.
Proof. intros Hs. exists []. by rw Hs app_nil_r. Qed.
Definition silent {json MB} (s s' : Lib json MB) : Prop := sent_msgs s' = sent_msgs s.
#[global] Instance silent_preorder {json MB} : PreOrder (@silent json MB).
Proof. split; [done|]. intros s1 s2 s3 H1 H2. by unfold silent in *; rw H2 H1. Qed.

(** What holds of each function that a program has. *)
Record all_locals {json MB} (P : local json MB → Prop) (loc : Locals json MB) : Prop := {
  al_get_perflow : ∀ f k i r e, get_perflow loc = Some f → P (f k i r e);
  al_put_perflow : ∀ f h k st, put_perflow loc = Some f → P (f h k st);
  al_get_allflows : ∀ f i, get_allflows loc = Some f → P (f i);
  al_put_allflows : ∀ f h st, put_allflows loc = Some f → P (f h st);
  al_get_multiflow : ∀ f k i, get_multiflow loc = Some f → P (f k i);
  al_put_multiflow : ∀ f h k st, put_multiflow loc = Some f → P (f h k st);
  al_delete_multiflow : ∀ f k i d, delete_multiflow loc = Some f → P (f k i d);
  al_delete_perflow : ∀ f k i, delete_perflow loc = Some f → P (f k i);
  al_get_config : ∀ f i, get_config loc = Some f → P (f i);
  al_put_config : ∀ f h st, put_config loc = Some f → P (f h st);
  al_process_packet : ∀ f hdr pkt, process_packet loc = Some f → P (f hdr pkt)
}.

(** The functions of the program send messages, and do not take any back. *)
Definition only_sends {json MB} (f : local json MB) : Prop := ∀ s n s', f s = Some (n, s') → extends s s'.

(** Where the answer to a request goes, and what it is called. *)
Definition about_events (t : string) : bool := (t =? "enable-events")%string || (t =? "disable-events")%string.
Definition puts (t : string) : bool := bool_decide (t ∈ ["put-perflow"; "put-multiflow"; "put-allflows"; "put-config"]%string).
Definition answer_conn (t : string) (error : bool) : conn :=
  if (if error then about_events t else puts t) then Event_conn else State_conn.
Definition ack_type (t : string) : string := if about_events t then "events-ack"%string else (t +:+ "-ack")%string.

Section answers.
Context {json MB : Type} `{HJ : JSON json} `{HJL : !JSONLaws json} `{HI : INET}.
Implicit Types (s : Lib json MB).

(** The last message that was sent is the answer to the request: an error, or the
    acknowledgment of its type. *)
Definition answered (t : string) (i : Z) s s' : Prop :=
  ∃ l c ans, sent_msgs s' = sent_msgs s ++ l ++ [(c, ans)] ∧ object_get ans "id" = Some (new_int i) ∧
    ((c = answer_conn t true ∧ object_get ans "type" = Some (new_string "error")) ∨
     (c = answer_conn t false ∧ object_get ans "type" = Some (new_string (ack_type t)))).

Section request.
Context (t : string) (i : Z).

Definition answers {X} (m : M (Lib json MB) X) : Prop := moves (answered t i) m.
(** A step that answers only if it is the last one. *)
Definition asks {X} (m : M (Lib json MB) X) : Prop :=
  ∀ s s' r, m s = Some (s', r) → match r with Some _ => extends s s' | None => answered t i s s' end.

Lemma answered_after s1 s2 s3 : extends s1 s2 → answered t i s2 s3 → answered t i s1 s3.
Proof. intros [l Hl] (l' & c & ans & Hs & Ha). exists (l ++ l'), c, ans. split; [|done]. by rw Hs Hl !app_assoc. Qed.

Lemma asks_bind {X Y} (m : M (Lib json MB) X) (f : X → M (Lib json MB) Y) : asks m → (∀ x, answers (f x)) → answers (m ≫= f).
Proof.
  intros Hm Hf s s' r [(s1 & x & H1 & H2)|[H1 _]]%bind_inv; [|by apply Hm in H1].
  apply Hm in H1. eapply answered_after; [exact H1|]. by eapply Hf.
Qed.
Lemma answers_then {X Y} (m : M (Lib json MB) X) (f : X → M (Lib json MB) Y) : answers m → (∀ x, moves silent (f x)) → answers (m ≫= f).
Proof.
  intros Hm Hf s s' r [(s1 & x & H1 & H2)|[H1 _]]%bind_inv; [|by eapply Hm].
  apply Hm in H1 as (l & c & ans & Hs & Ha). apply Hf in H2. exists l, c, ans. by rw H2 Hs.
Qed.
Lemma asks_moves {X} (m : M (Lib json MB) X) : goes m → moves extends m → asks m.
Proof. intros Hg Hm s s' [x|] Hr; [by eapply Hm|]. by destruct (Hg _ _ _ Hr). Qed.

Lemma answers_error c hashkey cause : c = answer_conn t true → answers (send_error (json := json) (MB := MB) c i hashkey cause).
Proof using HJL.
  intros -> s s' r [= <- _]. eexists [], _, _. split; [done|]. rw !get_field. split; [done|]. left. done.
Qed.
Lemma answers_send c ans : c = answer_conn t false → object_get ans "id" = Some (new_int i) →
  object_get ans "type" = Some (new_string (ack_type t)) → answers (send (MB := MB) c ans).
Proof. intros -> Hi Ht s s' r [= <- _]. eexists [], _, _. split; [done|]. split; [done|]. by right. Qed.

Lemma asks_fail {X} c hashkey cause : c = answer_conn t true → asks (send_error c i hashkey cause;; stop (X := X)).
Proof using HJL.
  intros Hc s s' r [= <- <-]. by apply (answers_error c hashkey cause Hc s _ (Some ())).
Qed.
Lemma asks_ret {X} (x : X) : asks (mret x).
Proof. intros s s' r [= <- <-]. reflexivity. Qed.

Lemma answers_supported {X Y} (o : option X) (g : X → M (Lib json MB) Y) : answer_conn t true = State_conn →
  (∀ f, o = Some f → answers (g f)) → answers (supported o i ≫= g).
Proof using HJL.
  intros Hc Hg. destruct o as [f|]; [by apply Hg|]. intros s s' r [= <- _].
  by apply (answers_error State_conn (-1) "unsupported" (eq_sym Hc) s _ (Some ())).
Qed.
Lemma asks_need c msg hashkey name : c = answer_conn t true → asks (need c msg i hashkey name).
Proof using HJL. intros Hc. unfold need. destruct (object_get msg name); [apply asks_ret|]. by apply asks_fail. Qed.
Lemma asks_local (f : local json MB) hashkey : only_sends f → answer_conn t true = State_conn → asks (call_local f i hashkey).
Proof using HJL.
  intros Hf Hc s s' r. unfold call_local, mbind at 1, M_bind at 1. destruct (f s) as [[n s1]|] eqn:Hs; [|done]. apply Hf in Hs.
  cbn. destruct (n <? 0)%Z; [|by intros [= <- <-]]. intros [= <- <-]. eapply answered_after; [exact Hs|].
  by apply (answers_error State_conn hashkey "internal-failure" (eq_sym Hc) s1 _ (Some ())).
Qed.
Lemma asks_wait_get : asks (wait_get (json := json) (MB := MB)).
Proof.
  intros s s' r Hr. unfold wait_get, update in Hr. destruct (lock_get s); [done|]. injection Hr as <- <-. by apply extends_same.
Qed.
Lemma asks_add_to c n : asks (add_to (json := json) (MB := MB) c n).
Proof. intros s s' r [= <- <-]. by apply extends_same. Qed.

End request.

Lemma silent_add_to c n : moves silent (add_to (json := json) (MB := MB) c n).
Proof. by intros s s' r [= <- _]. Qed.
Lemma silent_release_get : moves silent (release_get (json := json) (MB := MB)).
Proof. by intros s s' r [= <- _]. Qed.

End answers.
#[export] Hint Resolve silent_add_to silent_release_get : moves.

(** Decompose [answers t i m] along a handler. *)
Ltac answer :=
  cbv zeta; repeat lazymatch goal with
  | |- answers _ _ (supported _ _ ≫= _) => apply answers_supported; [done|intros ? ?]
  | |- answers _ _ (need _ _ _ _ _ ≫= _) => apply asks_bind; [by apply asks_need|intros ?]
  | |- answers _ _ (call_local _ _ _ ≫= _) => apply asks_bind; [apply asks_local; [|done]|intros ?]
  | |- answers _ _ (wait_get ≫= _) => apply asks_bind; [apply asks_wait_get|intros ?]
  | |- answers _ _ (add_to _ _ ≫= _) => apply asks_bind; [apply asks_add_to|intros ?]
  | |- answers _ _ (send _ _ ≫= _) => apply answers_then; [|intros ?; moves]
  | |- answers _ _ (send_error _ _ _ _) => by apply answers_error
  | |- answers _ _ (send _ _) => apply answers_send; [done|by rw get_field|by rw get_field]
  end.

Section all.
Context {json MB : Type} `{HJ : JSON json} `{HJL : !JSONLaws json} `{HI : INET}.
Context (cfg : SDMBNConfig) (loc : Locals json MB).
Implicit Types (s : Lib json MB).

(** Removing a filter goes on, and sends what the program sends for its packets. *)
Lemma release_asks (pp : option (bytes → bytes → local json MB)) fuel : (∀ f hdr pkt, pp = Some f → only_sends (f hdr pkt)) →
  ∀ a wl, goes (release_loop pp fuel a wl) ∧ moves extends (release_loop pp fuel a wl).
Proof.
  intros Hpp. assert (∀ hdr pkt wl, goes (inject pp hdr pkt wl) ∧ moves extends (inject pp hdr pkt wl)) as Hin.
  { intros hdr pkt wl. unfold inject. destruct pp as [f|]; [|split; [apply goes_ret|moves]].
    split; intros s s' r; (destruct (f hdr pkt s) as [[n s1]|] eqn:Hf; [|done]).
    - by intros [= <- <-].
    - intros [= <- _]. by apply (Hpp f hdr pkt eq_refl) in Hf. }
  assert (∀ a, goes (λ s, lift (filter_at (json := json) (MB := MB) a s) s)) as Hg by (intros a s s' r; apply (goes_lift (filter_at a s))).
  assert (∀ a, moves extends (λ s, lift (filter_at (json := json) (MB := MB) a s) s)) as Hm
    by (intros a s s' r; apply (moves_lift extends (filter_at a s))).
  induction fuel as [|fuel IH]; intros a wl; cbn [release_loop]; [split; [apply goes_lift|moves]|]. split.
  - apply goes_bind; [apply Hg|]. intros f. destruct (buffer f) as [|[hdr pkt] b]; [apply goes_ret|].
    apply goes_bind; [apply Hin|]. intros n. apply goes_bind; [apply goes_when, goes_modify|]. intros []. apply goes_bind; [apply Hg|]. intros f'.
    apply goes_bind; [apply goes_modify|]. intros []. apply IH.
  - apply moves_bind; [apply _|apply Hm|]. intros f. destruct (buffer f) as [|[hdr pkt] b]; [moves|].
    apply moves_bind; [apply _|apply Hin|]. intros n. apply moves_bind; [apply _| |].
    { apply moves_when; [apply _|]. apply moves_modify; [apply _|]. intros s. by apply extends_same. }
    intros ?. apply moves_bind; [apply _|apply Hm|]. intros f'. apply moves_bind; [apply _| |intros ?; apply IH].
    apply moves_modify; [apply _|]. intros s. by apply extends_same.
Qed.

Lemma remove_asks t i pp fuel k : (∀ f hdr pkt, pp = Some f → only_sends (f hdr pkt)) → asks t i (events_remove_filter (json := json) (MB := MB) pp fuel k).
Proof.
  intros Hpp. apply asks_moves; unfold events_remove_filter.
  - apply goes_bind; [apply goes_get|]. intros s. destruct (find_filter k (filters s)); [|apply goes_ret].
    apply goes_bind; [by apply release_asks|]. intros []. apply goes_modify.
  - apply moves_bind; [apply _|moves|]. intros s. destruct (find_filter k (filters s)); [|moves].
    apply moves_bind; [apply _|by apply release_asks|]. intros []. apply moves_modify; [apply _|]. intros s'. by apply extends_same.
Qed.

Lemma handler_answers fuel t msg i : all_locals only_sends loc → answers t i (handler cfg loc fuel t msg i).
Proof using HJL.
  intros []. unfold handler, handle_get_perflow, handle_put_perflow, handle_get_multiflow, handle_put_multiflow, handle_get_allflows,
    handle_put_allflows, handle_get_config, handle_put_config, handle_delete_perflow, handle_delete_multiflow.
  do 10 (match goal with |- context [(t =? ?c)%string] => destruct (String.eqb_spec t c) as [->|]; [answer; auto|] end).
  destruct (String.eqb_spec t "enable-events") as [->|He]; [unfold handle_enable_events; answer|].
  { apply asks_bind; [|intros ?; answer]. intros s s' r [= <- <-]. by apply extends_same. }
  destruct (String.eqb_spec t "disable-events") as [->|Hd]; [unfold handle_disable_events; answer|].
  { apply asks_bind; [by apply remove_asks|intros ?; answer]. }
  apply answers_error. unfold answer_conn, about_events. by rw (proj2 (String.eqb_neq _ _) He) (proj2 (String.eqb_neq _ _) Hd).
Qed.
(** Handlers return if the functions of the program do. *)
Definition returns (f : local json MB) : Prop := ∀ s, is_Some (f s).
Definition always {X} (m : M (Lib json MB) X) : Prop := ∀ s, is_Some (m s).

Lemma always_bind {X Y} (m : M (Lib json MB) X) (f : X → M (Lib json MB) Y) : always m → (∀ x, always (f x)) → always (m ≫= f).
Proof. intros Hm Hf s. unfold mbind, M_bind. destruct (Hm s) as [[s1 [x|]] ->]; [apply Hf|done]. Qed.
Lemma always_supported {X Y} (o : option X) i (g : X → M (Lib json MB) Y) : (∀ f, o = Some f → always (g f)) → always (supported o i ≫= g).
Proof. intros Hg s. destruct o as [f|]; [by apply Hg|done]. Qed.
Lemma always_need c msg i h name : always (need (MB := MB) c msg i h name).
Proof. intros s. unfold need. by destruct (object_get msg name). Qed.
Lemma always_local f i h : returns f → always (call_local f i h).
Proof.
  intros Hf s. unfold call_local, mbind at 1, M_bind at 1. destruct (Hf s) as [[n s1] ->]. cbn. by destruct (n <? 0)%Z.
Qed.

Ltac always_ :=
  cbv zeta; repeat lazymatch goal with
  | |- always (supported _ _ ≫= _) => apply always_supported; intros ? ?
  | |- always (_ ≫= _) => apply always_bind; [|intros ?]
  | |- always (need _ _ _ _ _) => apply always_need
  | |- always (call_local _ _ _) => apply always_local
  | |- always (send _ _) => by intros ?
  | |- always (add_to _ _) => by intros ?
  end.

Lemma get_perflow_returns msg i s : all_locals returns loc → lock_get s = false → is_Some (handle_get_perflow cfg loc msg i s).
Proof.
  intros [] Hl. unfold handle_get_perflow. destruct (get_perflow loc) as [f|] eqn:Hf; [|done]. cbn [supported]. rw bind_mret. unfold need.
  destruct (object_get msg "key") as [k|]; [|done]. rw bind_mret. destruct (object_get msg "raiseEvents") as [r|]; [|done].
  rw bind_mret. unfold wait_get, update, mbind at 1, M_bind at 1. rw Hl. cbn [fmap option_fmap option_map]. cbv zeta.
  generalize (set_lock_get true s). clear s Hl.
  change (always (count ← call_local (f (json_parse_perflow_key k) i (get_int r)
    (if (0 <? max_get_flows cfg)%Z then exts_dangling else exts_NULL)) i (-1);
    send State_conn (json_compose_get_perflow_ack i count);; release_get;; add_to gets_per_count 1)).
  always_; [auto|by intros ?].
Qed.

Lemma others_return fuel t msg i :
  all_locals returns loc → t ≠ "get-perflow"%string → t ≠ "disable-events"%string → always (handler cfg loc fuel t msg i).
Proof.
  intros [] Hg Hd. unfold handler, handle_put_perflow, handle_get_multiflow, handle_put_multiflow, handle_get_allflows,
    handle_put_allflows, handle_get_config, handle_put_config, handle_delete_perflow, handle_delete_multiflow.
  rw (proj2 (String.eqb_neq _ _) Hg).
  do 9 (match goal with |- context [(t =? ?c)%string] => destruct (String.eqb_spec t c) as [->|]; [always_; auto|] end).
  rw (proj2 (String.eqb_neq t "disable-events") Hd). destruct (t =? "enable-events")%string; [|by intros ?].
  unfold handle_enable_events. always_. by intros ?.
Qed.

(** C3. Every request of the controller is answered: if its handler returns, the last
    message that was sent bears the id of the request and is an error or the
    acknowledgment of the request's type.  Errors go to the connection for state, but
    those of requests about events to the one for events; acknowledgments of
    exported state go to the connection for state, those of imported state to the one
    for events.  The handler returns if the functions of the program do and a request
    for state of flows does not have to wait; a filter is removed as is shown for
    events. *)
Theorem every_request_answered fuel msg idf tf s :
  all_locals only_sends loc → object_get msg "id" = Some idf → object_get msg "type" = Some tf →
  (∀ s', run (state_message cfg loc fuel msg) s = Some s' → answered (get_string tf) (get_int idf) s s') ∧
  (all_locals returns loc → get_string tf ≠ "disable-events"%string → (get_string tf = "get-perflow"%string → lock_get s = false) →
   is_Some (run (state_message cfg loc fuel msg) s)).
Proof using HJL.
  intros Hs Hi Ht. unfold state_message, run. rw Hi bind_lift Ht bind_lift. split.
  - intros s'. destruct (handler _ _ _ _ _ _ s) as [[s1 r]|] eqn:Hr; [|done]. intros [= <-].
    eapply handler_answers; [exact Hs|exact Hr].
  - intros Hl Hd Hg. rw fmap_is_Some. destruct (decide (get_string tf = "get-perflow"%string)) as [Hp|Hp]; [|by apply others_return].
    rw Hp. by apply get_perflow_returns; [|apply Hg].
Qed.
End all.

(** ** Requests that wait *)

(** The functions of the program do not let waiting requests go on. *)
Definition leaves_waiting {json MB} (f : local json MB) : Prop := ∀ s n s', f s = Some (n, s') → lock_get s = true → lock_get s' = true.

Section waiting.
Context {json MB : Type} `{HJ : JSON json} `{HI : INET}.
Context (cfg : SDMBNConfig) (loc : Locals json MB).
Implicit Types (s : Lib json MB).

Definition waiting s : Prop := lock_get s = true.

(** A request for the state of flows that is complete. *)
Record get_request (msg : json) (i : Z) (k : PerflowKey) (r : Z) : Prop := {
  gr_id : get_int <$> object_get msg "id" = Some i;
  gr_type : get_string <$> object_get msg "type" = Some "get-perflow"%string;
  gr_key : json_parse_perflow_key <$> object_get msg "key" = Some k;
  gr_raise : get_int <$> object_get msg "raiseEvents" = Some r
}.

Definition given_exts : Exts := if (0 <? max_get_flows cfg)%Z then exts_dangling else exts_NULL.

(** What a complete request does. *)
Lemma get_request_runs fuel msg i k r f s :
  get_request msg i k r → get_perflow loc = Some f →
  state_message cfg loc fuel msg s =
    (wait_get;; count ← call_local (f k i r given_exts) i (-1); send State_conn (json_compose_get_perflow_ack i count);;
     release_get;; add_to gets_per_count 1) s.
Proof.
  intros [Hi Ht Hk Hr] Hf. unfold state_message, handler.
  destruct (object_get msg "id") as [idf|]; [|done]. injection Hi as <-. rw bind_lift.
  destruct (object_get msg "type") as [tf|]; [|done]. injection Ht as Ht. rw bind_lift Ht. change ("get-perflow" =? "get-perflow")%string with true.
  cbv iota. unfold handle_get_perflow. rw Hf. cbn [supported]. rw bind_mret. unfold need.
  destruct (object_get msg "key") as [kf|]; [|done]. injection Hk as <-. rw bind_mret.
  destruct (object_get msg "raiseEvents") as [rf|]; [|done]. injection Hr as <-. by rw bind_mret.
Qed.

Lemma waiting_blocks fuel msg i k r f s : get_request msg i k r → get_perflow loc = Some f → waiting s → state_message cfg loc fuel msg s = None.
Proof.
  intros Hm Hf Hs. rw (get_request_runs _ _ _ _ _ _ _ Hm Hf). unfold wait_get, update, mbind at 1, M_bind at 1. by rw Hs.
Qed.

Lemma keeps_waiting_local f i h : leaves_waiting f → keeps waiting (call_local f i h).
Proof.
  intros Hf s Hs. unfold call_local, mbind at 1, M_bind at 1. destruct (f s) as [[n s1]|] eqn:Hr; [|done]. cbn.
  specialize (Hf _ _ _ Hr Hs). by destruct (n <? 0)%Z.
Qed.
Lemma keeps_waiting_need c msg i h name : keeps waiting (need (MB := MB) c msg i h name).
Proof. intros s Hs. unfold need. by destruct (object_get msg name). Qed.
Lemma keeps_waiting_supported {X} (o : option X) i : keeps waiting (supported (json := json) (MB := MB) o i).
Proof. intros s Hs. by destruct o. Qed.
Lemma keeps_waiting_bind_supported {X Y} (o : option X) i (g : X → M (Lib json MB) Y) :
  (∀ f, o = Some f → keeps waiting (g f)) → keeps waiting (supported o i ≫= g).
Proof. intros Hg s Hs. destruct o as [f|]; [by apply Hg|done]. Qed.

(** The pieces of removing a filter. *)
Lemma keeps_waiting_release pp fuel : (∀ f hdr pkt, pp = Some f → leaves_waiting (f hdr pkt)) → ∀ a wl, keeps waiting (release_loop pp fuel a wl).
Proof.
  intros Hpp. assert (∀ a, keeps waiting (λ s, lift (filter_at (json := json) (MB := MB) a s) s)) as Hg
    by (intros a s Hs; by destruct (filter_at a s)).
  induction fuel as [|fuel IH]; intros a wl; [apply keeps_lift|]. cbn [release_loop].
  apply keeps_bind; [apply Hg|intros f]. destruct (buffer f) as [|[hdr pkt] b]; [apply keeps_ret|].
  apply keeps_bind; [|intros n].
  { unfold inject. destruct pp as [p|]; [|apply keeps_ret]. intros s Hs. destruct (p hdr pkt s) as [[n s1]|] eqn:Hr; [|done].
    by eapply (Hpp p hdr pkt). }
  apply keeps_bind; [by apply keeps_when, keeps_modify|intros ?]. apply keeps_bind; [apply Hg|intros f'].
  apply keeps_bind; [by apply keeps_modify|intros ?]. apply IH.
Qed.

Ltac keep_waiting :=
  cbv zeta; repeat lazymatch goal with
  | |- keeps _ (supported _ _ ≫= _) => apply keeps_waiting_bind_supported; intros ? ?
  | |- keeps _ (need _ _ _ _ _) => apply keeps_waiting_need
  | |- keeps _ (call_local _ _ _) => apply keeps_waiting_local
  | |- keeps _ (_ ≫= _) => apply keeps_bind; [|intros ?]
  | |- keeps _ (send _ _) => by apply keeps_modify
  | |- keeps _ (send_error _ _ _ _) => by apply keeps_modify
  | |- keeps _ (add_to _ _) => by apply keeps_modify
  end.

Lemma keeps_waiting_get msg i : keeps waiting (handle_get_perflow cfg loc msg i).
Proof.
  unfold handle_get_perflow. apply keeps_waiting_bind_supported; intros f _. do 2 (apply keeps_bind; [apply keeps_waiting_need|intros ?]).
  intros s Hs. unfold wait_get, update, mbind at 1, M_bind at 1. by rw Hs.
Qed.

(** No request ends the waiting. *)
Lemma handler_keeps_waiting fuel t msg i : all_locals leaves_waiting loc → keeps waiting (handler cfg loc fuel t msg i).
Proof.
  intros []. unfold handler, handle_put_perflow, handle_get_multiflow, handle_put_multiflow, handle_get_allflows,
    handle_put_allflows, handle_get_config, handle_put_config, handle_delete_perflow, handle_delete_multiflow.
  destruct (t =? "get-perflow")%string; [apply keeps_waiting_get|].
  do 9 (match goal with |- context [(t =? ?c)%string] => destruct (t =? c)%string; [keep_waiting; auto|] end).
  destruct (t =? "enable-events")%string; [unfold handle_enable_events; keep_waiting; by apply keeps_modify|].
  destruct (t =? "disable-events")%string; [|by apply keeps_modify].
  unfold handle_disable_events, events_remove_filter. keep_waiting; [apply keeps_get|].
  destruct (find_filter _ _); [|apply keeps_ret]. apply keeps_bind; [by apply keeps_waiting_release|intros ?]. by apply keeps_modify.
Qed.
Lemma message_keeps_waiting fuel msg : all_locals leaves_waiting loc → keeps waiting (state_message cfg loc fuel msg).
Proof.
  intros Hl. unfold state_message. apply keeps_bind; [apply keeps_lift|intros idf]. apply keeps_bind; [apply keeps_lift|intros tf].
  by apply handler_keeps_waiting.
Qed.

Lemma fails_at {X} c i h cause s : (send_error c i h cause;; stop (X := X)) s =
  Some (set_sent_msgs (sent_msgs s ++ [(c, json_compose_error i h cause)]) s, None).
Proof. done. Qed.

(** C35. A request for the state of flows that fails is the last one: it keeps the lock
    that it waited for, so whatever messages come between, the thread never gets past
    the next complete request of this kind.  (Only the thread of the messages runs
    here; where thresholds are configured, [sdmbn_notify_packet_received] of a thread
    that processes packets unlocks it at a packet that meets one.) *)
Theorem failed_get_blocks fuel msg1 i1 k1 r1 between msg2 i2 k2 r2 rest f s n s1 :
  all_locals leaves_waiting loc → get_perflow loc = Some f → get_request msg1 i1 k1 r1 → get_request msg2 i2 k2 r2 →
  lock_get s = false → f k1 i1 r1 given_exts (set_lock_get true s) = Some (n, s1) → (n < 0)%Z →
  W.handle_all (state_message cfg loc fuel) (msg1 :: between ++ msg2 :: rest) s = None.
Proof.
  intros Hl Hf H1 H2 Hs Hr Hn. cbn [W.handle_all]. unfold mbind at 1, M_bind at 1, call at 1.
  rw (get_request_runs _ _ _ _ _ _ _ H1 Hf). unfold wait_get, update, mbind at 1, M_bind at 1. rw Hs. cbn [fmap option_fmap option_map].
  unfold call_local, mbind at 1, M_bind at 1. unfold mbind at 1, M_bind at 1. rw Hr. cbn. rw (proj2 (Z.ltb_lt n 0) Hn) fails_at. cbn [fmap option_fmap option_map].
  match goal with |- W.handle_all _ _ ?x = None => assert (waiting x) as Hw; [|generalize dependent x; clear Hr s1 s Hs] end.
  { by exact (al_get_perflow _ _ Hl f k1 i1 r1 given_exts Hf _ _ _ Hr eq_refl). }
  induction between as [|msg between IH]; intros s Hs; cbn [app W.handle_all]; unfold mbind at 1, M_bind at 1, call at 1.
  - by rw (waiting_blocks fuel msg2 i2 k2 r2 f s H2 Hf Hs).
  - pose proof (message_keeps_waiting fuel msg Hl s Hs) as Hk.
    destruct (state_message cfg loc fuel msg s) as [[s2 [x|]]|]; [by apply IH..|done].
Qed.
End waiting.

(** ** When waiting requests go on *)

(** What the program reports. *)
Inductive report := Packet | Flow_created | Flow_destroyed.


Definition packets (rs : list report) : Z := Z.of_nat (length (List.filter (λ r, match r with Packet => true | _ => false end) rs)).
Definition flows (rs : list report) : Z :=
  foldr (λ r n, match r with Flow_created => n + 1 | Flow_destroyed => n - 1 | Packet => n end)%Z 0%Z rs.

(** A packet at which a threshold is met: the packets so far with it, or the flows. *)
Definition met (cfg : SDMBNConfig) (rs : list report) : Prop :=
  ∃ before after, rs = before ++ Packet :: after ∧
    (release_get_pkts cfg = packets before + 1 ∨ release_get_flows cfg = flows before)%Z.

Section reports.
Context {json MB : Type}.
Implicit Types (s : Lib json MB).







(** A threshold of flows that is 0, to ask for packets only, is met by the first packet
    of a program without flows; one of -1, once a flow more was destroyed than
    created. *)
Lemma packet_threshold_ignored n rs : (release_get_flows (mkConfig n 0 (-1)) = 0)%Z ∧ met (mkConfig n 0 (-1)) (Packet :: rs) ∧
  met (mkConfig n (-1) (-1)) (Flow_destroyed :: Packet :: rs).
Proof. split_and!; [done|exists [], rs; split; [done|by right]|exists [Flow_destroyed], rs; split; [done|by right]]. Qed.
End reports.

(** A request that deletes flows counts as one flow less, however many it deletes. *)
Lemma delete_counts_one {json MB} `{JSON json} (loc : Locals json MB) f msg i s n s1 :
  delete_perflow loc = Some f → f (optional_key msg) i s = Some (n, s1) → (0 ≤ n)%Z →
  ∃ s', run (handle_delete_perflow loc msg i) s = Some s' ∧ stats s' flows_active = int32 (stats s1 flows_active - 1).
Proof.
  intros Hf Hs Hn. unfold run, handle_delete_perflow, supported. rw Hf bind_mret. unfold call_local, mbind at 1, M_bind at 1.
  unfold mbind at 1, M_bind at 1. rw Hs. cbn. rw (proj2 (Z.ltb_ge n 0) Hn). by eexists.
Qed.

(** ** Concrete requests *)

(** A program that exports nothing and imports everything. *)
Definition failing : Locals jval (list bytes) :=
  mkLocals (Some (λ _ _ _ _ s, Some ((-1)%Z, s))) (Some (λ _ _ _ s, Some (1%Z, s))) None None None None None None None None None.

Definition get_message (i : Z) : jval :=
  JObject [("id", JInt i); ("type", JString "get-perflow"); ("key", JObject [("nw_proto", JInt 6)]); ("raiseEvents", JInt 0)].
Definition put_message (i : Z) : jval :=
  JObject [("id", JInt i); ("type", JString "put-perflow"); ("hashkey", JInt 9); ("key", JObject [("nw_proto", JInt 6)]);
    ("state", JString "conn")].

Lemma failing_sends : all_locals only_sends failing.
Proof. split; try done; intros; simplify_eq/=; intros s n s' [= _ <-]; reflexivity. Qed.

Lemma every_request_answered_witness :
  ∃ s', run (state_message unlimited failing 1 (put_message 3)) (with_filters []) = Some s' ∧
    answered "put-perflow" 3 (with_filters []) s' ∧ (sent_msgs s').*1 = [Event_conn].
Proof.
  destruct (every_request_answered unlimited failing 1 (put_message 3) (JInt 3) (JString "put-perflow") (with_filters []) failing_sends) as [Ha Hr];
    [reflexivity|reflexivity|]. destruct Hr as [s' Hs]; [|done|done|].
  { split; try done; intros; simplify_eq/=; by intros s. }
  exists s'. split; [exact Hs|]. split; [exact (Ha s' Hs)|]. assert ((λ s : Lib jval (list bytes), (sent_msgs s).*1) <$> run (state_message unlimited failing 1 (put_message 3)) (with_filters []) =
    Some [Event_conn]) as Hc by (vm_compute; reflexivity). rw Hs in Hc. by injection Hc.
Defined.

Lemma failed_get_blocks_witness :
  W.handle_all (state_message unlimited failing 1) [get_message 1; put_message 2; get_message 3] (with_filters []) = None.
Proof.
  apply (failed_get_blocks unlimited failing 1 (get_message 1) 1 (json_parse_perflow_key (JObject [("nw_proto", JInt 6)])) 0 [put_message 2]
    (get_message 3) 3 (json_parse_perflow_key (JObject [("nw_proto", JInt 6)])) 0 [] (λ _ _ _ _ s, Some ((-1)%Z, s))
    (with_filters []) (-1) (set_lock_get true (with_filters []))); try done.
  split; try done; intros; simplify_eq/=; by intros s n s' [= _ <-].
Defined.

End RQ.
