(* ===== verification/TcpOptions.v ===== *)
(** TcpOptions: the TCP header and the three loops over its options (TCP.cc):
    [ParseTCPOptions], which calls a function for each option, the one of
    [BuildSYNPacketVal], and the one of [BuildOSVal] for passive fingerprints.
    A header is the packet from its first byte on. *)
From S2P Require Import Prelude IP NetUtil.

Module TO.

Abbreviation bytes := (list Z) (only parsing).

(** ** The header *)

Definition th_seq (tp : bytes) : option Z := IP.get32 tp 4.
Definition th_ack (tp : bytes) : option Z := IP.get32 tp 8.
Definition th_off (tp : bytes) : option Z := x ← IP.get8 tp 12; Some (Z.shiftr x 4).
Definition th_x2 (tp : bytes) : option Z := x ← IP.get8 tp 12; Some (Z.land x 15).
Definition th_flags (tp : bytes) : option Z := IP.get8 tp 13.
Definition th_win (tp : bytes) : option Z := IP.get16 tp 14.
Definition th_urp (tp : bytes) : option Z := IP.get16 tp 18.

(** [sizeof(struct tcphdr)] *)
Definition sizeof_tcphdr : Z := 20.

Definition TH_FIN : Z := 0x01.
Definition TH_SYN : Z := 0x02.
Definition TH_RST : Z := 0x04.
Definition TH_PUSH : Z := 0x08.
Definition TH_ACK : Z := 0x10.
Definition TH_URG : Z := 0x20.
Definition TH_ECE : Z := 0x40.
Definition TH_CWR : Z := 0x80.

(** [TCP_Flags] *)
Definition flag (f mask : Z) : bool := negb (Z.land f mask =? 0)%Z.
Definition SYN (f : Z) : bool := flag f TH_SYN.
Definition FIN (f : Z) : bool := flag f TH_FIN.
Definition RST (f : Z) : bool := flag f TH_RST.
Definition ACK (f : Z) : bool := flag f TH_ACK.
Definition URG (f : Z) : bool := flag f TH_URG.
Definition PUSH (f : Z) : bool := flag f TH_PUSH.

Definition TCPOPT_EOL : Z := 0.
Definition TCPOPT_NOP : Z := 1.
Definition TCPOPT_MAXSEG : Z := 2.
Definition TCPOPT_WINDOW : Z := 3.
Definition TCPOPT_SACK_PERMITTED : Z := 4.
Definition TCPOPT_TIMESTAMP : Z := 8.

(** ** ParseTCPOptions

    [proc] is called with an option, its length and its place; it answers
    [false] for -1.  [o] is the pointer [options]; each round moves it. *)

Section parse.
Context {X : Type}.
Variable proc : Z → Z → Z → X → bool * X.

Fixpoint parse_loop (fuel : nat) (tp : bytes) (opt_end o : Z) (x : X) : option (Z * X) :=
  match fuel with
  | O => None
  | S fuel =>
    if (opt_end <=? o)%Z then Some (0%Z, x)
    else
      opt ← IP.get8 tp o;
      opt_len ← (if (opt <? 2)%Z then Some (Some 1%Z)
                 else if (opt_end <=? o + 1)%Z then Some None
                 else Some <$> IP.get8 tp (o + 1));
      match opt_len with
      | None => Some (-1, x)%Z
      | Some opt_len =>
        if (opt_len =? 0)%Z then Some (-1, x)%Z
        else if (opt_end <? o + opt_len)%Z then Some (-1, x)%Z
        else
          let '(ok, x) := proc opt opt_len o x in
          if negb ok then Some (-1, x)%Z
          else if (opt =? TCPOPT_EOL)%Z then Some (0%Z, x)
          else parse_loop fuel tp opt_end (o + opt_len) x
      end
  end.

Definition ParseTCPOptions (tp : bytes) (x : X) : option (Z * X) :=
  off ← th_off tp; parse_loop (S (Z.to_nat (off * 4))) tp (off * 4) sizeof_tcphdr x.

End parse.

(** ** BuildSYNPacketVal *)

Record SYN_options := mkSYNOptions { winscale : Z; MSS : Z; SACK : bool }.

Definition no_options : SYN_options := mkSYNOptions (-1) 0 false.

Definition two_bytes (tp : bytes) (o : Z) : option Z :=
  a ← IP.get8 tp o; b ← IP.get8 tp (o + 1); Some (Z.lor (Z.shiftl a 8) b).

(** The switch over the kind of the option. *)
Definition syn_option (tp : bytes) (o opt opt_len : Z) (v : SYN_options) : option SYN_options :=
  if (opt =? TCPOPT_SACK_PERMITTED)%Z then Some (mkSYNOptions (winscale v) (MSS v) true)
  else if (opt =? TCPOPT_MAXSEG)%Z then
    if (opt_len <? 4)%Z then Some v
    else mss ← two_bytes tp (o + 2); Some (mkSYNOptions (winscale v) mss (SACK v))
  else if (opt =? TCPOPT_WINDOW)%Z then
    if (opt_len <? 3)%Z then Some v
    else ws ← IP.get8 tp (o + 2); Some (mkSYNOptions ws (MSS v) (SACK v))
  else Some v.

Fixpoint syn_loop (fuel : nat) (tp : bytes) (opt_end o : Z) (v : SYN_options) : option SYN_options :=
  match fuel with
  | O => None
  | S fuel =>
    if (opt_end <=? o)%Z then Some v
    else
      opt ← IP.get8 tp o;
      if (opt =? TCPOPT_EOL)%Z then Some v
      else if (opt =? TCPOPT_NOP)%Z then syn_loop fuel tp opt_end (o + 1) v
      else if (opt_end <=? o + 1)%Z then Some v
      else
        opt_len ← IP.get8 tp (o + 1);
        if (opt_end <? o + opt_len)%Z then Some v
        else if (opt_len =? 0)%Z then Some v
        else v ← syn_option tp o opt opt_len v; syn_loop fuel tp opt_end (o + opt_len) v
  end.

Definition SYN_options_of (tp : bytes) : option SYN_options :=
  off ← th_off tp; syn_loop (S (Z.to_nat (off * 4))) tp (off * 4) sizeof_tcphdr no_options.

(** The record of the script language. *)
Record SYN_packet := mkSYNPacket {
  sp_is_orig : bool; sp_DF : bool; sp_TTL : Z; sp_TotalLen : Z; sp_win : Z; sp_options : SYN_options
}.

Definition BuildSYNPacketVal (is_orig : bool) (ip : IP.IP_Hdr) (tp : bytes) : option SYN_packet :=
  v ← SYN_options_of tp;
  df ← IP.DF ip; ttl ← IP.TTL ip; len ← IP.TotalLen ip; win ← th_win tp;
  Some (mkSYNPacket is_orig df ttl len win v).

(** ** BuildOSVal *)

Definition MAXOPT : nat := 64.
Definition QUIRK_PAST : Z := 0x1.
Definition QUIRK_ZEROID : Z := 0x2.
Definition QUIRK_IPOPT : Z := 0x4.
Definition QUIRK_URG : Z := 0x8.
Definition QUIRK_X2 : Z := 0x10.
Definition QUIRK_ACK : Z := 0x20.
Definition QUIRK_T2 : Z := 0x40.
Definition QUIRK_FLAGS : Z := 0x80.
Definition QUIRK_DATA : Z := 0x100.
Definition QUIRK_BROKEN : Z := 0x200.
Definition QUIRK_SEQEQ : Z := 0x800.
Definition QUIRK_SEQ0 : Z := 0x1000.

(** The local variables of the loop; [op] is not initialized. *)
Record os_state := mkOS {
  op : list (option Z); optcount : nat; quirks : Z; tstamp : Z; os_MSS : Z; os_winscale : Z
}.

Definition set_op (v : list (option Z)) (s : os_state) : os_state :=
  mkOS v (optcount s) (quirks s) (tstamp s) (os_MSS s) (os_winscale s).
Definition add_quirk (b : bool) (q : Z) (s : os_state) : os_state :=
  mkOS (op s) (optcount s) (if b then Z.lor (quirks s) q else quirks s) (tstamp s) (os_MSS s) (os_winscale s).
Definition count_option (s : os_state) : os_state :=
  mkOS (op s) (S (optcount s)) (quirks s) (tstamp s) (os_MSS s) (os_winscale s).
Definition set_os_MSS (v : Z) (s : os_state) : os_state :=
  mkOS (op s) (optcount s) (quirks s) (tstamp s) v (os_winscale s).
Definition set_os_winscale (v : Z) (s : os_state) : os_state :=
  mkOS (op s) (optcount s) (quirks s) (tstamp s) (os_MSS s) v.
Definition set_tstamp (v : Z) (s : os_state) : os_state :=
  mkOS (op s) (optcount s) (quirks s) v (os_MSS s) (os_winscale s).

(** [op[optcount] = v] *)
Definition put_op (v : Z) (s : os_state) : option os_state :=
  a ← arr_set (op s) (optcount s) v; Some (set_op a s).

(** [ntohl] on the host. *)
Definition ntohl (x : Z) : Z :=
  foldr (λ k acc, Z.lor acc (Z.shiftl (Z.land (Z.shiftr x (8 * k)) 255) (8 * (3 - k))))%Z 0%Z [0; 1; 2; 3]%Z.

Definition os_option (tp : bytes) (o opt opt_len : Z) (s : os_state) : option os_state :=
  if (opt =? TCPOPT_SACK_PERMITTED)%Z then put_op TCPOPT_SACK_PERMITTED s
  else if (opt =? TCPOPT_MAXSEG)%Z then
    if (opt_len <? 4)%Z then Some s
    else s ← put_op TCPOPT_MAXSEG s; mss ← two_bytes tp (o + 2); Some (set_os_MSS mss s)
  else if (opt =? TCPOPT_WINDOW)%Z then
    if (opt_len <? 3)%Z then Some s
    else s ← put_op TCPOPT_WINDOW s; ws ← IP.get8 tp (o + 2); Some (set_os_winscale ws s)
  else if (opt =? TCPOPT_TIMESTAMP)%Z then
    if (opt_len <? 10)%Z then Some s
    else
      s ← put_op TCPOPT_TIMESTAMP s;
      t ← NU.extract_uint32 (drop (Z.to_nat (o + 2)) tp);
      e ← NU.extract_uint32 (drop (Z.to_nat (o + 6)) tp);
      Some (add_quirk (negb (e =? 0)%Z) QUIRK_T2 (set_tstamp (ntohl t) s))
  else put_op opt s.

Fixpoint os_loop (fuel : nat) (tp : bytes) (opt_end o : Z) (s : os_state) : option os_state :=
  match fuel with
  | O => None
  | S fuel =>
    if (opt_end <=? o)%Z then Some s
    else
      opt ← IP.get8 tp o;
      if (opt =? TCPOPT_EOL)%Z then
        s ← put_op TCPOPT_EOL s; Some (add_quirk (o + 1 <? opt_end)%Z QUIRK_PAST (count_option s))
      else if (opt =? TCPOPT_NOP)%Z then
        s ← put_op TCPOPT_NOP s; os_loop fuel tp opt_end (o + 1) (count_option s)
      else if (opt_end <=? o + 1)%Z then Some (add_quirk true QUIRK_BROKEN s)
      else
        opt_len ← IP.get8 tp (o + 1);
        if (opt_end <? o + opt_len)%Z then Some (add_quirk true QUIRK_BROKEN s)
        else if (opt_len =? 0)%Z then Some s
        else
          s ← os_option tp o opt opt_len s;
          os_loop fuel tp opt_end (o + opt_len)
            (if decide (optcount s < MAXOPT - 1) then count_option s else add_quirk true QUIRK_BROKEN s)
  end.

(** What is looked up in the data base of fingerprints. *)
Record OS_probe := mkProbe {
  pr_tot : Z; pr_DF : bool; pr_TTL : Z; pr_win : Z; pr_op : list (option Z); pr_MSS : Z;
  pr_winscale : Z; pr_tstamp : Z; pr_quirks : Z; pr_ecn : Z
}.

(** The quirks of the two headers. *)
Definition header_quirks (ip : IP.IP_Hdr) (tp : bytes) (tcp_hdr_len : Z) (s : os_state) : option os_state :=
  hl ← IP.HdrLen ip; id ← IP.ID ip; seq ← th_seq tp; ack ← th_ack tp; f ← th_flags tp;
  tot ← IP.TotalLen ip; urp ← th_urp tp; x2 ← th_x2 tp;
  Some (add_quirk (negb (x2 =? 0)%Z) QUIRK_X2
    (add_quirk (negb (urp =? 0)%Z) QUIRK_URG
    (add_quirk (negb (ack =? 0)%Z) QUIRK_ACK
    (add_quirk (0 <? uint32 (tot - hl - tcp_hdr_len))%Z QUIRK_DATA
    (add_quirk (flag f (Z.lnot (foldl Z.lor 0%Z [TH_SYN; TH_ACK; TH_RST; TH_ECE; TH_CWR]))) QUIRK_FLAGS
    (add_quirk (seq =? ack)%Z QUIRK_SEQEQ
    (add_quirk (seq =? 0)%Z QUIRK_SEQ0
    (add_quirk (id =? 0)%Z QUIRK_ZEROID
    (add_quirk (20 <? hl)%Z QUIRK_IPOPT s))))))))).

(** Up to the lookup; a responder has no fingerprint. *)
Definition BuildOSVal (is_orig : bool) (ip : IP.IP_Hdr) (tp : bytes) (tcp_hdr_len : Z) : option (option OS_probe) :=
  if negb is_orig then Some None
  else
    s ← header_quirks ip tp tcp_hdr_len (mkOS (arr_alloc MAXOPT) 0 0 0 0 0);
    s ← os_loop (S (Z.to_nat tcp_hdr_len)) tp tcp_hdr_len sizeof_tcphdr s;
    df ← IP.DF ip; ttl ← IP.TTL ip; tot ← IP.TotalLen ip; win ← th_win tp; f ← th_flags tp;
    Some (Some (mkProbe (uint16 tot) df (uint8 ttl) win (take (optcount s) (op s)) (uint16 (os_MSS s))
      (uint8 (os_winscale s)) (tstamp s) (quirks s) (Z.land f (Z.lor TH_ECE TH_CWR)))).

(** ** Specification

    The options between two places: place, kind and length of each.  The result is
    0 at the end or behind EOL, and -1 in front of an option that does not fit. *)

Definition call : Type := Z * Z * Z.

Inductive scan (tp : bytes) (n : Z) : Z → list call → Z → Z → Prop :=
  | scan_end : scan tp n n [] n 0
  | scan_eol o : (o < n)%Z → IP.get8 tp o = Some TCPOPT_EOL → scan tp n o [(o, TCPOPT_EOL, 1%Z)] (o + 1) 0
  | scan_bad o opt :
      (o < n)%Z → IP.get8 tp o = Some opt → (2 ≤ opt)%Z →
      (∀ len, (o + 1 < n)%Z → IP.get8 tp (o + 1) = Some len → len = 0%Z ∨ (n < o + len)%Z) →
      scan tp n o [] o (-1)
  | scan_nop o cs q r :
      (o < n)%Z → IP.get8 tp o = Some TCPOPT_NOP → scan tp n (o + 1) cs q r →
      scan tp n o ((o, TCPOPT_NOP, 1%Z) :: cs) q r
  | scan_option o opt len cs q r :
      (o + 1 < n)%Z → IP.get8 tp o = Some opt → (2 ≤ opt)%Z → IP.get8 tp (o + 1) = Some len →
      (0 < len)%Z → (o + len ≤ n)%Z → scan tp n (o + len) cs q r → scan tp n o ((o, opt, len) :: cs) q r.

(** The calls are recorded. *)
Definition record (opt opt_len o : Z) (cs : list call) : bool * list call := (true, cs ++ [(o, opt, opt_len)]).

(** What each option does to the record of a SYN, and to a fingerprint. *)
Definition syn_calls (tp : bytes) (cs : list call) (v : SYN_options) : option SYN_options :=
  foldl (λ v '(o, opt, len), v ← v; syn_option tp o opt len v) (Some v) cs.

(** An option whose length is too small for its contents. *)
Definition short (opt len : Z) : bool :=
  ((opt =? TCPOPT_MAXSEG) && (len <? 4) || (opt =? TCPOPT_WINDOW) && (len <? 3) ||
   (opt =? TCPOPT_TIMESTAMP) && (len <? 10))%Z.

(** The header is captured, and holds bytes. *)
Definition header_ok (tp : bytes) (n : Z) : Prop :=
  IP.bytes_ok tp ∧ (20 ≤ n ≤ 60)%Z ∧ (n ≤ Z.of_nat (length tp))%Z.

Section loops.
Context (tp : bytes) (n : Z) (Hok : header_ok tp n).

Lemma options_header_read o : (0 ≤ o < n)%Z → ∃ x, IP.get8 tp o = Some x ∧ (0 ≤ x < 256)%Z.
Proof using Hok.
  destruct Hok as (Hb & Hn & Hl). intros Ho. destruct (IP.get8_in tp o) as [x Hx]; [lia|].
  exists x. split; [done|]. by eapply IP.get8_bounds.
Qed.

Lemma scan_bounds o cs q r : scan tp n o cs q r → (o ≤ q ≤ n)%Z.
Proof. induction 1; lia. Qed.

Lemma scan_total fuel o : (0 ≤ o ≤ n)%Z → (n - o < Z.of_nat fuel)%Z → ∃ cs q r, scan tp n o cs q r.
Proof using Hok.
  revert o. induction fuel as [|fuel IH]; intros o Ho Hf; [lia|].
  destruct (decide (o = n)) as [->|Hne]; [do 3 eexists; constructor|].
  destruct (options_header_read o) as (opt & Hopt & Hb); [lia|].
  destruct (decide (opt = 0)%Z) as [->|]; [do 3 eexists; by apply scan_eol; [lia|]|].
  destruct (decide (opt = 1)%Z) as [->|].
  { destruct (IH (o + 1)%Z) as (cs & q & r & Hs); [lia..|]. do 3 eexists. apply scan_nop; [lia|done..]. }
  destruct (decide (o + 1 < n)%Z) as [Hin|]; [|do 3 eexists; apply (scan_bad _ _ _ opt); [lia|done|lia|lia]].
  destruct (options_header_read (o + 1)) as (len & Hlen & Hl); [lia|].
  destruct (decide (0 < len ∧ o + len ≤ n)%Z) as [[Hlen0 Hfit]|Hbad].
  - destruct (IH (o + len)%Z) as (cs & q & r & Hs); [lia..|]. do 3 eexists. eapply scan_option; [..|done]; done || lia.
  - do 3 eexists. apply (scan_bad _ _ _ opt); [lia|done|lia|]. intros len' _ Hlen'. simplify_eq. lia.
Qed.

Ltac decide_Z :=
  repeat match goal with
  | |- context [(?a <=? ?b)%Z] => destruct (Z.leb_spec a b); try lia
  | |- context [(?a <? ?b)%Z] => destruct (Z.ltb_spec a b); try lia
  | |- context [(?a =? ?b)%Z] => destruct (Z.eqb_spec a b); try lia
  end.

Lemma scan_parse fuel o cs q r acc :
  scan tp n o cs q r → (0 ≤ o)%Z → (n - o < Z.of_nat fuel)%Z →
  parse_loop record fuel tp n o acc = Some (r, acc ++ cs).
Proof using Hok.
  intros Hs. revert fuel acc. induction Hs as [|o Ho Hx|o opt Ho Hx H2 Hbad|o cs q r Ho Hx Hs IH|o opt len cs q r Ho Hx H2 Hlen Hl Hfit Hs IH];
    intros [|fuel] acc Ho0 Hf; try lia; simpl; rw ?app_nil_r.
  - by rw Z.leb_refl.
  - destruct (Z.leb_spec n o); [lia|]. rw Hx /=. decide_Z; done.
  - destruct (Z.leb_spec n o); [lia|]. rw Hx /=. destruct (Z.ltb_spec opt 2); [lia|].
    destruct (Z.leb_spec n (o + 1)); simpl; [done|].
    destruct (options_header_read (o + 1)) as (len & Hlen & Hl); [lia|]. rw Hlen /=.
    destruct (Hbad len) as [->|]; [lia|done|done|]. decide_Z; done.
  - destruct (Z.leb_spec n o); [lia|]. rw Hx /=. decide_Z. rw IH; [|lia..]. by rw -assoc.
  - destruct (Z.leb_spec n o); [lia|]. rw Hx /=. destruct (Z.ltb_spec opt 2); [lia|].
    destruct (Z.leb_spec n (o + 1)); simpl; [lia|]. rw Hlen /=. unfold TCPOPT_EOL. decide_Z.
    rw IH; [|lia..]. by rw -assoc.
Qed.

Lemma two_bytes_read o : (0 ≤ o)%Z → (o + 1 < n)%Z → ∃ x, two_bytes tp o = Some x.
Proof using Hok.
  intros H0 Ho. destruct (options_header_read o) as (a & Ha & _); [lia|]. destruct (options_header_read (o + 1)) as (b & Hb & _); [lia|].
  unfold two_bytes. rw Ha /= Hb /=. by eexists.
Qed.

Lemma syn_option_total o opt len v : (0 ≤ o)%Z → (o + len ≤ n)%Z → ∃ v', syn_option tp o opt len v = Some v'.
Proof using Hok.
  intros H0 Hfit. unfold syn_option. destruct (opt =? TCPOPT_SACK_PERMITTED)%Z; [by eexists|].
  destruct (opt =? TCPOPT_MAXSEG)%Z.
  { destruct (Z.ltb_spec len 4); [by eexists|]. destruct (two_bytes_read (o + 2)) as [x ->]; [lia..|]. by eexists. }
  destruct (opt =? TCPOPT_WINDOW)%Z; [|by eexists].
  destruct (Z.ltb_spec len 3); [by eexists|]. destruct (options_header_read (o + 2)) as (x & -> & _); [lia|]. by eexists.
Qed.

Lemma syn_calls_cons o opt len cs v v' :
  syn_option tp o opt len v = Some v' → syn_calls tp ((o, opt, len) :: cs) v = syn_calls tp cs v'.
Proof. intros Hv. unfold syn_calls. simpl. by rw Hv. Qed.

Lemma scan_syn fuel o cs q r v :
  scan tp n o cs q r → (0 ≤ o)%Z → (n - o < Z.of_nat fuel)%Z →
  ∃ v', syn_calls tp cs v = Some v' ∧ syn_loop fuel tp n o v = Some v'.
Proof using Hok.
  intros Hs. revert fuel v. induction Hs as [|o Ho Hx|o opt Ho Hx H2 Hbad|o cs q r Ho Hx Hs IH|o opt len cs q r Ho Hx H2 Hlen Hl Hfit Hs IH];
    intros [|fuel] v Ho0 Hf; try lia; simpl.
  - exists v. by rw Z.leb_refl.
  - exists v. destruct (Z.leb_spec n o); [lia|]. by rw Hx.
  - exists v. split; [done|]. destruct (Z.leb_spec n o); [lia|]. rw Hx /=. unfold TCPOPT_EOL, TCPOPT_NOP. decide_Z; [done|].
    destruct (options_header_read (o + 1)) as (len & Hlen & Hl); [lia|]. rw Hlen /=.
    destruct (Hbad len) as [->|]; [lia|done|decide_Z; done|decide_Z; done].
  - destruct (Z.leb_spec n o); [lia|]. rw Hx /= (syn_calls_cons _ _ _ _ _ v) //. apply IH; lia.
  - destruct (Z.leb_spec n o); [lia|]. rw Hx /=. unfold TCPOPT_EOL, TCPOPT_NOP. decide_Z. rw Hlen /=. decide_Z.
    destruct (syn_option_total o opt len v) as [v1 Hv1]; [lia..|]. rw Hv1 /= (syn_calls_cons _ _ _ _ _ v1) //. apply IH; lia.
Qed.

(** The loop of [BuildOSVal]: one cell per option, in order. *)
Definition recorded (c : call) : option Z := let '(_, opt, len) := c in if short opt len then None else Some opt.

Lemma put_op_spec v s : optcount s < length (op s) → put_op v s = Some (set_op (<[optcount s := Some v]> (op s)) s).
Proof. intros. unfold put_op, arr_set. by rw decide_True. Qed.

Lemma put_recorded a (c : call) cs k v :
  length a = MAXOPT → take k a = recorded <$> cs → k < MAXOPT → recorded c = Some v →
  take (S k) (<[k := Some v]> a) = recorded <$> cs ++ [c].
Proof.
  intros Hl Ht Hk Hv. rw fmap_app -Ht /= Hv. rw (take_S_r _ _ (Some v)).
  - by rw take_insert_ge.
  - rw list_lookup_insert_eq //. lia.
Qed.

(** The state of the loop after the calls. *)
Record os_inv (cs : list call) (s : os_state) : Prop := {
  oi_len : length (op s) = MAXOPT;
  oi_count : optcount s = length cs;
  oi_cells : ∀ i c, cs !! i = Some c → op s !! i = Some (recorded c);
  oi_rest : ∀ i, length cs ≤ i < MAXOPT → op s !! i = Some None
}.

Lemma os_inv_quirk cs s b k : os_inv cs s → os_inv cs (add_quirk b k s).
Proof. by intros [????]. Qed.

(** An option that is recorded, or passed over because it is short. *)
Lemma os_inv_snoc cs s o opt len s' :
  os_inv cs s → length cs < MAXOPT → optcount s' = optcount s →
  op s' = (if short opt len then op s else <[optcount s := Some opt]> (op s)) →
  os_inv (cs ++ [(o, opt, len)]) (count_option s').
Proof.
  intros [Hl Hc Hcells Hrest] Hlen Hc' Hop. split; simpl.
  - rw Hop. destruct (short opt len); [done|by rw length_insert].
  - rw Hc' Hc length_app /=. lia.
  - intros i c. rw lookup_app. destruct (cs !! i) as [c'|] eqn:Hi.
    + intros [= <-]. rw Hop. destruct (short opt len); [by apply Hcells|].
      rw list_lookup_insert_ne; [by apply Hcells|]. apply lookup_lt_Some in Hi. lia.
    + intros H1. apply list_lookup_singleton_Some in H1 as [H0 <-]. apply lookup_ge_None in Hi.
      assert (i = length cs) as -> by lia. rw Hop /=. destruct (short opt len); [apply Hrest; lia|].
      rw Hc list_lookup_insert_eq //. lia.
  - intros i. rw length_app /=. intros Hi. rw Hop. destruct (short opt len); [apply Hrest; lia|].
    rw list_lookup_insert_ne; [apply Hrest; lia|lia].
Qed.

Lemma extract_read o : (0 ≤ o)%Z → (o + 3 < n)%Z → ∃ x, NU.extract_uint32 (drop (Z.to_nat o) tp) = Some x.
Proof using Hok.
  intros H0 Ho. destruct Hok as (Hb & Hn & Hl). unfold NU.extract_uint32.
  assert (∀ i, (0 ≤ i < 4)%Z → ∃ x, IP.get8 (drop (Z.to_nat o) tp) i = Some x) as Hr.
  { intros i Hi. destruct (IP.get8_in (drop (Z.to_nat o) tp) i) as [x Hx]; [rw length_drop; lia|]. by exists x. }
  destruct (Hr 0%Z) as [? E0], (Hr 1%Z) as [? E1], (Hr 2%Z) as [? E2], (Hr 3%Z) as [? E3]; [lia..|].
  rw E0 /= E1 /= E2 /= E3. by eexists.
Qed.

Lemma os_option_spec o opt len s :
  (0 ≤ o)%Z → (o + len ≤ n)%Z → length (op s) = MAXOPT → optcount s < MAXOPT →
  ∃ s', os_option tp o opt len s = Some s' ∧ optcount s' = optcount s ∧
    op s' = (if short opt len then op s else <[optcount s := Some opt]> (op s)).
Proof using Hok.
  intros H0 Hfit Hl Hc. unfold os_option, short.
  destruct (Z.eqb_spec opt TCPOPT_SACK_PERMITTED) as [->|].
  { rw put_op_spec; [|lia]. by eexists. }
  destruct (Z.eqb_spec opt TCPOPT_MAXSEG) as [->|]; simpl.
  { destruct (Z.ltb_spec len 4); [by eexists|]. rw put_op_spec /=; [|lia].
    destruct (two_bytes_read (o + 2)) as [x ->]; [lia..|]. by eexists. }
  destruct (Z.eqb_spec opt TCPOPT_WINDOW) as [->|]; simpl.
  { destruct (Z.ltb_spec len 3); [by eexists|]. rw put_op_spec /=; [|lia].
    destruct (options_header_read (o + 2)) as (x & -> & _); [lia|]. by eexists. }
  destruct (Z.eqb_spec opt TCPOPT_TIMESTAMP) as [->|]; simpl; [|rw put_op_spec; [|lia]; by eexists].
  destruct (Z.ltb_spec len 10); [by eexists|]. rw put_op_spec /=; [|lia].
  destruct (extract_read (o + 2)) as [x ->]; [lia..|]. simpl. destruct (extract_read (o + 6)) as [y ->]; [lia..|]. by eexists.
Qed.

Lemma scan_os fuel o cs0 cs q r s :
  scan tp n o cs q r → (0 ≤ o)%Z → (n - o < Z.of_nat fuel)%Z → os_inv cs0 s →
  (Z.of_nat (length cs0) ≤ o - 20)%Z →
  ∃ s', os_loop fuel tp n o s = Some s' ∧ os_inv (cs0 ++ cs) s'.
Proof using Hok.
  intros Hs. revert fuel cs0 s. pose proof Hok as (_ & Hn & _).
  induction Hs as [|o Ho Hx|o opt Ho Hx H2 Hbad|o cs q r Ho Hx Hs IH|o opt len cs q r Ho Hx H2 Hlen Hl Hfit Hs IH];
    intros [|fuel] cs0 s Ho0 Hf Hinv Hcs; try lia; simpl; rw ?app_nil_r;
    (assert (length cs0 < MAXOPT - 1) as Hc by (unfold MAXOPT; lia)); pose proof Hinv as [Hl' Hc' _ _].
  - exists s. by rw Z.leb_refl.
  - destruct (Z.leb_spec n o); [lia|]. rw Hx /= put_op_spec /=; [|lia]. eexists. split; [done|].
    apply os_inv_quirk, (os_inv_snoc _ s); [done|lia|done|done].
  - destruct (Z.leb_spec n o); [lia|]. rw Hx /=. unfold TCPOPT_EOL, TCPOPT_NOP. decide_Z; [eexists; split; [done|by apply os_inv_quirk]|].
    destruct (options_header_read (o + 1)) as (len & Hlen & Hl); [lia|]. rw Hlen /=.
    destruct (Hbad len) as [->|]; [lia|done| |]; decide_Z; eexists; (split; [done|]); try done; by apply os_inv_quirk.
  - destruct (Z.leb_spec n o); [lia|]. rw Hx /= put_op_spec /=; [|lia].
    destruct (IH fuel (cs0 ++ [(o, TCPOPT_NOP, 1%Z)]) (count_option (set_op (<[optcount s := Some TCPOPT_NOP]> (op s)) s)))
      as (s' & Hs' & Hinv'); [lia|lia|by apply (os_inv_snoc _ s); [|lia|..]|rw length_app /=; lia|].
    exists s'. by rw -assoc in Hinv'.
  - destruct (Z.leb_spec n o); [lia|]. rw Hx /=. unfold TCPOPT_EOL, TCPOPT_NOP. decide_Z. rw Hlen /=. decide_Z.
    destruct (os_option_spec o opt len s) as (s1 & -> & Hc1 & Hop1); [lia|lia|done|lia|]. simpl.
    rw decide_True; [|lia].
    destruct (IH fuel (cs0 ++ [(o, opt, len)]) (count_option s1)) as (s' & Hs' & Hinv');
      [lia|lia|by apply (os_inv_snoc _ s); [|lia|..]|rw length_app /=; lia|].
    exists s'. by rw -assoc in Hinv'.
Qed.

End loops.

#[local] Arguments parse_loop : simpl never.
#[local] Arguments syn_loop : simpl never.
#[local] Arguments os_loop : simpl never.

Lemma fresh_os_inv q : os_inv [] (mkOS (arr_alloc MAXOPT) 0 q 0 0 0).
Proof. split; simpl; [done..|]. intros i Hi. apply lookup_replicate_2. lia. Qed.

Lemma scan_length tp n o cs q r : scan tp n o cs q r → (Z.of_nat (length cs) ≤ q - o)%Z.
Proof. induction 1; simpl; lia. Qed.

(** ** Properties *)

(** C32. The loops over the options of a TCP header that is captured end, stay inside
    of the header, and see the same options: [ParseTCPOptions] reports the options
    of the header in order, up to EOL, the end, or the first that does not fit,
    and answers -1 in the last case; the record of a SYN is the fold of
    these options.  (The third loop, of the fingerprints, is in
    [fingerprint_options].) *)
Theorem option_parsers_agree (tp : bytes) (off : Z) (Hoff : th_off tp = Some off) (Hok : header_ok tp (off * 4)) :
  ∃ cs q r, scan tp (off * 4) 20 cs q r ∧ (q ≤ off * 4)%Z ∧
    ParseTCPOptions record tp [] = Some (r, cs) ∧
    is_Some (SYN_options_of tp) ∧ SYN_options_of tp = syn_calls tp cs no_options.
Proof.
  pose proof Hok as (_ & Hn & _).
  destruct (scan_total tp (off * 4) Hok (S (Z.to_nat (off * 4))) 20) as (cs & q & r & Hs); [lia..|].
  exists cs, q, r. split; [done|]. split; [by apply (scan_bounds _ _ _ _ _ _ Hs)|].
  unfold ParseTCPOptions, SYN_options_of, sizeof_tcphdr. rw Hoff /=.
  rw (scan_parse tp _ Hok _ _ cs q r [] Hs); [|lia..].
  destruct (scan_syn tp _ Hok (S (Z.to_nat (off * 4))) 20 cs q r no_options Hs) as (v & -> & Hv); [lia..|].
  split; [done|]. rw Hv. split; [by eexists|done].
Qed.

(** A passive fingerprint has one cell for each option that [ParseTCPOptions]
    reports, in the same order, with its kind; the array of 64 cells is never
    exceeded.  The cell of an option that is too short for its contents is
    never written. *)
Theorem fingerprint_options (ip tp : bytes) (off : Z)
    (Hoff : th_off tp = Some off) (Hok : header_ok tp (off * 4)) (Hip : 20 ≤ length ip) :
  ∃ pr cs r, BuildOSVal true (IP.Hdr4 ip) tp (off * 4) = Some (Some pr) ∧
    ParseTCPOptions record tp [] = Some (r, cs) ∧
    pr_op pr = recorded <$> cs ∧ length cs ≤ 40.
Proof.
  pose proof Hok as (Hb & Hn & Hl).
  assert (∀ p i, (0 ≤ i)%Z → (i + 1 < Z.of_nat (length p))%Z → ∃ x, IP.get16 p i = Some x) as H16.
  { intros p i H0 Hi. unfold IP.get16. destruct (IP.get8_in p i) as [a Ea]; [lia|].
    destruct (IP.get8_in p (i + 1)) as [b Eb]; [lia|]. rw Ea /= Eb /=. by eexists. }
  assert (∀ p i, (0 ≤ i)%Z → (i + 3 < Z.of_nat (length p))%Z → ∃ x, IP.get32 p i = Some x) as H32.
  { intros p i H0 Hi. unfold IP.get32. destruct (H16 p i) as [a Ea]; [lia..|].
    destruct (H16 p (i + 2)%Z) as [b Eb]; [lia..|]. rw Ea /= Eb /=. by eexists. }
  destruct (IP.get8_in ip 0) as [b0 E0]; [lia|]. destruct (IP.get8_in ip 8) as [ttl E8]; [lia|].
  destruct (H16 ip 2%Z) as [tot E2], (H16 ip 4%Z) as [id E4], (H16 ip 6%Z) as [fr E6]; [lia..|].
  destruct (H32 tp 4%Z) as [sq F4], (H32 tp 8%Z) as [ack F8], (H16 tp 14%Z) as [win F14], (H16 tp 18%Z) as [urp F18]; [lia..|].
  destruct (IP.get8_in tp 13) as [fl F13], (IP.get8_in tp 12) as [x2 F12]; [lia..|].
  destruct (scan_total tp (off * 4) Hok (S (Z.to_nat (off * 4))) 20) as (cs & q & r & Hs); [lia..|].
  unfold BuildOSVal, header_quirks, IP.HdrLen, IP.ip_hl, IP.ID, th_seq, th_ack, th_flags, IP.TotalLen, th_urp, th_x2. simpl.
  rw E0 /= E4 /= F4 /= F8 /= F13 /= E2 /= F18 /= F12 /=. set (s0 := add_quirk _ _ _).
  destruct (scan_os tp _ Hok (S (Z.to_nat (off * 4))) 20 [] cs q r s0 Hs) as (s & Hrun & [Hlen Hcount Hcells _]); [lia|lia| |simpl; lia|].
  { subst s0. repeat apply os_inv_quirk. apply fresh_os_inv. }
  simpl in Hrun. unfold sizeof_tcphdr. rw Hrun /= E6 /= E8 /= /th_win F14 /=.
  eexists _, cs, r. split; [done|]. split; [unfold ParseTCPOptions, sizeof_tcphdr; rw Hoff /= (scan_parse tp _ Hok _ _ cs q r [] Hs) //; lia|].
  assert (length cs ≤ 40) as Hcs by (pose proof (scan_length _ _ _ _ _ _ Hs); pose proof (scan_bounds _ _ _ _ _ _ Hs); lia).
  split; [simpl|done]. rw Hcount. simpl in *. apply list_eq. intros i. rw list_lookup_fmap.
  destruct (cs !! i) as [c|] eqn:Hi; simpl.
  - rw lookup_take_lt; [by apply Hcells|by eapply lookup_lt_Some].
  - apply lookup_ge_None in Hi. by rw lookup_take_ge.
Qed.

(** ** Witnesses *)

(** A SYN with MSS, NOP, a window scale that is too short, NOP, and EOL. *)
Definition syn_sample : bytes :=
  [156; 64; 0; 80; 0; 0; 0; 1; 0; 0; 0; 0; 128; 2; 255; 255; 0; 0; 0; 0;
   2; 4; 5; 180; 1; 3; 2; 1; 0; 0; 0; 0]%Z.
Definition ip_sample : bytes := [69; 0; 0; 52; 0; 1; 64; 0; 64; 6; 0; 0; 10; 0; 0; 1; 10; 0; 0; 2]%Z.

Lemma syn_sample_ok : header_ok syn_sample 32.
Proof. split; [|split; simpl; lia]. repeat constructor; lia. Qed.

Lemma option_parsers_agree_witness : SYN_options_of syn_sample = Some (mkSYNOptions (-1) 1460 false).
Proof.
  destruct (option_parsers_agree syn_sample 8 eq_refl syn_sample_ok) as (cs & q & r & _ & _ & Hp & _ & ->).
  injection Hp as <- <-. reflexivity.
Defined.

Lemma fingerprint_options_witness :
  ∃ pr, BuildOSVal true (IP.Hdr4 ip_sample) syn_sample 32 = Some (Some pr) ∧
    pr_op pr = [Some 2; Some 1; None; Some 1; Some 0]%Z.
Proof.
  destruct (fingerprint_options ip_sample syn_sample 8 eq_refl syn_sample_ok) as (pr & cs & r & Hb & Hp & Hop & _); [simpl; lia|].
  exists pr. split; [exact Hb|]. rw Hop. injection Hp as <- <-. reflexivity.
Defined.

End TO.
