(* ===== verification/TcpState.v ===== *)
(** TcpState: the analyzer of the TCP protocol, TCP.cc / TCP.h, with what it
    inherits from Analyzer.cc and the parts of TCP_Endpoint.cc that call it or the
    reassembler.

    A member function is a computation over [State]: the analyzer, its connection,
    the counters and log of all connections, and the statistics.  The two endpoints
    are objects with an address ([Side]) each, since [FlipRoles] exchanges the
    pointers [orig] and [resp] while other functions hold them.  The reassemblers
    are those of TcpReassem; their call of [EndpointEOF] comes last in what they do,
    and is made when they return.  What goes to the script, to the children and to
    the analyzer that detects protocols is the list [out]. *)
From S2P Require Import Prelude Double Flow IP NetUtil Endpoint TcpReassem Conn TcpOptions.
From stdpp Require Import strings.
From Stdlib Require Import Ascii.

Module T.

Abbreviation bytes := (list Z) (only parsing).

(** ** Data *)

(** The addresses of the endpoints: the one created first, as originator. *)
Inductive Side := First | Second.

#[global] Instance Side_eq_dec : EqDecision Side.
Proof. solve_decision. Defined.

(** [peer] of an endpoint. *)
Definition other (sd : Side) : Side := match sd with First => Second | Second => First end.

Inductive child_call :=
  | ConnectionClosed_c (sd : Side) (gen_event : bool)
  | ConnectionFinished_c (half_finished : bool)
  | ConnectionReset_c
  | PacketWithRST_c
  | EndpointEOF_c (is_orig : bool)
  | FlipRoles_c
  | Done_c
  | Moved_c.

Inductive effect :=
  | SYNPacketEvent (v : TO.SYN_packet)
  | OSVersionProbe (addr : bytes) (p : TO.OS_probe)
  | PacketEvent (is_orig : bool) (flags : string) (seq ack len : Z) (data : bytes)
  | OptionEvent (is_orig : bool) (opt len : Z)
  | PacketContents (data : bytes)
  | EOFEvent (is_orig : bool)
  | Reassembled (sd : Side) (e : TR.effect)
  | ContentsWrite (sd : Side) (pos : Z) (data : bytes)
  | ToChildren (c : child_call)
  | ToPacketChildren (len : Z) (is_orig : bool) (seq caplen : Z)
  | ForwardPacket (len : Z) (is_orig : bool) (seq caplen : Z)
  | FirstPacket (is_orig : bool).

(** An endpoint with its reassembler and contents file. *)
Record Endpoint := mkEP {
  ep : E.TCP_Endpoint; contents_processor : option TR.TCP_Reassembler; contents_file : option nat
}.

Definition set_ep (v : E.TCP_Endpoint) (e : Endpoint) : Endpoint := mkEP v (contents_processor e) (contents_file e).
Definition set_processor (v : option TR.TCP_Reassembler) (e : Endpoint) : Endpoint :=
  mkEP (E.set_has_contents (match v with Some _ => true | None => false end) (ep e)) v (contents_file e).
Definition set_file (v : option nat) (e : Endpoint) : Endpoint :=
  mkEP (E.set_has_file (match v with Some _ => true | None => false end) (ep e)) (contents_processor e) v.

(** An AnalyzerTimer; [t_id] is its address. *)
Inductive TimerFunc := AttemptTimer_f | PartialCloseTimer_f | ExpireTimer_f | ResetTimer_f | DeleteTimer_f | ConnDeleteTimer_f.

#[global] Instance TimerFunc_eq_dec : EqDecision TimerFunc.
Proof. solve_decision. Defined.

Record Timer := mkTimer { t_id : nat; t_func : TimerFunc; t_time : double; t_do_expire : bool }.

(** [skip], [an_finished], [moved], [timers_canceled] and [timers] are members of
    Analyzer, whose [finished] the bit field of the same name hides. *)
Record TCP_Analyzer := mkTCP {
  skip : bool;
  an_finished : bool;
  moved : bool;
  timers_canceled : bool;
  timers : list Timer;
  ep1 : Endpoint;
  ep2 : Endpoint;
  orig : Side;
  has_packet_children : bool;
  first_packet_seen : Z;
  reassembling : bool;
  is_partial : bool;
  is_active : bool;
  finished : bool;
  close_deferred : bool;
  deferred_gen_event : bool;
  seen_first_ACK : bool;
  out : list effect
}.

Definition set_an_finished (v : bool) (a : TCP_Analyzer) : TCP_Analyzer :=
  mkTCP (skip a) v (moved a) (timers_canceled a) (timers a) (ep1 a) (ep2 a) (orig a)
    (has_packet_children a) (first_packet_seen a) (reassembling a) (is_partial a) (is_active a)
    (finished a) (close_deferred a) (deferred_gen_event a) (seen_first_ACK a) (out a).
Definition set_moved (v : bool) (a : TCP_Analyzer) : TCP_Analyzer :=
  mkTCP (skip a) (an_finished a) v (timers_canceled a) (timers a) (ep1 a) (ep2 a) (orig a)
    (has_packet_children a) (first_packet_seen a) (reassembling a) (is_partial a) (is_active a)
    (finished a) (close_deferred a) (deferred_gen_event a) (seen_first_ACK a) (out a).
Definition set_timers_canceled (v : bool) (a : TCP_Analyzer) : TCP_Analyzer :=
  mkTCP (skip a) (an_finished a) (moved a) v (timers a) (ep1 a) (ep2 a) (orig a)
    (has_packet_children a) (first_packet_seen a) (reassembling a) (is_partial a) (is_active a)
    (finished a) (close_deferred a) (deferred_gen_event a) (seen_first_ACK a) (out a).
Definition set_timers (v : list Timer) (a : TCP_Analyzer) : TCP_Analyzer :=
  mkTCP (skip a) (an_finished a) (moved a) (timers_canceled a) v (ep1 a) (ep2 a) (orig a)
    (has_packet_children a) (first_packet_seen a) (reassembling a) (is_partial a) (is_active a)
    (finished a) (close_deferred a) (deferred_gen_event a) (seen_first_ACK a) (out a).
Definition set_ep1 (v : Endpoint) (a : TCP_Analyzer) : TCP_Analyzer :=
  mkTCP (skip a) (an_finished a) (moved a) (timers_canceled a) (timers a) v (ep2 a) (orig a)
    (has_packet_children a) (first_packet_seen a) (reassembling a) (is_partial a) (is_active a)
    (finished a) (close_deferred a) (deferred_gen_event a) (seen_first_ACK a) (out a).
Definition set_ep2 (v : Endpoint) (a : TCP_Analyzer) : TCP_Analyzer :=
  mkTCP (skip a) (an_finished a) (moved a) (timers_canceled a) (timers a) (ep1 a) v (orig a)
    (has_packet_children a) (first_packet_seen a) (reassembling a) (is_partial a) (is_active a)
    (finished a) (close_deferred a) (deferred_gen_event a) (seen_first_ACK a) (out a).
Definition set_orig (v : Side) (a : TCP_Analyzer) : TCP_Analyzer :=
  mkTCP (skip a) (an_finished a) (moved a) (timers_canceled a) (timers a) (ep1 a) (ep2 a) v
    (has_packet_children a) (first_packet_seen a) (reassembling a) (is_partial a) (is_active a)
    (finished a) (close_deferred a) (deferred_gen_event a) (seen_first_ACK a) (out a).
Definition set_first_packet_seen (v : Z) (a : TCP_Analyzer) : TCP_Analyzer :=
  mkTCP (skip a) (an_finished a) (moved a) (timers_canceled a) (timers a) (ep1 a) (ep2 a)
    (orig a) (has_packet_children a) v (reassembling a) (is_partial a) (is_active a) (finished a)
    (close_deferred a) (deferred_gen_event a) (seen_first_ACK a) (out a).
Definition set_reassembling (v : bool) (a : TCP_Analyzer) : TCP_Analyzer :=
  mkTCP (skip a) (an_finished a) (moved a) (timers_canceled a) (timers a) (ep1 a) (ep2 a)
    (orig a) (has_packet_children a) (first_packet_seen a) v (is_partial a) (is_active a)
    (finished a) (close_deferred a) (deferred_gen_event a) (seen_first_ACK a) (out a).
Definition set_is_partial (v : bool) (a : TCP_Analyzer) : TCP_Analyzer :=
  mkTCP (skip a) (an_finished a) (moved a) (timers_canceled a) (timers a) (ep1 a) (ep2 a)
    (orig a) (has_packet_children a) (first_packet_seen a) (reassembling a) v (is_active a)
    (finished a) (close_deferred a) (deferred_gen_event a) (seen_first_ACK a) (out a).
Definition set_is_active (v : bool) (a : TCP_Analyzer) : TCP_Analyzer :=
  mkTCP (skip a) (an_finished a) (moved a) (timers_canceled a) (timers a) (ep1 a) (ep2 a)
    (orig a) (has_packet_children a) (first_packet_seen a) (reassembling a) (is_partial a) v
    (finished a) (close_deferred a) (deferred_gen_event a) (seen_first_ACK a) (out a).
Definition set_finished (v : bool) (a : TCP_Analyzer) : TCP_Analyzer :=
  mkTCP (skip a) (an_finished a) (moved a) (timers_canceled a) (timers a) (ep1 a) (ep2 a)
    (orig a) (has_packet_children a) (first_packet_seen a) (reassembling a) (is_partial a)
    (is_active a) v (close_deferred a) (deferred_gen_event a) (seen_first_ACK a) (out a).
Definition set_close_deferred (v : bool) (a : TCP_Analyzer) : TCP_Analyzer :=
  mkTCP (skip a) (an_finished a) (moved a) (timers_canceled a) (timers a) (ep1 a) (ep2 a)
    (orig a) (has_packet_children a) (first_packet_seen a) (reassembling a) (is_partial a)
    (is_active a) (finished a) v (deferred_gen_event a) (seen_first_ACK a) (out a).
Definition set_deferred_gen_event (v : bool) (a : TCP_Analyzer) : TCP_Analyzer :=
  mkTCP (skip a) (an_finished a) (moved a) (timers_canceled a) (timers a) (ep1 a) (ep2 a)
    (orig a) (has_packet_children a) (first_packet_seen a) (reassembling a) (is_partial a)
    (is_active a) (finished a) (close_deferred a) v (seen_first_ACK a) (out a).
Definition set_seen_first_ACK (v : bool) (a : TCP_Analyzer) : TCP_Analyzer :=
  mkTCP (skip a) (an_finished a) (moved a) (timers_canceled a) (timers a) (ep1 a) (ep2 a)
    (orig a) (has_packet_children a) (first_packet_seen a) (reassembling a) (is_partial a)
    (is_active a) (finished a) (close_deferred a) (deferred_gen_event a) v (out a).
Definition set_out (v : list effect) (a : TCP_Analyzer) : TCP_Analyzer :=
  mkTCP (skip a) (an_finished a) (moved a) (timers_canceled a) (timers a) (ep1 a) (ep2 a)
    (orig a) (has_packet_children a) (first_packet_seen a) (reassembling a) (is_partial a)
    (is_active a) (finished a) (close_deferred a) (deferred_gen_event a) (seen_first_ACK a) v.

(** The state of a call: the connection without its root analyzer, which is [tcp]. *)
Record State := mkState {
  tcp : TCP_Analyzer;
  conn : C.Connection ();
  world : C.World;
  stats : E.TCPStateStats
}.

Definition set_tcp (v : TCP_Analyzer) (s : State) : State :=
  mkState v (conn s) (world s) (stats s).
Definition set_conn (v : C.Connection ()) (s : State) : State :=
  mkState (tcp s) v (world s) (stats s).
Definition set_world (v : C.World) (s : State) : State :=
  mkState (tcp s) (conn s) v (stats s).
Definition set_stats (v : E.TCPStateStats) (s : State) : State :=
  mkState (tcp s) (conn s) (world s) v.

(** The options, and the handlers that are set. *)
Record config := mkConfig {
  conn_cfg : C.config;
  reass_cfg : TR.config;
  ignore_checksums : bool;
  tcp_contents : bool;
  tcp_content_deliver_all_orig : bool;
  tcp_content_deliver_all_resp : bool;
  delivery_port : bool → Z → bool;
  generate_OS_version_event : bytes → bool;
  OS_version_found : bool;
  connection_SYN_packet : bool;
  connection_attempt : bool;
  connection_partial_close : bool;
  connection_reset : bool;
  connection_pending : bool;
  connection_EOF : bool;
  tcp_packet : bool;
  tcp_option : bool;
  packet_contents : bool;
  new_connection_contents : bool;
  tcp_SYN_timeout : double;
  tcp_attempt_delay : double;
  tcp_reset_delay : double;
  tcp_close_delay : double;
  tcp_partial_close_delay : double;
  tcp_session_timer : double;
  tcp_connection_linger : double;
  tcp_inactivity_timeout : double;
  tcp_storm_interarrival_thresh : double;
  tcp_storm_thresh : Z
}.

Definition TOO_LARGE_SEQ_DELTA : Z := 1048576.
(** The bits of [first_packet_seen]. *)
Definition ORIG : Z := 1.
Definition RESP : Z := 2.

(** ** Access *)

Definition endpoint (sd : Side) (a : TCP_Analyzer) : Endpoint := match sd with First => ep1 a | Second => ep2 a end.
Definition put_endpoint (sd : Side) (e : Endpoint) (a : TCP_Analyzer) : TCP_Analyzer :=
  match sd with First => set_ep1 e a | Second => set_ep2 e a end.
Definition resp (a : TCP_Analyzer) : Side := other (orig a).
(** The fields and the state of an endpoint. *)
Definition epf (sd : Side) (s : State) : E.TCP_Endpoint := ep (endpoint sd (tcp s)).
Definition est (sd : Side) (s : State) : E.EndpointState := E.state (epf sd s).

Definition IsClosed (a : TCP_Analyzer) : bool := E.did_close (ep (ep1 a)) || E.did_close (ep (ep2 a)).
Definition BothClosed (a : TCP_Analyzer) : bool := E.did_close (ep (ep1 a)) && E.did_close (ep (ep2 a)).

Definition on_tcp (f : TCP_Analyzer → TCP_Analyzer) (s : State) : State := set_tcp (f (tcp s)) s.
Definition on_conn (f : C.Connection () * C.World → C.Connection () * C.World) (s : State) : State :=
  let '(c, w) := f (conn s, world s) in set_world w (set_conn c s).
Definition on_ep (sd : Side) (f : E.TCP_Endpoint → E.TCP_Endpoint) (s : State) : State :=
  on_tcp (λ a, put_endpoint sd (set_ep (f (ep (endpoint sd a))) (endpoint sd a)) a) s.

Definition emit (e : effect) : M State () := modify (on_tcp (λ a, set_out (out a ++ [e]) a)).
Definition upd (sd : Side) (f : E.TCP_Endpoint → E.TCP_Endpoint) : M State () := modify (on_ep sd f).
Definition with_tcp (f : TCP_Analyzer → TCP_Analyzer) : M State () := modify (on_tcp f).
Definition Event (name : string) : M State () := modify (on_conn (C.emit_event (C.Event name))).
Definition Weird (name : string) : M State () := modify (on_conn (C.conn_Weird name)).
(** [sessions->Remove(Conn())] *)
Definition Remove : M State () := modify (on_conn (C.emit_event C.RemoveFromSessions)).
Definition is_state (st : E.EndpointState) (sd : Side) : M State bool := gets (λ s, bool_decide (est sd s = st)).

Section operations.
Variable cfg : config.

(** ** Timers (Analyzer.cc) *)

Definition AddTimer (f : TimerFunc) (t : double) (do_expire : bool) : M State () :=
  modify (λ s, set_world (C.set_next_id (S (C.next_id (world s))) (world s))
    (on_tcp (λ a, set_timers (timers a ++ [mkTimer (C.next_id (world s)) f t do_expire]) a) s)).

Definition RemoveTimer (tm : Timer) (a : TCP_Analyzer) : TCP_Analyzer :=
  set_timers (filter (λ x, t_id x ≠ t_id tm) (timers a)) a.

(** The timers are taken out of the queue of the manager, whose part that belongs
    to this analyzer is its list. *)
Definition CancelTimers : M State () := with_tcp (λ a, set_timers [] (set_timers_canceled true a)).

(** ** Endpoints (TCP_Endpoint.cc) *)

Definition SetState (sd : Side) (new_state : E.EndpointState) : M State () :=
  modify (λ s,
    let '(e, st, timeout) := E.SetState new_state (est (other sd) s) (epf sd s) (stats s) in
    let s := set_stats st (on_ep sd (λ _, e) s) in
    if (timeout : bool) then on_conn (C.SetInactivityTimeout (tcp_inactivity_timeout cfg)) s else s).

(** [CheckHistory] and [AddHistory] of the endpoint change the connection. *)
Definition CheckHistory (sd : Side) (mask : Z) (code : Ascii.ascii) : M State bool := λ s,
  let '(b, h) := E.CheckHistory mask code (epf sd s) (C.hist (conn s)) in
  Some (set_conn (C.set_hist h (conn s)) s, Some b).
Definition AddHistory (sd : Side) (code : Ascii.ascii) : M State () :=
  modify (λ s, set_conn (C.set_hist (E.AddHistory code (epf sd s) (C.hist (conn s))) (conn s)) s).

(** What the reassembler of an endpoint sees. *)
Definition reass_env (sd : Side) (s : State) : TR.env :=
  TR.mkEnv (epf sd s) (epf (other sd) s)
    (match contents_processor (endpoint (other sd) (tcp s)) with Some r => TR.HasUndeliveredData r | None => false end)
    (is_partial (tcp s)) (skip (tcp s)) (C.network_time (world s)).

(** Whether there is data to deliver before the endpoint closes; nothing is
    delivered when the analyzer skips. *)
Definition DataPending (sd : Side) (s : State) : bool :=
  if skip (tcp s) then false
  else match contents_processor (endpoint sd (tcp s)) with
       | Some r => TR.DataPending (reass_env sd s) r
       | None => false
       end.

(** ** The end of a connection *)

Definition ConnectionFinished (half_finished : bool) : M State () :=
  emit (ToChildren (ConnectionFinished_c half_finished));;
  Event (if half_finished then "connection_half_finished" else "connection_finished");;
  with_tcp (set_is_active false).

Definition ConnectionReset : M State () :=
  Event "connection_reset";; emit (ToChildren ConnectionReset_c);; with_tcp (set_is_active false).

(** The timers that [ConnectionClosed] installs. *)
Definition close_timer : M State () :=
  CancelTimers;;
  t ← gets (λ s, C.last_time (conn s));
  if negb (deq (tcp_close_delay cfg) (double_of_Z 0))
  then AddTimer ConnDeleteTimer_f (dadd t (tcp_close_delay cfg)) false
  else AddTimer DeleteTimer_f t false.

Definition half_close_timer (sd : Side) : M State () :=
  t ← gets (λ s, C.last_time (conn s));
  e ← gets (epf sd);
  if bool_decide (E.prev_state e = E.TCP_ENDPOINT_INACTIVE)
  then when (connection_partial_close cfg) (AddTimer PartialCloseTimer_f (dadd t (tcp_partial_close_delay cfg)) false)
  else AddTimer ExpireTimer_f (dadd t (tcp_session_timer cfg)) false.

(** The report of a complete close. *)
Definition report_close (sd : Side) (gen_event : bool) : M State () :=
  e ← gets (epf sd); p ← is_state E.TCP_ENDPOINT_INACTIVE (other sd);
  when (negb (bool_decide (E.prev_state e = E.TCP_ENDPOINT_INACTIVE)) || negb p) (
    d ← gets (λ s, deferred_gen_event (tcp s));
    with_tcp (set_deferred_gen_event false);;
    when (gen_event || d) (ConnectionFinished p)).

Definition ConnectionClosed (sd : Side) (gen_event : bool) : M State () :=
  emit (ToChildren (ConnectionClosed_c sd gen_event));;
  pending ← gets (DataPending sd);
  if (pending : bool) then
    with_tcp (λ a, set_deferred_gen_event (deferred_gen_event a || gen_event) (set_close_deferred true a));; stop
  else
    with_tcp (set_close_deferred false);;
    e ← gets (epf sd);
    if E.did_close e then stop
    else
      upd sd (E.set_did_close true);;
      p ← gets (epf (other sd));
      if bool_decide (E.state e = E.TCP_ENDPOINT_RESET) || E.did_close p ||
         bool_decide (E.state p = E.TCP_ENDPOINT_INACTIVE)
      then report_close sd gen_event;; close_timer
      else half_close_timer sd.

(** ** The reassemblers *)

Definition EndpointEOF (sd : Side) (by_orig : bool) : M State () :=
  when (connection_EOF cfg) (emit (EOFEvent by_orig));;
  emit (ToChildren (EndpointEOF_c by_orig));;
  d ← gets (λ s, close_deferred (tcp s));
  when d (
    pending ← gets (DataPending sd);
    both ← gets (λ s, BothClosed (tcp s));
    when (pending && both) (Weird "pending_data_when_closed");;
    g ← gets (λ s, deferred_gen_event (tcp s));
    call (ConnectionClosed sd g);;
    with_tcp (set_close_deferred false)).

Definition is_eof (e : TR.effect) : bool := match e with TR.EndpointEOF => true | _ => false end.

(** Store a reassembler after a call: its effects leave, and its call of
    [EndpointEOF] is made. *)
Definition store_reassembler (sd : Side) (r : TR.TCP_Reassembler) (a : TCP_Analyzer) : TCP_Analyzer :=
  set_out (out a ++ (Reassembled sd <$> TR.out r))
    (put_endpoint sd (set_processor (Some (TR.set_out [] r)) (endpoint sd a)) a).

Definition put_reassembler (sd : Side) (r : TR.TCP_Reassembler) : M State () :=
  with_tcp (store_reassembler sd r);;
  when (existsb is_eof (TR.out r)) (EndpointEOF sd (TR.is_orig r)).

Definition CheckEOF (sd : Side) : M State () :=
  s ← get;
  match contents_processor (endpoint sd (tcp s)) with
  | Some r => put_reassembler sd (TR.CheckEOF (reass_env sd s) r)
  | None => mret ()
  end.

Definition AckReceived (sd : Side) (sq : Z) : M State () :=
  s ← get;
  match contents_processor (endpoint sd (tcp s)) with
  | Some r =>
    '(g, r) ← lift (TR.AckReceived (reass_cfg cfg) (reass_env sd s) sq (C.gap_stats (world s)) r);
    modify (λ s, set_world (C.set_gap_stats g (world s)) s);;
    put_reassembler sd r
  | None => mret ()
  end.

(** [SizeBufferedData] of an endpoint. *)
Definition SizeBufferedData (sd : Side) (a : TCP_Analyzer) : option (Z * Z) :=
  match contents_processor (endpoint sd a) with Some r => TR.SizeBufferedData r | None => Some (0, 0)%Z end.

(** The write to the contents file; [None] is its internal error. *)
Definition write_contents (sd : Side) (sq ln : Z) (data : bytes) : M State () :=
  e ← gets (epf sd);
  let under_seq := int32 (E.contents_start_seq e - sq) in
  let '(sq, from, ln) := if (0 <? under_seq)%Z then (int32 (sq + under_seq), under_seq, ln - under_seq)%Z else (sq, 0, ln)%Z in
  d ← lift (IP.slice data from ln);
  _ ← lift (if TR.write_ok (reass_cfg cfg) then Some () else None);
  emit (ContentsWrite sd (int32 (sq - E.contents_start_seq e)) d).

Definition DataSent (sd : Side) (sq ln caplen : Z) (data : bytes) : M State bool :=
  s ← get;
  let proc := contents_processor (endpoint sd (tcp s)) in
  status ← match proc with
           | Some r =>
             if (ln <=? caplen)%Z then
               d ← lift (IP.slice data 0 ln);
               '(b, r) ← lift (TR.DataSent (reass_cfg cfg) (reass_env sd s) sq ln d true r);
               put_reassembler sd r;; mret (b : bool)
             else mret false
           | None => mret false
           end;
  let to_file := match proc, contents_file (endpoint sd (tcp s)) with
                 | None, Some _ => (E.contents_start_seq (epf sd s) <? int32 (sq + ln))%Z
                 | _, _ => false
                 end in
  when ((0 <? caplen)%Z && to_file) (write_contents sd sq ln data);;
  mret status.

(** [SetContentsFile] of an endpoint; counting a reference to no file reads the
    null pointer. *)
Definition endpoint_SetContentsFile (sd : Side) (f : option nat) (is_open : bool) : M State () :=
  f ← lift f;
  e ← gets (epf sd);
  let start := int32 (E.last_seq e - E.start_seq e) in
  with_tcp (λ a, put_endpoint sd (set_file (Some f) (endpoint sd a)) a);;
  upd sd (E.set_contents_start_seq (if (start =? 0)%Z then 1%Z else start));;
  s ← get;
  match contents_processor (endpoint sd (tcp s)) with
  | Some r => r ← lift (TR.SetContentsFile (reass_cfg cfg) is_open f r); put_reassembler sd r
  | None => mret ()
  end.

Inductive direction := CONTENTS_NONE | CONTENTS_ORIG | CONTENTS_RESP | CONTENTS_BOTH.

#[global] Instance direction_eq_dec : EqDecision direction.
Proof. solve_decision. Defined.

Definition SetContentsFile (d : direction) (f : option nat) (is_open : bool) : M State () :=
  o ← gets (λ s, orig (tcp s)); r ← gets (λ s, resp (tcp s));
  if bool_decide (d = CONTENTS_NONE) then
    endpoint_SetContentsFile o None is_open;; endpoint_SetContentsFile r None is_open
  else
    when (bool_decide (d = CONTENTS_ORIG) || bool_decide (d = CONTENTS_BOTH)) (endpoint_SetContentsFile o f is_open);;
    when (bool_decide (d = CONTENTS_RESP) || bool_decide (d = CONTENTS_BOTH)) (endpoint_SetContentsFile r f is_open).

Definition GetContentsFile (d : direction) (a : TCP_Analyzer) : option nat :=
  let fo := contents_file (endpoint (orig a) a) in let fr := contents_file (endpoint (resp a) a) in
  match d with
  | CONTENTS_NONE => None
  | CONTENTS_ORIG => fo
  | CONTENTS_RESP => fr
  | CONTENTS_BOTH => if decide (fo = fr) then fo else None
  end.

Definition AddReassembler (sd : Side) (r : TR.TCP_Reassembler) (is_open : bool) : M State () :=
  with_tcp (λ a, put_endpoint sd (set_processor (Some r) (endpoint sd a)) a);;
  s ← get;
  match contents_file (endpoint sd (tcp s)) with
  | Some f => r ← lift (TR.SetContentsFile (reass_cfg cfg) is_open f r); put_reassembler sd r
  | None => mret ()
  end.

Definition SetReassembler (rorig rresp : TR.TCP_Reassembler) (is_open : bool) : M State () :=
  o ← gets (λ s, orig (tcp s)); r ← gets (λ s, resp (tcp s));
  AddReassembler o rorig is_open;; AddReassembler r rresp is_open;;
  with_tcp (set_reassembling true);;
  when (new_connection_contents cfg) (Event "new_connection_contents").

Definition new_reassembler (by_orig : bool) (s : State) : TR.TCP_Reassembler :=
  TR.TCP_Reassembler_new (tcp_contents cfg) (tcp_content_deliver_all_orig cfg) (tcp_content_deliver_all_resp cfg)
    (delivery_port cfg by_orig (NU.htons (C.resp_port (conn s)))) TR.Forward by_orig.

Definition EnableReassembly (is_open : bool) : M State () :=
  s ← get;
  SetReassembler (new_reassembler true s) (new_reassembler false s) is_open;;
  with_tcp (set_reassembling true);;
  when (new_connection_contents cfg) (Event "new_connection_contents").

Definition HadGap (by_orig : bool) (a : TCP_Analyzer) : bool :=
  match contents_processor (endpoint (if by_orig then orig a else resp a) a) with
  | Some r => TR.HadGap r | None => false end.

(** ** Roles *)

(** [TCP_Analyzer::FlipRoles] *)
Definition tcp_FlipRoles (a : TCP_Analyzer) (st : E.TCPStateStats) : TCP_Analyzer * E.TCPStateStats :=
  let st := E.FlipState (E.state (ep (endpoint (orig a) a))) (E.state (ep (endpoint (resp a) a))) st in
  let flip e := set_ep (E.set_is_orig (negb (E.is_orig (ep e))) (ep e)) e in
  (set_out (out a ++ [ToChildren FlipRoles_c])
     (set_orig (resp a) (set_ep1 (flip (ep1 a)) (set_ep2 (flip (ep2 a)) a))), st).

(** [Conn()->FlipRoles()], which calls the analyzer. *)
Definition FlipRoles : M State () := modify (λ s,
  let '(c, st) := C.FlipRoles (conn s) (stats s) in
  let '(a, st) := tcp_FlipRoles (tcp s) st in
  set_stats st (set_tcp a (set_conn c s))).

(** ** Packets: the header *)

(** The lengths without the header, and its length. *)
Definition ExtractTCP_Header (tp : bytes) (len caplen : Z) : M State (Z * Z * Z) :=
  off ← lift (TO.th_off tp);
  let tcp_hdr_len := (off * 4)%Z in
  if (tcp_hdr_len <? TO.sizeof_tcphdr)%Z then Weird "bad_TCP_header_len";; stop
  else if (uint32 len <? tcp_hdr_len)%Z || (uint32 caplen <? TO.sizeof_tcphdr)%Z then Weird "truncated_header";; stop
  else mret (len - tcp_hdr_len, caplen - tcp_hdr_len, tcp_hdr_len)%Z.

Definition ValidateChecksum (tp : bytes) (sd : Side) (len caplen : Z) : M State bool :=
  if negb (ignore_checksums cfg) && (len <=? caplen)%Z then
    e ← gets (epf sd);
    off ← lift (TO.th_off tp);
    ok ← lift (E.ValidChecksum tp off len e);
    if (ok : bool) then mret true
    else Weird "bad_TCP_checksum";; CheckHistory sd E.HIST_CORRUPT_PKT "C";; mret false
  else mret true.

(** The history of a SYN, FIN or RST: a second one with another number is noted. *)
Definition note_control (sd : Side) (mask : Z) (code : Ascii.ascii) (sq : Z) (last : E.TCP_Endpoint → Z)
    (set_last : Z → E.TCP_Endpoint → E.TCP_Endpoint) : M State () :=
  seen ← CheckHistory sd mask code;
  e ← gets (epf sd);
  when (seen && negb (sq =? last e)%Z) (AddHistory sd code);;
  upd sd (set_last sq).

Definition CheckFlagCombos (f : Z) (sd : Side) (base_seq len : Z) : M State () :=
  e ← gets (epf sd); a ← gets tcp;
  when (E.is_orig e && (Z.land (first_packet_seen a) ORIG =? 0)%Z)
    (with_tcp (set_is_partial (negb (TO.SYN f) || TO.ACK f)));;
  a ← gets tcp;
  when (negb (E.is_orig e) && (Z.land (first_packet_seen a) RESP =? 0)%Z && negb (is_partial a))
    (with_tcp (set_is_partial (negb (TO.SYN f))));;
  let bits_set := ((if TO.SYN f then 1 else 0) + (if TO.FIN f then 1 else 0) + (if TO.RST f then 1 else 0))%Z in
  if (1 <? bits_set)%Z then
    if TO.FIN f && TO.RST f then call (CheckHistory sd E.HIST_FIN_RST_PKT "I")
    else call (CheckHistory sd E.HIST_MULTI_FLAG_PKT "Q")
  else if (bits_set =? 1)%Z then
    when (TO.SYN f) (note_control sd E.HIST_SYN_PKT (if TO.ACK f then "H" else "S")%char base_seq E.hist_last_SYN E.set_hist_last_SYN);;
    when (TO.FIN f) (note_control sd E.HIST_FIN_PKT "F" (uint32 (base_seq + len)) E.hist_last_FIN E.set_hist_last_FIN);;
    when (TO.RST f) (note_control sd E.HIST_RST_PKT "R" base_seq E.hist_last_RST E.set_hist_last_RST)
  else if negb (len =? 0)%Z then call (CheckHistory sd E.HIST_DATA_PKT "D")
  else when (TO.ACK f) (call (CheckHistory sd E.HIST_ACK_PKT "A")).

(** [1 << scale] on an [int], and a shift of the window: defined up to 30 and 31. *)
Definition shift_int (x scale : Z) : option Z :=
  if (0 <=? scale)%Z && (scale <? 31)%Z then Some (Z.shiftl x scale) else None.
Definition shift_uint (x scale : Z) : option Z :=
  if (0 <=? scale)%Z && (scale <? 32)%Z then Some (uint32 (Z.shiftl x scale)) else None.

(** A window that goes back is weird, unless the connection ends or by less than
    the granularity of the scale. *)
Definition window_recision (sd : Side) (advance scale f : Z) : M State () :=
  e ← gets (epf sd);
  when ((advance <? 0)%Z && negb (TO.FIN f) && negb (TO.RST f) &&
        negb (bool_decide (E.state e = E.TCP_ENDPOINT_CLOSED)) && negb (bool_decide (E.state e = E.TCP_ENDPOINT_RESET)))
    (slop ← lift (shift_int 1 scale);
     when (slop <=? int32 (- advance))%Z (Weird "window_recision")).

Definition UpdateWindow (sd : Side) (window base_seq ack_seq f : Z) : M State () :=
  e ← gets (epf sd);
  let scale := E.window_scale e in
  window ← lift (shift_uint window scale);
  when (negb (TO.SYN f) && (0 <=? int32 (uint32 (base_seq - E.window_seq e)))%Z &&
        (0 <=? int32 (uint32 (ack_seq - E.window_ack_seq e)))%Z)
    (let new_edge := uint32 (ack_seq + window) in
     let old_edge := uint32 (E.window_ack_seq e + E.window e) in
     window_recision sd (int32 (uint32 (new_edge - old_edge))) scale f;;
     upd sd (λ e, E.set_window_seq base_seq (E.set_window_ack_seq ack_seq (E.set_window window e)))).

(** ** Packets: the flags *)

(** The window scale that a SYN offers, or does not offer. *)
Definition negotiate_scale (sd : Side) (scale base_seq ack_seq f : Z) : M State () :=
  if (scale <? 0)%Z then
    upd sd (E.set_window_scale 0);; when (TO.ACK f) (upd (other sd) (E.set_window_scale 0))
  else
    upd sd (λ e, E.set_window_ack_seq ack_seq (E.set_window_seq base_seq (E.set_window_scale scale e)));;
    upd (other sd) (λ e, E.set_window_ack_seq base_seq (E.set_window_seq ack_seq e)).

Definition fingerprint (ip : IP.IP_Hdr) (tp : bytes) (tcp_hdr_len : Z) (orig_addr : bytes) (by_orig : bool) : M State () :=
  when (OS_version_found cfg && by_orig && generate_OS_version_event cfg orig_addr)
    (v ← lift (TO.BuildOSVal by_orig ip tp tcp_hdr_len);
     match v with Some pr => emit (OSVersionProbe orig_addr pr) | None => mret () end).

(** The result is the new [seq_len]. *)
Definition ProcessSYN (ip : IP.IP_Hdr) (tp : bytes) (tcp_hdr_len seq_len : Z) (sd : Side) (base_seq ack_seq : Z)
    (orig_addr : bytes) (by_orig : bool) (f : Z) : M State Z :=
  when (TO.RST f) (Weird "TCP_christmas");;
  when (TO.URG f) (Weird "baroque_SYN");;
  when (0 <? seq_len)%Z (Weird "SYN_with_data");;
  v ← lift (TO.BuildSYNPacketVal by_orig ip tp);
  negotiate_scale sd (TO.winscale (TO.sp_options v)) base_seq ack_seq f;;
  when (connection_SYN_packet cfg) (emit (SYNPacketEvent v));;
  fingerprint ip tp tcp_hdr_len orig_addr by_orig;;
  mret (int32 (seq_len + 1)).

(** [++n] of a counter of the endpoint, if a storm goes on; is it the threshold? *)
Definition storm (t : double) (sd : Side) (cnt : E.TCP_Endpoint → Z) (set_cnt : Z → E.TCP_Endpoint → E.TCP_Endpoint)
    : M State bool :=
  e ← gets (epf sd);
  if dlt t (dadd (E.last_time e) (tcp_storm_interarrival_thresh cfg)) then
    upd sd (λ e, set_cnt (int32 (cnt e + 1)) e);;
    e ← gets (epf sd); mret (cnt e =? tcp_storm_thresh cfg)%Z
  else mret false.

Definition ProcessFIN (t : double) (sd : Side) (seq_len base_seq : Z) : M State Z :=
  e ← gets (epf sd);
  seq_len ←
    (if (E.FIN_cnt e =? 0)%Z then upd sd (E.set_FIN_cnt 1);; mret (int32 (seq_len + 1))
     else b ← storm t sd E.FIN_cnt E.set_FIN_cnt; when b (Weird "FIN_storm");; mret seq_len);
  upd sd (λ e, E.set_FIN_seq (int32 (base_seq - E.start_seq e + seq_len)) e);;
  mret seq_len.

Definition ProcessRST (t : double) (sd : Side) (len seq_len : Z) : M State Z :=
  b ← storm t sd E.RST_cnt E.set_RST_cnt;
  (if (b : bool) then Weird "RST_storm"
   else e ← gets (epf sd); when (E.RST_cnt e =? 0)%Z (upd sd (E.set_RST_cnt 1)));;
  emit (ToChildren PacketWithRST_c);;
  mret (if (0 <? len)%Z then 0%Z else seq_len).

Definition first_ACK (sd : Side) (by_orig : bool) : M State () :=
  a ← gets tcp; e ← gets (epf sd);
  when (by_orig && negb (seen_first_ACK a) &&
        (bool_decide (E.state e = E.TCP_ENDPOINT_ESTABLISHED) || bool_decide (E.state e = E.TCP_ENDPOINT_SYN_SENT)))
    (with_tcp (set_seen_first_ACK true);; Event "connection_first_ACK").

(** An ack of an endpoint that was not seen starts its numbers. *)
Definition ack_inactive (sd : Side) (ack_seq f : Z) : M State () :=
  e ← gets (epf sd); c ← gets conn;
  when (negb (TO.SYN f) && negb (TO.FIN f) && negb (TO.RST f) &&
        (bool_decide (E.state e = E.TCP_ENDPOINT_SYN_SENT) || bool_decide (E.state e = E.TCP_ENDPOINT_SYN_ACK_SENT) ||
         bool_decide (E.state e = E.TCP_ENDPOINT_ESTABLISHED)) && negb (C.weird (C.flags c)))
    (Weird "possible_split_routing");;
  let sq := uint32 (ack_seq - 1) in
  upd (other sd) (λ p, E.set_last_seq sq (E.set_ack_seq sq (E.set_start_seq sq p))).

Definition ack_active (sd : Side) (ack_seq : Z) : M State () :=
  p ← gets (epf (other sd));
  let delta_ack := seq_delta ack_seq (E.ack_seq p) in
  if (ack_seq =? 0)%Z && (TOO_LARGE_SEQ_DELTA <? delta_ack)%Z then mret ()
  else when (0 <? delta_ack)%Z (upd (other sd) (E.UpdateAckSeq ack_seq)).

Definition ProcessACK (sd : Side) (ack_seq : Z) (by_orig : bool) (f : Z) : M State () :=
  first_ACK sd by_orig;;
  p ← gets (epf (other sd));
  (if bool_decide (E.state p = E.TCP_ENDPOINT_INACTIVE) then ack_inactive sd ack_seq f
   else when (negb (TO.RST f)) (ack_active sd ack_seq));;
  p ← gets (epf (other sd));
  AckReceived (other sd) (int32 (ack_seq - E.start_seq p)).

Definition ProcessFlags (t : double) (ip : IP.IP_Hdr) (tp : bytes) (tcp_hdr_len len : Z) (sd : Side)
    (base_seq ack_seq : Z) (orig_addr : bytes) (by_orig : bool) (f : Z) : M State Z :=
  seq_len ← (if TO.SYN f then ProcessSYN ip tp tcp_hdr_len len sd base_seq ack_seq orig_addr by_orig f else mret len);
  seq_len ← (if TO.FIN f then ProcessFIN t sd seq_len base_seq else mret seq_len);
  seq_len ← (if TO.RST f then ProcessRST t sd len seq_len else mret seq_len);
  when (TO.ACK f) (ProcessACK sd ack_seq by_orig f);;
  mret seq_len.

Definition TransitionFromInactive (t : double) (sd : Side) (base_seq last_seq : Z) (syn : bool) : M State () :=
  let start := if syn then base_seq else uint32 (base_seq - 1) in
  upd sd (λ e, E.set_start_time t (E.set_last_seq last_seq (E.set_start_seq start (E.set_ack_seq start e)))).

(** [TCP_Analyzer::UpdateLastSeq] *)
Definition UpdateLastSeq (sd : Side) (last_seq f : Z) : M State Z :=
  e ← gets (epf sd);
  let delta_last := seq_delta last_seq (E.last_seq e) in
  (if (TO.SYN f || TO.RST f) && ((TOO_LARGE_SEQ_DELTA <? delta_last)%Z || (delta_last <? - TOO_LARGE_SEQ_DELTA)%Z) then mret ()
   else if TO.FIN f && (E.last_seq e =? uint32 (E.start_seq e + 1))%Z then upd sd (E.UpdateLastSeq last_seq)
   else if bool_decide (E.state e = E.TCP_ENDPOINT_RESET) then mret ()
   else when (0 <? delta_last)%Z (upd sd (E.UpdateLastSeq last_seq)));;
  mret delta_last.

(** ** The state machine

    Each function returns whether the endpoint closes and whether that is an event. *)

Definition handshake_timer (t : double) : M State () :=
  when (connection_attempt cfg) (AddTimer AttemptTimer_f (dadd t (tcp_attempt_delay cfg)) true).

Definition inactive_SYN_orig (t : double) (sd : Side) (f : Z) : M State () :=
  (if TO.ACK f then Weird "connection_originator_SYN_ack";; SetState sd E.TCP_ENDPOINT_SYN_ACK_SENT
   else SetState sd E.TCP_ENDPOINT_SYN_SENT);;
  handshake_timer t.

(** The answer to a SYN, or what passes for one. *)
Definition check_SYN_answer (sd : Side) (base_seq ack_seq f : Z) : M State () :=
  e ← gets (epf sd); p ← gets (epf (other sd));
  if TO.ACK f then
    when (negb (bool_decide (E.state p = E.TCP_ENDPOINT_INACTIVE)) && negb (bool_decide (E.state p = E.TCP_ENDPOINT_PARTIAL)) &&
          negb (NU.seq_between ack_seq (E.start_seq p) (E.last_seq p)))
      (Weird "bad_SYN_ack")
  else if bool_decide (E.state p = E.TCP_ENDPOINT_SYN_ACK_SENT) && (base_seq =? E.start_seq e)%Z then
    FlipRoles;; SetState (other sd) E.TCP_ENDPOINT_ESTABLISHED
  else Weird "simultaneous_open".

Definition inactive_SYN_resp (sd : Side) (base_seq ack_seq f : Z) : M State () :=
  check_SYN_answer sd base_seq ack_seq f;;
  p ← gets (est (other sd));
  (if bool_decide (p = E.TCP_ENDPOINT_SYN_SENT) then SetState (other sd) E.TCP_ENDPOINT_ESTABLISHED
   else when (bool_decide (p = E.TCP_ENDPOINT_INACTIVE)) (Weird "unsolicited_SYN_response"));;
  SetState sd E.TCP_ENDPOINT_ESTABLISHED;;
  p ← gets (est (other sd));
  when (negb (bool_decide (p = E.TCP_ENDPOINT_PARTIAL)))
    (Event "connection_established";; modify (on_conn (C.EnableStatusUpdateTimer (conn_cfg cfg)))).

Definition inactive_FIN (sd : Side) (f : Z) : M State (bool * bool) :=
  SetState sd E.TCP_ENDPOINT_CLOSED;;
  p ← gets (est (other sd));
  when (negb (bool_decide (p = E.TCP_ENDPOINT_PARTIAL)) && negb (TO.SYN f)) (Weird "spontaneous_FIN");;
  mret (true, true).

Definition inactive_RST (sd : Side) (by_orig : bool) : M State (bool * bool) :=
  SetState sd E.TCP_ENDPOINT_RESET;;
  p ← gets (est (other sd));
  let is_reject := if by_orig then bool_decide (p = E.TCP_ENDPOINT_ESTABLISHED)
                   else bool_decide (p = E.TCP_ENDPOINT_SYN_SENT) || bool_decide (p = E.TCP_ENDPOINT_SYN_ACK_SENT) in
  (if is_reject then Event "connection_rejected"
   else when (bool_decide (p = E.TCP_ENDPOINT_INACTIVE)) (Weird "spontaneous_RST"));;
  mret (true, negb is_reject).

(** No flag changed the state: the connection is seen in part. *)
Definition inactive_other (sd : Side) (len : Z) (by_orig : bool) : M State () :=
  o ← gets (λ s, est (orig (tcp s)) s);
  if negb by_orig && (len =? 0)%Z && bool_decide (o = E.TCP_ENDPOINT_SYN_SENT) then mret ()
  else
    SetState sd E.TCP_ENDPOINT_PARTIAL;;
    modify (on_conn (C.EnableStatusUpdateTimer (conn_cfg cfg)));;
    p ← gets (est (other sd));
    when (bool_decide (p = E.TCP_ENDPOINT_PARTIAL)) (Event "partial_connection").

Definition UpdateInactiveState (t : double) (sd : Side) (base_seq ack_seq len : Z) (by_orig : bool) (f : Z)
    : M State (bool * bool) :=
  when (TO.SYN f) (if by_orig then inactive_SYN_orig t sd f else inactive_SYN_resp sd base_seq ack_seq f);;
  r ← (if TO.FIN f then inactive_FIN sd f else mret (false, false));
  r ← (if TO.RST f then inactive_RST sd by_orig else mret r);
  st ← gets (est sd);
  when (bool_decide (st = E.TCP_ENDPOINT_INACTIVE)) (inactive_other sd len by_orig);;
  mret r.

(** The three numbers of an endpoint start again. *)
Definition init_seqs (sd : Side) (base_seq last_seq : Z) : M State () :=
  upd sd (λ e, E.set_last_seq last_seq (E.set_ack_seq base_seq (E.set_start_seq base_seq e))).

Definition SYN_again (sd : Side) (base_seq last_seq : Z) (by_orig : bool) (f : Z) : M State () :=
  e ← gets (epf sd);
  (if by_orig then
     when (TO.ACK f && negb (TO.FIN f) && negb (TO.RST f) && negb (bool_decide (E.state e = E.TCP_ENDPOINT_SYN_ACK_SENT)))
       (Weird "repeated_SYN_with_ack")
   else
     when (negb (TO.ACK f) && negb (bool_decide (E.state e = E.TCP_ENDPOINT_SYN_SENT)))
       (Weird "repeated_SYN_reply_wo_ack"));;
  when (negb (base_seq =? E.start_seq e)%Z) (Weird "SYN_seq_jump";; init_seqs sd base_seq last_seq).

Definition UpdateSYN_SentState (sd : Side) (base_seq last_seq len : Z) (by_orig : bool) (f : Z) : M State (bool * bool) :=
  when (TO.SYN f) (SYN_again sd base_seq last_seq by_orig f);;
  r ← (if TO.FIN f then
         p ← gets (est (other sd));
         when (bool_decide (p = E.TCP_ENDPOINT_INACTIVE) || bool_decide (p = E.TCP_ENDPOINT_SYN_SENT)) (Weird "inappropriate_FIN");;
         SetState sd E.TCP_ENDPOINT_CLOSED;; mret (true, true)
       else mret (false, false));
  if TO.RST f then SetState sd E.TCP_ENDPOINT_RESET;; ConnectionReset;; mret (true, (r : bool * bool).2)
  else when (0 <? len)%Z (Weird "data_before_established");; mret r.

Definition SYN_inside (sd : Side) (base_seq last_seq f : Z) : M State () :=
  e ← gets (epf sd); p ← gets (est (other sd));
  when (bool_decide (E.state e = E.TCP_ENDPOINT_PARTIAL) && bool_decide (p = E.TCP_ENDPOINT_INACTIVE) && negb (TO.ACK f))
    (Weird "SYN_after_partial";; SetState sd E.TCP_ENDPOINT_SYN_SENT);;
  when (0 <? E.Size e)%Z (Weird "SYN_inside_connection");;
  when (negb (base_seq =? E.start_seq e)%Z) (Weird "SYN_seq_jump");;
  init_seqs sd base_seq last_seq.

Definition established_FIN (sd : Side) : M State (bool * bool) :=
  SetState sd E.TCP_ENDPOINT_CLOSED;;
  p ← gets (epf (other sd));
  when (bool_decide (E.state p = E.TCP_ENDPOINT_RESET) && bool_decide (E.prev_state p = E.TCP_ENDPOINT_CLOSED))
    (SetState (other sd) E.TCP_ENDPOINT_CLOSED);;
  mret (true, true).

Definition established_RST (sd : Side) (gen_event : bool) : M State (bool * bool) :=
  SetState sd E.TCP_ENDPOINT_RESET;;
  p ← gets (epf (other sd));
  when (negb (bool_decide (E.state p = E.TCP_ENDPOINT_RESET)) || negb (bool_decide (E.prev_state p = E.TCP_ENDPOINT_ESTABLISHED)))
    ConnectionReset;;
  mret (true, gen_event).

Definition UpdateEstablishedState (sd : Side) (base_seq last_seq f : Z) : M State (bool * bool) :=
  when (TO.SYN f) (SYN_inside sd base_seq last_seq f);;
  r ← (if TO.FIN f && negb (TO.RST f) then established_FIN sd else mret (false, false));
  if TO.RST f then established_RST sd (r : bool * bool).2 else mret r.

Definition UpdateClosedState (t : double) (sd : Side) (delta_last f : Z) : M State (bool * bool) :=
  when (TO.SYN f) (Weird "SYN_after_close");;
  when (TO.FIN f && (0 <? delta_last)%Z) (Weird "FIN_advanced_last_seq");;
  p ← gets (est (other sd));
  if TO.RST f && negb (bool_decide (p = E.TCP_ENDPOINT_CLOSED)) then
    SetState sd E.TCP_ENDPOINT_RESET;;
    e ← gets (epf sd);
    when (connection_reset cfg) (AddTimer ResetTimer_f (dadd t (tcp_reset_delay cfg)) true);;
    mret (negb (E.did_close e), false)
  else mret (false, false).

Definition UpdateResetState (len f : Z) : M State (bool * bool) :=
  when (TO.SYN f) (Weird "SYN_after_reset");;
  when (TO.FIN f) (Weird "FIN_after_reset");;
  when ((0 <? len)%Z && negb (TO.RST f)) (Weird "data_after_reset");;
  mret (false, false).

Definition UpdateStateMachine (t : double) (sd : Side) (base_seq ack_seq last_seq len delta_last : Z) (by_orig : bool) (f : Z)
    : M State (bool * bool) :=
  st ← gets (est sd);
  match st with
  | E.TCP_ENDPOINT_INACTIVE => UpdateInactiveState t sd base_seq ack_seq len by_orig f
  | E.TCP_ENDPOINT_SYN_SENT | E.TCP_ENDPOINT_SYN_ACK_SENT => UpdateSYN_SentState sd base_seq last_seq len by_orig f
  | E.TCP_ENDPOINT_ESTABLISHED | E.TCP_ENDPOINT_PARTIAL => UpdateEstablishedState sd base_seq last_seq f
  | E.TCP_ENDPOINT_CLOSED => UpdateClosedState t sd delta_last f
  | E.TCP_ENDPOINT_RESET => UpdateResetState len f
  end.

(** ** Packets: the data *)

Definition flag_letters (f : Z) : string :=
  (if TO.SYN f then "S" else "") +:+ (if TO.FIN f then "F" else "") +:+ (if TO.RST f then "R" else "") +:+
  (if TO.ACK f then "A" else "") +:+ (if TO.PUSH f then "P" else "") +:+ (if TO.URG f then "U" else "").

Definition GeneratePacketEvent (sd : Side) (base_seq ack_seq : Z) (data : bytes) (len caplen : Z) (by_orig : bool) (f : Z)
    : M State () :=
  e ← gets (epf sd); p ← gets (epf (other sd));
  d ← lift (IP.slice data 0 (Z.min caplen len));
  emit (PacketEvent by_orig (flag_letters f) (uint32 (base_seq - E.start_seq e))
    (if TO.ACK f then uint32 (ack_seq - E.start_seq p) else 0%Z) len d).

(** [TCPOptionEvent] for each option of the header. *)
Definition OptionEvents (tp : bytes) (by_orig : bool) : M State () :=
  '(_, cs) ← lift (TO.ParseTCPOptions TO.record tp []);
  with_tcp (λ a, set_out (out a ++ ((λ '(_, opt, n), OptionEvent by_orig opt n) <$> cs)) a).

Definition DeliverData (sd : Side) (base_seq len caplen : Z) (data : bytes) (f : Z) : M State bool :=
  e ← gets (epf sd);
  let data_seq := int32 (base_seq - E.start_seq e) in
  DataSent sd (if TO.SYN f then int32 (data_seq + 1) else data_seq) len caplen data.

Definition CheckRecording (need_contents : bool) (f : Z) : M State () :=
  modify (λ s,
    let fl := C.flags (conn s) in
    set_conn (C.with_flags (λ fl,
      C.set_record_current_packet (C.record_packets fl || TO.SYN f || TO.FIN f || TO.RST f)
        (C.set_record_current_content (need_contents || C.record_contents fl) fl)) (conn s)) s).

Definition CheckPIA_FirstPacket (by_orig : bool) : M State () :=
  a ← gets tcp;
  let bit := if by_orig then ORIG else RESP in
  when (Z.land (first_packet_seen a) bit =? 0)%Z
    (emit (FirstPacket by_orig);; with_tcp (λ a, set_first_packet_seen (Z.lor (first_packet_seen a) bit) a)).

(** What the children get, after the analyzer is done with the packet. *)
Definition forward (sd : Side) (base_seq len caplen : Z) (by_orig : bool) : M State () :=
  e ← gets (epf sd); a ← gets tcp;
  let sq := uint32 (base_seq - E.start_seq e) in
  when (has_packet_children a) (emit (ToPacketChildren len by_orig (int32 sq) caplen));;
  when (negb (reassembling a)) (emit (ForwardPacket len by_orig (int32 sq) caplen)).

(** From the flags to the new state. *)
Definition track (t : double) (ip : IP.IP_Hdr) (tp : bytes) (tcp_hdr_len len : Z) (sd : Side)
    (base_seq ack_seq : Z) (by_orig : bool) (f : Z) : M State (bool * bool) :=
  orig_addr ← gets (λ s, C.orig_addr (conn s));
  seq_len ← ProcessFlags t ip tp tcp_hdr_len len sd base_seq ack_seq orig_addr by_orig f;
  let last_seq := uint32 (base_seq + seq_len) in
  st ← gets (est sd);
  when (bool_decide (st = E.TCP_ENDPOINT_INACTIVE)) (TransitionFromInactive t sd base_seq last_seq (TO.SYN f));;
  delta_last ← UpdateLastSeq sd last_seq f;
  upd sd (E.set_last_time t);;
  UpdateStateMachine t sd base_seq ack_seq last_seq len delta_last by_orig f.

(** From the new state to the close. *)
Definition deliver (tp data : bytes) (tcp_hdr_len len caplen : Z) (sd : Side)
    (base_seq ack_seq : Z) (by_orig : bool) (f : Z) (do_close gen_event : bool) : M State () :=
  when (tcp_packet cfg) (GeneratePacketEvent sd base_seq ack_seq data len caplen by_orig f);;
  when (tcp_option cfg && (TO.sizeof_tcphdr <? tcp_hdr_len)%Z && (tcp_hdr_len <=? uint32 caplen)%Z) (OptionEvents tp by_orig);;
  a ← gets tcp;
  need_contents ←
    (if (0 <? len)%Z && ((len <=? caplen)%Z || has_packet_children a) && negb (TO.RST f) && negb (skip a)
     then DeliverData sd base_seq len caplen data f else mret false);
  CheckEOF sd;;
  when do_close (call (ConnectionClosed sd gen_event));;
  CheckRecording need_contents f.

Definition DeliverPacket (t : double) (by_orig : bool) (ip : IP.IP_Hdr) (tp : bytes) (len caplen : Z) : M State () :=
  '(len, caplen, tcp_hdr_len) ← ExtractTCP_Header tp len caplen;
  let data := drop (Z.to_nat tcp_hdr_len) tp in
  when (packet_contents cfg && (0 <? Z.min len caplen)%Z)
    (d ← lift (IP.slice data 0 (Z.min len caplen)); emit (PacketContents d));;
  sd ← gets (λ s, if by_orig then orig (tcp s) else resp (tcp s));
  valid ← ValidateChecksum tp sd len caplen;
  if negb valid then stop
  else
    f ← lift (TO.th_flags tp); base_seq ← lift (TO.th_seq tp); ack_seq ← lift (TO.th_ack tp);
    win ← lift (TO.th_win tp);
    CheckFlagCombos f sd base_seq len;;
    UpdateWindow sd win base_seq ack_seq f;;
    both ← gets (λ s, BothClosed (tcp s));
    when (negb both) (modify (λ s, set_conn (C.set_last_time t (conn s)) s));;
    '(do_close, gen_event) ← track t ip tp tcp_hdr_len len sd base_seq ack_seq by_orig f;
    deliver tp data tcp_hdr_len len caplen sd base_seq ack_seq by_orig f do_close gen_event;;
    forward sd base_seq len caplen by_orig;;
    CheckPIA_FirstPacket by_orig.

(** [Analyzer::NextPacket]; the root has no support analyzers. *)
Definition NextPacket (t : double) (by_orig : bool) (ip : IP.IP_Hdr) (tp : bytes) (len caplen : Z) : M State () :=
  a ← gets tcp;
  if skip a then stop else DeliverPacket t by_orig ip tp len caplen.

(** ** The timer functions *)

Definition AttemptTimer : M State () :=
  s ← get;
  if negb (is_active (tcp s)) then stop
  else
    let o := est (orig (tcp s)) s in
    when ((bool_decide (o = E.TCP_ENDPOINT_SYN_SENT) || bool_decide (o = E.TCP_ENDPOINT_SYN_ACK_SENT)) &&
          bool_decide (est (resp (tcp s)) s = E.TCP_ENDPOINT_INACTIVE))
      (Event "connection_attempt";; with_tcp (set_is_active false);; Remove).

Definition PartialCloseTimer : M State () :=
  s ← get;
  if negb (is_active (tcp s)) then stop
  else
    let o := est (orig (tcp s)) s in let r := est (resp (tcp s)) s in
    when (negb (bool_decide (o = E.TCP_ENDPOINT_INACTIVE)) && negb (bool_decide (r = E.TCP_ENDPOINT_INACTIVE)) &&
          negb (BothClosed (tcp s)))
      (if bool_decide (o = E.TCP_ENDPOINT_RESET) || bool_decide (r = E.TCP_ENDPOINT_RESET) then stop
       else Event "connection_partial_close";; Remove).

(** Whether a connection that lingers is over: closed, or an attempt that nobody
    else ends. *)
Definition over (s : State) : bool :=
  let o := est (orig (tcp s)) s in let r := est (resp (tcp s)) s in
  IsClosed (tcp s) &&
  (BothClosed (tcp s) || bool_decide (o = E.TCP_ENDPOINT_RESET) || bool_decide (r = E.TCP_ENDPOINT_RESET) ||
   bool_decide (o = E.TCP_ENDPOINT_INACTIVE) || bool_decide (r = E.TCP_ENDPOINT_INACTIVE)).

Definition ExpireTimer (t : double) : M State () :=
  s ← get;
  if negb (is_active (tcp s)) then stop
  else
    let o := est (orig (tcp s)) s in let r := est (resp (tcp s)) s in
    when (dlt (dadd (C.last_time (conn s)) (tcp_connection_linger cfg)) t)
      (if over s then Event "connection_timeout";; with_tcp (set_is_active false);; Remove;; stop
       else when (bool_decide (r = E.TCP_ENDPOINT_INACTIVE))
         (if bool_decide (o = E.TCP_ENDPOINT_SYN_SENT) || bool_decide (o = E.TCP_ENDPOINT_SYN_ACK_SENT) then
            when (negb (connection_attempt cfg))
              (Event "connection_timeout";; with_tcp (set_is_active false);; Remove;; stop)
          else when (bool_decide (o = E.TCP_ENDPOINT_INACTIVE)) (Event "connection_timeout";; Remove;; stop)));;
    AddTimer ExpireTimer_f (dadd t (tcp_session_timer cfg)) false.

Definition ResetTimer : M State () :=
  s ← get;
  if negb (is_active (tcp s)) then stop
  else when (negb (BothClosed (tcp s))) ConnectionReset;; Remove.

Definition DeleteTimer : M State () := Remove.
Definition ConnDeleteTimer : M State () := modify (on_conn C.DeleteTimer).

Definition run_timer (f : TimerFunc) (t : double) : M State () :=
  match f with
  | AttemptTimer_f => AttemptTimer
  | PartialCloseTimer_f => PartialCloseTimer
  | ExpireTimer_f => ExpireTimer t
  | ResetTimer_f => ResetTimer
  | DeleteTimer_f => DeleteTimer
  | ConnDeleteTimer_f => ConnDeleteTimer
  end.

(** [AnalyzerTimer::Dispatch]; the manager then deletes the timer. *)
Definition fire (tm : Timer) (t : double) (is_expire : bool) : M State () :=
  (if is_expire && negb (t_do_expire tm) then mret ()
   else with_tcp (RemoveTimer tm);; call (run_timer (t_func tm) t));;
  with_tcp (RemoveTimer tm).

(** The timer at an address, if it is pending. *)
Definition fire_id (id : nat) (t : double) (is_expire : bool) : M State () :=
  a ← gets tcp;
  tm ← lift (List.find (λ tm, bool_decide (t_id tm = id)) (timers a));
  fire tm t is_expire.

(** ** The life of the analyzer *)

(** The constructor, for the addresses of the connection; it starts the timer that
    looks for connections without activity. *)
Definition TCP_Analyzer_new (orig_addr resp_addr : bytes) (children : bool) (w : C.World) (st : E.TCPStateStats)
    : option (TCP_Analyzer * C.World * E.TCPStateStats) :=
  o ← E.TCP_Endpoint_new true resp_addr orig_addr;
  r ← E.TCP_Endpoint_new false orig_addr resp_addr;
  let tm := mkTimer (C.next_id w) ExpireTimer_f (dadd (C.network_time w) (tcp_SYN_timeout cfg)) false in
  Some (mkTCP false false false false [tm] (mkEP o None None) (mkEP r None None) First children
          0 false false true false false false false [],
        C.set_next_id (S (C.next_id w)) w, E.StateEntered (E.state o) (E.state r) st).

(** [Analyzer::Done]; it is asserted that it was not called before.  Nothing of a
    moved analyzer is touched here. *)
Definition Analyzer_Done (a : TCP_Analyzer) : option TCP_Analyzer :=
  if moved a then Some a
  else if an_finished a then None
  else Some (set_an_finished true (set_out (out a ++ [ToChildren Done_c]) (set_timers [] (set_timers_canceled true a)))).

Definition endpoint_Done (sd : Side) (a : TCP_Analyzer) : option TCP_Analyzer :=
  match contents_processor (endpoint sd a) with
  | Some r => r ← TR.Done (reass_cfg cfg) r; Some (store_reassembler sd r a)
  | None => Some a
  end.

Definition Done (a : TCP_Analyzer) (w : C.World) : option (TCP_Analyzer * C.World) :=
  a ← Analyzer_Done a;
  let w := if connection_pending cfg && is_active a && negb (BothClosed a) then C.emit (C.Event "connection_pending") w else w in
  a ← endpoint_Done (orig a) a; a ← endpoint_Done (resp a) a;
  Some (set_finished true a, w).

Definition Moved (a : TCP_Analyzer) : TCP_Analyzer := set_out (out a ++ [ToChildren Moved_c]) (set_moved true a).

(** Whether a packet starts another connection; the pointer is [conn_orig]. *)
Definition conn_orig (f : Z) (a : TCP_Analyzer) : Side := if TO.ACK f then resp a else orig a.

Definition reuse (pkt : bytes) (a : TCP_Analyzer) : option bool :=
  off ← TO.th_off pkt;
  if (off <? TO.sizeof_tcphdr / 4)%Z then Some false
  else
    f ← TO.th_flags pkt;
    if negb (TO.SYN f) then Some false
    else
      let o := ep (endpoint (orig a) a) in let r := ep (endpoint (resp a) a) in
      let c := ep (endpoint (conn_orig f a) a) in
      if TO.ACK f && negb (bool_decide (E.state o = E.TCP_ENDPOINT_INACTIVE)) then Some false
      else if IsClosed a then Some true
      else
        base_seq ← TO.th_seq pkt;
        Some (negb (base_seq =? E.start_seq c)%Z &&
          negb (negb (TO.ACK f) && bool_decide (E.state c = E.TCP_ENDPOINT_SYN_ACK_SENT) &&
                bool_decide (E.state r = E.TCP_ENDPOINT_INACTIVE) && (base_seq =? E.start_seq r)%Z)).

(** What is weird about it. *)
Definition reuse_weird (t : double) (f : Z) : M State () :=
  s ← get;
  let o := epf (orig (tcp s)) s in let r := epf (resp (tcp s)) s in let c := epf (conn_orig f (tcp s)) s in
  let no_reset := negb (bool_decide (E.state o = E.TCP_ENDPOINT_RESET)) && negb (bool_decide (E.state r = E.TCP_ENDPOINT_RESET)) in
  if negb (IsClosed (tcp s)) then
    Weird (if bool_decide (E.state c = E.TCP_ENDPOINT_SYN_SENT) then "SYN_seq_jump" else "active_connection_reuse")
  else if (E.IsActive o || E.IsActive r) && no_reset then Weird "active_connection_reuse"
  else when (dlt (dsub t (C.last_time (conn s))) (tcp_connection_linger cfg) && no_reset) (Weird "premature_connection_reuse").

Definition IsReuse (t : double) (pkt : bytes) : M State bool :=
  a ← gets tcp;
  b ← lift (reuse pkt a);
  if (b : bool) then f ← lift (TO.th_flags pkt); reuse_weird t f;; mret true else mret false.

End operations.

(** ** Moving the analyzer to another process *)

Definition save_bits (a : TCP_Analyzer) : Z :=
  foldl Z.lor 0%Z [Z.shiftl (first_packet_seen a) 0; bit_of (reassembling a) 2; bit_of (is_partial a) 3;
    bit_of (is_active a) 4; bit_of (finished a) 5; bit_of (close_deferred a) 6; bit_of (deferred_gen_event a) 7;
    bit_of (seen_first_ACK a) 8].

Record endpoint_archive := mkEPArchive {
  are_ep : E.TCP_Endpoint; are_processor : option TR.archive; are_file : option nat
}.

(** Neither the timers nor [moved] are archived. *)
Record archive := mkArchive {
  ar_timers_canceled : bool; ar_skip : bool; ar_finished : bool;
  ar_ep1 : endpoint_archive; ar_ep2 : endpoint_archive; ar_orig : Side; ar_packet_children : bool; ar_bitfields : Z
}.

Definition serialize_endpoint (e : Endpoint) : endpoint_archive :=
  mkEPArchive (ep e) (TR.serialize <$> contents_processor e) (contents_file e).
Definition unserialize_endpoint (e : endpoint_archive) : Endpoint :=
  mkEP (are_ep e) (TR.unserialize <$> are_processor e) (are_file e).

Definition serialize (a : TCP_Analyzer) : archive :=
  mkArchive (timers_canceled a) (skip a) (an_finished a) (serialize_endpoint (ep1 a)) (serialize_endpoint (ep2 a)) (orig a)
    (has_packet_children a) (save_bits a).

Definition unserialize (r : archive) : TCP_Analyzer :=
  let w := ar_bitfields r in
  mkTCP (ar_skip r) (ar_finished r) false (ar_timers_canceled r) []
    (unserialize_endpoint (ar_ep1 r)) (unserialize_endpoint (ar_ep2 r)) (ar_orig r) (ar_packet_children r)
    (Z.land (Z.shiftr w 0) 3) (bit_at w 2) (bit_at w 3) (bit_at w 4) (bit_at w 5) (bit_at w 6) (bit_at w 7) (bit_at w 8) [].

End T.
