(* ===== verification/TcpFacts.v ===== *)
(** TcpFacts: what every packet and timer does to the state of a TCP analyzer,
    TCP.cc.  The proofs follow the code once, for any relation [R] that contains
    the quiet steps and each step that is not quiet; its instances are the
    well-formedness of the state, the transitions of the endpoints, the timers
    that keep a connection alive, and the statistics. *)
From S2P Require Import Prelude Double Flow IP NetUtil Endpoint TcpReassem Conn TcpOptions TcpState.
From stdpp Require Import strings.

Module TF.
Import T.

(** ** Quiet steps *)

Definition same_ep (e e' : E.TCP_Endpoint) : Prop :=
  E.state e' = E.state e ∧ E.prev_state e' = E.prev_state e ∧ E.is_orig e' = E.is_orig e ∧
  E.did_close e' = E.did_close e.

(** The flag of an endpoint tells whether it has a reassembler. *)
Definition contents_ok (a : TCP_Analyzer) : Prop :=
  ∀ sd, E.has_contents (ep (endpoint sd a)) = bool_decide (is_Some (contents_processor (endpoint sd a))).

Record quiet_tcp (a a' : TCP_Analyzer) : Prop := {
  qt_ep sd : same_ep (ep (endpoint sd a)) (ep (endpoint sd a'));
  qt_orig : orig a' = orig a;
  qt_timers : timers a' = timers a;
  qt_active : is_active a' = is_active a;
  qt_contents : contents_ok a → contents_ok a';
  qt_seen : (0 ≤ first_packet_seen a < 4)%Z → (0 ≤ first_packet_seen a' < 4)%Z
}.

Record quiet_conn (c c' : C.Connection ()) : Prop := {
  qc_key : C.key c' = C.key c;
  qc_proto : C.proto c' = C.proto c;
  qc_moved : C.moved c' = C.moved c
}.

Record quiet_world (w w' : C.World) : Prop := {
  qw_next : C.next_id w ≤ C.next_id w';
  qw_log : C.log w `prefix_of` C.log w'
}.

Record quiet (s s' : State) : Prop := {
  q_tcp : quiet_tcp (tcp s) (tcp s');
  q_conn : quiet_conn (conn s) (conn s');
  q_world : quiet_world (world s) (world s');
  q_stats : stats s' = stats s
}.

#[global] Instance quiet_tcp_preorder : PreOrder quiet_tcp.
Proof.
  split; [by intros a; split|]. intros a b c [E1 O1 T1 A1 C1 S1] [E2 O2 T2 A2 C2 S2].
  split; [|congruence|congruence|congruence|auto|auto]. intros sd.
  destruct (E1 sd) as (?&?&?&?), (E2 sd) as (?&?&?&?). split_and!; congruence.
Qed.
#[global] Instance quiet_conn_preorder : PreOrder quiet_conn.
Proof. split; [by intros c; split|]. intros a b c [] []. split; congruence. Qed.
#[global] Instance quiet_world_preorder : PreOrder quiet_world.
Proof. split; [by intros w; split|]. intros a b c [] []. split; [lia|by etrans]. Qed.
#[global] Instance quiet_preorder : PreOrder quiet.
Proof.
  split; [by intros s; split|]. intros a b c [] []. split; [by etrans|by etrans|by etrans|congruence].
Qed.

(** ** The steps on the parts *)

Lemma endpoint_put sd sd' e a : endpoint sd' (put_endpoint sd e a) = if decide (sd' = sd) then e else endpoint sd' a.
Proof. by destruct sd, sd'. Qed.

Lemma quiet_on_tcp f s : quiet_tcp (tcp s) (f (tcp s)) → quiet s (on_tcp f s).
Proof. intros Hf. by split. Qed.

(** Changes of an endpoint to what is not looked at here. *)
Definition quiet_ep (f : E.TCP_Endpoint → E.TCP_Endpoint) : Prop :=
  ∀ e, same_ep e (f e) ∧ E.has_contents (f e) = E.has_contents e.

Lemma contents_ok_put sd e a :
  E.has_contents (ep e) = bool_decide (is_Some (contents_processor e)) → contents_ok a → contents_ok (put_endpoint sd e a).
Proof. intros He Ha sd'. rw endpoint_put. by case_decide. Qed.

Lemma quiet_put sd e a :
  same_ep (ep (endpoint sd a)) (ep e) →
  (contents_ok a → E.has_contents (ep e) = bool_decide (is_Some (contents_processor e))) →
  quiet_tcp a (put_endpoint sd e a).
Proof.
  intros He Hc. split; [|by destruct sd..| |by destruct sd].
  - intros sd'. rw endpoint_put. by case_decide; subst.
  - intros Ha. apply contents_ok_put; auto.
Qed.

Lemma quiet_on_ep sd f s : quiet_ep f → quiet s (on_ep sd f s).
Proof.
  intros Hf. apply quiet_on_tcp, quiet_put; simpl; [by apply Hf|]. intros Ha. rw (proj2 (Hf _)). apply Ha.
Qed.

Lemma quiet_on_conn f s :
  quiet_conn (conn s) (f (conn s, world s)).1 → quiet_world (world s) (f (conn s, world s)).2 → quiet s (on_conn f s).
Proof. unfold on_conn. destruct (f _) as [c w]. by split. Qed.

Lemma quiet_emit_event e s : quiet s (on_conn (C.emit_event e) s).
Proof. apply quiet_on_conn; split; simpl; [done..|lia|by apply prefix_app_r]. Qed.
Lemma quiet_weird name s : quiet s (on_conn (C.conn_Weird name) s).
Proof. apply quiet_on_conn; split; simpl; [done..|lia|by apply prefix_app_r]. Qed.

Lemma quiet_AddTimer f t e (cw : C.Connection () * C.World) :
  quiet_conn cw.1 (C.AddTimer f t e cw).1 ∧ quiet_world cw.2 (C.AddTimer f t e cw).2.
Proof.
  destruct cw as [c w]. unfold C.AddTimer. destruct (C.timers_canceled _); [done|]. destruct (C.key c); [|done].
  split; split; simpl; done || lia.
Qed.

Lemma quiet_pair f s :
  quiet_conn (conn s) (f (conn s, world s)).1 ∧ quiet_world (world s) (f (conn s, world s)).2 → quiet s (on_conn f s).
Proof. intros [? ?]. by apply quiet_on_conn. Qed.

Lemma quiet_SetInactivityTimeout x s : quiet s (on_conn (C.SetInactivityTimeout x) s).
Proof.
  apply quiet_pair. unfold C.SetInactivityTimeout. destruct (deq _ _); simpl; [by split|].
  destruct (quiet_AddTimer C.InactivityTimer_f (dadd (C.last_time (conn s)) x) false (conn s, world s)) as [[] ?]. by split.
Qed.

Lemma quiet_EnableStatusUpdateTimer ccfg s : quiet s (on_conn (C.EnableStatusUpdateTimer ccfg) s).
Proof.
  apply quiet_pair. unfold C.EnableStatusUpdateTimer. destruct (_ && _); simpl; [|by split].
  destruct (quiet_AddTimer C.StatusUpdateTimer_f (dadd (C.network_time (world s)) (C.connection_status_update_interval ccfg)) false
    (conn s, world s)) as [[] ?]. by split.
Qed.

Lemma quiet_set_conn c s : quiet_conn (conn s) c → quiet s (set_conn c s).
Proof. by split. Qed.

Lemma quiet_store sd r a : quiet_tcp a (store_reassembler sd r a).
Proof.
  unfold store_reassembler.
  assert (quiet_tcp a (put_endpoint sd (set_processor (Some (TR.set_out [] r)) (endpoint sd a)) a)) as Hq.
  { by apply quiet_put. }
  etrans; [exact Hq|]. by split.
Qed.

(** A part of the state that does not change. *)
Definition keeps_same {X} (f : State → X) (s s' : State) : Prop := f s' = f s.
#[global] Instance keeps_same_preorder {X} (f : State → X) : PreOrder (keeps_same f).
Proof. split; unfold keeps_same; [done|]. intros a b c. congruence. Qed.

(** ** What happens to an analyzer *)

Inductive label :=
  | PacketL (t : double) (by_orig : bool) (ip : IP.IP_Hdr) (tp : bytes) (len caplen : Z)
  | TimerL (id : nat) (t : double) (is_expire : bool)
  | ReassembleL (is_open : bool)
  | ContentsL (d : direction) (f : option nat) (is_open : bool).

Definition step (cfg : config) (l : label) : M State () :=
  match l with
  | PacketL t o ip tp len cl => NextPacket cfg t o ip tp len cl
  | TimerL id t e => fire_id cfg id t e
  | ReassembleL b => EnableReassembly cfg b
  | ContentsL d f b => SetContentsFile cfg d f b
  end.

Fixpoint run_labels (cfg : config) (ls : list label) : M State () :=
  match ls with [] => mret () | l :: ls => call (step cfg l);; run_labels cfg ls end.

(** ** The code, for any relation *)

Section walk.
Context (cfg : config) (R : State → State → Prop) `{!PreOrder R} (HQ : ∀ s s', quiet s s' → R s s').

Lemma w_modify f : (∀ s, quiet s (f s)) → moves R (modify f).
Proof using Type*. intros Hf. apply moves_modify; [done|]. auto. Qed.
Lemma w_with f : (∀ a, quiet_tcp a (f a)) → moves R (with_tcp f).
Proof using Type*. intros Hf. apply w_modify. intros s. by apply quiet_on_tcp. Qed.
Lemma w_upd sd f : quiet_ep f → moves R (upd sd f).
Proof using Type*. intros Hf. apply w_modify. intros s. by apply quiet_on_ep. Qed.
Lemma w_emit e : moves R (emit e).
Proof using Type*. apply w_with. by split. Qed.
Lemma w_Event name : moves R (Event name).
Proof using Type*. apply w_modify. intros s. apply quiet_emit_event. Qed.
Lemma w_Weird name : moves R (Weird name).
Proof using Type*. apply w_modify. intros s. apply quiet_weird. Qed.
Lemma w_CheckHistory sd mask code : moves R (CheckHistory sd mask code).
Proof using Type*.
  intros s s' r. unfold CheckHistory. destruct (E.CheckHistory _ _ _ _) as [b h]. intros [= <- _].
  by apply HQ, quiet_set_conn.
Qed.
Lemma w_AddHistory sd code : moves R (AddHistory sd code).
Proof using Type*. apply w_modify. intros s. by apply quiet_set_conn. Qed.
Lemma w_status_timer : moves R (modify (on_conn (C.EnableStatusUpdateTimer (conn_cfg cfg)))).
Proof using Type*. apply w_modify. intros s. apply quiet_EnableStatusUpdateTimer. Qed.
Lemma w_store sd r : moves R (with_tcp (store_reassembler sd r)).
Proof using Type*. apply w_with. intros a. apply quiet_store. Qed.

Ltac leaf :=
  first
    [ apply w_emit | apply w_Event | apply w_Weird | apply w_CheckHistory | apply w_AddHistory | apply w_status_timer
    | apply w_store
    | apply w_with; intros ?; by split
    | apply w_upd; intros ?; by split
    | apply w_modify; intros ?; by apply quiet_set_conn
    | apply w_modify; intros ?; by split
    | done ].
Ltac walk := moves; try leaf.

(** The steps that are not quiet. *)
Context (Hinact : moves R (with_tcp (set_is_active false))).
Context (Hadd : ∀ f t e, moves R (AddTimer f t e)).

Lemma w_ConnectionFinished half : moves R (ConnectionFinished half).
Proof using Type*. unfold ConnectionFinished. walk. Qed.
Lemma w_ConnectionReset : moves R ConnectionReset.
Proof using Type*. unfold ConnectionReset. walk. Qed.
Lemma w_half_close_timer sd : moves R (half_close_timer cfg sd).
Proof using Type*. unfold half_close_timer. walk. Qed.
Lemma w_report_close sd g : moves R (report_close sd g).
Proof using Type*. unfold report_close, is_state. walk. apply w_ConnectionFinished. Qed.

Section closing.
Context (Hclose : moves R (close_timer cfg)).
Context (Hdid : ∀ sd, moves R (upd sd (E.set_did_close true))).

Lemma w_ConnectionClosed sd g : moves R (ConnectionClosed cfg sd g).
Proof using Type*.
  unfold ConnectionClosed. walk; [apply w_report_close|apply w_half_close_timer].
Qed.
End closing.

Context (HCC : ∀ sd g, moves R (ConnectionClosed cfg sd g)).

Lemma w_EndpointEOF sd o : moves R (EndpointEOF cfg sd o).
Proof using Type*. unfold EndpointEOF. walk. Qed.
Lemma w_put_reassembler sd r : moves R (put_reassembler cfg sd r).
Proof using Type*. unfold put_reassembler. walk. apply w_EndpointEOF. Qed.
Lemma w_CheckEOF sd : moves R (CheckEOF cfg sd).
Proof using Type*. unfold CheckEOF. walk. apply w_put_reassembler. Qed.
Lemma w_AckReceived sd sq : moves R (AckReceived cfg sd sq).
Proof using Type*. unfold AckReceived. walk. apply w_put_reassembler. Qed.
Lemma w_write_contents sd sq ln data : moves R (write_contents cfg sd sq ln data).
Proof using Type*. unfold write_contents. walk. Qed.
Lemma w_DataSent sd sq ln cl data : moves R (DataSent cfg sd sq ln cl data).
Proof using Type*. unfold DataSent. walk; [apply w_put_reassembler|apply w_write_contents..]. Qed.

Lemma w_ExtractTCP_Header tp len cl : moves R (ExtractTCP_Header tp len cl).
Proof using Type*. unfold ExtractTCP_Header. walk. Qed.
Lemma w_ValidateChecksum tp sd len cl : moves R (ValidateChecksum cfg tp sd len cl).
Proof using Type*. unfold ValidateChecksum. walk. Qed.
Lemma w_note_control sd mask code sq l f : (∀ v, quiet_ep (f v)) → moves R (note_control sd mask code sq l f).
Proof using Type*. intros Hf. unfold note_control. walk. by apply w_upd. Qed.
Lemma w_CheckFlagCombos f sd b len : moves R (CheckFlagCombos f sd b len).
Proof using Type*.
  unfold CheckFlagCombos. walk; try (apply w_note_control; intros ? ?; by split).
Qed.
Lemma w_UpdateWindow sd w b a f : moves R (UpdateWindow sd w b a f).
Proof using Type*. unfold UpdateWindow, window_recision. walk. Qed.
Lemma w_ProcessSYN ip tp hl sl sd b a oa o f : moves R (ProcessSYN cfg ip tp hl sl sd b a oa o f).
Proof using Type*. unfold ProcessSYN, negotiate_scale, fingerprint. walk. Qed.
Lemma w_storm t sd c sc : (∀ v e, same_ep e (sc v e) ∧ E.has_contents (sc v e) = E.has_contents e) → moves R (storm cfg t sd c sc).
Proof using Type*. intros Hs. unfold storm. walk. apply w_upd. intros e. apply Hs. Qed.
Lemma w_ProcessFIN t sd sl b : moves R (ProcessFIN cfg t sd sl b).
Proof using Type*. unfold ProcessFIN. walk. apply w_storm. by split. Qed.
Lemma w_ProcessRST t sd len sl : moves R (ProcessRST cfg t sd len sl).
Proof using Type*. unfold ProcessRST. walk. apply w_storm. by split. Qed.
Lemma quiet_UpdateAckSeq q : quiet_ep (E.UpdateAckSeq q).
Proof. intros e. unfold E.UpdateAckSeq. by destruct (q <? _)%Z. Qed.
Lemma quiet_UpdateLastSeq q : quiet_ep (E.UpdateLastSeq q).
Proof. intros e. unfold E.UpdateLastSeq. by destruct (q <? _)%Z. Qed.
Lemma w_ProcessACK sd a o f : moves R (ProcessACK cfg sd a o f).
Proof using Type*.
  unfold ProcessACK, first_ACK, ack_inactive, ack_active. walk; [apply w_upd, quiet_UpdateAckSeq|apply w_AckReceived..].
Qed.
Lemma w_ProcessFlags t ip tp hl len sd b a oa o f : moves R (ProcessFlags cfg t ip tp hl len sd b a oa o f).
Proof using Type*.
  unfold ProcessFlags. walk; first [apply w_ProcessSYN|apply w_ProcessFIN|apply w_ProcessRST|apply w_ProcessACK].
Qed.
Lemma w_UpdateLastSeq sd l f : moves R (UpdateLastSeq sd l f).
Proof using Type*. unfold UpdateLastSeq. walk; apply w_upd, quiet_UpdateLastSeq. Qed.

Lemma w_deliver tp data hl len cl sd b a o f c g : moves R (deliver cfg tp data hl len cl sd b a o f c g).
Proof using Type*.
  unfold deliver, GeneratePacketEvent, OptionEvents, DeliverData, CheckRecording.
  walk; first [apply w_DataSent|apply w_CheckEOF].
Qed.
Lemma quiet_first_packet (bit : Z) a :
  (bit = 1 ∨ bit = 2)%Z → quiet_tcp a (set_first_packet_seen (Z.lor (first_packet_seen a) bit) a).
Proof.
  intros Hb. split; try done. simpl. intros Hs.
  assert (first_packet_seen a = 0 ∨ first_packet_seen a = 1 ∨ first_packet_seen a = 2 ∨ first_packet_seen a = 3)%Z as Hc by lia.
  destruct Hc as [->|[->|[->| ->]]], Hb as [->| ->]; by vm_compute.
Qed.
Lemma w_forward sd b len cl o : moves R (forward sd b len cl o).
Proof using Type*. unfold forward. walk. Qed.
Lemma w_CheckPIA_FirstPacket o : moves R (CheckPIA_FirstPacket o).
Proof using Type*.
  unfold CheckPIA_FirstPacket, ORIG, RESP. walk; apply w_with; intros a; apply quiet_first_packet; destruct o; auto.
Qed.

(** The start of an endpoint, when its changes of state are in [R]. *)
Section inactive.
Context (sd : Side) (HSet : ∀ st, moves R (SetState cfg sd st)).
Context (Hresp : ∀ b a f, moves R (inactive_SYN_resp cfg sd b a f)).

Lemma w_inactive_SYN_orig t f : moves R (inactive_SYN_orig cfg t sd f).
Proof using Type*. unfold inactive_SYN_orig, handshake_timer. walk. Qed.
Lemma w_UpdateInactiveState t b a len o f : moves R (UpdateInactiveState cfg t sd b a len o f).
Proof using Type*.
  unfold UpdateInactiveState, inactive_FIN, inactive_RST, inactive_other. walk; apply w_inactive_SYN_orig.
Qed.
End inactive.

(** The state machine, when [R] has the changes to a final state. *)
Section machine.
Context (HSetF : ∀ sd st, (st = E.TCP_ENDPOINT_CLOSED ∨ st = E.TCP_ENDPOINT_RESET) → moves R (SetState cfg sd st)).
Context (HSYN : ∀ sd b l f, moves R (SYN_inside cfg sd b l f)).
Context (Hin : ∀ t sd b a len o f,
  moves_from (λ s, E.TCP_ENDPOINT_INACTIVE = est sd s) R (UpdateInactiveState cfg t sd b a len o f)).

Lemma w_SetState_closed sd : moves R (SetState cfg sd E.TCP_ENDPOINT_CLOSED).
Proof using Type*. apply HSetF. by left. Qed.
Lemma w_SetState_reset sd : moves R (SetState cfg sd E.TCP_ENDPOINT_RESET).
Proof using Type*. apply HSetF. by right. Qed.

Lemma w_UpdateSYN_SentState sd b l len o f : moves R (UpdateSYN_SentState cfg sd b l len o f).
Proof using Type*.
  unfold UpdateSYN_SentState, SYN_again, init_seqs.
  walk; first [apply w_ConnectionReset|apply w_SetState_closed|apply w_SetState_reset].
Qed.
Lemma w_UpdateEstablishedState sd b l f : moves R (UpdateEstablishedState cfg sd b l f).
Proof using Type*.
  unfold UpdateEstablishedState, established_FIN, established_RST.
  walk; first [apply w_ConnectionReset|apply w_SetState_closed|apply w_SetState_reset].
Qed.
Lemma w_UpdateClosedState t sd d f : moves R (UpdateClosedState cfg t sd d f).
Proof using Type*. unfold UpdateClosedState. walk; apply w_SetState_reset. Qed.
Lemma w_UpdateResetState len f : moves R (UpdateResetState len f).
Proof using Type*. unfold UpdateResetState. walk. Qed.
Lemma w_UpdateStateMachine t sd b a l len d o f : moves R (UpdateStateMachine cfg t sd b a l len d o f).
Proof using Type*.
  unfold UpdateStateMachine. apply moves_bind_gets. intros []; [apply Hin|..]; apply moves_from_weaken;
    first [apply w_UpdateSYN_SentState|apply w_UpdateEstablishedState|apply w_UpdateClosedState|apply w_UpdateResetState].
Qed.
End machine.

(** The same when every change of state and of roles is in [R]. *)
Section uniform.
Context (HSet : ∀ sd st, moves R (SetState cfg sd st)) (Hflip : moves R FlipRoles).

Lemma w_inactive_SYN_resp sd b a f : moves R (inactive_SYN_resp cfg sd b a f).
Proof using Type*. unfold inactive_SYN_resp, check_SYN_answer. walk. Qed.
Lemma w_SYN_inside sd b l f : moves R (SYN_inside cfg sd b l f).
Proof using Type*. unfold SYN_inside, init_seqs. walk. Qed.
Lemma w_machine t sd b a l len d o f : moves R (UpdateStateMachine cfg t sd b a l len d o f).
Proof using Type*.
  apply w_UpdateStateMachine; [done|apply w_SYN_inside|].
  intros *. apply moves_from_weaken, w_UpdateInactiveState; [done|apply w_inactive_SYN_resp].
Qed.
End uniform.

(** Packets and timers, when the state machine is in [R]. *)
Section packets.
Context (HSM : ∀ t sd b a l len d o f, moves R (UpdateStateMachine cfg t sd b a l len d o f)).
Context (Hremove : moves R Remove).

Lemma w_track t ip tp hl len sd b a o f : moves R (track cfg t ip tp hl len sd b a o f).
Proof using Type*.
  unfold track, TransitionFromInactive. walk; first [apply w_ProcessFlags|apply w_UpdateLastSeq].
Qed.
Lemma w_DeliverPacket t o ip tp len cl : moves R (DeliverPacket cfg t o ip tp len cl).
Proof using Type*.
  unfold DeliverPacket. walk;
    first [apply w_ExtractTCP_Header|apply w_ValidateChecksum|apply w_CheckFlagCombos|apply w_UpdateWindow|apply w_track|apply w_deliver
      |apply w_forward|apply w_CheckPIA_FirstPacket].
Qed.
Lemma w_NextPacket t o ip tp len cl : moves R (NextPacket cfg t o ip tp len cl).
Proof using Type*. unfold NextPacket. walk. apply w_DeliverPacket. Qed.

Lemma w_run_timer f t : moves R (run_timer cfg f t).
Proof using Type*.
  destruct f; simpl; unfold AttemptTimer, PartialCloseTimer, ExpireTimer, ResetTimer, DeleteTimer, ConnDeleteTimer; walk;
    try apply w_ConnectionReset.
  intros s s' r [= <- _]. unfold C.DeleteTimer.
  transitivity (if C.IsActive (conn s) then on_conn (C.emit_event (C.Event "connection_timeout")) s else s).
  - destruct (C.IsActive _); [apply HQ, quiet_emit_event|done].
  - assert (R (if C.IsActive (conn s) then on_conn (C.emit_event (C.Event "connection_timeout")) s else s)
      (on_conn (C.emit_event C.RemoveFromSessions) (if C.IsActive (conn s) then on_conn (C.emit_event (C.Event "connection_timeout")) s else s)))
      as HR by (eapply Hremove; done).
    unfold on_conn in *. simpl in *. by destruct (C.IsActive (conn s)).
Qed.

Lemma w_endpoint_SetContentsFile sd f b : moves R (endpoint_SetContentsFile cfg sd f b).
Proof using Type*.
  unfold endpoint_SetContentsFile. walk; [|apply w_put_reassembler].
  apply w_with. intros a. apply quiet_put; [done|]. intros Ha. apply Ha.
Qed.
Lemma w_SetContentsFile d f b : moves R (SetContentsFile cfg d f b).
Proof using Type*. unfold SetContentsFile. walk; apply w_endpoint_SetContentsFile. Qed.
Lemma w_EnableReassembly b : moves R (EnableReassembly cfg b).
Proof using Type*.
  assert (∀ sd r, moves R (AddReassembler cfg sd r b)) as Hadd'.
  { intros sd r. unfold AddReassembler. walk; [|apply w_put_reassembler]. apply w_with. intros a. by apply quiet_put. }
  unfold EnableReassembly, SetReassembler. walk.
Qed.

(** Everything but timers. *)
Definition untimed (l : label) : bool := match l with TimerL _ _ _ => false | _ => true end.

Lemma w_untimed l : untimed l = true → moves R (step cfg l).
Proof using Type*.
  destruct l; simpl; [intros _; apply w_NextPacket|done|intros _; apply w_EnableReassembly|intros _; apply w_SetContentsFile].
Qed.

(** Every step, when the end of a timer is in [R]. *)
Context (Hrm : ∀ tm, moves R (with_tcp (RemoveTimer tm))).

Lemma w_step l : moves R (step cfg l).
Proof using Type*.
  destruct l; simpl; [apply w_NextPacket| |apply w_EnableReassembly|apply w_SetContentsFile].
  unfold fire_id, fire. walk. apply w_run_timer.
Qed.
Lemma w_run_labels ls : moves R (run_labels cfg ls).
Proof using Type*.
  induction ls as [|l ls IH]; simpl; [apply moves_ret; apply _|].
  apply moves_bind; [done|apply moves_call; [done|apply w_step]|done].
Qed.
End packets.

End walk.


(** A change of state, up to the inactivity timeout. *)
Definition changed (sd : Side) (st : E.EndpointState) (s : State) : State :=
  let x := E.SetState st (est (other sd) s) (epf sd s) (stats s) in set_stats x.1.2 (on_ep sd (λ _, x.1.1) s).

Lemma moves_from_SetState (P : State → Prop) (R : State → State → Prop) `{!PreOrder R} cfg sd st :
  (∀ s s', quiet s s' → R s s') → (∀ s, P s → R s (changed sd st s)) → moves_from P R (SetState cfg sd st).
Proof.
  intros HQ HC s s' r HP. unfold SetState, modify. intros [= <- _]. etrans; [by apply HC|]. unfold changed.
  destruct (E.SetState st _ _ _) as [[e x] []]; simpl; [apply HQ, quiet_SetInactivityTimeout|reflexivity].
Qed.
Lemma moves_SetState (R : State → State → Prop) `{!PreOrder R} cfg sd st :
  (∀ s s', quiet s s' → R s s') → (∀ s, R s (changed sd st s)) → moves R (SetState cfg sd st).
Proof. intros HQ HC s s' r. by apply (moves_from_SetState (λ _, True) R); [| |]. Qed.

Lemma other_ne sd : other sd ≠ sd.
Proof. by destruct sd. Qed.
Lemma side_cases (sd sd' : Side) : sd' = sd ∨ sd' = other sd.
Proof. destruct sd, sd'; auto. Qed.
Lemma other_other sd : other (other sd) = sd.
Proof. by destruct sd. Qed.

Lemma epf_on_ep sd sd' f s : epf sd' (on_ep sd f s) = if decide (sd' = sd) then f (epf sd s) else epf sd' s.
Proof. by destruct sd, sd'. Qed.

Lemma E_SetState_fields st p e x :
  let y := (E.SetState st p e x).1.1 in
  E.state y = st ∧ E.is_orig y = E.is_orig e ∧ E.did_close y = E.did_close e ∧ E.has_contents y = E.has_contents e.
Proof. unfold E.SetState. case_decide as Hst; by simplify_eq/=. Qed.

Lemma est_changed sd st sd' s : est sd' (changed sd st s) = if decide (sd' = sd) then st else est sd' s.
Proof.
  unfold changed, est. cbv zeta.
  change (epf sd' (set_stats ?x ?s)) with (epf sd' s). rw epf_on_ep. case_decide; [|done].
  by destruct (E_SetState_fields st (est (other sd) s) (epf sd s) (stats s)).
Qed.

(** The state of the endpoints when the roles are exchanged. *)
Lemma moves_FlipRoles (R : State → State → Prop) :
  (∀ s, let f := C.FlipRoles (conn s) (stats s) in let x := tcp_FlipRoles (tcp s) f.2 in
     R s (set_stats x.2 (set_tcp x.1 (set_conn f.1 s)))) → moves R FlipRoles.
Proof.
  intros HR s s' r. unfold FlipRoles, modify. intros [= <- _]. pose proof (HR s) as Hs. revert Hs. cbv zeta.
  by destruct (C.FlipRoles _ _) as [c st].
Qed.

End TF.
