(* ===== verification/TcpLife.v ===== *)
(** TcpLife: what holds of a TCP analyzer through its whole life, for any packets,
    timers and calls: the states its endpoints go through, the well-formedness of
    its fields, and the timers that end its connection.  Each is an instance of the
    walk through the code in TcpFacts. *)
From S2P Require Import Prelude Double Flow IP NetUtil Endpoint TcpReassem Conn TcpOptions TcpState TcpFacts.
From stdpp Require Import strings.

Module TL.
Import T TF.

(** ** The states of the endpoints *)

(** What a state can be changed to, in any number of steps. *)
Definition can_become (a b : E.EndpointState) : bool :=
  match a, b with
  | E.TCP_ENDPOINT_INACTIVE, _ => true
  | E.TCP_ENDPOINT_PARTIAL, (E.TCP_ENDPOINT_INACTIVE | E.TCP_ENDPOINT_SYN_ACK_SENT) => false
  | E.TCP_ENDPOINT_PARTIAL, _ => true
  | E.TCP_ENDPOINT_SYN_SENT, E.TCP_ENDPOINT_SYN_SENT => true
  | E.TCP_ENDPOINT_SYN_ACK_SENT, E.TCP_ENDPOINT_SYN_ACK_SENT => true
  | (E.TCP_ENDPOINT_SYN_SENT | E.TCP_ENDPOINT_SYN_ACK_SENT | E.TCP_ENDPOINT_ESTABLISHED), E.TCP_ENDPOINT_ESTABLISHED => true
  | _, (E.TCP_ENDPOINT_CLOSED | E.TCP_ENDPOINT_RESET) => true
  | _, _ => false
  end.

Definition advance (sd : Side) (s s' : State) : Prop := can_become (est sd s) (est sd s') = true.

#[global] Instance advance_preorder sd : PreOrder (advance sd).
Proof.
  split; unfold advance; [intros s; by destruct (est sd s)|]. intros a b c.
  destruct (est sd a), (est sd b), (est sd c); simpl; done.
Qed.

Lemma quiet_est sd s s' : quiet s s' → est sd s' = est sd s.
Proof. intros [[Ht] _ _ _]. apply Ht. Qed.

Lemma advance_quiet sd s s' : quiet s s' → advance sd s s'.
Proof. intros Hq. unfold advance. rw (quiet_est sd _ _ Hq). by destruct (est sd s). Qed.

(** Steps that leave the endpoints alone. *)
Lemma advance_same sd s s' : est sd s' = est sd s → advance sd s s'.
Proof. intros Hs. unfold advance. rw Hs. by destruct (est sd s). Qed.

Lemma advance_did_close sd sd' : moves (advance sd) (upd sd' (E.set_did_close true)).
Proof. apply moves_modify; [apply _|]. intros s. apply advance_same. unfold est. rw epf_on_ep. by case_decide; subst. Qed.
Lemma advance_AddTimer sd f t e : moves (advance sd) (AddTimer f t e).
Proof. apply moves_modify; [apply _|]. intros s. by apply advance_same. Qed.
Lemma advance_with sd f : (∀ a, ep (endpoint sd (f a)) = ep (endpoint sd a)) → moves (advance sd) (with_tcp f).
Proof. intros Hf. apply moves_modify; [apply _|]. intros s. apply advance_same. unfold est, epf. simpl. by rw Hf. Qed.
Lemma advance_close_timer cfg sd : moves (advance sd) (close_timer cfg).
Proof. unfold close_timer, CancelTimers. moves; try apply advance_AddTimer. by apply advance_with. Qed.
Lemma advance_FlipRoles sd : moves (advance sd) FlipRoles.
Proof. apply moves_FlipRoles. intros s. apply advance_same. by destruct sd. Qed.

(** A change is allowed on one side, and not seen on the other. *)
Lemma advance_SetState_other cfg sd st : moves (advance (other sd)) (SetState cfg sd st).
Proof.
  apply moves_SetState; [apply _|apply advance_quiet|]. intros s. apply advance_same. rw est_changed.
  case_decide as Ho; [by destruct (other_ne sd)|done].
Qed.
Lemma advance_SetState cfg sd st sd' :
  moves_from (λ s, can_become (est sd s) st = true) (advance sd') (SetState cfg sd st).
Proof.
  destruct (side_cases sd sd') as [->| ->]; [|apply moves_from_weaken, advance_SetState_other].
  apply moves_from_SetState; [apply _|apply advance_quiet|]. intros s Hs. unfold advance. rw est_changed. by case_decide.
Qed.
Lemma advance_final cfg sd st sd' :
  (st = E.TCP_ENDPOINT_CLOSED ∨ st = E.TCP_ENDPOINT_RESET) → moves (advance sd') (SetState cfg sd st).
Proof. intros Hst s s' r. apply advance_SetState. by destruct Hst as [->| ->], (est sd s). Qed.

Lemma advance_ConnectionClosed cfg sd sd' g : moves (advance sd') (ConnectionClosed cfg sd g).
Proof.
  apply w_ConnectionClosed; [apply _|apply advance_quiet|by apply advance_with|apply advance_AddTimer
    |apply advance_close_timer|intros; apply advance_did_close].
Qed.

(** A SYN in the middle of a connection. *)
Lemma advance_SYN_inside cfg sd b l f sd' : moves (advance sd') (SYN_inside cfg sd b l f).
Proof.
  assert (∀ name, moves quiet (Weird name)) as HW by (intros name; apply w_Weird; [apply _|done]).
  unfold SYN_inside, init_seqs. apply moves_bind_gets. intros e. apply moves_from_bind_gets. intros p.
  apply moves_from_then; [apply _| |].
  - apply moves_from_when; [apply _|]. intros [[Hp _]%andb_true_iff _]%andb_true_iff. rw bool_decide_eq_true in Hp.
    apply (moves_from_bind _ (λ s, est sd s = E.TCP_ENDPOINT_PARTIAL) quiet); [apply _|done| | |].
    + intros s s' [He _] Hq. rw (quiet_est sd _ _ Hq). by rw /est -He.
    + apply moves_from_weaken, (moves_sub quiet); [apply advance_quiet|done].
    + intros _. eapply moves_from_pre; [apply advance_SetState|]. by intros s Hs; rw /= Hs.
  - intros _. apply (moves_sub quiet); [apply advance_quiet|]. moves; try apply HW. apply w_upd; [apply _|done|]. by split.
Qed.

(** The answer of the other side can only change the state of one that sent a SYN. *)
Lemma advance_check_SYN_answer cfg sd b a f sd' : moves (advance sd') (check_SYN_answer cfg sd b a f).
Proof.
  assert (∀ name, moves (advance sd') (Weird name)) as HW by (intros name; apply w_Weird; [apply _|apply advance_quiet]).
  unfold check_SYN_answer. apply moves_bind_gets. intros e. apply moves_from_bind_gets. intros p.
  destruct (TO.ACK f); [apply moves_from_weaken; moves; apply HW|].
  destruct (bool_decide (E.state p = _) && _) eqn:Hp; [|apply moves_from_weaken, HW].
  apply andb_true_iff in Hp as [Hp _]. rw bool_decide_eq_true in Hp.
  apply (moves_from_bind _ (λ s, est (other sd) s = E.TCP_ENDPOINT_SYN_ACK_SENT) (λ s s', est (other sd) s' = est (other sd) s));
    [apply _| | | |].
  - apply moves_FlipRoles. intros s. by destruct sd.
  - intros s s' [_ Hs] ->. by rw /est -Hs.
  - apply moves_from_weaken, advance_FlipRoles.
  - intros _. eapply moves_from_pre; [apply advance_SetState|]. by intros s Hs; rw /= Hs.
Qed.

Lemma advance_inactive_SYN_resp cfg sd b a f : moves (advance (other sd)) (inactive_SYN_resp cfg sd b a f).
Proof.
  assert (∀ name, moves (advance (other sd)) (Weird name)) as HW by (intros name; apply w_Weird; [apply _|apply advance_quiet]).
  unfold inactive_SYN_resp. apply moves_bind; [apply _|apply advance_check_SYN_answer|]. intros _.
  apply moves_bind_gets. intros p. apply moves_from_then; [apply _| |].
  - case_bool_decide; [|apply moves_from_weaken; moves; apply HW].
    eapply moves_from_pre; [apply advance_SetState|]. intros s Hs. by rw /= -Hs; subst p.
  - intros _. moves; [apply advance_SetState_other| |apply w_status_timer; [apply _|apply advance_quiet]].
    apply w_Event; [apply _|apply advance_quiet].
Qed.

(** From INACTIVE the endpoint can become anything. *)
Lemma advance_UpdateInactiveState cfg sd' t sd b a len o f :
  moves_from (λ s, E.TCP_ENDPOINT_INACTIVE = est sd s) (advance sd') (UpdateInactiveState cfg t sd b a len o f).
Proof.
  intros s s' r Hs Hr. destruct (side_cases sd sd') as [->| ->]; [by rw /advance -Hs|].
  clear Hs. revert s s' r Hr. apply w_UpdateInactiveState; [apply _|apply advance_quiet|by apply advance_with|apply advance_AddTimer
    |intros; apply advance_ConnectionClosed|intros; apply advance_SetState_other|intros; apply advance_inactive_SYN_resp].
Qed.

Lemma states_advance_step cfg sd' l : moves (advance sd') (step cfg l).
Proof.
  apply w_step; [apply _|apply advance_quiet|by apply advance_with|apply advance_AddTimer
    |intros; apply advance_ConnectionClosed| | |intros; by apply advance_with].
  - intros *. apply w_UpdateStateMachine; [apply _|apply advance_quiet|by apply advance_with|apply advance_AddTimer
      |intros; apply advance_ConnectionClosed|intros; by apply advance_final|intros; apply advance_SYN_inside|intros; apply advance_UpdateInactiveState].
  - apply moves_modify; [apply _|]. intros s. by apply advance_same.
Qed.

Lemma advance_run cfg sd' ls : moves (advance sd') (run_labels cfg ls).
Proof.
  induction ls as [|l ls IH]; simpl; [apply moves_ret; apply _|].
  apply moves_bind; [apply _|apply moves_call; [apply _|apply states_advance_step]|done].
Qed.

(** ** Well-formed states *)

(** What the fields of an analyzer satisfy between packets: one originator, which
    [orig] points to; the flags of the endpoints tell about their reassemblers; two
    bits for the first packets; and timers with addresses of their own. *)
Record wf (s : State) : Prop := {
  wf_orig : E.is_orig (epf (orig (tcp s)) s) = true;
  wf_resp : E.is_orig (epf (resp (tcp s)) s) = false;
  wf_contents : contents_ok (tcp s);
  wf_seen : (0 ≤ first_packet_seen (tcp s) < 4)%Z;
  wf_ids : Forall (λ tm, t_id tm < C.next_id (world s)) (timers (tcp s));
  wf_unique : NoDup (t_id <$> timers (tcp s))
}.

Definition implies (P : State → Prop) (s s' : State) : Prop := P s → P s'.
#[global] Instance implies_preorder P : PreOrder (implies P).
Proof. split; unfold implies; repeat intro; auto. Qed.

Lemma wf_quiet s s' : quiet s s' → implies wf s s'.
Proof.
  intros [[He Ho Ht _ Hc Hs] _ [Hn _] _] [W1 W2 W3 W4 W5 W6]. unfold epf, resp in *. split; unfold epf, resp; rw ?Ho ?Ht; auto.
  - destruct (He (orig (tcp s))) as (_ & _ & -> & _). done.
  - destruct (He (other (orig (tcp s)))) as (_ & _ & -> & _). done.
  - eapply Forall_impl; [done|]. simpl. intros tm Htm. lia.
Qed.

(** Changes of an endpoint that keep what is well-formed of it. *)
Lemma wf_on_ep sd f s :
  E.is_orig (f (epf sd s)) = E.is_orig (epf sd s) → E.has_contents (f (epf sd s)) = E.has_contents (epf sd s) →
  implies wf s (on_ep sd f s).
Proof.
  intros Ho Hc [W1 W2 W3 W4 W5 W6].
  assert (orig (tcp (on_ep sd f s)) = orig (tcp s)) as Hor by by destruct sd.
  assert (timers (tcp (on_ep sd f s)) = timers (tcp s)) as Htm by by destruct sd.
  assert (∀ sd', E.is_orig (epf sd' (on_ep sd f s)) = E.is_orig (epf sd' s)) as Hsame.
  { intros sd'. rw epf_on_ep. by case_decide; subst. }
  split; rw ?Htm ?Hsame /resp ?Hor //; [|by destruct sd].
  apply contents_ok_put; [|done]. rw /= Hc. apply W3.
Qed.

Lemma fmap_sublist {A B} (f : A → B) l k : l `sublist_of` k → (f <$> l) `sublist_of` (f <$> k).
Proof. induction 1; simpl; by constructor. Qed.

Lemma wf_with f s :
  (∀ sd, ep (endpoint sd (f (tcp s))) = ep (endpoint sd (tcp s)) ∧
     contents_processor (endpoint sd (f (tcp s))) = contents_processor (endpoint sd (tcp s))) →
  orig (f (tcp s)) = orig (tcp s) → first_packet_seen (f (tcp s)) = first_packet_seen (tcp s) →
  timers (f (tcp s)) `sublist_of` timers (tcp s) → implies wf s (on_tcp f s).
Proof.
  intros He Ho Hs Ht [W1 W2 W3 W4 W5 W6]. split; unfold resp, epf; simpl.
  - by rw Ho (proj1 (He _)).
  - by rw Ho (proj1 (He _)).
  - intros sd. rw (proj1 (He _)) (proj2 (He _)). apply W3.
  - by rw Hs.
  - apply Forall_forall. intros tm Htm. eapply Forall_forall in W5; [exact W5|]. by eapply elem_of_sublist.
  - eapply sublist_NoDup; [exact W6|by apply fmap_sublist].
Qed.

Lemma wf_changed sd st s : implies wf s (changed sd st s).
Proof.
  intros Hw. pose proof (E_SetState_fields st (est (other sd) s) (epf sd s) (stats s)) as (_ & Ho & _ & Hc).
  pose proof (wf_on_ep sd (λ _, (E.SetState st (est (other sd) s) (epf sd s) (stats s)).1.1) s Ho Hc Hw) as [].
  by split.
Qed.

Lemma wf_AddTimer f t e : moves (implies wf) (AddTimer f t e).
Proof.
  apply moves_modify; [apply _|]. intros s [W1 W2 W3 W4 W5 W6]. split; simpl; try done.
  - apply Forall_app. split; [|by repeat constructor].
    eapply Forall_impl; [exact W5|]. simpl. lia.
  - rw fmap_app. apply NoDup_app. split_and!; [done| |apply NoDup_singleton]. intros x Hx Hn.
    simpl in Hn. apply list_elem_of_singleton in Hn as ->. apply list_elem_of_fmap in Hx as (tm & Hid & Hin).
    eapply Forall_forall in W5; [|done]. lia.
Qed.

Lemma wf_with_timers f : (∀ a, ∃ l b v, f a = set_timers l (set_timers_canceled b (set_is_active v a)) ∧ l `sublist_of` timers a) →
  moves (implies wf) (with_tcp f).
Proof.
  intros Hf. apply moves_modify; [apply _|]. intros s. destruct (Hf (tcp s)) as (l & b & v & Hfa & Hl).
  by apply wf_with; rw Hfa.
Qed.
Lemma wf_set_is_active v : moves (implies wf) (with_tcp (set_is_active v)).
Proof. apply wf_with_timers. intros a. exists (timers a), (timers_canceled a), v. by split. Qed.
Lemma wf_RemoveTimer tm : moves (implies wf) (with_tcp (RemoveTimer tm)).
Proof.
  apply wf_with_timers. intros a. exists (timers (RemoveTimer tm a)), (timers_canceled a), (is_active a). split; [done|].
  apply sublist_filter.
Qed.
Lemma wf_close_timer cfg : moves (implies wf) (close_timer cfg).
Proof.
  unfold close_timer, CancelTimers. moves; try apply wf_AddTimer. apply wf_with_timers.
  intros a. exists [], true, (is_active a). split; [done|]. apply sublist_nil_l.
Qed.
Lemma wf_FlipRoles : moves (implies wf) FlipRoles.
Proof.
  apply moves_FlipRoles. intros s. cbv zeta. intros [W1 W2 W3 W4 W5 W6]. unfold resp, epf in *. destruct (orig (tcp s)) eqn:Ho; simpl in *;
    split; rw /= /resp /epf /= ?Ho /= ?W1 ?W2 //; intros sd; by destruct sd; simpl; apply (W3 First) || apply (W3 Second).
Qed.
Lemma wf_SetState cfg sd st : moves (implies wf) (SetState cfg sd st).
Proof. apply moves_SetState; [apply _|apply wf_quiet|apply wf_changed]. Qed.
Lemma wf_ConnectionClosed cfg sd g : moves (implies wf) (ConnectionClosed cfg sd g).
Proof.
  apply w_ConnectionClosed; [apply _|apply wf_quiet|apply wf_set_is_active|apply wf_AddTimer|apply wf_close_timer|].
  intros sd'. apply moves_modify; [apply _|]. intros s. by apply wf_on_ep.
Qed.
Lemma wf_Remove : moves (implies wf) Remove.
Proof. apply moves_modify; [apply _|]. intros s []. by split. Qed.

Lemma wf_step cfg l : moves (implies wf) (step cfg l).
Proof.
  apply w_step; [apply _|apply wf_quiet|apply wf_set_is_active|apply wf_AddTimer|intros; apply wf_ConnectionClosed
    | |apply wf_Remove|apply wf_RemoveTimer].
  intros *. apply w_machine; [apply _|apply wf_quiet|apply wf_set_is_active|apply wf_AddTimer|intros; apply wf_ConnectionClosed
    |intros; apply wf_SetState|apply wf_FlipRoles].
Qed.
Lemma wf_run cfg ls : moves (implies wf) (run_labels cfg ls).
Proof.
  induction ls as [|l ls IH]; simpl; [apply moves_ret; apply _|].
  apply moves_bind; [apply _|apply moves_call; [apply _|apply wf_step]|done].
Qed.

(** The analyzer of a new connection. *)
Lemma wf_new cfg oa ra ch w st a w' st' c :
  TCP_Analyzer_new cfg oa ra ch w st = Some (a, w', st') → wf (mkState a c w' st').
Proof.
  unfold TCP_Analyzer_new. intros (e1 & He1 & (e2 & He2 & [= <- <- <-])%bind_Some)%bind_Some.
  assert (∀ b x y e, E.TCP_Endpoint_new b x y = Some e → E.is_orig e = b ∧ E.has_contents e = false) as Hnew.
  { intros b x y e. unfold E.TCP_Endpoint_new. intros (? & _ & (? & _ & [= <-])%bind_Some)%bind_Some. done. }
  apply Hnew in He1 as [], He2 as []. split; try done.
  - by intros [].
  - constructor; simpl; [lia|done].
  - apply NoDup_singleton.
Qed.

(** ** What ends a connection *)

(** The connection was taken out of the table. *)
Definition removed (s : State) : Prop := C.RemoveFromSessions ∈ C.log (world s).

(** Timers that take the connection out, at once or when nothing happens. *)
Definition closer (f : TimerFunc) : bool := bool_decide (f = DeleteTimer_f) || bool_decide (f = ConnDeleteTimer_f).
Definition keeper (f : TimerFunc) : bool := bool_decide (f = ExpireTimer_f) || closer f.
Definition waits (g : TimerFunc → bool) (s : State) : Prop := removed s ∨ ∃ tm, tm ∈ timers (tcp s) ∧ g (t_func tm) = true.

(** An active connection is looked at; one that both ends closed is deleted. *)
Definition held (s : State) : Prop := is_active (tcp s) = true → waits keeper s.
Definition closing (s : State) : Prop := BothClosed (tcp s) = true → waits closer s.

Lemma closer_keeper f : closer f = true → keeper f = true.
Proof. unfold keeper. intros ->. by rw orb_true_r. Qed.

Lemma removed_quiet s s' : quiet s s' → removed s → removed s'.
Proof. intros [_ _ [_ [k Hk]] _] Hs. unfold removed. rw Hk. apply elem_of_app. by left. Qed.
Lemma waits_quiet g s s' : quiet s s' → waits g s → waits g s'.
Proof.
  intros Hq [Hs|Hs]; [left; by eapply removed_quiet|right]. destruct Hq as [[_ _ Ht _ _ _] _ _ _]. by rw Ht.
Qed.
Lemma BothClosed_quiet s s' : quiet s s' → BothClosed (tcp s') = BothClosed (tcp s).
Proof.
  intros [[He _ _ _ _ _] _ _ _]. unfold BothClosed. destruct (He First) as (_ & _ & _ & H1), (He Second) as (_ & _ & _ & H2).
  simpl in *. by rw H1 H2.
Qed.
Lemma held_quiet s s' : quiet s s' → implies held s s'.
Proof.
  intros Hq Hs Ha. eapply waits_quiet; [done|]. apply Hs. destruct Hq as [[_ _ _ Hact _ _] _ _ _]. by rw -Hact.
Qed.
Lemma closing_quiet s s' : quiet s s' → implies closing s s'.
Proof. intros Hq Hs Hb. eapply waits_quiet; [done|]. apply Hs. by rw -(BothClosed_quiet _ _ Hq). Qed.

(** Steps with more timers and the same endpoints. *)
Lemma waits_more g s s' :
  (∀ tm, tm ∈ timers (tcp s) → tm ∈ timers (tcp s')) → C.log (world s) `prefix_of` C.log (world s') → waits g s → waits g s'.
Proof.
  intros Ht [k Hk] [Hs|(tm & Hin & Hg)]; [left|right; by exists tm; auto].
  unfold removed. rw Hk. apply elem_of_app. by left.
Qed.
Lemma waits_AddTimer g f t e s s' r : AddTimer f t e s = Some (s', r) → waits g s → waits g s'.
Proof.
  intros [= <- _]. apply waits_more; [|done]. simpl. intros tm Htm. apply elem_of_app. by left.
Qed.
Lemma held_AddTimer f t e : moves (implies held) (AddTimer f t e).
Proof. intros s s' r Hr Hs Ha. eapply waits_AddTimer; [exact Hr|]. apply Hs. by injection Hr as <- _. Qed.
Lemma closing_AddTimer f t e : moves (implies closing) (AddTimer f t e).
Proof. intros s s' r Hr Hs Ha. eapply waits_AddTimer; [exact Hr|]. apply Hs. by injection Hr as <- _. Qed.

Lemma removed_Remove s s' r : Remove s = Some (s', r) → removed s'.
Proof. intros [= <- _]. unfold removed. simpl. apply elem_of_app. right. by left. Qed.

(** [ConnectionClosed] installs one of them. *)
Lemma close_timer_waits cfg s s' r : close_timer cfg s = Some (s', r) → waits closer s'.
Proof.
  unfold close_timer, CancelTimers, with_tcp, AddTimer, modify, gets, mbind, M_bind.
  destruct (negb _); intros [= <- _]; right; eexists; (split; [by left|done]).
Qed.
Lemma waits_closer_keeper s : waits closer s → waits keeper s.
Proof. intros [Hs|(tm & Hin & Hc)]; [by left|]. right. exists tm. split; [done|by apply closer_keeper]. Qed.

Lemma held_close_timer cfg : moves (implies held) (close_timer cfg).
Proof. intros s s' r Hr _ _. apply waits_closer_keeper. by eapply close_timer_waits. Qed.
Lemma held_inactive : moves (implies held) (with_tcp (set_is_active false)).
Proof. by intros s s' r [= <- _] _ [=]. Qed.
Lemma held_ConnectionClosed cfg sd g : moves (implies held) (ConnectionClosed cfg sd g).
Proof.
  apply w_ConnectionClosed; [apply _|apply held_quiet|apply held_inactive|apply held_AddTimer|apply held_close_timer|].
  intros sd'. apply moves_modify; [apply _|]. intros s Hs Ha. assert (is_active (tcp s) = true) as Ha' by (by destruct sd').
  destruct (Hs Ha') as [|(tm & Hin & Hk)]; [by left|right]. exists tm. split; [by destruct sd'|done].
Qed.

Lemma report_close_goes sd g s s' r : report_close sd g s = Some (s', r) → r ≠ None.
Proof.
  unfold report_close, ConnectionFinished, is_state, when, gets, with_tcp, emit, Event, modify, mbind, M_bind, mret, M_ret.
  destruct (_ || _); [destruct (_ || _)|]; intros [= _ <-]; done.
Qed.

(** While an endpoint closes, both may be closed without the timer. *)
Lemma closing_ConnectionClosed cfg sd g : moves (implies closing) (ConnectionClosed cfg sd g).
Proof.
  unfold ConnectionClosed. apply moves_bind; [apply _| |].
  { apply w_emit; [apply _|apply closing_quiet]. }
  intros _. apply moves_bind; [apply _|apply moves_gets; apply _|]. intros [].
  { moves. apply w_with; [apply _|apply closing_quiet|]. by split. }
  apply moves_bind; [apply _|apply w_with; [apply _|apply closing_quiet|by split]|]. intros _.
  apply moves_bind; [apply _|apply moves_gets; apply _|]. intros e. destruct (E.did_close e); [apply moves_stop; apply _|].
  intros s s' r. intros Hr Hs Hb. unfold upd, modify, gets, mbind at 1, mbind at 1, M_bind at 1, M_bind at 1 in Hr.
  set (s1 := on_ep sd _ s) in Hr. set (p := epf (other sd) s1) in Hr.
  destruct (_ || _ || _) eqn:Hc.
  - apply bind_inv in Hr as [(s2 & x & _ & Hr)|[Hr _]]; [by eapply close_timer_waits|]. by destruct (report_close_goes _ _ _ _ _ Hr).
  - apply orb_false_iff in Hc as [[_ Hp]%orb_false_iff _].
    assert (moves (keeps_same (λ s, BothClosed (tcp s))) (half_close_timer cfg sd)) as Hm.
    { unfold half_close_timer. moves; apply moves_modify; done || apply _. }
    rw (Hm _ _ _ Hr) in Hb. subst p. unfold epf, BothClosed in *. destruct sd; simpl in *; by rw Hp ?andb_false_r in Hb.
Qed.

Lemma held_SetState cfg sd st : moves (implies held) (SetState cfg sd st).
Proof.
  apply moves_SetState; [apply _|apply held_quiet|]. intros s Hs. unfold changed, held in *. by destruct sd.
Qed.
Lemma closing_SetState cfg sd st : moves (implies closing) (SetState cfg sd st).
Proof.
  apply moves_SetState; [apply _|apply closing_quiet|]. intros s Hs Hb. assert (BothClosed (tcp s) = true) as Hb'.
  { rw -Hb. pose proof (E_SetState_fields st (est (other sd) s) (epf sd s) (stats s)) as (_ & _ & Hd & _).
    revert Hd. unfold changed, BothClosed, epf. destruct sd; simpl; by intros ->. }
  destruct (Hs Hb') as [|(tm & Hin & Hk)]; [by left|right]. exists tm. split; [by destruct sd|done].
Qed.
Lemma held_FlipRoles : moves (implies held) FlipRoles.
Proof. apply moves_FlipRoles. intros s. cbv zeta. intros Hs. exact Hs. Qed.
Lemma closing_FlipRoles : moves (implies closing) FlipRoles.
Proof. apply moves_FlipRoles. intros s. cbv zeta. intros Hs. exact Hs. Qed.
Lemma closing_inactive : moves (implies closing) (with_tcp (set_is_active false)).
Proof. apply moves_modify; [apply _|]. intros s Hs. exact Hs. Qed.

Lemma removes_waits g s s' r : Remove s = Some (s', r) → waits g s'.
Proof. intros Hr. left. by eapply removed_Remove. Qed.

Lemma held_machine cfg t sd b a l len d o f : moves (implies held) (UpdateStateMachine cfg t sd b a l len d o f).
Proof.
  apply w_machine; [apply _|apply held_quiet|apply held_inactive|apply held_AddTimer
    |intros; apply held_ConnectionClosed|intros; apply held_SetState|apply held_FlipRoles].
Qed.
Lemma closing_machine cfg t sd b a l len d o f : moves (implies closing) (UpdateStateMachine cfg t sd b a l len d o f).
Proof.
  apply w_machine; [apply _|apply closing_quiet|apply closing_inactive|apply closing_AddTimer
    |intros; apply closing_ConnectionClosed|intros; apply closing_SetState|apply closing_FlipRoles].
Qed.
Lemma removes_implies g (b : State → bool) : moves (implies (λ s, b s = true → waits g s)) Remove.
Proof. intros s s' r Hr _ _. by eapply removes_waits. Qed.
Lemma held_run_timer cfg f t : moves (implies held) (run_timer cfg f t).
Proof.
  apply w_run_timer; [apply _|apply held_quiet|apply held_inactive|apply held_AddTimer|intros; apply held_ConnectionClosed
    |intros; apply held_machine|apply removes_implies].
Qed.
Lemma closing_run_timer cfg f t : moves (implies closing) (run_timer cfg f t).
Proof.
  apply w_run_timer; [apply _|apply closing_quiet|apply closing_inactive|apply closing_AddTimer|intros; apply closing_ConnectionClosed
    |intros; apply closing_machine|apply removes_implies].
Qed.

(** Nobody adds a timer at an old address. *)
Definition absent (id : nat) (s : State) : Prop :=
  Forall (λ x, t_id x ≠ id) (timers (tcp s)) ∧ id < C.next_id (world s).

Lemma absent_quiet id s s' : quiet s s' → implies (absent id) s s'.
Proof. intros [[_ _ Ht _ _ _] _ [Hn _] _] [Hf Hi]. split; [by rw Ht|lia]. Qed.
Lemma absent_AddTimer id f t e : moves (implies (absent id)) (AddTimer f t e).
Proof.
  apply moves_modify; [apply _|]. intros s [Hf Hi]. split; simpl; [|lia].
  apply Forall_app. split; [done|]. constructor; [simpl; lia|done].
Qed.
Lemma absent_same id s s' : timers (tcp s') = timers (tcp s) → C.next_id (world s') = C.next_id (world s) → implies (absent id) s s'.
Proof. intros Ht Hn. unfold implies, absent. by rw Ht Hn. Qed.
Lemma absent_inactive id : moves (implies (absent id)) (with_tcp (set_is_active false)).
Proof. apply moves_modify; [apply _|]. intros s. by apply absent_same. Qed.
Lemma absent_Remove id : moves (implies (absent id)) Remove.
Proof. apply moves_modify; [apply _|]. intros s. by apply absent_same. Qed.

Lemma absent_run_timer id cfg f t : moves (implies (absent id)) (run_timer cfg f t).
Proof.
  destruct f; simpl; unfold AttemptTimer, PartialCloseTimer, ExpireTimer, ResetTimer, DeleteTimer, ConnDeleteTimer, ConnectionReset;
    moves; try apply absent_inactive; try apply absent_Remove; try apply absent_AddTimer;
    try (apply w_Event; [apply _|apply absent_quiet]); try (apply w_emit; [apply _|apply absent_quiet]).
  apply moves_modify; [apply _|]. intros s. apply absent_same; unfold C.DeleteTimer, on_conn; simpl; by destruct (C.IsActive (conn s)).
Qed.

Lemma waits_absent g tm s : absent (t_id tm) s → waits g s → waits g (on_tcp (RemoveTimer tm) s).
Proof.
  intros [Hf _]. apply waits_more; [|done]. intros x Hx. apply list_elem_of_filter. split; [|done].
  by eapply (proj1 (Forall_forall _ _)) in Hf.
Qed.

(** A timer that is taken out leaves the others. *)
Lemma waits_RemoveTimer g tm s :
  wf s → tm ∈ timers (tcp s) → g (t_func tm) = false → waits g s → waits g (on_tcp (RemoveTimer tm) s).
Proof.
  intros Hw Htm Hg [Hs|(x & Hx & Hgx)]; [by left|right]. exists x. split; [|done]. apply list_elem_of_filter. split; [|done].
  intros Hid. assert (x = tm) as ->; [|congruence]. by eapply (NoDup_fmap_eq t_id); [exact (wf_unique _ Hw)| | |].
Qed.
Lemma absent_RemoveTimer tm s : wf s → tm ∈ timers (tcp s) → absent (t_id tm) (on_tcp (RemoveTimer tm) s).
Proof.
  intros Hw Htm. split; simpl; [|by eapply (proj1 (Forall_forall _ _)) in Htm; [|exact (wf_ids _ Hw)]].
  apply Forall_forall. by intros x [? _]%list_elem_of_filter.
Qed.

(** The timer function, without its timer before and after. *)
Lemma fire_run cfg tm t s s' r :
  fire cfg tm t false s = Some (s', r) →
  ∃ s2 x, run_timer cfg (t_func tm) t (on_tcp (RemoveTimer tm) s) = Some (s2, x) ∧ s' = on_tcp (RemoveTimer tm) s2.
Proof.
  unfold fire. simpl. unfold with_tcp, modify, call, mbind, M_bind.
  destruct (run_timer _ _ _ _) as [[s2 x]|] eqn:Hr; simpl; [|done]. intros [= <- _]. by exists s2, x.
Qed.

(** The session timer of an active connection ends it or is set again. *)
Lemma ExpireTimer_active cfg t s :
  is_active (tcp s) = true →
  ∃ s' r, ExpireTimer cfg t s = Some (s', r) ∧
    (removed s' ∨ ∃ tm, tm ∈ timers (tcp s') ∧ t_func tm = ExpireTimer_f ∧ t_id tm = C.next_id (world s) ∧
       t_time tm = dadd t (tcp_session_timer cfg)) ∧
    (over s = true → dlt (dadd (C.last_time (conn s)) (tcp_connection_linger cfg)) t = true → removed s').
Proof.
  intros Ha. unfold ExpireTimer, get, when, stop, Event, with_tcp, Remove, AddTimer, modify, mbind, M_bind, mret, M_ret.
  rw Ha /=. unfold removed.
  assert (∀ l : list C.effect, C.RemoveFromSessions ∈ l ++ [C.RemoveFromSessions]) as Hlast by (intros l; set_solver).
  destruct (dlt _ t); simpl; [destruct (over s); simpl; [|destruct (bool_decide _); simpl;
    [destruct (_ || _); simpl; [destruct (negb _); simpl|destruct (bool_decide _); simpl]|]]|];
    (do 2 eexists; split; [reflexivity|]; simpl; split; [|intros; by (done || apply Hlast)]);
    (left; apply Hlast) || (right; eexists; split; [apply elem_of_app; right; by left|done]).
Qed.

Lemma closer_removes cfg f t s s' r : closer f = true → run_timer cfg f t s = Some (s', r) → removed s'.
Proof.
  destruct f; try done; simpl; intros _; [apply removed_Remove|]. unfold ConnDeleteTimer, modify. intros [= <- _].
  unfold removed, C.DeleteTimer, on_conn. destruct (C.IsActive _); simpl; set_solver.
Qed.

Lemma ExpireTimer_inactive cfg t s : is_active (tcp s) = false → ExpireTimer cfg t s = Some (s, None).
Proof. intros Ha. unfold ExpireTimer, get, mbind, M_bind. by rw Ha. Qed.

Lemma fire_keeps (b : State → bool) g cfg tm t s s' r :
  (∀ s tm, b (on_tcp (RemoveTimer tm) s) = b s) →
  wf s → tm ∈ timers (tcp s) →
  (let s1 := on_tcp (RemoveTimer tm) s in ∀ s2 x, run_timer cfg (t_func tm) t s1 = Some (s2, x) → b s2 = true → waits g s2) →
  fire cfg tm t false s = Some (s', r) → b s' = true → waits g s'.
Proof.
  intros Hb Hw Htm Hrun (s2 & x & Hr & ->)%fire_run Hb'. rw Hb in Hb'. apply waits_absent; [|by eapply Hrun].
  eapply absent_run_timer; [exact Hr|]. by apply absent_RemoveTimer.
Qed.

Lemma held_fire cfg tm t s s' r :
  wf s → tm ∈ timers (tcp s) → held s → fire cfg tm t false s = Some (s', r) → held s'.
Proof.
  intros Hw Htm Hs Hf Ha. eapply (fire_keeps (λ s, is_active (tcp s)) keeper); [done|done|done| |exact Hf|exact Ha].
  intros s1 s2 x Hr Ha2. destruct (closer (t_func tm)) eqn:Hc; [left; by eapply closer_removes|].
  destruct (decide (t_func tm = ExpireTimer_f)) as [Hft|Hft].
  - rw Hft in Hr. destruct (is_active (tcp s1)) eqn:Ha1; cbn [run_timer] in Hr; [|by rw (ExpireTimer_inactive _ _ _ Ha1) in Hr; simplify_eq; congruence].
    destruct (ExpireTimer_active cfg t s1 Ha1) as (s3 & y & Hr3 & [Hrem|(tm' & Hin & Hx & _)] & _); rw Hr in Hr3; simplify_eq;
      [by left|right]. exists tm'. by rw Hx.
  - eapply held_run_timer; [exact Hr| |exact Ha2]. intros Ha1. apply waits_RemoveTimer; [done|done| |by apply Hs].
    unfold keeper. by rw Hc bool_decide_eq_false_2.
Qed.

Lemma closing_fire cfg tm t s s' r :
  wf s → tm ∈ timers (tcp s) → closing s → fire cfg tm t false s = Some (s', r) → closing s'.
Proof.
  intros Hw Htm Hs Hf Hb. eapply (fire_keeps (λ s, BothClosed (tcp s)) closer); [by intros ? []|done|done| |exact Hf|exact Hb].
  intros s1 s2 x Hr Hb2. destruct (closer (t_func tm)) eqn:Hc; [left; by eapply closer_removes|].
  eapply closing_run_timer; [exact Hr| |exact Hb2]. intros Hb1. apply waits_RemoveTimer; [done|done|done|by apply Hs].
Qed.

(** The timers are dispatched; none is dropped, as at the end of the program. *)
Definition dispatched (l : label) : Prop := match l with TimerL _ _ e => e = false | _ => True end.

Record alive (s : State) : Prop := { al_wf : wf s; al_held : held s; al_closing : closing s }.

Lemma find_id id l tm : List.find (λ tm, bool_decide (t_id tm = id)) l = Some tm → tm ∈ l ∧ t_id tm = id.
Proof. intros [Hin Hid]%find_some. rw bool_decide_eq_true in Hid. by rw list_elem_of_In. Qed.

Lemma fire_id_inv cfg id t e s s' r :
  fire_id cfg id t e s = Some (s', r) → ∃ tm, tm ∈ timers (tcp s) ∧ t_id tm = id ∧ fire cfg tm t e s = Some (s', r).
Proof.
  unfold fire_id, gets, lift, mbind at 1, M_bind at 1. unfold mbind, M_bind. destruct (List.find _ _) as [tm|] eqn:Hf; simpl; [|done].
  apply find_id in Hf as [Hin Hid]. by exists tm.
Qed.

Lemma held_untimed cfg l : untimed l = true → moves (implies held) (step cfg l).
Proof.
  apply w_untimed; [apply _|apply held_quiet|apply held_inactive|apply held_AddTimer
    |intros; apply held_ConnectionClosed|intros; apply held_machine|apply removes_implies].
Qed.
Lemma closing_untimed cfg l : untimed l = true → moves (implies closing) (step cfg l).
Proof.
  apply w_untimed; [apply _|apply closing_quiet|apply closing_inactive|apply closing_AddTimer
    |intros; apply closing_ConnectionClosed|intros; apply closing_machine|apply removes_implies].
Qed.

Lemma alive_step cfg l : dispatched l → moves (implies alive) (step cfg l).
Proof.
  intros Hl s s' r Hr [Hw Hh Hc]. split; [by eapply wf_step|..]; destruct (untimed l) eqn:Hu;
    try (by eapply held_untimed); try (by eapply closing_untimed); destruct l as [| id t e| |]; try done; simpl in Hl, Hr; subst e;
    apply fire_id_inv in Hr as (tm & Hin & _ & Hr); [by eapply held_fire|by eapply closing_fire].
Qed.
Lemma alive_run cfg ls : Forall dispatched ls → moves (implies alive) (run_labels cfg ls).
Proof.
  induction 1 as [|l ls Hl _ IH]; simpl; [apply moves_ret; apply _|].
  apply moves_bind; [apply _|apply moves_call; [apply _|by apply alive_step]|done].
Qed.

(** ** Claims *)

(** C14. The endpoints go through their states in one direction: whatever packets,
    timers and calls arrive, an endpoint that was seen is not INACTIVE again, one
    that is ESTABLISHED is only closed or reset, one that is CLOSED or RESET changes
    between these two, and the states of the handshake are not left backwards; only
    a connection that is seen in part can begin its handshake later. *)
Theorem endpoint_states_advance cfg ls s s' sd :
  run (run_labels cfg ls) s = Some s' → can_become (est sd s) (est sd s') = true.
Proof. intros Hr. exact (moves_run _ _ _ _ (advance_run cfg sd ls) Hr). Qed.

(** A state that a new connection can be in. *)
Definition reaches (cfg : config) (s : State) : Prop :=
  ∃ oa ra ch w st a w' st' c ls, TCP_Analyzer_new cfg oa ra ch w st = Some (a, w', st') ∧ Forall dispatched ls ∧
    run (run_labels cfg ls) (mkState a c w' st') = Some s.

(** C31. The fields of the analyzer of a new connection stay well-formed: one of the
    two endpoints is the originator, which [orig] points to, whatever roles are
    exchanged; the flags of the endpoints tell whether there is a reassembler; the
    two bits for first packets are not exceeded; and the timers have addresses of
    their own, below the next one. *)
Theorem analyzer_well_formed cfg oa ra ch w st a w' st' c ls s :
  TCP_Analyzer_new cfg oa ra ch w st = Some (a, w', st') → run (run_labels cfg ls) (mkState a c w' st') = Some s → wf s.
Proof. intros Ha Hr. by eapply (moves_run _ _ _ _ (wf_run cfg ls)), wf_new. Qed.

(** What a timer does to its connection: it is taken out, or is looked at again
    after the time of a session. *)
Definition ends_or_waits (cfg : config) (t : double) (s' : State) : Prop :=
  removed s' ∨ ∃ tm, tm ∈ timers (tcp s') ∧ t_func tm = ExpireTimer_f ∧ t_time tm = dadd t (tcp_session_timer cfg).

Lemma alive_new cfg oa ra ch w st a w' st' c :
  TCP_Analyzer_new cfg oa ra ch w st = Some (a, w', st') → alive (mkState a c w' st').
Proof.
  intros Ha. split; [by eapply wf_new|..]; revert Ha; unfold TCP_Analyzer_new;
    intros (e1 & He1 & (e2 & He2 & [= <- <- <-])%bind_Some)%bind_Some.
  - intros _. right. eexists. by split; [left|].
  - unfold closing, BothClosed. simpl. revert He1. unfold E.TCP_Endpoint_new. by intros (? & _ & (? & _ & [= <-])%bind_Some)%bind_Some.
Qed.

Lemma find_timer s tm : wf s → tm ∈ timers (tcp s) → List.find (λ x, bool_decide (t_id x = t_id tm)) (timers (tcp s)) = Some tm.
Proof. intros Hw Htm. by apply (find_by_key t_id); [exact (wf_unique _ Hw)|]. Qed.

(** A timer that is pending is dispatched by its address. *)
Lemma fire_pending cfg tm t s s2 x :
  wf s → tm ∈ timers (tcp s) → run_timer cfg (t_func tm) t (on_tcp (RemoveTimer tm) s) = Some (s2, x) →
  run (fire_id cfg (t_id tm) t false) s = Some (on_tcp (RemoveTimer tm) s2).
Proof.
  intros Hw Htm Hr. unfold run, fire_id, gets, lift, mbind at 1, M_bind at 1. unfold mbind at 1, M_bind at 1.
  rw (find_timer _ _ Hw Htm) /=. unfold fire, with_tcp, modify, call, mbind, M_bind. simpl. by rw Hr.
Qed.

Lemma closer_runs cfg f t s : closer f = true → ∃ s', run_timer cfg f t s = Some (s', Some ()).
Proof. destruct f; try done; intros _; by eexists. Qed.

(** C7. Every connection ends.  While an analyzer is active, or when both ends have
    closed, its connection was taken out of the table or one of its timers is pending
    that leads there: dispatched at any time the timer does not fail, and takes the
    connection out or is set again for the time of a session; it does take it out
    when both ends have closed, and when the connection is over and nothing happened
    for longer than connections linger. *)
Theorem connections_end cfg s :
  reaches cfg s → is_active (tcp s) = true ∨ BothClosed (tcp s) = true →
  removed s ∨ ∃ tm, tm ∈ timers (tcp s) ∧ ∀ t, ∃ s', run (fire_id cfg (t_id tm) t false) s = Some s' ∧
    ends_or_waits cfg t s' ∧
    (BothClosed (tcp s) = true ∨ over s = true ∧ dlt (dadd (C.last_time (conn s)) (tcp_connection_linger cfg)) t = true → removed s').
Proof.
  intros (oa & ra & ch & w & st & a & w' & st' & c & ls & Ha & Hd & Hr) Hor.
  destruct (moves_run _ _ _ _ (alive_run cfg ls Hd) Hr (alive_new _ _ _ _ _ _ _ _ _ c Ha)) as [Hw Hh Hc].
  assert (removed s ∨ ∃ tm, tm ∈ timers (tcp s) ∧
    (closer (t_func tm) = true ∨ t_func tm = ExpireTimer_f ∧ is_active (tcp s) = true ∧ BothClosed (tcp s) = false)) as [?|(tm & Htm & Hk)].
  { destruct (BothClosed (tcp s)) eqn:Hb; [destruct (Hc Hb) as [|(tm & ? & ?)]; [by left|right; exists tm; auto]|].
    destruct Hor as [Hact|]; [|done]. destruct (Hh Hact) as [|(tm & ? & Hk)]; [by left|right; exists tm; split; [done|]].
    apply orb_true_iff in Hk as [Hk|Hk]; [|by left]. right. by rw bool_decide_eq_true in Hk. }
  { by left. }
  right. exists tm. split; [done|]. intros t. destruct Hk as [Hk|(Hf & Hact & Hb)].
  - destruct (closer_runs cfg _ t (on_tcp (RemoveTimer tm) s) Hk) as [s2 Hs2].
    exists (on_tcp (RemoveTimer tm) s2). split; [by eapply fire_pending|]. assert (removed s2) by by eapply closer_removes.
    split; [by left|done].
  - destruct (ExpireTimer_active cfg t (on_tcp (RemoveTimer tm) s) Hact) as (s2 & x & Hr2 & Hew & Hover).
    exists (on_tcp (RemoveTimer tm) s2). split; [eapply fire_pending; [done|done|by rw Hf]|]. split.
    + destruct Hew as [|(tm' & Hin & Hf' & Hid & Ht)]; [by left|right]. exists tm'. split; [|done]. simpl.
      apply list_elem_of_filter. split; [|done]. rw Hid. simpl.
      pose proof (proj1 (Forall_forall _ _) (wf_ids _ Hw) _ Htm). simpl in *. lia.
    + intros [|[Ho Hl]]; [congruence|]. by apply Hover.
Qed.

(** ** Concrete inputs *)

Definition sample_config : config :=
  mkConfig C.no_config
    (TR.mkConfig true false false false false false (double_of_Z 1) 4096 0 0 true) true
    false false false (λ _ _, true) (λ _, false) false false true true true true false false false false false
    (double_of_Z 5) (double_of_Z 5) (double_of_Z 5) (double_of_Z 5) (double_of_Z 10) (double_of_Z 6) (double_of_Z 5)
    (double_of_Z 300) (double_of_Z 1) 1000.

Definition some_conn : C.Connection () :=
  (C.Connection_new (C.BuildConnIDHashKey C.some_id) (double_of_Z 0) C.some_id 0 None false false C.no_world).1.

Definition be32 (x : Z) : bytes := [x / 16777216; (x / 65536) mod 256; (x / 256) mod 256; x mod 256]%Z.
Definition tcp_packet_bytes (sp dp seq ack fl : Z) (data : bytes) : bytes :=
  be32 (sp * 65536 + dp)%Z ++ be32 seq ++ be32 ack ++ [80; fl; 255; 255; 0; 0; 0; 0]%Z ++ data.

(** A packet of the originator and of the responder, without options. *)
Definition from_orig (t seq ack fl : Z) (data : bytes) : label :=
  PacketL (double_of_Z t) true (IP.Hdr4 TO.ip_sample) (tcp_packet_bytes 40000 80 seq ack fl data) (20 + Z.of_nat (length data))
    (20 + Z.of_nat (length data)).
Definition from_resp (t seq ack fl : Z) (data : bytes) : label :=
  PacketL (double_of_Z t) false (IP.Hdr4 TO.ip_sample) (tcp_packet_bytes 80 40000 seq ack fl data) (20 + Z.of_nat (length data))
    (20 + Z.of_nat (length data)).

(** SYN, SYN-ACK, ACK; data; FIN from both sides. *)
Definition three_packets : list label := [from_orig 1 1000 0 2 []; from_resp 2 5000 1001 18 []; from_orig 3 1001 5001 16 []].
Definition whole_connection : list label :=
  three_packets ++ [from_orig 4 1001 5001 24 [71; 69; 84]%Z; from_orig 5 1004 5001 17 []; from_resp 6 5001 1005 17 []].

Definition started (cfg : config) : option State :=
  '(a, w, st) ← TCP_Analyzer_new cfg [10; 0; 0; 1]%Z [10; 0; 0; 2]%Z false C.no_world E.TCPStateStats_new;
  Some (mkState a some_conn w st).

Definition after (ls : list label) : option State := s ← started sample_config; run (run_labels sample_config ls) s.


Lemma after_inv ls s :
  after ls = Some s → ∃ a w st, TCP_Analyzer_new sample_config [10; 0; 0; 1]%Z [10; 0; 0; 2]%Z false C.no_world E.TCPStateStats_new =
    Some (a, w, st) ∧ run (run_labels sample_config ls) (mkState a some_conn w st) = Some s.
Proof. intros (s0 & ([[a w] st] & Hn & [= <-])%bind_Some & Hr)%bind_Some. by exists a, w, st. Qed.
Lemma reaches_after ls s :
  Forall dispatched ls → after ls = Some s → reaches sample_config s.
Proof. intros Hd (a & w & st & Hn & Hr)%after_inv. do 10 eexists. split; [exact Hn|]. split; [exact Hd|exact Hr]. Qed.

(** In the middle of the connection. *)
Lemma endpoint_states_advance_witness :
  ∃ s s', after three_packets = Some s ∧ run (run_labels sample_config (drop 3 whole_connection)) s = Some s' ∧
    est First s = E.TCP_ENDPOINT_ESTABLISHED ∧ est First s' = E.TCP_ENDPOINT_CLOSED ∧ can_become (est First s) (est First s') = true.
Proof.
  assert ((s ← after three_packets; s' ← run (run_labels sample_config (drop 3 whole_connection)) s; Some (est First s, est First s')) =
    Some (E.TCP_ENDPOINT_ESTABLISHED, E.TCP_ENDPOINT_CLOSED)) as (s & Hs & (s' & Hs' & [= H1 H2])%bind_Some)%bind_Some by (vm_compute; reflexivity).
  exists s, s'. split_and!; [done..|]. exact (endpoint_states_advance sample_config (drop 3 whole_connection) s s' First Hs').
Defined.

Lemma analyzer_well_formed_witness : ∃ s, after whole_connection = Some s ∧ wf s.
Proof.
  assert ((λ s, is_active (tcp s)) <$> after whole_connection = Some false) as (s & Hs & _)%fmap_Some by (vm_compute; reflexivity).
  exists s. split; [done|]. destruct (after_inv _ _ Hs) as (a & w & st & Hn & Hr).
  eapply analyzer_well_formed; [exact Hn|exact Hr].
Defined.

(** The connection is closed on both sides, and its timer is pending. *)
Lemma connections_end_witness :
  ∃ s, after whole_connection = Some s ∧ BothClosed (tcp s) = true ∧
    (removed s ∨ ∃ tm, tm ∈ timers (tcp s) ∧ ∀ t, ∃ s', run (fire_id sample_config (t_id tm) t false) s = Some s' ∧ removed s').
Proof.
  assert ((λ s, BothClosed (tcp s)) <$> after whole_connection = Some true) as (s & Hs & Hb)%fmap_Some by (vm_compute; reflexivity).
  symmetry in Hb.
  exists s. split; [done|]. split; [done|].
  destruct (connections_end sample_config s) as [|(tm & Htm & Ht)]; [eapply reaches_after; [|exact Hs]; by repeat constructor|by right|by left|].
  right. exists tm. split; [done|]. intros t. destruct (Ht t) as (s' & Hs' & _ & Hr). exists s'. split; [done|]. apply Hr. by left.
Defined.

End TL.
