(* ===== verification/TcpMachine.v ===== *)
(** TcpMachine: the state machine of TCP.cc as a table.

    [next_states] gives the states of the two endpoints after a packet from its
    flags, its direction and its length; it is the abstract machine that the
    functions UpdateInactiveState, ..., UpdateResetState implement between all the
    other things they do.  The claim is that a packet moves the endpoints exactly as
    the machine says, when the header and the checksum are good, and leaves them
    alone when they are not. *)
From S2P Require Import Prelude Double Flow IP NetUtil Endpoint TcpReassem Conn TcpOptions TcpState TcpFacts TcpLife.
From stdpp Require Import strings.

Module SM.
Import T TF.

(** ** The abstract machine *)

(** The sender [e] and the receiver [p] of a packet; [pp] is the state that the
    receiver had before. *)
Definition next_INACTIVE (by_orig : bool) (f len : Z) (p : E.EndpointState) : E.EndpointState * E.EndpointState :=
  let '(e, p) :=
    if TO.SYN f then
      if by_orig then (if TO.ACK f then E.TCP_ENDPOINT_SYN_ACK_SENT else E.TCP_ENDPOINT_SYN_SENT, p)
      else (E.TCP_ENDPOINT_ESTABLISHED,
            if bool_decide (p = E.TCP_ENDPOINT_SYN_SENT) || negb (TO.ACK f) && bool_decide (p = E.TCP_ENDPOINT_SYN_ACK_SENT)
            then E.TCP_ENDPOINT_ESTABLISHED else p)
    else (E.TCP_ENDPOINT_INACTIVE, p) in
  let e := if TO.FIN f then E.TCP_ENDPOINT_CLOSED else e in
  let e := if TO.RST f then E.TCP_ENDPOINT_RESET else e in
  (if bool_decide (e = E.TCP_ENDPOINT_INACTIVE)
   then if negb by_orig && (len =? 0)%Z && bool_decide (p = E.TCP_ENDPOINT_SYN_SENT) then e else E.TCP_ENDPOINT_PARTIAL
   else e, p).

Definition next_ESTABLISHED (f : Z) (e p pp : E.EndpointState) : E.EndpointState * E.EndpointState :=
  if TO.RST f then (E.TCP_ENDPOINT_RESET, p)
  else if TO.FIN f then
    (E.TCP_ENDPOINT_CLOSED,
     if bool_decide (p = E.TCP_ENDPOINT_RESET) && bool_decide (pp = E.TCP_ENDPOINT_CLOSED) then E.TCP_ENDPOINT_CLOSED else p)
  else if TO.SYN f && bool_decide (e = E.TCP_ENDPOINT_PARTIAL) && bool_decide (p = E.TCP_ENDPOINT_INACTIVE) && negb (TO.ACK f)
  then (E.TCP_ENDPOINT_SYN_SENT, p)
  else (e, p).

Definition next_states (by_orig : bool) (f len : Z) (e p pp : E.EndpointState) : E.EndpointState * E.EndpointState :=
  match e with
  | E.TCP_ENDPOINT_INACTIVE => next_INACTIVE by_orig f len p
  | E.TCP_ENDPOINT_SYN_SENT | E.TCP_ENDPOINT_SYN_ACK_SENT =>
    (if TO.RST f then E.TCP_ENDPOINT_RESET else if TO.FIN f then E.TCP_ENDPOINT_CLOSED else e, p)
  | E.TCP_ENDPOINT_ESTABLISHED | E.TCP_ENDPOINT_PARTIAL => next_ESTABLISHED f e p pp
  | E.TCP_ENDPOINT_CLOSED =>
    (if TO.RST f && negb (bool_decide (p = E.TCP_ENDPOINT_CLOSED)) then E.TCP_ENDPOINT_RESET else e, p)
  | E.TCP_ENDPOINT_RESET => (e, p)
  end.

(** ** The view of the machine *)

Record View := mkView { v_e : E.EndpointState; v_p : E.EndpointState; v_pp : E.EndpointState; v_orig : Side }.

Definition view (sd : Side) (s : State) : View :=
  mkView (est sd s) (est (other sd) s) (E.prev_state (epf (other sd) s)) (orig (tcp s)).

Lemma view_quiet sd s s' : quiet s s' → keeps_same (view sd) s s'.
Proof.
  intros [[He Ho _ _ _ _] _ _ _]. unfold keeps_same, view, est, epf.
  destruct (He sd) as (-> & _ & _ & _), (He (other sd)) as (-> & -> & _ & _). by rw Ho.
Qed.

Lemma est_changed_prev sd st s : E.prev_state (epf (other sd) (changed sd st s)) = E.prev_state (epf (other sd) s).
Proof. by destruct sd. Qed.

Section machine.
Context (cfg : config) (sd : Side).

(** A computation in the states that look like [v], with [Q] of how they look after it. *)
Definition maps {X} (v : View) (m : M State X) (Q : X → View → Prop) : Prop :=
  triple (λ s, view sd s = v) m (λ x s, Q x (view sd s)) (λ _, False).

Definition silent {X} (m : M State X) : Prop := ∀ v, maps v m (λ _ v', v' = v).

Lemma maps_bind {X Y} v (m : M State X) (f : X → M State Y) Q Q' :
  maps v m Q → (∀ x v', Q x v' → maps v' (f x) Q') → maps v (m ≫= f) Q'.
Proof. intros Hm Hf. eapply triple_bind; [exact Hm|]. intros x s Hs. exact (Hf x _ Hs s eq_refl). Qed.
Lemma maps_silent {X Y} v (m : M State X) (f : X → M State Y) Q' : silent m → (∀ x, maps v (f x) Q') → maps v (m ≫= f) Q'.
Proof. intros Hm Hf. eapply maps_bind; [apply Hm|]. by intros x v' ->. Qed.
Lemma maps_weaken {X} v (m : M State X) (Q Q' : X → View → Prop) : maps v m Q → (∀ x v', Q x v' → Q' x v') → maps v m Q'.
Proof. intros Hm HQ. eapply triple_weaken; [exact Hm|done| |done]. auto. Qed.
Lemma maps_end {X} v (m : M State X) (Q : X → View → Prop) : silent m → (∀ x, Q x v) → maps v m Q.
Proof. intros Hm HQ. eapply maps_weaken; [apply Hm|]. by intros x v' ->. Qed.
Lemma maps_ret {X} v (x : X) (Q : X → View → Prop) : Q x v → maps v (mret x) Q.
Proof. by intros HQ s <-. Qed.
Lemma maps_bind_ret {X Y} v (x : X) (f : X → M State Y) Q : maps v (f x) Q → maps v (mret x ≫= f) Q.
Proof. done. Qed.
Lemma maps_assoc {X Y Z} v (m : M State X) (f : X → M State Y) (g : Y → M State Z) Q :
  maps v (m ≫= λ x, f x ≫= g) Q → maps v ((m ≫= f) ≫= g) Q.
Proof. intros Hm s Hs. specialize (Hm s Hs). unfold mbind, M_bind in *. by destruct (m s) as [[s1 [x|]]|]. Qed.

(** What is read of the endpoints. *)
Lemma maps_est {Y} v (f : E.EndpointState → M State Y) Q : maps v (f (v_e v)) Q → maps v (gets (est sd) ≫= f) Q.
Proof. intros Hf s Hs. pose proof (Hf s Hs) as H. by rw -Hs in H. Qed.
Lemma maps_peer {Y} v (f : E.EndpointState → M State Y) Q : maps v (f (v_p v)) Q → maps v (gets (est (other sd)) ≫= f) Q.
Proof. intros Hf s Hs. pose proof (Hf s Hs) as H. by rw -Hs in H. Qed.
Lemma maps_epf {Y} v (f : E.TCP_Endpoint → M State Y) Q :
  (∀ e, E.state e = v_e v → maps v (f e) Q) → maps v (gets (epf sd) ≫= f) Q.
Proof. intros Hf s Hs. apply Hf; [by rw -Hs|done]. Qed.
Lemma maps_peer_epf {Y} v (f : E.TCP_Endpoint → M State Y) Q :
  (∀ p, E.state p = v_p v → E.prev_state p = v_pp v → maps v (f p) Q) → maps v (gets (epf (other sd)) ≫= f) Q.
Proof. intros Hf s Hs. apply Hf; [by rw -Hs|by rw -Hs|done]. Qed.

(** What the view does not see. *)
Lemma silent_modify f : (∀ s, quiet s (f s)) → silent (modify f).
Proof. intros Hf v s <-. by apply view_quiet. Qed.
Lemma silent_bind {X Y} (m : M State X) (f : X → M State Y) : silent m → (∀ x, silent (f x)) → silent (m ≫= f).
Proof. intros Hm Hf v. apply maps_silent; [done|]. intros x. apply Hf. Qed.
Lemma silent_ret {X} (x : X) : silent (mret x).
Proof. intros v. by apply maps_ret. Qed.
Lemma silent_when b m : silent m → silent (when b m).
Proof. destruct b; [done|]. intros _. apply silent_ret. Qed.
Lemma silent_gets {X} (f : State → X) : silent (gets f).
Proof. by intros v s Hs. Qed.
Lemma silent_Weird name : silent (Weird name).
Proof. apply silent_modify. intros s. apply quiet_weird. Qed.
Lemma silent_Event name : silent (Event name).
Proof. apply silent_modify. intros s. apply quiet_emit_event. Qed.
Lemma silent_upd sd' f : quiet_ep f → silent (upd sd' f).
Proof. intros Hf. apply silent_modify. intros s. by apply quiet_on_ep. Qed.
Lemma silent_status ccfg : silent (modify (on_conn (C.EnableStatusUpdateTimer ccfg))).
Proof. apply silent_modify. intros s. apply quiet_EnableStatusUpdateTimer. Qed.
Lemma silent_AddTimer f t e : silent (AddTimer f t e).
Proof. by intros v s Hs. Qed.
Lemma silent_ConnectionReset : silent ConnectionReset.
Proof.
  unfold ConnectionReset. apply silent_bind; [apply silent_Event|]. intros _. apply silent_bind; [|intros _; by intros v s Hs].
  apply silent_modify. by split.
Qed.

(** A change of the state. *)
Lemma maps_SetState st v : maps v (SetState cfg sd st) (λ _ v', v' = mkView st (v_p v) (v_pp v) (v_orig v)).
Proof.
  intros s <-. unfold SetState, modify.
  assert (view sd (changed sd st s) = mkView st (est (other sd) s) (E.prev_state (epf (other sd) s)) (orig (tcp s))) as Hc.
  { unfold view. rw !est_changed est_changed_prev decide_True // decide_False; [|apply other_ne]. by destruct sd. }
  unfold changed in Hc. destruct (E.SetState st _ _ _) as [[e x] []]; cbn [fst snd] in Hc; simpl; [|done].
  rw -Hc. apply view_quiet, quiet_SetInactivityTimeout.
Qed.
Lemma maps_SetState_peer st v :
  maps v (SetState cfg (other sd) st) (λ _ v', v_e v' = v_e v ∧ v_p v' = st ∧ v_orig v' = v_orig v).
Proof.
  intros s <-. unfold SetState, modify.
  assert (let v' := view sd (changed (other sd) st s) in v_e v' = est sd s ∧ v_p v' = st ∧ v_orig v' = orig (tcp s)) as Hc.
  { unfold view. simpl. rw !est_changed decide_False; [|by apply not_eq_sym, other_ne]. rw decide_True //. by destruct sd. }
  unfold changed in Hc. destruct (E.SetState st _ _ _) as [[e x] []]; cbn [fst snd] in Hc; [|exact Hc].
  cbn beta iota. rw (view_quiet sd _ _ (quiet_SetInactivityTimeout _ _)). exact Hc.
Qed.
Lemma maps_FlipRoles v : maps v FlipRoles (λ _ v', v' = mkView (v_e v) (v_p v) (v_pp v) (other (v_orig v))).
Proof.
  intros s <-. unfold FlipRoles, modify. destruct (C.FlipRoles _ _) as [c st]. simpl. by destruct sd.
Qed.
End machine.

(** Follow a computation; what is silent is passed in one step. *)
Ltac quietly :=
  repeat lazymatch goal with
  | |- silent _ (_ ≫= _) => apply silent_bind; [|intros ?]
  | |- silent _ (when _ _) => apply silent_when
  | |- silent _ (if ?b then _ else _) => destruct b
  | |- silent _ (mret _) => apply silent_ret
  | |- silent _ (gets _) => apply silent_gets
  end;
  first [ apply silent_Weird | apply silent_Event | apply silent_status | apply silent_AddTimer | apply silent_ConnectionReset
        | apply silent_upd; intros ?; by split ].
Ltac follow :=
  cbv zeta; cbn [v_e v_p v_pp v_orig];
  repeat (lazymatch goal with
  | |- maps _ _ (mret _) _ => apply maps_ret
  | |- maps _ _ (mret _ ≫= _) _ => apply maps_bind_ret
  | |- maps _ _ ((_ ≫= _) ≫= _) _ => apply maps_assoc
  | |- maps ?sd _ (gets (est ?sd) ≫= _) _ => apply maps_est
  | |- maps ?sd _ (gets (est (other ?sd)) ≫= _) _ => apply maps_peer
  | |- maps ?sd _ (gets (epf ?sd) ≫= _) _ => let H := fresh in apply maps_epf; intros ? H; cbn [v_e v_p v_pp v_orig] in H; rw ?H; clear H
  | |- maps ?sd _ (gets (epf (other ?sd)) ≫= _) _ => let H := fresh in let H' := fresh in apply maps_peer_epf; intros ? H H'; cbn [v_e v_p v_pp v_orig] in H, H'; rw ?H ?H'; clear H H'
  | |- maps ?sd _ (SetState _ ?sd _ ≫= _) _ => eapply maps_bind; [apply maps_SetState|intros ? ? ->]
  | |- maps ?sd _ (SetState _ (other ?sd) _ ≫= _) _ =>
    eapply maps_bind; [apply maps_SetState_peer|intros ? [] (? & ? & ?); simpl in *; subst]
  | |- maps _ _ (_ ≫= _) _ =>
    first [ apply maps_silent; [solve [quietly]|intros ?]
          | lazymatch goal with
            | |- maps _ _ (when ?b _ ≫= _) _ => destruct b eqn:?; unfold when at 1
            | |- maps _ _ ((if ?b then _ else _) ≫= _) _ => destruct b eqn:?
            end ]
  | |- maps ?sd _ (SetState _ ?sd _) _ => eapply maps_weaken; [apply maps_SetState|intros ? ? ->]
  | |- maps ?sd _ (SetState _ (other ?sd) _) _ =>
    eapply maps_weaken; [apply maps_SetState_peer|intros ? [] (? & ? & ?); simpl in *; subst]
  | |- maps _ _ _ _ =>
    first [ apply maps_end; [solve [quietly]|intros ?]
          | lazymatch goal with
            | |- maps _ _ (when ?b _) _ => destruct b eqn:?; unfold when at 1
            | |- maps _ _ (if ?b then _ else _) _ => destruct b eqn:?
            end ]
  end; cbv zeta; cbn [v_e v_p v_pp v_orig]).

(** Rewrite with the conditions that were met. *)
Ltac rewrite_hyps := repeat match goal with H : ?x = ?b |- context [?x] => lazymatch b with true => idtac | false => idtac end; rw H end.

Section states.
Context (cfg : config) (sd : Side).

Definition lands (x : E.EndpointState * E.EndpointState) (v : View) : Prop := (v_e v, v_p v) = x.

Lemma silent_init_seqs b l : silent sd (init_seqs sd b l).
Proof. apply silent_upd. intros ?. by split. Qed.
Lemma silent_SYN_again b l o f : silent sd (SYN_again sd b l o f).
Proof. unfold SYN_again. quietly. Qed.

Lemma maps_SYN_SENT v b l len o f :
  maps sd v (UpdateSYN_SentState cfg sd b l len o f)
    (λ _, lands (if TO.RST f then E.TCP_ENDPOINT_RESET else if TO.FIN f then E.TCP_ENDPOINT_CLOSED else v_e v, v_p v)).
Proof.
  unfold UpdateSYN_SentState. eapply maps_silent; [apply silent_when, silent_SYN_again|]. by intros _; follow; destruct v.
Qed.

Lemma maps_CLOSED v t d f :
  maps sd v (UpdateClosedState cfg t sd d f)
    (λ _, lands (if TO.RST f && negb (bool_decide (v_p v = E.TCP_ENDPOINT_CLOSED)) then E.TCP_ENDPOINT_RESET else v_e v, v_p v)).
Proof. unfold UpdateClosedState. by follow; destruct v. Qed.

Lemma maps_RESET v len f : maps sd v (UpdateResetState len f) (λ _, lands (v_e v, v_p v)).
Proof. unfold UpdateResetState. by follow; destruct v. Qed.

(** The endpoint after a SYN in the middle of the connection. *)
Lemma maps_SYN_inside v b l f :
  maps sd v (SYN_inside cfg sd b l f)
    (λ _ v', v' = mkView (if bool_decide (v_e v = E.TCP_ENDPOINT_PARTIAL) && bool_decide (v_p v = E.TCP_ENDPOINT_INACTIVE) && negb (TO.ACK f)
                          then E.TCP_ENDPOINT_SYN_SENT else v_e v) (v_p v) (v_pp v) (v_orig v)).
Proof.
  unfold SYN_inside, init_seqs. by follow; destruct v; simpl in *; rewrite_hyps.
Qed.

Lemma maps_ESTABLISHED v b l f :
  maps sd v (UpdateEstablishedState cfg sd b l f) (λ _, lands (next_ESTABLISHED f (v_e v) (v_p v) (v_pp v))).
Proof.
  unfold UpdateEstablishedState, established_FIN, established_RST, next_ESTABLISHED.
  eapply (maps_bind sd v _ _ (λ _ v', v' = mkView (if TO.SYN f && bool_decide (v_e v = E.TCP_ENDPOINT_PARTIAL) && bool_decide (v_p v = E.TCP_ENDPOINT_INACTIVE) && negb (TO.ACK f)
                          then E.TCP_ENDPOINT_SYN_SENT else v_e v) (v_p v) (v_pp v) (v_orig v))).
  { destruct (TO.SYN f); [apply maps_SYN_inside|]. apply maps_ret. by destruct v. }
  intros _ v' ->. destruct (TO.RST f), (TO.FIN f); simpl; follow; unfold lands; simpl; rewrite_hyps; try done.
  by destruct (_ && _).
Qed.

(** A SYN from the originator starts the handshake; one from the responder ends it. *)
Lemma maps_SYN_orig v t f :
  maps sd v (inactive_SYN_orig cfg t sd f)
    (λ _ v', v' = mkView (if TO.ACK f then E.TCP_ENDPOINT_SYN_ACK_SENT else E.TCP_ENDPOINT_SYN_SENT) (v_p v) (v_pp v) (v_orig v)).
Proof. unfold inactive_SYN_orig, handshake_timer. by follow. Qed.

(** The answer finds its own number, which the packet has just set. *)
Lemma maps_SYN_answer v b a f :
  triple (λ s, view sd s = v ∧ E.start_seq (epf sd s) = b) (check_SYN_answer cfg sd b a f)
    (λ _ s, v_e (view sd s) = v_e v ∧
       v_p (view sd s) = if negb (TO.ACK f) && bool_decide (v_p v = E.TCP_ENDPOINT_SYN_ACK_SENT) then E.TCP_ENDPOINT_ESTABLISHED else v_p v)
    (λ _, False).
Proof.
  unfold check_SYN_answer. apply triple_bind_gets. intros e. apply triple_bind_gets. intros p s [[[Hv Hb] He] Hp].
  assert (E.start_seq e = b) as Heb by (by rw He). assert (E.state p = v_p v) as Hps by (by rw Hp -Hv).
  clear Hb He Hp. refine ((_ : maps sd v _
    (λ _ v', v_e v' = v_e v ∧ v_p v' = if negb (TO.ACK f) && bool_decide (v_p v = E.TCP_ENDPOINT_SYN_ACK_SENT) then E.TCP_ENDPOINT_ESTABLISHED else v_p v)) s Hv).
  rw Hps Heb Z.eqb_refl andb_true_r. destruct (TO.ACK f); simpl.
  - by apply maps_end; [quietly|].
  - destruct (bool_decide _); [|by apply maps_end; [quietly|]].
    eapply maps_bind; [apply maps_FlipRoles|]. intros ? ? ->. eapply maps_weaken; [apply maps_SetState_peer|]. by intros ? v' (? & ? & ?).
Qed.

Lemma maps_SYN_resp v b a f :
  triple (λ s, view sd s = v ∧ E.start_seq (epf sd s) = b) (inactive_SYN_resp cfg sd b a f)
    (λ _ s, lands (E.TCP_ENDPOINT_ESTABLISHED,
      if bool_decide (v_p v = E.TCP_ENDPOINT_SYN_SENT) || negb (TO.ACK f) && bool_decide (v_p v = E.TCP_ENDPOINT_SYN_ACK_SENT)
      then E.TCP_ENDPOINT_ESTABLISHED else v_p v) (view sd s)) (λ _, False).
Proof.
  unfold inactive_SYN_resp. eapply triple_bind; [apply maps_SYN_answer|]. intros _ s [He Hp].
  refine ((_ : maps sd (view sd s) _ (λ _, lands _)) s eq_refl). revert Hp. generalize (view sd s). clear s He. intros v' Hp.
  follow; unfold lands; simpl; rewrite_hyps; rw Hp in Heqb0; rw ?Hp; by destruct (TO.ACK f), (v_p v).
Qed.

Lemma maps_orig {Y} v (f : E.EndpointState → M State Y) Q :
  maps sd v (f (if decide (v_orig v = sd) then v_e v else v_p v)) Q → maps sd v (gets (λ s, est (orig (tcp s)) s) ≫= f) Q.
Proof.
  intros Hf s Hs. assert (est (orig (tcp s)) s = if decide (v_orig v = sd) then v_e v else v_p v) as Heq.
  { rw -Hs /=. destruct (side_cases sd (orig (tcp s))) as [Ho|Ho]; rw Ho; [by rw decide_True|rw decide_False //; apply other_ne]. }
  pose proof (Hf s Hs) as H. cbv [gets mbind M_bind]. by rw Heq.
Qed.

(** The rest of what an endpoint that was not seen does with a packet. *)
Lemma maps_inactive_other v len o :
  v_e v = E.TCP_ENDPOINT_INACTIVE → (o = false → v_orig v = other sd) →
  maps sd v (inactive_other cfg sd len o)
    (λ _, lands (if negb o && (len =? 0)%Z && bool_decide (v_p v = E.TCP_ENDPOINT_SYN_SENT) then v_e v else E.TCP_ENDPOINT_PARTIAL, v_p v)).
Proof.
  intros He Ho. unfold inactive_other. apply maps_orig. case_decide as Hd.
  - assert (o = true) as -> by (destruct o; [done|]; rw Ho // in Hd; by destruct (other_ne sd)). by follow.
  - by follow; destruct v.
Qed.

Definition inactive_rest (len : Z) (by_orig : bool) (f : Z) : M State (bool * bool) :=
  r ← (if TO.FIN f then inactive_FIN cfg sd f else mret (false, false));
  r ← (if TO.RST f then inactive_RST cfg sd by_orig else mret r);
  st ← gets (est sd);
  when (bool_decide (st = E.TCP_ENDPOINT_INACTIVE)) (inactive_other cfg sd len by_orig);;
  mret r.

Definition rest_states (len : Z) (by_orig : bool) (f : Z) (e p : E.EndpointState) : E.EndpointState * E.EndpointState :=
  let e := if TO.FIN f then E.TCP_ENDPOINT_CLOSED else e in
  let e := if TO.RST f then E.TCP_ENDPOINT_RESET else e in
  (if bool_decide (e = E.TCP_ENDPOINT_INACTIVE)
   then if negb by_orig && (len =? 0)%Z && bool_decide (p = E.TCP_ENDPOINT_SYN_SENT) then e else E.TCP_ENDPOINT_PARTIAL
   else e, p).

Lemma maps_inactive_FIN v f :
  maps sd v (inactive_FIN cfg sd f) (λ _ v', v' = mkView E.TCP_ENDPOINT_CLOSED (v_p v) (v_pp v) (v_orig v)).
Proof. unfold inactive_FIN. by follow. Qed.
Lemma maps_inactive_RST v o :
  maps sd v (inactive_RST cfg sd o) (λ _ v', v' = mkView E.TCP_ENDPOINT_RESET (v_p v) (v_pp v) (v_orig v)).
Proof. unfold inactive_RST. by follow. Qed.

Lemma maps_inactive_rest v len o f :
  (v_e v = E.TCP_ENDPOINT_INACTIVE → o = false → v_orig v = other sd) →
  maps sd v (inactive_rest len o f) (λ _, lands (rest_states len o f (v_e v) (v_p v))).
Proof.
  intros Ho. unfold inactive_rest, rest_states.
  eapply (maps_bind sd v _ _ (λ _ v', v' = mkView (if TO.FIN f then E.TCP_ENDPOINT_CLOSED else v_e v) (v_p v) (v_pp v) (v_orig v))).
  { destruct (TO.FIN f); [apply maps_inactive_FIN|]. apply maps_ret. by destruct v. }
  intros r v1 Hv1.
  eapply (maps_bind sd v1 _ _ (λ _ v', v' = mkView (if TO.RST f then E.TCP_ENDPOINT_RESET else v_e v1) (v_p v) (v_pp v) (v_orig v))).
  { subst v1. destruct (TO.RST f); [eapply maps_weaken; [apply maps_inactive_RST|by intros ? ? ->]|]. by apply maps_ret. }
  intros r' v2 Hv2. apply maps_est. case_bool_decide as He.
  - assert (v_e v = E.TCP_ENDPOINT_INACTIVE) as Hve by (by subst v2 v1; simpl in *; destruct (TO.RST f), (TO.FIN f)).
    unfold when. eapply maps_bind; [apply maps_inactive_other; [done|by subst v2 v1; auto]|].
    intros ? v3 Hv3. apply maps_ret. unfold lands in *. rw Hv3. clear Hv3. subst v2 v1. simpl in *. rw !He. by rw (bool_decide_eq_true_2 (E.TCP_ENDPOINT_INACTIVE = _)).
  - unfold when. apply maps_bind_ret, maps_ret. subst v2 v1. unfold lands. simpl in *. by rw bool_decide_eq_false_2.
Qed.

Lemma maps_INACTIVE v t b a len o f :
  v_e v = E.TCP_ENDPOINT_INACTIVE → (o = false → v_orig v = other sd) →
  triple (λ s, view sd s = v ∧ (TO.SYN f = true → E.start_seq (epf sd s) = b)) (UpdateInactiveState cfg t sd b a len o f)
    (λ _ s, lands (next_INACTIVE o f len (v_p v)) (view sd s)) (λ _, False).
Proof.
  intros He Ho. change (UpdateInactiveState cfg t sd b a len o f) with
    (when (TO.SYN f) (if o then inactive_SYN_orig cfg t sd f else inactive_SYN_resp cfg sd b a f);; inactive_rest len o f).
  change (next_INACTIVE o f len (v_p v)) with
    (let '(e, p) := if TO.SYN f then
      if o then (if TO.ACK f then E.TCP_ENDPOINT_SYN_ACK_SENT else E.TCP_ENDPOINT_SYN_SENT, v_p v)
      else (E.TCP_ENDPOINT_ESTABLISHED,
            if bool_decide (v_p v = E.TCP_ENDPOINT_SYN_SENT) || negb (TO.ACK f) && bool_decide (v_p v = E.TCP_ENDPOINT_SYN_ACK_SENT)
            then E.TCP_ENDPOINT_ESTABLISHED else v_p v)
    else (E.TCP_ENDPOINT_INACTIVE, v_p v) in rest_states len o f e p).
  eapply (triple_bind _ (λ _ s, let v' := view sd s in
    (v_e v' = E.TCP_ENDPOINT_INACTIVE → o = false → v_orig v' = other sd) ∧
    (v_e v', v_p v') = if TO.SYN f then
      if o then (if TO.ACK f then E.TCP_ENDPOINT_SYN_ACK_SENT else E.TCP_ENDPOINT_SYN_SENT, v_p v)
      else (E.TCP_ENDPOINT_ESTABLISHED,
            if bool_decide (v_p v = E.TCP_ENDPOINT_SYN_SENT) || negb (TO.ACK f) && bool_decide (v_p v = E.TCP_ENDPOINT_SYN_ACK_SENT)
            then E.TCP_ENDPOINT_ESTABLISHED else v_p v)
    else (E.TCP_ENDPOINT_INACTIVE, v_p v))).
  - destruct (TO.SYN f); simpl.
    + destruct o.
      * eapply triple_weaken; [apply (maps_SYN_orig v)|by intros s []| |done]. intros ? s Hs. split; [done|]. by injection Hs as -> -> _ _.
      * eapply triple_weaken; [apply (maps_SYN_resp v b)|intros s [? Hb]; split; [done|by apply Hb]| |done].
        intros ? s Hs. split; [|exact Hs]. unfold lands in Hs. injection Hs as Hs _. simpl in *. congruence.
    + intros s [<- _]. simpl in *. by rw He.
  - intros _ s [Ho' Heq]. rw -Heq. by apply maps_inactive_rest.
Qed.

(** The whole machine. *)
Lemma maps_machine v t b a l len d o f :
  (o = false → v_orig v = other sd) →
  triple (λ s, view sd s = v ∧ (v_e v = E.TCP_ENDPOINT_INACTIVE → TO.SYN f = true → E.start_seq (epf sd s) = b))
    (UpdateStateMachine cfg t sd b a l len d o f)
    (λ _ s, lands (next_states o f len (v_e v) (v_p v) (v_pp v)) (view sd s)) (λ _, False).
Proof.
  intros Ho. unfold UpdateStateMachine. apply triple_bind_gets. intros st s [[Hv Hb] Hst].
  assert (st = v_e v) as -> by (by rw Hst -Hv). clear Hst. destruct (v_e v) eqn:He; unfold next_states.
  - apply (maps_INACTIVE v); [done|done|]. split; [done|]. by apply Hb.
  - pose proof (maps_SYN_SENT v b l len o f s Hv) as H. by rw He in H.
  - pose proof (maps_SYN_SENT v b l len o f s Hv) as H. by rw He in H.
  - pose proof (maps_ESTABLISHED v b l f s Hv) as H. by rw He in H.
  - pose proof (maps_ESTABLISHED v b l f s Hv) as H. by rw He in H.
  - pose proof (maps_CLOSED v t d f s Hv) as H. by rw He in H.
  - pose proof (maps_RESET v len f s Hv) as H. by rw He in H.
Qed.

End states.
(** ** A packet *)

(** What is done before and after the machine. *)
Lemma view_with sd f : (∀ a, orig (f a) = orig a ∧ ∀ sd', ep (endpoint sd' (f a)) = ep (endpoint sd' a)) → moves (keeps_same (view sd)) (with_tcp f).
Proof.
  intros Hf. apply moves_modify; [apply _|]. intros s. destruct (Hf (tcp s)) as [Ho He].
  unfold keeps_same, view, est, epf. simpl. by rw Ho !He.
Qed.
Lemma view_inactive sd : moves (keeps_same (view sd)) (with_tcp (set_is_active false)).
Proof. by apply view_with. Qed.
Lemma view_AddTimer sd f t e : moves (keeps_same (view sd)) (AddTimer f t e).
Proof. by apply moves_modify; [apply _|]. Qed.
Lemma view_ConnectionClosed cfg sd sd' g : moves (keeps_same (view sd)) (ConnectionClosed cfg sd' g).
Proof.
  apply w_ConnectionClosed; [apply _|apply view_quiet|apply view_inactive|apply view_AddTimer| |].
  - unfold close_timer, CancelTimers. moves; try apply view_AddTimer. by apply view_with.
  - intros sd2. apply moves_modify; [apply _|]. intros s. by destruct sd, sd2.
Qed.

Section packet.
Context (cfg : config) (sd : Side).

Lemma silent_of {X} (m : M State X) : moves (keeps_same (view sd)) m → goes m → silent sd m.
Proof.
  intros Hm Hg v s <-. destruct (m s) as [[s' [x|]]|] eqn:Hr; [by apply (Hm _ _ _ Hr)|by destruct (Hg _ _ _ Hr)|done].
Qed.

Ltac by_walk l := apply (l cfg); [apply _|apply view_quiet|apply view_inactive|apply view_AddTimer|intros; apply view_ConnectionClosed].

Lemma goes_put_reassembler sd' r : goes (put_reassembler cfg sd' r).
Proof. unfold put_reassembler, EndpointEOF, emit, with_tcp, Weird. goes. Qed.
Lemma goes_note_control sd' mask code sq l f : goes (note_control sd' mask code sq l f).
Proof.
  unfold note_control, AddHistory, upd. goes. intros s s' r. unfold CheckHistory. destruct (E.CheckHistory _ _ _ _). by intros [= _ <-].
Qed.
Lemma silent_CheckFlagCombos f b len : silent sd (CheckFlagCombos f sd b len).
Proof.
  apply silent_of; [by by_walk w_CheckFlagCombos|]. unfold CheckFlagCombos, with_tcp. goes; apply goes_note_control.
Qed.
Lemma silent_UpdateWindow w b a f : silent sd (UpdateWindow sd w b a f).
Proof. apply silent_of; [by by_walk w_UpdateWindow|]. unfold UpdateWindow, window_recision, Weird, upd. goes. Qed.
Lemma goes_storm t sd' c sc : goes (storm cfg t sd' c sc).
Proof. unfold storm, upd. goes. Qed.
Lemma silent_ProcessFlags t ip tp hl len b a oa o f : silent sd (ProcessFlags cfg t ip tp hl len sd b a oa o f).
Proof.
  apply silent_of; [by by_walk w_ProcessFlags|].
  unfold ProcessFlags, ProcessSYN, ProcessFIN, ProcessRST, ProcessACK, negotiate_scale, fingerprint, first_ACK, ack_inactive, ack_active,
    AckReceived, Weird, Event, emit, upd, with_tcp. goes; first [apply goes_storm|apply goes_put_reassembler].
Qed.
Lemma silent_UpdateLastSeq l f : silent sd (UpdateLastSeq sd l f).
Proof. apply silent_of; [by by_walk w_UpdateLastSeq|]. unfold UpdateLastSeq, upd. goes. Qed.

Lemma triple_of_moves {X} (R : State → State → Prop) (P : State → Prop) (m : M State X) :
  moves R m → goes m → (∀ s s', P s → R s s' → P s') → triple P m (λ _, P) (λ _, False).
Proof.
  intros Hm Hg HP s Hs. destruct (m s) as [[s' [x|]]|] eqn:Hr; [by eapply HP, Hm|by destruct (Hg _ _ _ Hr)|done].
Qed.

Lemma start_UpdateLastSeq l f : moves (keeps_same (λ s, E.start_seq (epf sd s))) (UpdateLastSeq sd l f).
Proof.
  unfold UpdateLastSeq, upd. moves; apply moves_modify; try apply _; intros s; unfold keeps_same; rw epf_on_ep decide_True //;
    unfold E.UpdateLastSeq; simpl; by case_match.
Qed.

(** From the flags to the new state. *)
Lemma maps_track v t ip tp hl len b a o f :
  (o = false → v_orig v = other sd) →
  maps sd v (track cfg t ip tp hl len sd b a o f) (λ _, lands (next_states o f len (v_e v) (v_p v) (v_pp v))).
Proof.
  intros Ho. unfold track. apply maps_silent; [apply silent_gets|]. intros oa. apply maps_silent; [apply silent_ProcessFlags|].
  intros seq_len. cbv zeta. apply maps_est.
  eapply triple_bind with (Q := λ _ s, view sd s = v ∧ (v_e v = E.TCP_ENDPOINT_INACTIVE → TO.SYN f = true → E.start_seq (epf sd s) = b)).
  { intros s Hs. case_bool_decide; simpl.
    - split; [rw -Hs; apply view_quiet, quiet_on_ep; by split|]. intros _ HS. rw epf_on_ep decide_True //=. by rw HS.
    - split; [done|]. intros He. by destruct H. }
  intros _. eapply triple_bind.
  { apply (triple_of_moves (λ s s', keeps_same (view sd) s s' ∧ keeps_same (λ s, E.start_seq (epf sd s)) s s')).
    - apply moves_both; [by by_walk w_UpdateLastSeq|apply start_UpdateLastSeq].
    - unfold UpdateLastSeq, upd. goes.
    - unfold keeps_same. by intros s s' [Hv Hb] [-> ->]. }
  intros d. eapply triple_bind; [|intros ?; by apply maps_machine]. intros s [Hv Hb]. split.
  - rw -Hv. apply view_quiet, quiet_on_ep. by split.
  - rw epf_on_ep decide_True //.
Qed.

(** ** The claim *)

(** The flags and the length of the data, if the packet gets past the header and
    the checksum. *)
Definition tracked (tp : bytes) (len caplen : Z) (s : State) : option (Z * Z) :=
  if skip (tcp s) then None
  else
    off ← TO.th_off tp;
    let hl := (off * 4)%Z in
    if (hl <? TO.sizeof_tcphdr)%Z || ((uint32 len <? hl)%Z || (uint32 caplen <? TO.sizeof_tcphdr)%Z) then None
    else
      ok ← (if negb (ignore_checksums cfg) && (len - hl <=? caplen - hl)%Z then E.ValidChecksum tp off (len - hl) (epf sd s) else Some true);
      if (ok : bool) then f ← TO.th_flags tp; Some (f, len - hl)%Z else None.

(** The states that a packet leads to. *)
Definition target (by_orig : bool) (tp : bytes) (len caplen : Z) (s : State) : E.EndpointState * E.EndpointState :=
  match tracked tp len caplen s with
  | Some (f, n) => next_states by_orig f n (est sd s) (est (other sd) s) (E.prev_state (epf (other sd) s))
  | None => (est sd s, est (other sd) s)
  end.

Lemma keeps_lands x : ∀ s s', lands x (view sd s) → keeps_same (view sd) s s' → lands x (view sd s').
Proof. unfold keeps_same. by intros s s' Hs ->. Qed.

(** Sequences whose end can be reached by an early return. *)
Lemma then_silent {X Y} v (m : M State X) (f : X → M State Y) Q R :
  silent sd m → (∀ x, triple (λ s, view sd s = v) (f x) Q R) → triple (λ s, view sd s = v) (m ≫= f) Q R.
Proof.
  intros Hm Hf. eapply triple_bind; [|intros x; apply (Hf x)]. by eapply triple_weaken; [apply (Hm v)| | |].
Qed.
Lemma then_maps {X Y} v (m : M State X) (f : X → M State Y) (P : View → Prop) Q R :
  maps sd v m (λ _, P) → (∀ x, triple (λ s, P (view sd s)) (f x) Q R) → triple (λ s, view sd s = v) (m ≫= f) Q R.
Proof. intros Hm Hf. eapply triple_bind; [|intros x; apply (Hf x)]. by eapply triple_weaken; [apply Hm| | |]. Qed.
Lemma then_quiet {X} x (m : M State X) :
  moves (keeps_same (view sd)) m → triple (λ s, lands x (view sd s)) m (λ _ s, lands x (view sd s)) (λ s, lands x (view sd s)).
Proof. intros Hm s Hs. destruct (m s) as [[s' [y|]]|] eqn:Hr; [|..|done]; rw (Hm _ _ _ Hr); exact Hs. Qed.

(** What is done with a packet that is accepted. *)
Definition process (t : double) (ip : IP.IP_Hdr) (tp data : bytes) (hl len cl b a win : Z) (o : bool) (f : Z) : M State () :=
  CheckFlagCombos f sd b len;; UpdateWindow sd win b a f;;
  both ← gets (λ s, BothClosed (tcp s));
  when (negb both) (modify (λ s, set_conn (C.set_last_time t (conn s)) s));;
  '(do_close, gen_event) ← track cfg t ip tp hl len sd b a o f;
  deliver cfg tp data hl len cl sd b a o f do_close gen_event;;
  forward sd b len cl o;; CheckPIA_FirstPacket o.

Lemma maps_process v t ip tp data hl len cl b a win o f :
  (o = false → v_orig v = other sd) →
  let x := next_states o f len (v_e v) (v_p v) (v_pp v) in
  triple (λ s, view sd s = v) (process t ip tp data hl len cl b a win o f)
    (λ _ s, lands x (view sd s)) (λ s, lands x (view sd s)).
Proof.
  intros Ho x. unfold process. apply then_silent; [apply silent_CheckFlagCombos|]. intros _.
  apply then_silent; [apply silent_UpdateWindow|]. intros _. apply then_silent; [apply silent_gets|]. intros both.
  apply then_silent; [apply silent_when, silent_modify; by split|]. intros _.
  eapply then_maps; [by apply maps_track|]. intros [dc ge]. apply then_quiet. moves.
  - by by_walk w_deliver.
  - by by_walk w_forward.
  - by by_walk w_CheckPIA_FirstPacket.
Qed.

(** The end of the header. *)
Lemma ExtractTCP_Header_inv tp len cl s s' r :
  ExtractTCP_Header tp len cl s = Some (s', r) →
  ∃ off, TO.th_off tp = Some off ∧
    if (off * 4 <? TO.sizeof_tcphdr)%Z || ((uint32 len <? off * 4)%Z || (uint32 cl <? TO.sizeof_tcphdr)%Z)
    then quiet s s' ∧ r = None else s' = s ∧ r = Some (len - off * 4, cl - off * 4, off * 4)%Z.
Proof.
  unfold ExtractTCP_Header, lift, mbind at 1, M_bind at 1. destruct (TO.th_off tp) as [off|]; simpl; [|done].
  intros Hr. exists off. split; [done|]. revert Hr. destruct (off * 4 <? _)%Z; simpl; [intros [= <- <-]; split; [apply quiet_weird|done]|].
  destruct (_ || _); intros [= <- <-]; split; try done. apply quiet_weird.
Qed.

Lemma ValidateChecksum_inv tp off len cl s s' r :
  TO.th_off tp = Some off → ValidateChecksum cfg tp sd len cl s = Some (s', r) →
  r = (if negb (ignore_checksums cfg) && (len <=? cl)%Z then E.ValidChecksum tp off len (epf sd s) else Some true) ∧
  keeps_same (view sd) s s' ∧ (r = Some true → s' = s).
Proof.
  intros Hoff Hr. split; [|split].
  - revert Hr. unfold ValidateChecksum. destruct (_ && _); [|by intros [= _ <-]].
    unfold gets, lift, mbind, M_bind. rw Hoff /=. destruct (E.ValidChecksum _ _ _ _) as [[]|]; simpl; [by intros [= _ <-]| |done].
    unfold Weird, modify, CheckHistory. destruct (E.CheckHistory _ _ _ _). by intros [= _ <-].
  - revert Hr. by by_walk w_ValidateChecksum.
  - intros ->. revert Hr. unfold ValidateChecksum. destruct (_ && _); [|by intros [= <-]].
    unfold gets, lift, mbind, M_bind. rw Hoff /=. destruct (E.ValidChecksum _ _ _ _) as [[]|]; simpl; [by intros [= <-]| |done].
    unfold Weird, modify, CheckHistory. by destruct (E.CheckHistory _ _ _ _).
Qed.

(** More of the effects. *)
Definition put_out (l : list effect) (s : State) : State := on_tcp (λ a, set_out (out a ++ l) a) s.

Lemma put_out_nil s : put_out [] s = s.
Proof. destruct s as [[] c w x]. unfold put_out, on_tcp, set_tcp, set_out. simpl. by rw app_nil_r. Qed.

Lemma PacketContents_inv b tp k n s s' r :
  when b (d ← lift (IP.slice (drop k tp) 0 n); emit (PacketContents d)) s = Some (s', r) →
  r = Some () ∧ ∃ l, s' = put_out l s.
Proof.
  unfold when, mret, M_ret. destruct b; [|intros [= <- <-]; split; [done|]; exists []; by rw put_out_nil].
  intros (d & _ & [= <- <-])%bind_lift_inv. split; [done|]. by exists [PacketContents d].
Qed.

(** A packet, from its header on: it is dropped, or processed in the state it found. *)
Lemma NextPacket_inv t o ip tp len cl s s' r :
  NextPacket cfg t o ip tp len cl s = Some (s', r) → sd = (if o then orig (tcp s) else resp (tcp s)) →
  match tracked tp len cl s with
  | Some (f, n) => ∃ l off b a win, TO.th_off tp = Some off ∧ TO.th_flags tp = Some f ∧ TO.th_win tp = Some win ∧ n = (len - off * 4)%Z ∧
      process t ip tp (drop (Z.to_nat (off * 4)) tp) (off * 4) n (cl - off * 4) b a win o f (put_out l s) = Some (s', r)
  | None => keeps_same (view sd) s s'
  end.
Proof.
  intros Hr Hsd. unfold tracked. unfold NextPacket in Hr. rw bind_gets in Hr. cbv beta in Hr.
  destruct (skip (tcp s)); [by injection Hr as <- _|]. unfold DeliverPacket in Hr.
  apply bind_inv in Hr as [(s1 & [[n c] hl] & Hx & Hr)|[Hx ->]]; apply ExtractTCP_Header_inv in Hx as (off & Hoff & Hx); rw Hoff /=;
    destruct (_ || _); destruct Hx as [Hq Hx]; try done; [injection Hx as -> -> ->; subst s1|by apply view_quiet].
  cbv zeta in Hr.
  apply bind_inv in Hr as [(s1 & [] & Hx & Hr)|[Hx _]]; apply PacketContents_inv in Hx as [Hx (l & ->)]; [clear Hx|done].
  rw bind_gets in Hr. cbv beta in Hr. change (sd = (if o then orig (tcp (put_out l s)) else resp (tcp (put_out l s)))) in Hsd. rw -Hsd in Hr.
  apply bind_inv in Hr as [(s2 & valid & Hx & Hr)|[Hx _]]; apply (ValidateChecksum_inv _ off) in Hx as (Hok & Hv2 & Heq); try done;
    replace (epf sd (put_out l s)) with (epf sd s) in Hok by (by destruct sd); rw -Hok /=; [|by rw /keeps_same Hv2; destruct sd].
  destruct valid; simpl in Hr; [|injection Hr as <- _; by rw /keeps_same Hv2; destruct sd].
  rw Heq // in Hr.
  apply bind_lift_inv in Hr as (f & Hf & (b & _ & (a & _ & (win & Hw & Hr)%bind_lift_inv)%bind_lift_inv)%bind_lift_inv).
  rw Hf /=. by exists l, off, b, a, win.
Qed.

Lemma NextPacket_lands t o ip tp len cl s s' r :
  NextPacket cfg t o ip tp len cl s = Some (s', r) → sd = (if o then orig (tcp s) else resp (tcp s)) →
  lands (target o tp len cl s) (view sd s').
Proof.
  intros Hr Hsd. apply NextPacket_inv in Hr; [|done]. unfold target. destruct (tracked tp len cl s) as [[f n]|]; [|by rw Hr].
  destruct Hr as (l & off & b & a & win & _ & _ & _ & -> & Hr). assert (view sd (put_out l s) = view sd s) as Hvs by by destruct sd.
  pose proof (maps_process (view sd s) t ip tp (drop (Z.to_nat (off * 4)) tp) (off * 4) (len - off * 4) (cl - off * 4) b a win o f) as Hp.
  assert (o = false → v_orig (view sd s) = other sd) as Ho by (intros ->; by rw Hsd other_other).
  specialize (Hp Ho _ Hvs). rw Hr in Hp. by destruct r.
Qed.
End packet.

(** C6. A packet moves the endpoints exactly as the abstract machine says: whatever
    else is done with it (the history, the windows, the timers, the reassembly, the
    roles), if the packet is processed without failure and gets past the header and
    the checksum, the states of its sender and of its receiver are those of
    [next_states] for its flags, its direction and the length of its data; if it
    does not get past them the states stay. *)
Theorem packet_moves_endpoints cfg t by_orig ip tp len caplen s s' :
  run (NextPacket cfg t by_orig ip tp len caplen) s = Some s' →
  let sd := if by_orig then orig (tcp s) else resp (tcp s) in
  (est sd s', est (other sd) s') = target cfg sd by_orig tp len caplen s.
Proof.
  intros Hr sd. unfold run in Hr. destruct (NextPacket _ _ _ _ _ _ _ s) as [[s1 r]|] eqn:Hn; [|done]. injection Hr as <-.
  exact (NextPacket_lands cfg sd t by_orig ip tp len caplen s s1 r Hn eq_refl).
Qed.

(** The SYN-ACK of the sample connection ends the handshake. *)
Lemma packet_moves_endpoints_witness :
  ∃ s s', TL.after (take 1 TL.whole_connection) = Some s ∧
    run (step TL.sample_config (TL.from_resp 2 5000 1001 18 [])) s = Some s' ∧
    est First s = E.TCP_ENDPOINT_SYN_SENT ∧ (est Second s', est First s') = (E.TCP_ENDPOINT_ESTABLISHED, E.TCP_ENDPOINT_ESTABLISHED).
Proof.
  assert ((s ← TL.after (take 1 TL.whole_connection); s' ← run (step TL.sample_config (TL.from_resp 2 5000 1001 18 [])) s;
    Some (orig (tcp s), est First s, target TL.sample_config Second false (TL.tcp_packet_bytes 80 40000 5000 1001 18 []) 20 20 s)) =
    Some (First, E.TCP_ENDPOINT_SYN_SENT, (E.TCP_ENDPOINT_ESTABLISHED, E.TCP_ENDPOINT_ESTABLISHED)))
    as (s & Hs & (s' & Hs' & [= Ho H1 H2])%bind_Some)%bind_Some by (vm_compute; reflexivity).
  exists s, s'. split_and!; [done..|]. rw -H2.
  pose proof (packet_moves_endpoints TL.sample_config (double_of_Z 2) false (IP.Hdr4 TO.ip_sample)
    (TL.tcp_packet_bytes 80 40000 5000 1001 18 []) 20 20 s s' Hs') as Hp. cbv zeta in Hp. unfold resp in Hp. by rw Ho in Hp.
Defined.

End SM.
