(* ===== verification/TcpErrors.v ===== *)
(** TcpErrors: how the analyzer of TCP goes wrong: a close that is deferred on both
    sides is made on one only, a window scale that cannot be shifted by, options
    behind the captured bytes, a connection that has moved but is still reported;
    and what an archive does not keep. *)
From S2P Require Import Prelude Double Flow IP NetUtil Endpoint TcpReassem Conn TcpOptions TcpState TcpFacts TcpLife TcpMachine.
From stdpp Require Import strings.

Module TX.
Import T TF.

(** ** Deferred closes *)

Lemma EndpointEOF_clears cfg sd o s s' r : EndpointEOF cfg sd o s = Some (s', r) → close_deferred (tcp s') = false.
Proof.
  unfold EndpointEOF. intros [(s1 & x & _ & Hr)|[Hr _]]%bind_inv; [|by destruct (connection_EOF cfg)].
  apply bind_inv in Hr as [(s2 & y & _ & Hr)|[Hr _]]; [|done]. rw bind_gets in Hr.
  destruct (close_deferred (tcp s2)) eqn:Hd; [|by injection Hr as <- _]. unfold when in Hr.
  rw !bind_gets in Hr. cbv beta in Hr.
  apply bind_inv in Hr as [(s3 & z & _ & Hr)|[Hr _]]; [|by destruct (_ && _)].
  rw bind_gets in Hr. apply bind_inv in Hr as [(s4 & [] & _ & Hr)|[Hr _]]; [by injection Hr as <- _|].
  revert Hr. unfold call. by destruct (ConnectionClosed _ _ _ _) as [[]|].
Qed.

Lemma EndpointEOF_not_deferred cfg sd o s s' r :
  close_deferred (tcp s) = false → EndpointEOF cfg sd o s = Some (s', r) →
  quiet s s' ∧ ∀ d, epf d s' = epf d s.
Proof.
  intros Hd. unfold EndpointEOF, emit, with_tcp, modify, when, gets, mbind, M_bind, mret, M_ret.
  destruct (connection_EOF cfg); simpl; rw Hd; intros [= <- _]; (split; [by split|by intros []]).
Qed.

(** The flag of a deferred close is shared by the two endpoints, and cleared by
    the first end of a stream, also when its close is deferred again: when the
    stream of the other endpoint ends next, nothing is closed, no timer is set and
    nothing is reported. *)
Theorem second_close_lost cfg sd o sd' o' s s1 s2 :
  run (EndpointEOF cfg sd o) s = Some s1 → run (EndpointEOF cfg sd' o') s1 = Some s2 →
  close_deferred (tcp s1) = false ∧ (∀ d, epf d s2 = epf d s1) ∧ timers (tcp s2) = timers (tcp s1) ∧
  is_active (tcp s2) = is_active (tcp s1).
Proof.
  unfold run. destruct (EndpointEOF cfg sd o s) as [[s1' r1]|] eqn:H1; [|done]. intros [= ->].
  destruct (EndpointEOF cfg sd' o' s1) as [[s2' r2]|] eqn:H2; [|done]. intros [= ->].
  apply EndpointEOF_clears in H1. destruct (EndpointEOF_not_deferred _ _ _ _ _ _ H1 H2) as [[[_ _ Ht Ha _ _] _ _ _] He].
  done.
Qed.

(** Both sides send data behind a hole, and a FIN. *)
Definition with_holes : list label :=
  [ReassembleL true] ++ TL.three_packets ++
  [TL.from_orig 4 1002 5001 16 [66; 67]%Z; TL.from_resp 4 5002 1001 16 [66; 67]%Z;
   TL.from_orig 5 1004 5001 17 []; TL.from_resp 6 5004 1001 17 []].
(** The holes are filled, and everything is acknowledged. *)
Definition filled : list label :=
  [TL.from_orig 7 1001 5001 16 [65]%Z; TL.from_resp 8 5001 1005 16 [65]%Z; TL.from_orig 9 1005 5005 16 []].

(** The whole traffic: all data is delivered, both ends are closed and both streams
    ended, but the originator's close is not made: the connection stays active, and
    nothing says that it finished. *)
Lemma second_close_lost_in_traffic :
  (λ s, (est First s, est Second s, is_active (tcp s), E.did_close (epf First s), E.did_close (epf Second s), C.log (world s))) <$>
    TL.after (with_holes ++ filled) =
  Some (E.TCP_ENDPOINT_CLOSED, E.TCP_ENDPOINT_CLOSED, true, false, true,
    [C.Event "connection_established"; C.Event "connection_first_ACK"]).
Proof. vm_compute. reflexivity. Qed.

Lemma second_close_lost_witness :
  ∃ s s1 s2, TL.after with_holes = Some s ∧ close_deferred (tcp s) = true ∧
    run (EndpointEOF TL.sample_config Second false) s = Some s1 ∧ run (EndpointEOF TL.sample_config First true) s1 = Some s2 ∧
    epf First s2 = epf First s1 ∧ E.did_close (epf First s1) = false.
Proof.
  assert ((s ← TL.after with_holes; s1 ← run (EndpointEOF TL.sample_config Second false) s; s2 ← run (EndpointEOF TL.sample_config First true) s1;
    Some (close_deferred (tcp s), E.did_close (epf First s1))) = Some (true, false))
    as (s & Hs & (s1 & Hs1 & (s2 & Hs2 & [= H1 H2])%bind_Some)%bind_Some)%bind_Some by (vm_compute; reflexivity).
  exists s, s1, s2. destruct (second_close_lost TL.sample_config Second false First true s s1 s2 Hs1 Hs2) as (_ & He & _).
  split_and!; [done..|apply He|done].
Defined.

(** ** Packets that are not defined *)

Lemma silent_inv {X Y} sd (m : M State X) (f : X → M State Y) s s' r :
  SM.silent sd m → (m ≫= f) s = Some (s', r) → ∃ s1 x, m s = Some (s1, Some x) ∧ f x s1 = Some (s', r).
Proof.
  intros Hm [(s1 & x & Hx & Hr)|[Hr _]]%bind_inv; [by exists s1, x|]. pose proof (Hm _ s eq_refl) as H. by rw Hr in H.
Qed.

(** The scale of the window is only set by the options of a SYN. *)
Definition same_scale (sd : Side) : State → State → Prop := keeps_same (λ s, E.window_scale (epf sd s)).
#[local] Instance same_scale_preorder sd : PreOrder (same_scale sd).
Proof. apply keeps_same_preorder. Qed.
Lemma scale_upd sd sd' f : (∀ e, E.window_scale (f e) = E.window_scale e) → moves (same_scale sd) (upd sd' f).
Proof. intros Hf. apply moves_modify; [apply _|]. intros s. unfold same_scale, keeps_same. rw epf_on_ep. by case_decide; subst; rw ?Hf. Qed.
Lemma scale_CheckHistory sd sd' mask code : moves (same_scale sd) (CheckHistory sd' mask code).
Proof. intros s s' r. unfold CheckHistory. destruct (E.CheckHistory _ _ _ _) as [b h]. by intros [= <- _]. Qed.
Lemma scale_CheckFlagCombos sd f sd' b len : moves (same_scale sd) (CheckFlagCombos f sd' b len).
Proof.
  unfold CheckFlagCombos, note_control, AddHistory, with_tcp.
  moves; first [apply scale_CheckHistory|by apply scale_upd|apply moves_modify; [apply _|]; intros s; by destruct sd].
Qed.

(** A window scale of 32 or more, which a SYN can offer since its option is a
    byte, makes the next packet of its sender undefined: the 32-bit window is
    shifted by its width or more. *)
Theorem large_window_scale cfg t (by_orig : bool) ip tp len caplen s f n :
  let sd := if by_orig then orig (tcp s) else resp (tcp s) in
  SM.tracked cfg sd tp len caplen s = Some (f, n) → (32 ≤ E.window_scale (epf sd s))%Z →
  run (NextPacket cfg t by_orig ip tp len caplen) s = None.
Proof.
  intros sd Htr Hw. unfold run. destruct (NextPacket _ _ _ _ _ _ _ s) as [[s' r]|] eqn:Hr; [|done]. exfalso.
  apply (SM.NextPacket_inv cfg sd) in Hr; [|done]. rw Htr in Hr. destruct Hr as (l & off & b & a & win & _ & _ & _ & _ & Hr).
  apply (silent_inv sd) in Hr as (s1 & x & Hc & Hr); [|apply SM.silent_CheckFlagCombos, cfg].
  apply scale_CheckFlagCombos with (sd := sd) in Hc. unfold same_scale, keeps_same in Hc.
  replace (epf sd (SM.put_out l s)) with (epf sd s) in Hc by (by destruct sd).
  apply bind_inv in Hr as [(s2 & y & Hu & _)|[Hu _]]; unfold UpdateWindow in Hu; rw bind_gets in Hu; cbv zeta in Hu;
    apply bind_lift_inv in Hu as (z & Hz & _); unfold shift_uint in Hz; rw Hc in Hz;
    (destruct (Z.ltb_spec (E.window_scale (epf sd s)) 32) in Hz; [lia|by rw andb_false_r in Hz]).
Qed.

(** The length of the header is not compared with what was captured: a SYN whose
    capture ends with the fixed part of the header, but whose header has options, is
    read outside of the capture. *)
Theorem options_outside_capture cfg t (by_orig : bool) ip tp len caplen s f n off :
  let sd := if by_orig then orig (tcp s) else resp (tcp s) in
  SM.tracked cfg sd tp len caplen s = Some (f, n) → TO.SYN f = true →
  length tp = 20 → TO.th_off tp = Some off → (5 < off)%Z →
  run (NextPacket cfg t by_orig ip tp len caplen) s = None.
Proof.
  intros sd Htr Hsyn Hlen Hoff Ho. unfold run. destruct (NextPacket _ _ _ _ _ _ _ s) as [[s' r]|] eqn:Hr; [|done]. exfalso.
  apply (SM.NextPacket_inv cfg sd) in Hr; [|done]. rw Htr in Hr. destruct Hr as (l & off' & b & a & win & _ & _ & _ & _ & Hr).
  assert (TO.SYN_options_of tp = None) as Hopt.
  { unfold TO.SYN_options_of. rw Hoff /=. destruct (Z.to_nat (off * 4)) eqn:Hn; simpl; destruct (Z.leb_spec (off * 4) TO.sizeof_tcphdr) as [H|H];
      unfold TO.sizeof_tcphdr in *; try lia; unfold IP.get8; simpl.
    by rw (proj2 (lookup_ge_None tp (Z.to_nat 20))); [|lia]. }
  unfold SM.process in Hr.
  apply (silent_inv sd) in Hr as (s1 & ? & _ & Hr); [|apply SM.silent_CheckFlagCombos, cfg].
  apply (silent_inv sd) in Hr as (s2 & ? & _ & Hr); [|apply SM.silent_UpdateWindow, cfg].
  rw bind_gets in Hr. apply bind_inv in Hr as [(s3 & ? & _ & Hr)|[Hr _]]; [|by destruct (negb _)].
  assert (∀ ip hl sl b a oa s s' r, ProcessSYN cfg ip tp hl sl sd b a oa by_orig f s ≠ Some (s', r)) as HS.
  { intros ip0 hl0 sl0 b0 a0 oa0 s0 s4 r0 Hx. unfold ProcessSYN in Hx.
    apply bind_inv in Hx as [(s5 & ? & _ & Hx)|[Hx _]]; [|by destruct (TO.RST f)].
    apply bind_inv in Hx as [(s6 & ? & _ & Hx)|[Hx _]]; [|by destruct (TO.URG f)].
    apply bind_inv in Hx as [(s7 & ? & _ & Hx)|[Hx _]]; [|by destruct (0 <? sl0)%Z].
    apply bind_lift_inv in Hx as (v & Hv & _). unfold TO.BuildSYNPacketVal in Hv. by rw Hopt in Hv. }
  assert (∀ hl b a oa s s' r, ProcessFlags cfg t ip tp hl n sd b a oa by_orig f s ≠ Some (s', r)) as HF.
  { intros hl' b' a' oa s4 s5 r5 Hf. unfold ProcessFlags in Hf. rw Hsyn in Hf.
    apply bind_inv in Hf as [(? & ? & Hf & _)|[Hf _]]; by apply HS in Hf. }
  apply bind_inv in Hr as [(? & ? & Ht & _)|[Ht _]]; unfold track in Ht; rw bind_gets in Ht;
    apply bind_inv in Ht as [(? & ? & Hf & _)|[Hf _]]; by apply HF in Hf.
Qed.

(** An option of three bytes that offers the scale 40. *)
Definition big_scale_SYN : label :=
  PacketL (double_of_Z 1) true (IP.Hdr4 TO.ip_sample)
    (take 12 (TL.tcp_packet_bytes 40000 80 1000 0 2 []) ++ [96; 2; 255; 255; 0; 0; 0; 0; 3; 3; 40; 0]%Z) 24 24.

Lemma large_window_scale_witness :
  ∃ s, TL.after [big_scale_SYN] = Some s ∧ E.window_scale (epf First s) = 40%Z ∧
    run (step TL.sample_config (TL.from_orig 2 1001 5001 16 [])) s = None.
Proof.
  assert ((s ← TL.after [big_scale_SYN]; x ← SM.tracked TL.sample_config First (TL.tcp_packet_bytes 40000 80 1001 5001 16 []) 20 20 s;
    Some (orig (tcp s), E.window_scale (epf First s))) = Some (First, 40%Z))
    as (s & Hs & ([f n] & Hx & [= Ho Hw])%bind_Some)%bind_Some by (vm_compute; reflexivity).
  exists s. split_and!; [done..|]. apply (large_window_scale TL.sample_config (double_of_Z 2) true (IP.Hdr4 TO.ip_sample)
    (TL.tcp_packet_bytes 40000 80 1001 5001 16 []) 20 20 s f n); rw Ho; [done|lia].
Defined.

Lemma options_outside_capture_witness :
  let tp := (take 12 (TL.tcp_packet_bytes 40000 80 1000 0 2 []) ++ [96; 2; 255; 255; 0; 0; 0; 0]%Z) in
  ∃ s, TL.started TL.sample_config = Some s ∧ run (NextPacket TL.sample_config (double_of_Z 1) true (IP.Hdr4 TO.ip_sample) tp 24 20) s = None.
Proof.
  intros tp.
  assert ((s ← TL.started TL.sample_config; x ← SM.tracked TL.sample_config First tp 24 20 s; Some (orig (tcp s), x)) = Some (First, (2, 0)%Z))
    as (s & Hs & ([f n] & Hx & [= Ho -> ->])%bind_Some)%bind_Some by (vm_compute; reflexivity).
  exists s. split; [done|]. apply (options_outside_capture TL.sample_config (double_of_Z 1) true (IP.Hdr4 TO.ip_sample) tp 24 20 s 2 0 6);
    rw ?Ho; done.
Defined.

(** ** The end of a connection that has moved *)

(** [Analyzer::Done] returns at once for an analyzer that has moved, but
    [TCP_Analyzer::Done] goes on: of a connection that is active and not closed on
    both sides it is reported that it is pending, although it lives on in another
    process, which reports it as well. *)
Theorem moved_connection_pending cfg a w :
  moved a = true → connection_pending cfg = true → is_active a = true → BothClosed a = false →
  contents_processor (endpoint (orig a) a) = None → contents_processor (endpoint (resp a) a) = None →
  Done cfg a w = Some (set_finished true a, C.emit (C.Event "connection_pending") w).
Proof.
  intros Hm Hc Ha Hb Ho Hr. unfold Done, Analyzer_Done. rw Hm. cbn [mbind option_bind]. rw Hc Ha Hb /=.
  unfold endpoint_Done. by rw Ho /= Hr.
Qed.

Lemma absent_processor (o : option TR.TCP_Reassembler) : from_option (λ _, true) false o = false → o = None.
Proof. by destruct o. Qed.

Lemma moved_connection_pending_witness :
  ∃ s, TL.after TL.three_packets = Some s ∧ let a := Moved (tcp s) in
    Done TL.sample_config a (world s) = Some (set_finished true a, C.emit (C.Event "connection_pending") (world s)).
Proof.
  assert ((λ s, (is_active (tcp s), BothClosed (tcp s), from_option (λ _, true) false (contents_processor (endpoint (orig (tcp s)) (tcp s))),
    from_option (λ _, true) false (contents_processor (endpoint (resp (tcp s)) (tcp s))))) <$> TL.after TL.three_packets = Some (true, false, false, false))
    as (s & Hs & [= Ha Hb Ho Hr])%fmap_Some by (vm_compute; reflexivity).
  exists s. split; [exact Hs|].
  exact (moved_connection_pending TL.sample_config (Moved (tcp s)) (world s) eq_refl eq_refl (eq_sym Ha) (eq_sym Hb)
    (absent_processor _ (eq_sym Ho)) (absent_processor _ (eq_sym Hr))).
Defined.

(** ** Archives *)

Definition load_bits (w : Z) : Z * (bool * bool * bool * bool * bool * bool * bool) :=
  (Z.land (Z.shiftr w 0) 3, (bit_at w 2, bit_at w 3, bit_at w 4, bit_at w 5, bit_at w 6, bit_at w 7, bit_at w 8)).

Lemma tcp_load_save_bits a :
  (0 ≤ first_packet_seen a < 4)%Z →
  load_bits (save_bits a) = (first_packet_seen a, (reassembling a, is_partial a, is_active a, finished a, close_deferred a,
    deferred_gen_event a, seen_first_ACK a)).
Proof.
  unfold save_bits. destruct a as [? ? ? ? ? ? ? ? ? n b1 b2 b3 b4 b5 b6 b7 ?]. simpl. intros Hn.
  assert (n = 0 ∨ n = 1 ∨ n = 2 ∨ n = 3)%Z as Hc by lia.
  destruct Hc as [->|[->|[->| ->]]], b1, b2, b3, b4, b5, b6, b7; reflexivity.
Qed.

(** What an endpoint is on the other side. *)
Definition restored (e : Endpoint) : Endpoint :=
  mkEP (ep e) ((λ r, TR.unserialize (TR.serialize r)) <$> contents_processor e) (contents_file e).

(** C33. An analyzer that is archived and restored is the same but for its timers,
    the mark that it has moved and what its reassemblers forget: a connection that
    is imported has none of the timers that end connections, and nothing in the
    archive sets one. *)
Theorem restored_analyzer_has_no_timers a :
  (0 ≤ first_packet_seen a < 4)%Z →
  unserialize (serialize a) =
    mkTCP (skip a) (an_finished a) false (timers_canceled a) [] (restored (ep1 a)) (restored (ep2 a)) (orig a) (has_packet_children a)
      (first_packet_seen a) (reassembling a) (is_partial a) (is_active a) (finished a) (close_deferred a) (deferred_gen_event a)
      (seen_first_ACK a) [] ∧
  ∀ g c w st, TL.waits g (mkState (unserialize (serialize a)) c w st) → C.RemoveFromSessions ∈ C.log w.
Proof.
  intros Hs. split.
  - pose proof (tcp_load_save_bits a Hs) as Hl. unfold load_bits in Hl. injection Hl as H1 H2 H3 H4 H5 H6 H7 H8.
    assert (∀ e, unserialize_endpoint (serialize_endpoint e) = restored e) as He by (intros [? [] ?]; done).
    unfold unserialize. change (ar_bitfields (serialize a)) with (save_bits a). cbv zeta. rw H1 H2 H3 H4 H5 H6 H7 H8.
    change (ar_ep1 (serialize a)) with (serialize_endpoint (ep1 a)). change (ar_ep2 (serialize a)) with (serialize_endpoint (ep2 a)).
    by rw !He.
  - intros g c w st [Hr|(tm & Htm & _)]; [done|]. by apply elem_of_nil in Htm.
Qed.

Lemma restored_analyzer_has_no_timers_witness :
  ∃ s, TL.after TL.three_packets = Some s ∧ timers (tcp s) ≠ [] ∧ timers (unserialize (serialize (tcp s))) = [] ∧
    is_active (unserialize (serialize (tcp s))) = true.
Proof.
  assert ((λ s, (first_packet_seen (tcp s), is_active (tcp s), length (timers (tcp s)))) <$> TL.after TL.three_packets = Some (3%Z, true, 2))
    as (s & Hs & [= Hf Ha Ht])%fmap_Some by (vm_compute; reflexivity).
  exists s. split; [done|]. destruct (restored_analyzer_has_no_timers (tcp s)) as [-> _]; [lia|]. simpl. split_and!; [|done|done].
  by destruct (timers (tcp s)).
Defined.

End TX.
