(* ===== verification/TcpLink.v ===== *)
(** TcpLink: the analyzer of TCP at the root of a connection, DPM.cc
    BuildInitialAnalyzerTree, and Sessions with it.  The analyzers of the other
    protocols are a parameter [B] with the same interface.  What the statistics of
    Sessions rely on (the class [StatisticsLaws]) is shown for the analyzer of
    TcpState, so the statistics count the states of its endpoints. *)
From S2P Require Import Prelude Double Flow IP NetUtil Endpoint TcpReassem Conn Sessions TcpOptions TcpState TcpFacts TcpLife.
From stdpp Require Import strings.

Module LK.
Import T TF.

(** ** The statistics, for one analyzer *)

Definition pair (a : TCP_Analyzer) : E.EndpointState * E.EndpointState :=
  (E.state (ep (endpoint (orig a) a)), E.state (ep (endpoint (resp a) a))).

(** One of the endpoints is the originator, and [orig] points to it. *)
Definition roles (a : TCP_Analyzer) : Prop :=
  E.is_orig (ep (endpoint (orig a) a)) = true ∧ E.is_orig (ep (endpoint (resp a) a)) = false.

(** The statistics follow the states; the key, the protocol and the mark of a moved
    connection stay. *)
Record counted (s s' : State) : Prop := {
  cd_roles : roles (tcp s) → roles (tcp s');
  cd_conn : quiet_conn (conn s) (conn s');
  cd_cnt : roles (tcp s) → ∀ o r, uint32 (E.Cnt o r (stats s')) =
    uint32 (E.Cnt o r (stats s) - NS.counts o r (Some (pair (tcp s))) + NS.counts o r (Some (pair (tcp s'))))
}.

#[global] Instance counted_preorder : PreOrder counted.
Proof.
  split.
  - intros s. split; [done|done|]. intros _ o r. f_equal. lia.
  - intros s1 s2 s3 [R1 C1 N1] [R2 C2 N2]. split; [auto|by etrans|]. intros Hr o r. rw N2; [|auto].
    rw (NS.uint32_cong2 _ _ _ _ (N1 Hr o r)). f_equal. lia.
Qed.

(** Steps that keep the endpoints. *)
Lemma counted_same s s' :
  orig (tcp s') = orig (tcp s) → (∀ sd, same_ep (ep (endpoint sd (tcp s))) (ep (endpoint sd (tcp s')))) ∨
    (∀ sd, E.state (epf sd s') = E.state (epf sd s) ∧ E.is_orig (epf sd s') = E.is_orig (epf sd s)) →
  quiet_conn (conn s) (conn s') → stats s' = stats s → counted s s'.
Proof.
  intros Ho He Hc Hst.
  assert (∀ sd, E.state (epf sd s') = E.state (epf sd s) ∧ E.is_orig (epf sd s') = E.is_orig (epf sd s)) as He'.
  { destruct He as [He|He]; [|done]. intros sd. destruct (He sd) as (? & _ & ? & _). done. }
  unfold epf in He'. split.
  - unfold roles, resp. rw Ho. by destruct (He' (orig (tcp s))) as [_ ->], (He' (other (orig (tcp s)))) as [_ ->].
  - done.
  - intros _ o r. assert (pair (tcp s') = pair (tcp s)) as ->.
    { unfold pair, resp. rw Ho. by destruct (He' (orig (tcp s))) as [-> _], (He' (other (orig (tcp s)))) as [-> _]. }
    rw Hst. f_equal. lia.
Qed.
Lemma counted_quiet s s' : quiet s s' → counted s s'.
Proof. intros [[He Ho _ _ _ _] Hc _ Hst]. apply counted_same; auto. Qed.

Lemma counted_with f : (∀ a, orig (f a) = orig a ∧ ∀ sd, ep (endpoint sd (f a)) = ep (endpoint sd a)) → moves counted (with_tcp f).
Proof.
  intros Hf. apply moves_modify; [apply _|]. intros s. destruct (Hf (tcp s)) as [Ho He].
  apply counted_same; [done| |done|done]. right. intros sd. unfold epf. simpl. by rw He.
Qed.
Lemma counted_inactive : moves counted (with_tcp (set_is_active false)).
Proof. by apply counted_with. Qed.
Lemma counted_AddTimer f t e : moves counted (AddTimer f t e).
Proof. apply moves_modify; [apply _|]. intros s. by apply counted_same; [|right| |]. Qed.
Lemma counted_RemoveTimer tm : moves counted (with_tcp (RemoveTimer tm)).
Proof. by apply counted_with. Qed.
Lemma counted_Remove : moves counted Remove.
Proof. apply moves_modify; [apply _|]. intros s. by apply counted_same; [|right| |]. Qed.
Lemma counted_ConnectionClosed cfg sd g : moves counted (ConnectionClosed cfg sd g).
Proof.
  apply w_ConnectionClosed; [apply _|apply counted_quiet|apply counted_inactive|apply counted_AddTimer| |].
  - unfold close_timer, CancelTimers. moves; try apply counted_AddTimer. by apply counted_with.
  - intros sd'. apply moves_modify; [apply _|]. intros s. apply counted_same; [by destruct sd'| |done|done]. right.
    intros sd2. rw epf_on_ep. by case_decide; subst.
Qed.

Lemma stats_changed sd st s :
  stats (changed sd st s) = if decide (st = est sd s) then stats s
    else if E.is_orig (epf sd s) then E.ChangeState (est sd s) st (est (other sd) s) (est (other sd) s) (stats s)
    else E.ChangeState (est (other sd) s) (est (other sd) s) (est sd s) st (stats s).
Proof.
  unfold changed, E.SetState. change (E.state (epf sd s)) with (est sd s). case_decide; [done|]. simpl. by destruct (E.is_orig _).
Qed.

(** The change of a state, for the originator and for the responder. *)
Lemma counted_changed sd st s : counted s (changed sd st s).
Proof.
  pose proof (E_SetState_fields st (est (other sd) s) (epf sd s) (stats s)) as (He & Ho & _ & _).
  assert (orig (tcp (changed sd st s)) = orig (tcp s)) as Hor by by destruct sd.
  assert (∀ sd', E.is_orig (ep (endpoint sd' (tcp (changed sd st s)))) = E.is_orig (ep (endpoint sd' (tcp s)))) as Hio.
  { intros sd'. unfold changed. change (E.is_orig (epf sd' (on_ep sd (λ _, (E.SetState st (est (other sd) s) (epf sd s) (stats s)).1.1) s)) =
      E.is_orig (epf sd' s)). rw epf_on_ep. by case_decide; subst. }
  split; [unfold roles, resp; by rw Hor !Hio|by destruct sd|]. intros [R1 R2] o r.
  assert (pair (tcp (changed sd st s)) = (if decide (orig (tcp s) = sd) then st else est (orig (tcp s)) s,
    if decide (resp (tcp s) = sd) then st else est (resp (tcp s)) s)) as ->.
  { unfold pair, resp. rw Hor. f_equal; [exact (est_changed sd st (orig (tcp s)) s)|exact (est_changed sd st (other (orig (tcp s))) s)]. }
  rw (stats_changed sd st s).
  assert (pair (tcp s) = (est (orig (tcp s)) s, est (resp (tcp s)) s)) as -> by done. unfold resp in *.
  destruct (side_cases sd (orig (tcp s))) as [Hs|Hs]; rw Hs in R1 R2 |- *; rw ?other_other in R2 |- *; unfold epf; rw ?R1 ?R2.
  - rw (decide_True _ _ (eq_refl sd)) (decide_False _ _ (other_ne sd)). case_decide as Hd; [subst st; unfold est; f_equal; lia|apply NS.Cnt_ChangeState].
  - rw (decide_True _ _ (eq_refl sd)) (decide_False _ _ (other_ne sd)). case_decide as Hd; [subst st; unfold est; f_equal; lia|apply NS.Cnt_ChangeState].
Qed.
Lemma counted_SetState cfg sd st : moves counted (SetState cfg sd st).
Proof. apply moves_SetState; [apply _|apply counted_quiet|apply counted_changed]. Qed.

Lemma counted_FlipRoles : moves counted FlipRoles.
Proof.
  apply moves_FlipRoles. intros s. cbv zeta.
  assert ((C.FlipRoles (conn s) (stats s)).2 = stats s ∧ quiet_conn (conn s) (C.FlipRoles (conn s) (stats s)).1) as [Hst Hc].
  { unfold C.FlipRoles. destruct (C.root_analyzer (conn s)); by split. }
  destruct (C.FlipRoles (conn s) (stats s)) as [c st]; simpl in Hst, Hc; subst st.
  split; [|done|].
  - unfold roles, resp, tcp_FlipRoles. simpl. unfold resp. destruct (orig (tcp s)); simpl; intros [H1 H2]; by rw H1 H2.
  - intros _ o r. rw (_ : pair (tcp (set_stats _ _)) = ((pair (tcp s)).2, (pair (tcp s)).1)); last first.
    { unfold pair, resp, tcp_FlipRoles. simpl. unfold resp. by destruct (orig (tcp s)). }
    apply (NS.Cnt_ChangeState (pair (tcp s)).1 (pair (tcp s)).2 (pair (tcp s)).2 (pair (tcp s)).1).
Qed.

Lemma counted_machine cfg t sd b a l len d o f : moves counted (UpdateStateMachine cfg t sd b a l len d o f).
Proof.
  apply w_machine; [apply _|apply counted_quiet|apply counted_inactive|apply counted_AddTimer
    |intros; apply counted_ConnectionClosed|intros; apply counted_SetState|apply counted_FlipRoles].
Qed.
Lemma counted_step cfg l : moves counted (step cfg l).
Proof.
  apply w_step; [apply _|apply counted_quiet|apply counted_inactive|apply counted_AddTimer|intros; apply counted_ConnectionClosed
    |intros; apply counted_machine|apply counted_Remove|apply counted_RemoveTimer].
Qed.

(** ** The analyzer as the root of a connection *)

(** The root: the analyzer of TCP, or one of another protocol. *)
Inductive root (B : Type) := TCPRoot (a : TCP_Analyzer) | OtherRoot (b : B).
Arguments TCPRoot {B}.
Arguments OtherRoot {B}.

(** A connection with another root. *)
Definition with_root {A B} (v : option B) (c : C.Connection A) : C.Connection B :=
  C.mkConn (C.key c) (C.conn_timer_mgr c) (C.timers c) (C.orig_addr c) (C.resp_addr c) (C.orig_port c) (C.resp_port c) (C.proto c)
    (C.orig_flow_label c) (C.resp_flow_label c) (C.start_time c) (C.last_time c) (C.inactivity_timeout c) (C.has_conn_val c)
    (C.has_login_conn c) (C.suppress_event c) (C.flags c) (C.hist c) v (C.uid c) (C.moved c) (C.dirty c) (C.dirty_backoff c) (C.getOpId c).

(** What DPM.cc looks at: whether an analyzer is expected for the connection, how
    many are known for its port, and the options. *)
Class DPM := mkDPM {
  tcp_cfg : config;
  GetExpected : C.Connection () → bool;
  port_analyzers : Z → nat;
  dpd_ignore_ports : bool;
  dpd_reassemble_first_packets : bool;
  packet_analyzers : bool;
  expected_connection_seen : bool
}.

Section link.
Context {B : Type} `{C.Analyzer B, NS.TreeBuilder B} `{D : DPM}.
Implicit Types (c : C.Connection (root B)) (a : TCP_Analyzer).

(** The children that are there before the one that detects protocols. *)
Definition num_children (c : C.Connection ()) : nat :=
  if GetExpected c then 1 else if dpd_ignore_ports then 0 else port_analyzers (NU.htons (C.resp_port c)).

(** Whether the stream is reassembled from the start. *)
Definition reassemble (c : C.Connection ()) : bool :=
  let port := NU.htons (C.resp_port c) in
  negb (num_children c =? 0) || dpd_reassemble_first_packets || tcp_content_deliver_all_orig tcp_cfg || tcp_content_deliver_all_resp tcp_cfg ||
  tcp_contents tcp_cfg && (delivery_port tcp_cfg true port || delivery_port tcp_cfg false port).

(** The tree of a TCP connection.  The analyzer that detects protocols (PIA) is
    always a child, so the connection always counts as analyzed; the optional
    analyzers (backdoors, interactive connections, stepping stones, statistics,
    sizes) only matter here by whether there is one that sees the packets. *)
Definition build_TCP (c : C.Connection ()) (w : C.World) (st : E.TCPStateStats) : option State :=
  '(a, w, st) ← TCP_Analyzer_new tcp_cfg (C.orig_addr c) (C.resp_addr c) packet_analyzers w st;
  run (when (reassemble c) (call (EnableReassembly tcp_cfg true));;
       when (GetExpected c && expected_connection_seen) (Event "expected_connection_seen")) (mkState a c w st).

#[global] Instance link_builder : NS.TreeBuilder (root B) := {
  NS.build_tree p data cw st := let '(c, w) := cw in
    match p with
    | C.TRANSPORT_TCP =>
      s ← build_TCP (with_root None c) w st;
      Some (with_root (Some (TCPRoot (tcp s))) (conn s), world s, stats s)
    | C.TRANSPORT_UNKNOWN => None
    | _ =>
      '(c, w, st) ← NS.build_tree p data (with_root (A := root B) (B := B) None c, w) st;
      Some (with_root (OtherRoot <$> C.root_analyzer c) c, w, st)
    end
}.

(** A call of the analyzer, with its connection and the statistics. *)
Definition on_root (m : M State ()) a c w st : option (C.Connection (root B) * C.World * E.TCPStateStats) :=
  s ← run m (mkState a (with_root None c) w st);
  Some (with_root (Some (TCPRoot (tcp s))) (conn s), world s, stats s).

#[global] Instance link_analyzer : C.Analyzer (root B) := {
  C.an_IsReuse t pkt r := match r with TCPRoot a => default false (reuse pkt a) | OtherRoot b => C.an_IsReuse t pkt b end;
  C.an_IsFinished r := match r with TCPRoot a => an_finished a | OtherRoot b => C.an_IsFinished b end;
  C.an_Done r w :=
    match r with
    | TCPRoot a => '(a, w) ← Done tcp_cfg a w; Some (TCPRoot a, w)
    | OtherRoot b => '(b, w) ← C.an_Done b w; Some (OtherRoot b, w)
    end;
  C.an_FlipRoles r st :=
    match r with
    | TCPRoot a => let '(a, st) := tcp_FlipRoles a st in (TCPRoot a, st)
    | OtherRoot b => let '(b, st) := C.an_FlipRoles b st in (OtherRoot b, st)
    end;
  C.an_Moved r := match r with TCPRoot a => TCPRoot (Moved a) | OtherRoot b => OtherRoot (C.an_Moved b) end;
  C.an_NextPacket t o ip data len caplen x := let '(c, w, st) := x in
    match C.root_analyzer c with
    | Some (TCPRoot a) => on_root (NextPacket tcp_cfg t o ip data len caplen) a c w st
    | Some (OtherRoot b) =>
      '(c, w, st) ← C.an_NextPacket t o ip data len caplen (with_root (Some b) c, w, st);
      Some (with_root (OtherRoot <$> C.root_analyzer c) c, w, st)
    | None => Some (c, w, st)
    end;
  C.an_fire id t e x := let '(c, w) := x in
    match C.root_analyzer c with
    | Some (TCPRoot a) => '(c, w, _) ← on_root (fire_id tcp_cfg id t e) a c w E.TCPStateStats_new; Some (c, w)
    | Some (OtherRoot b) =>
      '(c, w) ← C.an_fire id t e (with_root (Some b) c, w);
      Some (with_root (OtherRoot <$> C.root_analyzer c) c, w)
    | None => None
    end;
  C.an_restore r := match r with TCPRoot a => TCPRoot (unserialize (serialize a)) | OtherRoot b => OtherRoot (C.an_restore b) end;
  C.an_states r := match r with TCPRoot a => Some (pair a) | OtherRoot b => C.an_states b end
}.

End link.
(** ** The laws of the statistics *)

Section laws.
Context {B : Type} `{HB : C.Analyzer B} `{HT : NS.TreeBuilder B} `{HL : !NS.StatisticsLaws B} `{D : DPM}.
Implicit Types (c : C.Connection (root B)).

Definition root_ok c : Prop :=
  match C.root_analyzer c with
  | Some (TCPRoot a) => C.proto c = C.TRANSPORT_TCP ∧ roles a
  | Some (OtherRoot b) => C.proto c ≠ C.TRANSPORT_TCP ∧ NS.law_ok (with_root (Some b) c)
  | None => True
  end.

Lemma conn_states_link c : NS.conn_states c =
  match C.root_analyzer c with
  | Some (TCPRoot a) => match C.proto c with C.TRANSPORT_TCP => Some (pair a) | _ => None end
  | Some (OtherRoot b) => NS.conn_states (with_root (Some b) c)
  | None => None
  end.
Proof. unfold NS.conn_states. simpl. destruct (C.root_analyzer c) as [[]|], (C.proto c); done. Qed.

(** A connection that came back from an analyzer of another protocol. *)
Lemma other_back (c : C.Connection B) :
  C.proto c ≠ C.TRANSPORT_TCP → NS.law_ok c →
  let c' := with_root (OtherRoot <$> C.root_analyzer c) c : C.Connection (root B) in root_ok c' ∧ NS.conn_states c' = None ∧ NS.conn_states c = None.
Proof.
  intros Hp Hok c'. split; [|split].
  - unfold root_ok, c'. simpl. destruct (C.root_analyzer c) as [b|] eqn:Hr; simpl; [|done]. split; [done|].
    by apply (NS.law_ok_ext c).
  - by apply (NS.conn_states_other c' (C.proto c)).
  - by apply (NS.conn_states_other c (C.proto c)).
Qed.

(** What an analyzer of TCP does to the statistics. *)
Lemma root_counted (s s' : State) :
  counted s s' → C.proto (conn s) = C.TRANSPORT_TCP → roles (tcp s) →
  let c := with_root (Some (TCPRoot (tcp s))) (conn s) : C.Connection (root B) in
  let c' := with_root (Some (TCPRoot (tcp s'))) (conn s') in
  root_ok c' ∧ C.key c' = C.key c ∧ C.proto c' = C.proto c ∧ C.moved c' = C.moved c ∧
  ∀ o r, uint32 (E.Cnt o r (stats s')) = uint32 (E.Cnt o r (stats s) - NS.counts o r (NS.conn_states c) + NS.counts o r (NS.conn_states c')).
Proof.
  intros [Hr [Hk Hp Hm] Hc] Htcp Hro c c'. split_and!; [|done|done|done|].
  - unfold root_ok, c'. simpl. split; [congruence|auto].
  - intros o r. rw !conn_states_link /= Hp Htcp. auto.
Qed.

Lemma run_counted (m : M State ()) s s' : moves counted m → run m s = Some s' → counted s s'.
Proof. intros Hm Hr. exact (moves_run _ _ _ _ Hm Hr). Qed.

Lemma counted_NextPacket t o ip data len cl : moves counted (NextPacket tcp_cfg t o ip data len cl).
Proof. exact (counted_step tcp_cfg (PacketL t o ip data len cl)). Qed.
Lemma counted_fire_id id t e : moves counted (fire_id tcp_cfg id t e).
Proof. exact (counted_step tcp_cfg (TimerL id t e)). Qed.

(** Timers do not change the states. *)
Lemma pair_run_timer f t : moves (keeps_same (λ s, pair (tcp s))) (run_timer tcp_cfg f t).
Proof.
  destruct f; simpl; unfold AttemptTimer, PartialCloseTimer, ExpireTimer, ResetTimer, DeleteTimer, ConnDeleteTimer, ConnectionReset, with_tcp,
    Remove, Event, AddTimer, emit; moves; try (by apply moves_modify; [apply _|]).
Qed.
Lemma pair_fire_id id t e : moves (keeps_same (λ s, pair (tcp s))) (fire_id tcp_cfg id t e).
Proof.
  unfold fire_id, fire, with_tcp. moves; try (by apply moves_modify; [apply _|]). apply pair_run_timer.
Qed.

(** The tree of a new TCP connection is counted once. *)
Lemma build_TCP_counted (c : C.Connection ()) w st s :
  C.proto c = C.TRANSPORT_TCP → build_TCP c w st = Some s →
  roles (tcp s) ∧ quiet_conn c (conn s) ∧
  ∀ o r, uint32 (E.Cnt o r (stats s)) = uint32 (E.Cnt o r st + NS.counts o r (Some (pair (tcp s)))).
Proof.
  intros Hp. unfold build_TCP. intros ([[a w1] st1] & Hn & Hr)%bind_Some.
  pose proof (TL.wf_new _ _ _ _ _ _ _ _ _ c Hn) as Hw. assert (roles a) as Hro by (split; [apply (TL.wf_orig _ Hw)|apply (TL.wf_resp _ Hw)]).
  assert (∀ o r, uint32 (E.Cnt o r st1) = uint32 (E.Cnt o r st + NS.counts o r (Some (pair a)))) as Hst.
  { revert Hn. unfold TCP_Analyzer_new. intros (e1 & He1 & (e2 & He2 & [= <- <- <-])%bind_Some)%bind_Some o r. apply NS.Cnt_StateEntered. }
  apply run_counted in Hr as [Hro' Hq Hc].
  - split; [auto|]. split; [done|]. intros o r. rw (Hc Hro) /=. rw (NS.uint32_cong2 _ _ _ _ (Hst o r)). f_equal. lia.
  - moves.
    + exact (counted_step tcp_cfg (ReassembleL true)).
    + apply moves_modify; [apply _|]. intros s1. apply counted_quiet, quiet_emit_event.
Qed.

Lemma pair_quiet a a' : quiet_tcp a a' → pair a' = pair a.
Proof. intros [He Ho _ _ _ _]. unfold pair, resp. rw Ho. by destruct (He (orig a)) as [-> _], (He (other (orig a))) as [-> _]. Qed.
Lemma pair_endpoint_Done cfg sd a a' : endpoint_Done cfg sd a = Some a' → pair a' = pair a.
Proof.
  unfold endpoint_Done. destruct (contents_processor _) as [r|]; [|by intros [= <-]].
  intros (r' & _ & [= <-])%bind_Some. apply pair_quiet, quiet_store.
Qed.
Lemma pair_Done cfg a w a' w' : Done cfg a w = Some (a', w') → pair a' = pair a.
Proof.
  unfold Done. intros (a1 & H1 & (a2 & H2 & (a3 & H3 & [= <- _])%bind_Some)%bind_Some)%bind_Some.
  apply pair_endpoint_Done in H2, H3. change (pair a3 = pair a). rw H3 H2. revert H1. unfold Analyzer_Done.
  destruct (moved a); [by intros [= <-]|]. destruct (an_finished a); [done|]. by intros [= <-].
Qed.

Lemma root_ok_ext (c c' : C.Connection (root B)) : C.proto c' = C.proto c → C.root_analyzer c' = C.root_analyzer c → root_ok c → root_ok c'.
Proof.
  intros Hp Hr. unfold root_ok. rw Hr. destruct (C.root_analyzer c) as [[a|b]|]; [by rw Hp| |done].
  rw Hp. intros [? Hok]. split; [done|]. by apply (NS.law_ok_ext (with_root (Some b) c)).
Qed.
Lemma link_NextPacket t o ip data len cl (c : C.Connection (root B)) w st c' w' st' :
  root_ok c → C.an_NextPacket t o ip data len cl (c, w, st) = Some (c', w', st') →
  root_ok c' ∧ C.key c' = C.key c ∧ C.proto c' = C.proto c ∧ C.moved c' = C.moved c ∧
  ∀ o' r', uint32 (E.Cnt o' r' st') = uint32 (E.Cnt o' r' st - NS.counts o' r' (NS.conn_states c) + NS.counts o' r' (NS.conn_states c')).
Proof.
  intros Hok. simpl. unfold root_ok in Hok. destruct (C.root_analyzer c) as [[a|b]|] eqn:Hr.
  - intros (s' & Hs & [= <- <- <-])%bind_Some. destruct Hok as [Hp Hro].
    pose proof (root_counted _ _ (run_counted _ _ _ (counted_NextPacket t o ip data len cl) Hs) Hp Hro) as (Hok' & Hk & Hp' & Hm & Hc).
    split; [exact Hok'|]. split_and!; [done..|]. intros o' r'. rw Hc. do 3 f_equal. rw !conn_states_link /= Hr. done.
  - intros ([[c1 w1] st1] & Hn & [= <- <- <-])%bind_Some. destruct Hok as [Hp Hlaw].
    destruct (NS.law_NextPacket _ _ _ _ _ _ _ _ _ _ _ _ Hlaw Hn) as (Hok1 & Hk & Hp1 & Hm & Hc). simpl in Hk, Hp1, Hm.
    destruct (other_back c1) as (Hok' & Hs' & Hs1); [congruence|done|]. split_and!; [done..|].
    intros o' r'. rw Hc Hs' Hs1. do 3 f_equal. by rw conn_states_link Hr.
  - intros [= <- <- <-]. split_and!; try done; [unfold root_ok; by rw Hr|]. intros o' r'. f_equal. lia.
Qed.
Lemma link_fire id t e (c : C.Connection (root B)) w c' w' :
  root_ok c → C.an_fire id t e (c, w) = Some (c', w') →
  root_ok c' ∧ C.key c' = C.key c ∧ C.proto c' = C.proto c ∧ C.moved c' = C.moved c ∧ NS.conn_states c' = NS.conn_states c.
Proof.
  intros Hok. simpl. unfold root_ok in Hok. destruct (C.root_analyzer c) as [[a|b]|] eqn:Hr; [| |done].
  - intros ([[c1 w1] st1] & (s' & Hs & [= <- <- <-])%bind_Some & [= <- <-])%bind_Some. destruct Hok as [Hp Hro].
    pose proof (root_counted _ _ (run_counted _ _ _ (counted_fire_id id t e) Hs) Hp Hro) as (Hok' & Hk & Hp' & Hm & _).
    split; [exact Hok'|]. split_and!; [done..|].
    rw !conn_states_link Hr /=. change (C.proto (conn s')) with (C.proto (with_root (Some (TCPRoot (B := B) (tcp s'))) (conn s'))). rw Hp' /= Hp.
    f_equal. exact (moves_run _ _ _ _ (pair_fire_id id t e) Hs).
  - intros ([c1 w1] & Hn & [= <- <-])%bind_Some. destruct Hok as [Hp Hlaw].
    destruct (NS.law_fire _ _ _ _ _ _ _ Hlaw Hn) as (Hok1 & Hk & Hp1 & Hm & Hc). simpl in Hk, Hp1, Hm.
    destruct (other_back c1) as (Hok' & Hs' & Hs1); [congruence|done|]. split_and!; [done..|].
    rw Hs' conn_states_link Hr. by rw -Hc Hs1.
Qed.
Lemma link_Done (r : root B) w r' w' : C.an_Done r w = Some (r', w') → C.an_states r' = C.an_states r.
Proof.
  destruct r as [a|b]; intros Hd; simpl in Hd.
  - apply bind_Some in Hd as ([a1 w1] & Hd & [= <- <-]). simpl. f_equal. by eapply pair_Done.
  - apply bind_Some in Hd as ([b1 w1] & Hd & [= <- <-]). simpl. by apply NS.law_Done in Hd.
Qed.
Lemma link_build p data (c : C.Connection (root B)) w st c' w' st' :
  C.root_analyzer c = None → C.proto c = p → NS.build_tree p data (c, w) st = Some (c', w', st') →
  root_ok c' ∧ C.key c' = C.key c ∧ C.proto c' = C.proto c ∧ C.moved c' = C.moved c ∧
  ∀ o r, uint32 (E.Cnt o r st') = uint32 (E.Cnt o r st + NS.counts o r (NS.conn_states c')).
Proof.
  intros Hr Hp Hb. assert (p = C.TRANSPORT_TCP ∨ p ≠ C.TRANSPORT_TCP ∧
    ('(c1, w1, st1) ← NS.build_tree p data (with_root (B := B) None c, w) st;
     Some (with_root (OtherRoot <$> C.root_analyzer c1) c1 : C.Connection (root B), w1, st1)) = Some (c', w', st')) as [->|[Hne Hb']]
    by (destruct p; simpl in Hb; auto; done).
  - simpl in Hb. apply bind_Some in Hb as (s & Hs & [= <- <- <-]).
    destruct (build_TCP_counted _ _ _ _ (eq_trans (eq_refl : C.proto (with_root (B := unit) None c) = C.proto c) Hp) Hs) as (Hro & [Hk Hp1 Hm] & Hc).
    simpl in Hk, Hp1, Hm. split_and!; [unfold root_ok; simpl; split; [congruence|done]|done..|].
    intros o r. rw Hc conn_states_link /= Hp1 Hp. done.
  - apply bind_Some in Hb' as ([[c1 w1] st1] & Hn & [= <- <- <-]).
    destruct (NS.law_build p data (with_root (B := B) None c) _ _ _ _ _ eq_refl Hp Hn) as (Hok1 & Hk & Hp1 & Hm & Hc). simpl in Hk, Hp1, Hm.
    destruct (other_back c1) as (Hok' & Hs' & Hs1); [congruence|done|]. split_and!; [done..|].
    intros o r. by rw Hc Hs' Hs1.
Qed.

#[global] Instance link_laws : NS.StatisticsLaws (root B) :=
  NS.Build_StatisticsLaws (root B) _ _ root_ok root_ok_ext link_NextPacket link_fire link_Done link_build.

(** The analyzer of TCP at the root of a connection. *)
Definition tcp_root c : option TCP_Analyzer := match C.root_analyzer c with Some (TCPRoot a) => Some a | _ => None end.

(** The connections whose endpoints are in two states. *)
Definition conns_in (o r : E.EndpointState) (m : NS.ConnTable (root B)) : nat :=
  size (filter (λ kc : C.ConnKey * C.Connection (root B), pair <$> tcp_root kc.2 = Some (o, r)) m).

Lemma conns_in_states (s : NS.NetSessions (root B)) o r : NS.stats_inv s → NS.num_in_states o r (NS.tcp_conns s) = conns_in o r (NS.tcp_conns s).
Proof.
  intros Hs. unfold NS.num_in_states, conns_in. f_equal. apply map_filter_ext. intros k c Hc. simpl.
  destruct (NS.si_table _ Hs C.TRANSPORT_TCP k c Hc) as (Hp & _ & _ & Hok). rw conn_states_link /tcp_root.
  change (root_ok c) in Hok. unfold root_ok in Hok. destruct (C.root_analyzer c) as [[a|b]|]; [by rw Hp|by destruct Hok|done].
Qed.

(** C5. The statistics of the TCP states are exact with the analyzer of TCP as it
    is: whatever packets arrive and timers fire, as long as no state has moved, they
    have for each pair of states the number of connections in the table whose
    endpoints are in these states, and in each of these connections one endpoint is
    the originator, which [orig] points to. *)
Theorem tcp_statistics_exact (ncfg : NS.config) (ins : list NS.input) (s : NS.NetSessions (root B)) :
  Forall NS.input_ok ins → run (NS.run_inputs ncfg ins) NS.NetSessions_new = Some s →
  (∀ o r, uint32 (E.Cnt o r (NS.tcp_stats s)) = uint32 (Z.of_nat (conns_in o r (NS.tcp_conns s)))) ∧
  (∀ k c, NS.tcp_conns s !! k = Some c → ∀ a, tcp_root c = Some a → roles a).
Proof.
  intros Hin Hr. pose proof (keeps_run _ _ _ _ (NS.run_inputs_keeps ncfg ins Hin) NS.stats_inv_new Hr) as Hs. split.
  - intros o r. rw (NS.si_cnt _ Hs) NS.total_num. by rw conns_in_states.
  - intros k c Hc a Ha. destruct (NS.si_table _ Hs C.TRANSPORT_TCP k c Hc) as (_ & _ & _ & Hok).
    change (root_ok c) in Hok. unfold root_ok, tcp_root in *. destruct (C.root_analyzer c) as [[a'|b]|]; try done.
    injection Ha as <-. apply Hok.
Qed.

End laws.

(** ** Concrete inputs *)

#[global] Instance unit_builder : NS.TreeBuilder unit := { NS.build_tree _ _ cw st := Some (cw.1, cw.2, st) }.
#[global] Instance unit_laws : NS.StatisticsLaws unit.
Proof.
  apply (NS.Build_StatisticsLaws unit _ _ (λ _, True)); try done.
  - intros t o ip data len cl c w st c' w' st' _ [= <- <- <-]. split_and!; try done. intros o' r'. f_equal. lia.
  - intros id t e c w c' w' _ [= <- <-]. by split_and!.
  - intros p data c w st c' w' st' Hr _ [= <- <- <-]. split_and!; try done. intros o r.
    unfold NS.conn_states. simpl. rw Hr. destruct (C.proto c); simpl; rw NS.counts_None; f_equal; lia.
Qed.

#[global] Instance sample_dpm : DPM := mkDPM TL.sample_config (λ _, false) (λ _, 0) false false false false.

(** A SYN over Ethernet. *)
Lemma tcp_statistics_exact_witness :
  ∃ s : NS.NetSessions (root unit), run (NS.run_inputs NS.sample_cfg [NS.syn_packet]) NS.NetSessions_new = Some s ∧
    E.Cnt E.TCP_ENDPOINT_SYN_SENT E.TCP_ENDPOINT_INACTIVE (NS.tcp_stats s) = 1%Z ∧
    ∀ o r, uint32 (E.Cnt o r (NS.tcp_stats s)) = uint32 (Z.of_nat (conns_in o r (NS.tcp_conns s))).
Proof.
  assert ((λ s : NS.NetSessions (root unit), E.Cnt E.TCP_ENDPOINT_SYN_SENT E.TCP_ENDPOINT_INACTIVE (NS.tcp_stats s)) <$>
    run (NS.run_inputs NS.sample_cfg [NS.syn_packet]) NS.NetSessions_new = Some 1%Z) as (s & Hs & Hc)%fmap_Some by (vm_compute; reflexivity).
  exists s. split; [done|]. split; [done|].
  destruct (tcp_statistics_exact NS.sample_cfg [NS.syn_packet] s) as [Hex _]; [by constructor|exact Hs|exact Hex].
Defined.

End LK.
